(* ===== verification/_CoqProject ===== *)
-Q . S2P
Prelude.v
Error.v
Primitives.v
Aead.v
Kem.v
Toy.v
Tlv.v
Frame.v
RatchetState.v
RatchetChain.v
RatchetEncrypt.v
Scenario.v
RatchetDecrypt.v
RatchetResync.v
RatchetSnapshot.v
RatchetStep.v
RatchetInvariant.v
RatchetSafety.v
RatchetSession.v
RatchetRekey.v
RatchetRecovery.v
Packets.v
Json.v
Registry.v
RekeyAck.v
Sync.v
KemProps.v
Sas.v
Interpolation.v
Gf256.v
Shamir.v
SessionHandle.v
KemHandle.v
CryptoApi.v
Crdt.v
RatchetStore.v
StoreProps.v
StoreRemoval.v
PairingPolicy.v
PairingWire.v
PairingState.v
Pairing.v
PairingProps.v
PairingLive.v
PairingComplete.v
PairingScenario.v
Stun.v
Utils.v
StrOps.v
Privilege.v
Beacon.v
BeaconProps.v
IpAddr.v
Tls.v
QuicBridge.v
Connect.v
BridgeProps.v
RoundTrips.v
Automation.v
OpenUrl.v
ClipboardIo.v
LocalFiles.v
Destruct.v
Tor.v
HostNet.v
Recovery.v
PathMigration.v
Recorder.v
Persist.v
Poll.v
Streams.v
Accept.v
Notifications.v
StreamProps.v
Delivery.v
Settings.v
Boot.v
QrScanner.v
Worker.v
Runtime.v
