(* ===== verification/Prelude.v ===== *)
(** * A verification development for KyberPipe

    KyberPipe pairs a phone and a desktop and moves clipboard, notification and
    SMS traffic between them.  Its core is the Rust crate [core-crypto]: a
    post-quantum double ratchet (X25519 + ML-KEM-768 key agreement, HKDF chains,
    ChaCha20-Poly1305) with its wire formats, a process-global registry of
    sessions, an acknowledgement channel for rekeys and an authenticated
    recovery protocol.  The desktop application, also Rust, pairs with phones,
    keeps the sessions across restarts and serves the phones' streams.  This
    library models that core and those parts of the desktop, and proves the
    properties that make them correct.

    ** How the program is put together

    A message is sealed by [ratchet_encrypt] on the sender's chain; every 100
    messages it also carries a rekey payload (new public keys and a KEM
    ciphertext) that is staged as the sender's OUTGOING proposal.  The receiver
    derives its INCOMING proposal from the payload, answers with an encrypted
    RekeyAck, and the sender commits the next generation on that
    acknowledgement; the receiver commits when the first message of the new
    generation authenticates.  Messages arrive in any order: keys of skipped
    positions are cached, the chain of the previous generation is retained, and
    delivered nonces are remembered.  When a gap is larger than the cache can
    bridge, an authenticated Synchronize packet moves the receiving chain.
    Sessions live in a registry keyed by peer, are exported as snapshots and
    imported behind a watermark guard against rollback.

    A phone pairs by encapsulating to the desktop's displayed public keys; both
    compute a short code, the user confirms it, and only then the desktop starts
    the session, derives the session key and trusts the phone's certificate.  A
    paired phone opens QUIC streams; each carries one frame and is authorized by
    the certificate.  The phone's clipboard, media and SMS texts come in JSON
    around a sealed message; it polls for the desktop's clipboard, for
    acknowledgements and for Synchronize packets.  The poll handler writes the
    sessions to a store, sealed, with anti-rollback marks in the keyring and in a
    file.  Connections are mutually authenticated: the server's self-signed
    certificate is pinned by the phones, the phones' certificates are on the
    server's allow-list once paired.  The client side keeps its connections in a
    registry keyed by pin, reconnects over the addresses it has learned from
    signed beacons, and makes one round trip per peer at a time.  The desktop's
    privileged commands (scripts, links, self-destruction) need a token granted
    by a native dialog.

    ** Files and what they model (paths under src/core-crypto/src)

    - Prelude: the result type (with panics kept apart from errors), the state
      and error monad [Comp], record updates, machine-width arithmetic, bytes
      and their integer encodings, the automation.
    - Error: error.rs.  Primitives: the cryptographic crates, as a class of
      operations and a class of laws.  Toy: concrete instances of the
      classes, used only to evaluate the definitions in witnesses.  Scenario: a
      concrete pair of sessions.
    - Aead: crypto/aead.rs and [derive_session_key].  Kem: crypto/kem.rs, with
      its theorems in KemProps.
    - Tlv: crypto/ratchet/tlv.rs.  Frame: quic_app/frame.rs, crypto/padding.rs.
      Packets: packets.rs.
    - RatchetState: crypto/ratchet/state.rs and policy.rs: the session record,
      the replay window, the proposal slots, the commits and cancels.
      RatchetChain: the chain walks and the skip-key cache (resync.rs,
      derive.rs).  RatchetEncrypt: encrypt.rs and [dh_ratchet_rekey].
      RatchetDecrypt: decrypt.rs and previous_generation.rs.  RatchetResync:
      [resync_receiving_chain].  RatchetSnapshot: snapshot.rs.
    - Interpolation: polynomials over a field, the mathematics of sharing.
      Gf256 and Shamir: crypto/shamir.rs.  SessionHandle: session_handle.rs
      and the generation of destruct.rs.
      Crdt: crypto/crdt.rs.
    - Registry: ratchet_ffi/registry.rs and ratchet_ffi.rs.  RekeyAck:
      ratchet_ffi/rekey_ack.rs.  Sync: ratchet_ffi/sync.rs.
    - KemHandle: kem_handle.rs.  CryptoApi: crypto_api.rs, what is more in it than
      a call of the handles.  Sas: crypto/sas.rs.  Stun: network/stun.rs.
      Utils: utils.rs.  Json: serde_json's values and text, as a class.
    - Beacon: network/beacon.rs and crypto/signing.rs, theorems in BeaconProps.
      Tls: network/tls_config.rs and the server's identity and endpoint of
      quic_app/mod.rs.  QuicBridge: quic_bridge.rs.  Connect: ffi/network.rs and
      network_api.rs, theorems on both in BridgeProps; RoundTrips: the in-flight
      gates as interleaved steps of many callers.  PathMigration:
      network/path_migration.rs.  Recorder: telemetry.rs.  QrScanner:
      qr_scanner.rs.  Runtime: runtime.rs, the calls that block on the two
      runtimes and the shutdown, as interleaved steps.  StrOps and IpAddr: the
      standard library's string and address operations these files use.
    - The desktop (paths under src/desktop-app/src-tauri/src).  RatchetStore:
      ratchet_store.rs, on a host of files and keyring entries whose operations
      may fail, with theorems in StoreProps and StoreRemoval.  PairingPolicy and
      PairingWire: handlers/pairing_policy.rs and pairing_wire.rs.  PairingState:
      state/services/pairing.rs and the part of state/ the pairing uses.
      Pairing: handlers/pairing.rs, handlers/unpair.rs, commands/pairing.rs; its
      theorems are in PairingProps, PairingLive and PairingComplete, and the
      concrete runs in PairingScenario.  Poll: handlers/poll.rs and the two
      binary exports of core-crypto's lib.rs.  Streams: sync_server.rs for one
      stream, handlers/mod.rs, clipboard.rs, media.rs and sms.rs; its theorems
      are in StreamProps, and with the sender's side in Delivery.  Accept: the
      accept loop of sync_server.rs, its tasks and budgets and the rebind, as
      interleaved steps.  Persist: state/persist.rs.  Privilege: the tokens of commands/security.rs.
      Automation: commands/automation.rs and executor/; Worker: the conversation
      with the script workers, as interleaved steps (executor/worker.rs,
      executor/boa_sandbox.rs, the one-shot mode of lib.rs).  OpenUrl:
      commands/open.rs.  Destruct: the self-destruct command, [delete_connection]
      of commands/settings.rs.  Tor:
      commands/network/tor.rs.  HostNet: the other files
      of commands/network, state/services/network.rs and the interface chosen by
      core-crypto's system_net.rs.  Settings: the settings record, its loading and
      the commands on it; LocalFiles: listing and opening files, of the same
      commands/settings.rs.  ClipboardIo: commands/clipboard.rs and the dispatcher
      of portal.rs.  Notifications: commands/notifications.rs and the history of
      state/services/clipboard.rs.  Recovery: commands/crypto.rs and the JSON text of a
      share (crypto/shamir.rs of core-crypto).  Boot: what [run]
      of lib.rs restores at a start, the commands given to the window, and the
      anonymized crash report.

    A field keeps its Rust name, with a prefix where two records share it
    ([in_], [out_], [car_], [snap_], [msg_], [wm_]).  A method on [&mut self]
    is a computation [Comp KyberError S A], that is [S -> result * S]: an error
    keeps the state reached when it was raised, as the Rust code does.

    ** What the theorems show

    - RatchetStep and RatchetSafety: the two decrypt entry points refine an
      abstract receive machine with four delivery paths (cache, current chain,
      retained previous chain, pending chain); a failure changes nothing (but
      the incoming slot on the rekey-aware path) and no input panics.
    - RatchetInvariant and RatchetSafety: an invariant on sessions kept by every
      operation, and from it the uniqueness of nonces over runs of operations,
      saves and restores in which every restore reads a save made after the last
      message ([stale_restore_repeats]: not otherwise), the refusal of replays
      and the snapshot round trip.
    - RatchetSession: messages sent by one side are recovered by the other in
      any order of arrival.  RatchetRekey: a rekey over the wire ends with both
      sides in step; a two-sided race keeps the same proposal on both sides.
      RatchetRecovery: after a resync the target and the cached tail decrypt.
    - Tlv, Frame, Packets: round trips, soundness of decoding, refusal of
      truncated and oversized input, size caps.
    - KemProps: both holders of an encapsulation agree; low-order points are
      refused.  RatchetChain: the loops compute the iterated KDF, pruning
      respects its budget and drops the lowest positions.
    - Gf256 and Shamir: the tables make the bytes a field, any [k] shares
      reconstruct, fewer say nothing, success is authenticated.
      SessionHandle: the cap, distinct keys, pinned keys survive.  Crdt:
      convergence in any order.
    - Registry, RekeyAck, Sync: an import whose peer is left alone between its two
      critical sections never rolls a live session back, exports import back,
      peeking an acknowledgement is idempotent, a Synchronize packet is applied
      whole or not at all, and only when it is one for its own position, at most
      three times per window, and once.
    - StoreProps and StoreRemoval: what a restart gives back after a persist, that
      the marks never go back, that a crash at any of the file operations of the
      write leaves a copy, that removing a peer keeps the others; and that a session whose rekey was
      committed is refused at the next restart.
    - PairingPolicy, PairingWire, Sas, KemHandle: the rate bounds over any minute,
      the frame's round trip and soundness, the code as exactly 35 bits of the
      derivation, the registries' caps.
    - PairingComplete, PairingProps, PairingLive: a pairing with an honest phone
      succeeds and ends with both sessions in step; three guesses; unpairing
      forgets; and, by rule induction on the interleavings of requests, running
      decapsulations, timers and commands, a pending pairing is always resolved
      by the desktop's own steps, as long as a decapsulation ends before the timer
      of its attempt fires (the pace [Timely]).  PairingScenario also has the runs
      in which a stranger's request spoils a pairing, and the one in which the
      timer comes first.
    - Stun: every datagram gives an address or an error, and a well-formed
      response is read as its attribute list says.  Utils: an echo is suppressed.
    - StreamProps, Delivery: a stream touches its own device's session only, an
      unknown certificate can do nothing, a text the phone encrypts arrives in the
      desktop's clipboard; a concrete run in which an answered poll followed by a
      restart uses a nonce again.
    - Tls: the verifier accepts the pinned certificates, the server's identity
      survives restarts under failing keyrings and files, rebinding leaves no
      window.  BridgeProps: the registry's invariant over any run of its
      operations, what a reconnect tries and keeps.  RoundTrips: how many round
      trips can be under way, by rule induction on the callers' interleavings.
    - BeaconProps: a beacon that fits is understood, accepted beacons are signed
      and fresh, replays are refused, and the beacon devices send never fits the
      listener's buffer.
    - Persist: the newest text lands, inevitably.  Privilege: privileged actions
      are bounded by confirmed dialogs.  Automation, OpenUrl: feeds are isolated
      from servers in a list of private address blocks, only safe links are opened, no worker is left over.
      Destruct: what self-destruction erases and that no session key handle works
      after it, and that an unpaired server whose key was in the keyring cannot be
      bound again.
    - Accept: by rule induction on the interleavings of the loop, the connections,
      the streams and the rebinds, the budgets of connections, streams and buffered
      bytes, and that the loop lets go of the port for a rebind and follows it to
      the new endpoint, or the rebind fails.
    - CryptoApi: a phone that works with handles and a desktop that works with raw
      keys agree; a wipe is final.  Recovery: the shares handed out give the master
      key back, and no run of the program has a master key to split.
    - Settings: what the renderer cannot change, and that the first start blocks the
      inbound clipboard.  LocalFiles: listings and opened files are confined.
      ClipboardIo: a write is reported as it went, a wait for a helper ends.
      Notifications: no markup is shown, the history survives a restart.
    - Tor: the base32 encoder writes the positional digits, one daemon at a time, the credential is kept, a service is restricted to
      it.  HostNet: the desktop reports itself disconnected while it has
      dialed no connection, what the firewall check answers, the interface chosen is a valid name.
    - Boot: a restart of a paired desktop gives back the pairing, the allow-list,
      the sessions and the session key; only the last tier of the commands can be
      called; addresses and the first user name of a crash report are masked.  Worker: by induction on the interleavings, every call returns the
      result of its own script, evaluated with the number as it is read back.
    - QrScanner: a frame of any size is searched without an index out of range, the
      single-pass rotations are quarter turns, turning back gives the frame back,
      the hint decides the order only.  Runtime: calls of the bridge do not wait
      for each other, calls on the other runtime do, and a runtime is never stopped
      under a call.

    ** Modelling choices and bounds

    - Machine integers are [Z] with their range and wrap written out: [u64] and
      [usize] additions wrap (a release build, 64-bit), the saturating ones
      saturate.
    - Third-party code is a parameter: the cryptography ([Primitives]),
      serde_json ([PacketCodec], [SnapshotCodec], [JsonText],
      [HistoryText], [ScriptTexts]), hexadecimal and
      base64 ([Hex], [Base64]), CRC32, the window's builder ([WindowBuilder]), the
      finder of QR codes, the script interpreter.  Theorems that need a fact about
      it name a class of laws, and their witnesses use an instance for
      which the laws are proved.
    - Randomness and clocks are arguments; an operation reads each clock once.
      Instants and durations are nanoseconds.
    - Loops over a finite collection are folds or structural recursion; the two
      eviction loops carry fuel equal to the size of what they shrink, and each
      pass removes an element, so the fuel is never the reason they stop.  The
      UTF-8 scanners carry fuel equal to the length of the input, the STUN scan
      one unit for every byte of its buffer, of which each pass consumes four; a
      scan out of fuel would be a panic, which [stun_total] excludes.  The wait for
      a clipboard helper has one unit for every look its time allows, and
      [wait_is_bounded] shows that it ends before.  The scrubber of crash reports
      and [str::replace] have one unit for every character, and each turn takes one
      ([scrub_fuel], [replace_fuel]).
    - What the operating system answers (a write, a keyring call, the clipboard)
      is an argument, so a theorem covers every combination of failures it does
      not exclude.  The pairing handler is split at its blocking work, so that
      other steps come between the two halves.
    - A mutex is its poison flag, each operation under it is one step; the
      import, which takes the lock twice, has what other threads do in between as
      an argument ([import_session]).  The replacement of the session store is a
      sequence of file operations whose every intermediate host is kept
      ([write_run]).
    - Error texts keep their format placeholders; tracing, zeroization and
      constant-time concerns are outside the model.

    ** Not modelled

    Sockets and the QUIC and TLS protocols themselves and the tokio scheduler are
    below the program.  The exports and accessors that only delegate (lib.rs and
    pairing_api.rs of core-crypto, state/mod.rs), the constructors of packets, which
    fill a record and serialize it (ffi/packets.rs), the histories of sensors, and
    the commands that build a packet have no behaviour beyond what they call.  The
    script interpreter and the limits of its process, the hardware token library
    behind commands/security.rs, the D-Bus calls of portal.rs, the window, logs of
    the tracing crate and UI events are other programs' work.  The command line
    client refuses every transfer; the Android application is written in Kotlin. *)

From Stdlib Require Export ZArith Lia.
From Stdlib.Strings Require Export Byte.
From stdpp Require Export base gmap strings list list_numbers fin_maps sets sorting.

#[global] Open Scope Z_scope.

(** ** Outcomes of fallible code

    [Ok] and [Err] are Rust's [Result]; [Panic] is an unwinding panic
    ([expect], [unwrap], an index out of range), kept apart from [Err] so that
    the absence of panics is a statement one can prove. *)
Inductive result (E A : Type) : Type :=
| Ok (a : A)
| Err (e : E)
| Panic (msg : string).
Arguments Ok {E A} _.
Arguments Err {E A} _.
Arguments Panic {E A} _.

#[export] Instance result_ret {E} : MRet (result E) := fun A a => Ok a.
#[export] Instance result_bind {E} : MBind (result E) :=
  fun A B f m => match m with Ok a => f a | Err e => Err e | Panic s => Panic s end.
#[export] Instance result_fmap {E} : FMap (result E) :=
  fun A B f m => match m with Ok a => Ok (f a) | Err e => Err e | Panic s => Panic s end.

Definition is_ok {E A} (r : result E A) : bool :=
  match r with Ok _ => true | _ => false end.

(** [Option::ok_or]. *)
Definition ok_or {E A} (o : option A) (e : E) : result E A :=
  match o with Some a => Ok a | None => Err e end.

(** [Option::expect] and [Option::unwrap]. *)
Definition expect {E A} (o : option A) (msg : string) : result E A :=
  match o with Some a => Ok a | None => Panic msg end.

(** An early return [return Err(e)] under a condition. *)
Definition guard_err {E} (c : bool) (e : E) : result E unit :=
  if c then Err e else Ok tt.

(** ** Stateful fallible code

    A method taking [&mut self] and returning [Result<A, E>] keeps the state it
    has reached when it fails: the state component is returned on every
    outcome. *)
Definition Comp (E S A : Type) : Type := S -> result E A * S.

Definition comp_ret {E S A} (a : A) : Comp E S A := fun s => (Ok a, s).
Definition comp_bind {E S A B} (m : Comp E S A) (f : A -> Comp E S B) : Comp E S B :=
  fun s => match m s with
           | (Ok a, s') => f a s'
           | (Err e, s') => (Err e, s')
           | (Panic p, s') => (Panic p, s')
           end.
Definition lift {E S A} (r : result E A) : Comp E S A := fun s => (r, s).
Definition get {E S} : Comp E S S := fun s => (Ok s, s).
Definition gets {E S A} (f : S -> A) : Comp E S A := fun s => (Ok (f s), s).
Definition put {E S} (s : S) : Comp E S unit := fun _ => (Ok tt, s).
Definition modify {E S} (f : S -> S) : Comp E S unit := fun s => (Ok tt, f s).
Definition throw {E S A} (e : E) : Comp E S A := fun s => (Err e, s).

#[export] Instance comp_mret {E S} : MRet (Comp E S) := fun A a => comp_ret a.
#[export] Instance comp_mbind {E S} : MBind (Comp E S) := fun A B f m => comp_bind m f.

(** A run is known from its outcome and its final state. *)
Lemma run_ok {E S A} (c : result E A * S) a : fst c = Ok a -> c = (Ok a, snd c).
Proof. destruct c. simpl. by intros ->. Qed.

(** ** Record updates

    [r <| f := v |>] replaces one field of a record.  An instance is built
    from the record's eta expansion by [solve_update]. *)
Class Update {R T : Type} (proj : R -> T) := update : (T -> T) -> R -> R.
Arguments update {R T} proj {_} f r : rename.

Ltac solve_update eta proj :=
  let e := eval red in eta in
  let e := eval pattern proj in e in
  match e with
  | ?body _ =>
      let u := eval cbv beta in (fun f r => body (fun r0 => f (proj r0)) r) in
      exact u
  end.

Notation "r <| f := v |>" := (update f (fun _ => v) r)
  (at level 1, left associativity, f at next level, v at level 200,
   format "r  <| f  :=  v |>").
Notation "r <| f ::= g |>" := (update f g r)
  (at level 1, left associativity, f at next level, g at level 200,
   format "r  <| f  ::=  g |>").

(** ** Machine integers

    [u8], [u32], [u64] and (on the 64-bit targets the program builds for)
    [usize] values are integers in the range of their width. *)
Definition u32_max : Z := 2 ^ 32 - 1.
Definition u64_max : Z := 2 ^ 64 - 1.
Definition wrap64 (z : Z) : Z := z mod 2 ^ 64.
Definition wrap32 (z : Z) : Z := z mod 2 ^ 32.
(** [saturating_sub], at any unsigned width. *)
Definition sat_sub (a b : Z) : Z := Z.max 0 (a - b).
(** [saturating_add] at the two widths used. *)
Definition sat_add32 (a b : Z) : Z := Z.min u32_max (a + b).
Definition sat_add64 (a b : Z) : Z := Z.min u64_max (a + b).
Definition u32_range (z : Z) : Prop := 0 <= z <= u32_max.
Definition u64_range (z : Z) : Prop := 0 <= z <= u64_max.

(** ** Bytes and big-endian integers *)
Abbreviation bytes := (list byte).

#[export] Instance byte_eq_dec : EqDecision byte := Byte.byte_eq_dec.

Definition Z_of_byte (b : byte) : Z := Z.of_N (Byte.to_N b).
Definition byte_of_Z (z : Z) : byte :=
  match Byte.of_N (Z.to_N (z mod 256)) with Some b => b | None => x00 end.

(** [to_be_bytes] at a width of [n] bytes (and [as u32] when [n] is 4). *)
Fixpoint be_bytes (n : nat) (z : Z) : bytes :=
  match n with
  | O => []
  | S n' => byte_of_Z (z / 256 ^ Z.of_nat n') :: be_bytes n' z
  end.
(** [from_be_bytes]. *)
Fixpoint be_Z (bs : bytes) : Z :=
  match bs with
  | [] => 0
  | b :: bs' => Z_of_byte b * 256 ^ Z.of_nat (length bs') + be_Z bs'
  end.

(** The length of a buffer as an integer. *)
Definition len {A} (l : list A) : Z := Z.of_nat (length l).

(** A byte-string literal. *)
Definition bstr (s : string) : bytes := String.list_byte_of_string s.

(** Lexicographic order on byte slices, Rust's [Ord] on slices. *)
Fixpoint bytes_cmp (a b : bytes) : comparison :=
  match a, b with
  | [], [] => Eq
  | [], _ :: _ => Lt
  | _ :: _, [] => Gt
  | x :: a', y :: b' =>
      match Z_of_byte x ?= Z_of_byte y with Eq => bytes_cmp a' b' | c => c end
  end.

(** Equality tests as booleans. *)
Definition eqb_dec {A} `{EqDecision A} (x y : A) : bool := bool_decide (x = y).

(** ** Tactics and hints *)

Create HintDb kyber.
Create Rewrite HintDb kyber.

(** Unfold the two monads. *)
Ltac munfold :=
  cbv [mbind mret comp_mbind comp_mret comp_bind comp_ret lift get gets put modify throw
       result_bind result_ret guard_err ok_or expect] in *.

(** Case analysis on every condition and match scrutinee of the goal and of the
    hypotheses, with constructor equations solved as they appear. *)
Ltac msplit :=
  repeat first
    [ progress simplify_eq/=
    | match goal with
      | H : context [match ?x with _ => _ end] |- _ => destruct x eqn:?
      | |- context [match ?x with _ => _ end] => destruct x eqn:?
      end ].

(** Turn boolean tests in the hypotheses into propositions. *)
Ltac zify_bool :=
  repeat match goal with
  | H : (_ =? _) = true |- _ => apply Z.eqb_eq in H
  | H : (_ =? _) = false |- _ => apply Z.eqb_neq in H
  | H : (_ <? _) = true |- _ => apply Z.ltb_lt in H
  | H : (_ <? _) = false |- _ => apply Z.ltb_ge in H
  | H : (_ <=? _) = true |- _ => apply Z.leb_le in H
  | H : (_ <=? _) = false |- _ => apply Z.leb_gt in H
  | H : _ && _ = true |- _ => apply andb_true_iff in H; destruct H
  | H : _ || _ = false |- _ => apply orb_false_iff in H; destruct H
  | H : negb _ = true |- _ => apply negb_true_iff in H
  | H : negb _ = false |- _ => apply negb_false_iff in H
  end.

(** ** Bytes *)

Lemma Z_of_byte_range b : 0 <= Z_of_byte b < 256.
Proof. unfold Z_of_byte. pose proof (Byte.to_N_bounded b). lia. Qed.

Lemma Z_of_byte_of_Z z : Z_of_byte (byte_of_Z z) = z mod 256.
Proof.
  unfold Z_of_byte, byte_of_Z. pose proof (Z.mod_pos_bound z 256 ltac:(lia)) as Hr.
  destruct (Byte.of_N _) as [b|] eqn:E.
  - apply Byte.to_of_N in E. rewrite E. lia.
  - apply Byte.of_N_None_iff in E. lia.
Qed.

Lemma byte_of_Z_of_byte b : byte_of_Z (Z_of_byte b) = b.
Proof. destruct b; reflexivity. Qed.

Lemma Z_of_byte_inj a b : Z_of_byte a = Z_of_byte b -> a = b.
Proof. intros H. rewrite <- (byte_of_Z_of_byte a), <- (byte_of_Z_of_byte b). by rewrite H. Qed.

Lemma length_be_bytes n z : length (be_bytes n z) = n.
Proof. induction n; simpl; auto. Qed.

Lemma be_Z_range bs : 0 <= be_Z bs < 256 ^ len bs.
Proof.
  unfold len. induction bs as [|b bs IH]; simpl be_Z; [simpl; lia|].
  pose proof (Z_of_byte_range b). rewrite length_cons, Nat2Z.inj_succ, Z.pow_succ_r by lia. nia.
Qed.

Lemma be_Z_app a b : be_Z (a ++ b) = be_Z a * 256 ^ len b + be_Z b.
Proof.
  induction a as [|x a IH]; [done|]. change (be_Z ((x :: a) ++ b)) with (Z_of_byte x * 256 ^ Z.of_nat (length (a ++ b)) + be_Z (a ++ b)).
  change (be_Z (x :: a)) with (Z_of_byte x * 256 ^ Z.of_nat (length a) + be_Z a).
  rewrite IH, length_app, Nat2Z.inj_add, Z.pow_add_r by lia. unfold len. ring.
Qed.

Lemma lor_byte a b : 0 <= a -> 0 <= b < 256 -> Z.lor (a * 256) b = a * 256 + b.
Proof.
  intros Ha Hb. rewrite <- Z.add_lor_land. replace (Z.land (a * 256) b) with 0; [lia|].
  symmetry. apply Z.bits_inj'. intros n Hn. rewrite Z.land_spec, Z.bits_0.
  change 256 with (2 ^ 8). destruct (decide (n < 8)).
  - by rewrite Z.mul_pow2_bits_low by lia.
  - rewrite (Z.bits_above_log2 b n); [apply andb_false_r|lia|].
    destruct (decide (b = 0)) as [->|]; [simpl; lia|]. assert (Z.log2 b < 8); [|lia]. apply Z.log2_lt_pow2; lia.
Qed.

Lemma be_Z_be_bytes n z : be_Z (be_bytes n z) = z mod 256 ^ Z.of_nat n.
Proof.
  induction n as [|n IH]; [by rewrite Z.mod_1_r|].
  cbn [be_bytes be_Z]. rewrite IH, Z_of_byte_of_Z, length_be_bytes.
  rewrite Nat2Z.inj_succ, Z.pow_succ_r, (Z.mul_comm 256) by lia.
  rewrite Z.rem_mul_r by lia. lia.
Qed.

Lemma be_Z_be_bytes_small n z : 0 <= z < 256 ^ Z.of_nat n -> be_Z (be_bytes n z) = z.
Proof. intros. by rewrite be_Z_be_bytes, Z.mod_small. Qed.

Lemma be_bytes_mod n z m : (n <= m)%nat -> be_bytes n (z mod 256 ^ Z.of_nat m) = be_bytes n z.
Proof.
  revert m. induction n as [|n IH]; intros m Hm; [done|]. cbn [be_bytes]. f_equal.
  - apply Z_of_byte_inj. rewrite !Z_of_byte_of_Z.
    replace (Z.of_nat m) with (Z.of_nat n + Z.of_nat (m - n)) by lia.
    rewrite Z.pow_add_r, Z.rem_mul_r by lia.
    rewrite Z.mul_comm, Z.div_add, Z.div_small, Z.add_0_l by (try apply Z.mod_pos_bound; lia).
    replace (Z.of_nat (m - n)) with (1 + Z.of_nat (m - n - 1)) by lia.
    rewrite Z.pow_add_r, Z.pow_1_r, Z.rem_mul_r by lia.
    rewrite Z.mul_comm, Z.mod_add, Z.mod_mod by lia. done.
  - apply IH. lia.
Qed.

Lemma be_bytes_be_Z bs : be_bytes (length bs) (be_Z bs) = bs.
Proof.
  induction bs as [|b bs IH]; [done|]. cbn [be_bytes be_Z length].
  pose proof (be_Z_range bs) as Hr. unfold len in Hr. f_equal.
  - rewrite Z.div_add_l, Z.div_small, Z.add_0_r by lia. apply byte_of_Z_of_byte.
  - rewrite <- (be_bytes_mod _ _ (length bs)), Z.add_comm, Z.mod_add, Z.mod_small by lia. done.
Qed.

Lemma be_Z_inj a b : length a = length b -> be_Z a = be_Z b -> a = b.
Proof. intros Hl H. rewrite <- (be_bytes_be_Z a), <- (be_bytes_be_Z b). by rewrite Hl, H. Qed.

Lemma len_app {A} (a b : list A) : len (a ++ b) = len a + len b.
Proof. unfold len. rewrite length_app. lia. Qed.
Lemma len_nonneg {A} (a : list A) : 0 <= len a.
Proof. unfold len. lia. Qed.
Lemma len_cons {A} (x : A) (l : list A) : len (x :: l) = len l + 1.
Proof. unfold len. rewrite length_cons. lia. Qed.
Lemma len_nil_iff {A} (a : list A) : len a = 0 <-> a = [].
Proof. unfold len. destruct a; simpl; split; intros; try done; lia. Qed.
Lemma len_be_bytes n z : len (be_bytes n z) = Z.of_nat n.
Proof. unfold len. by rewrite length_be_bytes. Qed.
#[export] Hint Resolve len_nonneg Z_of_byte_range : kyber.
#[export] Hint Rewrite @len_app len_be_bytes length_be_bytes : kyber.

Lemma bytes_cmp_refl a : bytes_cmp a a = Eq.
Proof. induction a as [|x a IH]; simpl; [done|]. by rewrite Z.compare_refl. Qed.

Lemma bytes_cmp_eq a b : bytes_cmp a b = Eq <-> a = b.
Proof.
  split; [|intros ->; apply bytes_cmp_refl].
  revert b. induction a as [|x a IH]; intros [|y b]; simpl; intros H; try done.
  destruct (Z.compare_spec (Z_of_byte x) (Z_of_byte y)) as [E| |]; try done.
  apply Z_of_byte_inj in E as ->. f_equal. by apply IH.
Qed.

Lemma bytes_cmp_antisym a b : bytes_cmp b a = CompOpp (bytes_cmp a b).
Proof.
  revert b. induction a as [|x a IH]; intros [|y b]; simpl; try done.
  rewrite (Z.compare_antisym (Z_of_byte x)).
  destruct (Z_of_byte x ?= Z_of_byte y); simpl; auto.
Qed.

#[global] Arguments be_bytes : simpl never.
#[global] Arguments be_Z : simpl never.
#[global] Arguments Z.mul : simpl nomatch.

(** ** Progress of a step relation *)

(** A property that every run of a relation comes to, whatever is chosen. *)
Inductive inevitably {A} (R : A -> A -> Prop) (Q : A -> Prop) (w : A) : Prop :=
| inev_now : Q w -> inevitably R Q w
| inev_later : (exists w', R w w') -> (forall w', R w w' -> inevitably R Q w') -> inevitably R Q w.

(** An invariant under which some step is possible until [Q] holds, every step
    making a measure smaller. *)
Lemma inevitably_measure {A} (R : A -> A -> Prop) (Q I : A -> Prop) (f : A -> nat) w :
  (forall w, I w -> Q w \/ exists w', R w w') ->
  (forall w w', I w -> R w w' -> I w' /\ (f w' < f w)%nat) ->
  I w -> inevitably R Q w.
Proof.
  intros Hen Hdec. remember (f w) as n eqn:En. revert w En. induction (lt_wf n) as [n _ IH]. intros w -> HI.
  destruct (Hen w HI) as [HQ|Hex]; [by apply inev_now|]. apply inev_later; [done|].
  intros w' Hs. destruct (Hdec w w' HI Hs) as [HI' Hlt]. by apply (IH (f w')).
Qed.

(** ** Strings and their bytes *)

Lemma string_of_bstr a : String.string_of_list_byte (bstr a) = a.
Proof. apply String.string_of_list_byte_of_string. Qed.
Lemma bstr_of_string b : bstr (String.string_of_list_byte b) = b.
Proof. apply String.list_byte_of_string_of_list_byte. Qed.
Lemma bstr_inj a b : bstr a = bstr b -> a = b.
Proof. intros H. by rewrite <- (string_of_bstr a), H, string_of_bstr. Qed.
Lemma length_bstr a : length (bstr a) = String.length a.
Proof. induction a as [|x a IH]; [done|]. change (S (length (bstr a)) = S (String.length a)). by rewrite IH. Qed.

#[export] Instance byte_countable : Countable byte := inj_countable' Z_of_byte byte_of_Z byte_of_Z_of_byte.
