(* ===== verification/Error.v ===== *)
(** * Error: the error type of the core library (core-crypto/src/error.rs)

    A message built with [format!] is kept as its format string, the
    interpolated values left as [{}]: no control flow of the program reads
    them.  [InvalidKeyLength] keeps its two numbers. *)

From S2P Require Import Prelude.

Inductive KyberError : Type :=
| CryptoError (msg : string)
| KeyGenerationFailed (msg : string)
| EncapsulationFailed (msg : string)
| DecapsulationFailed (msg : string)
| EncryptionFailed (msg : string)
| DecryptionFailed (msg : string)
| SerializationError (msg : string)
| NetworkError (msg : string)
| SessionDesynchronized (msg : string)
| CrossGenerationResyncRequired (msg : string)
| InvalidKeyLength (expected got : Z)
| CarrierMisrouted (msg : string).

#[export] Instance KyberError_eq_dec : EqDecision KyberError.
Proof. solve_decision. Defined.

(** [KyberError::error_code]. *)
Definition error_code (e : KyberError) : string :=
  match e with
  | CryptoError _ => "CRYPTO_ERROR"
  | KeyGenerationFailed _ => "KEY_GEN_FAILED"
  | EncapsulationFailed _ => "ENCAPSULATION_FAILED"
  | DecapsulationFailed _ => "DECAPSULATION_FAILED"
  | EncryptionFailed _ => "ENCRYPTION_FAILED"
  | DecryptionFailed _ => "DECRYPTION_FAILED"
  | SerializationError _ => "SERIALIZATION_ERROR"
  | NetworkError _ => "NETWORK_ERROR"
  | SessionDesynchronized _ => "SESSION_DESYNC"
  | CrossGenerationResyncRequired _ => "CROSS_GENERATION_RESYNC_REQUIRED"
  | InvalidKeyLength _ _ => "INVALID_KEY_LENGTH"
  | CarrierMisrouted _ => "CARRIER_MISROUTED"
  end.

(** The result type of the library. *)
Abbreviation kres := (result KyberError).

