(* ===== verification/Primitives.v ===== *)
(** * Primitives: the cryptographic crates the program calls

    HKDF-SHA256, SHA-256, HMAC-SHA256, ChaCha20-Poly1305, X25519 and ML-KEM-768
    are third-party crates (hkdf, sha2, hmac, chacha20poly1305, x25519-dalek,
    pqcrypto-kyber): they are the fields of a class, so every definition that
    uses them takes them as an argument.  What the program relies on is the
    class [PrimitivesLaws]; a proof that needs a law names it in its context.
    Randomness is an explicit argument (the bytes the generator returned). *)

From S2P Require Import Prelude Error.

Class Primitives := {
  (** The output of HKDF-SHA256 for (salt, input key, info, length). *)
  hkdf_okm : option bytes -> bytes -> bytes -> nat -> bytes;
  sha256 : bytes -> bytes;
  hmac_sha256 : bytes -> bytes -> bytes;
  (** ChaCha20-Poly1305, detached: key, nonce, associated data, plaintext to
      (ciphertext, tag); fails only past the cipher's length limit. *)
  chacha_seal : bytes -> bytes -> bytes -> bytes -> option (bytes * bytes);
  (** key, nonce, associated data, ciphertext, tag. *)
  chacha_open : bytes -> bytes -> bytes -> bytes -> bytes -> option bytes;
  (** The public key of a secret, and the Diffie-Hellman function
      (secret, public). *)
  x25519_public : bytes -> bytes;
  x25519_dh : bytes -> bytes -> bytes;
  (** ML-KEM-768: (public, secret) from coins; (shared secret, ciphertext) from
      a public key and coins; the shared secret from (ciphertext, secret). *)
  kyber768_keypair : bytes -> bytes * bytes;
  kyber768_encapsulate : bytes -> bytes -> bytes * bytes;
  kyber768_decapsulate : bytes -> bytes -> bytes
}.

(** The sizes ML-KEM-768 fixes. *)
Definition kyber768_public_key_bytes : Z := 1184.
Definition kyber768_secret_key_bytes : Z := 2400.
Definition kyber768_ciphertext_bytes : Z := 1088.

(** The documented behaviour of the crates. *)
Class PrimitivesLaws `{P : Primitives} := {
  hkdf_okm_length salt ikm info n : length (hkdf_okm salt ikm info n) = n;
  (** The tag has 16 bytes. *)
  chacha_tag_length k n a p c t : chacha_seal k n a p = Some (c, t) -> length t = 16%nat;
  (** Opening a sealed message gives the plaintext back. *)
  chacha_open_seal k n a p c t :
    chacha_seal k n a p = Some (c, t) -> chacha_open k n a c t = Some p;
  (** Both sides of a Diffie-Hellman exchange agree. *)
  x25519_dh_comm a b : x25519_dh a (x25519_public b) = x25519_dh b (x25519_public a);
  x25519_public_length a : length (x25519_public a) = 32%nat;
  (** Decapsulation recovers the encapsulated secret. *)
  kyber768_correct c pk sk r ss ct :
    kyber768_keypair c = (pk, sk) -> kyber768_encapsulate pk r = (ss, ct) ->
    kyber768_decapsulate ct sk = ss;
  kyber768_keypair_length c pk sk :
    kyber768_keypair c = (pk, sk) ->
    len pk = kyber768_public_key_bytes /\ len sk = kyber768_secret_key_bytes;
  kyber768_ciphertext_length pk r ss ct :
    kyber768_encapsulate pk r = (ss, ct) -> len ct = kyber768_ciphertext_bytes
}.

(** [Hkdf::<Sha256>::new(salt, ikm).expand(info, &mut okm)] on a buffer of [n]
    bytes: an error exactly when more than 255 blocks are asked for. *)
Definition hkdf_expand `{Primitives} (salt : option bytes) (ikm info : bytes) (n : nat) : kres bytes :=
  if 255 * 32 <? Z.of_nat n then Err (CryptoError "{}") else Ok (hkdf_okm salt ikm info n).

Lemma hkdf_expand_ok `{Primitives} salt ikm info n :
  Z.of_nat n <= 8160 -> hkdf_expand salt ikm info n = Ok (hkdf_okm salt ikm info n).
Proof. unfold hkdf_expand. intros. by rewrite (proj2 (Z.ltb_ge _ _)) by lia. Qed.

Lemma hkdf_expand_32 `{Primitives} salt ikm info :
  hkdf_expand salt ikm info 32 = Ok (hkdf_okm salt ikm info 32).
Proof. by apply hkdf_expand_ok. Qed.
Lemma hkdf_expand_16 `{Primitives} salt ikm info :
  hkdf_expand salt ikm info 16 = Ok (hkdf_okm salt ikm info 16).
Proof. by apply hkdf_expand_ok. Qed.
#[export] Hint Rewrite @hkdf_expand_32 @hkdf_expand_16 : kyber.
