(* ===== verification/Aead.v ===== *)
(** * Aead: authenticated encryption and nonces
    (core-crypto/src/crypto/aead.rs, core-crypto/src/crypto/mod.rs)

    [encrypt_chacha20]/[decrypt_chacha20] with their two branches (no
    associated data, associated data), the nonce layout, and the session-key
    derivation. *)

From S2P Require Import Prelude Error Primitives.

Definition seal_error : KyberError := EncryptionFailed "ChaCha20Poly1305 encrypt error: {e}".
Definition open_error : KyberError := DecryptionFailed "ChaCha20Poly1305 decrypt error: {e}".
Definition tag_bytes : nat := 16.

Section Aead.
Context `{P : Primitives}.

(** The crate's one-shot [Aead::encrypt]: no associated data, tag appended. *)
Definition cipher_encrypt (key nonce plaintext : bytes) : option bytes :=
  '(c, t) ← chacha_seal key nonce [] plaintext; Some (c ++ t).

(** The crate's one-shot [Aead::decrypt]: too short a message is an error. *)
Definition cipher_decrypt (key nonce ciphertext : bytes) : option bytes :=
  if (length ciphertext <? tag_bytes)%nat then None
  else let n := (length ciphertext - tag_bytes)%nat in
       chacha_open key nonce [] (take n ciphertext) (drop n ciphertext).

Definition encrypt_chacha20 (key nonce plaintext aad : bytes) : kres bytes :=
  match aad with
  | [] => ok_or (cipher_encrypt key nonce plaintext) seal_error
  | _ :: _ =>
      match chacha_seal key nonce aad plaintext with
      | None => Err seal_error
      | Some (buf, tag) => Ok (buf ++ tag)
      end
  end.

Definition decrypt_chacha20 (key nonce ciphertext aad : bytes) : kres bytes :=
  match aad with
  | [] => ok_or (cipher_decrypt key nonce ciphertext) open_error
  | _ :: _ =>
      if (length ciphertext <? tag_bytes)%nat then Err (DecryptionFailed "Ciphertext too short")
      else let n := (length ciphertext - tag_bytes)%nat in
           ok_or (chacha_open key nonce aad (take n ciphertext) (drop n ciphertext)) open_error
  end.

(** [generate_nonce_from_seq]: the generation in four big-endian bytes, then the
    sequence number in eight. *)
Definition generate_nonce_from_seq (seq generation : Z) : bytes :=
  be_bytes 4 generation ++ be_bytes 8 seq.

(** The two fields a receiver reads back from a 12-byte nonce. *)
Definition nonce_generation (nonce : bytes) : Z := be_Z (take 4 nonce).
Definition nonce_seq (nonce : bytes) : Z := be_Z (take 8 (drop 4 nonce)).

Definition derive_session_key (shared_secret salt info : bytes) : kres bytes :=
  match hkdf_expand (Some salt) shared_secret info 32 with
  | Ok okm => Ok okm
  | Err _ => Err (CryptoError "HKDF expand failed: {e}")
  | Panic s => Panic s
  end.

(** ** Lemmas *)

Lemma seal_open_app `{!PrimitivesLaws} k n a p c t :
  chacha_seal k n a p = Some (c, t) ->
  let m := c ++ t in
  (length m <? tag_bytes)%nat = false /\
  chacha_open k n a (take (length m - tag_bytes) m) (drop (length m - tag_bytes) m) = Some p.
Proof.
  intros Hs. pose proof (chacha_tag_length _ _ _ _ _ _ Hs) as Ht. simpl.
  assert (length (c ++ t) = (length c + 16)%nat) as Hl by (rewrite length_app; lia).
  split; [apply Nat.ltb_ge; unfold tag_bytes; lia|].
  replace (length (c ++ t) - tag_bytes)%nat with (length c) by (unfold tag_bytes; lia).
  rewrite take_app_length, drop_app_length. by apply chacha_open_seal.
Qed.

(** Whatever [encrypt_chacha20] returns decrypts to the plaintext under the same
    key, nonce and associated data. *)
Lemma decrypt_encrypt_chacha20 `{!PrimitivesLaws} k n p a c :
  encrypt_chacha20 k n p a = Ok c -> decrypt_chacha20 k n c a = Ok p.
Proof.
  unfold encrypt_chacha20, decrypt_chacha20, cipher_encrypt, cipher_decrypt.
  intros Henc. destruct a as [|x a].
  - destruct (chacha_seal k n [] p) as [[c0 t]|] eqn:E; simpl in Henc; [|done].
    injection Henc as <-. destruct (seal_open_app _ _ _ _ _ _ E) as [-> ->]. done.
  - destruct (chacha_seal k n (x :: a) p) as [[c0 t]|] eqn:E; [|done].
    injection Henc as <-. destruct (seal_open_app _ _ _ _ _ _ E) as [-> ->]. done.
Qed.

Lemma decrypt_chacha20_cases k n c a :
  (exists p, decrypt_chacha20 k n c a = Ok p) \/ (exists m, decrypt_chacha20 k n c a = Err (DecryptionFailed m)).
Proof.
  unfold decrypt_chacha20, ok_or, open_error. repeat case_match; eauto.
Qed.

Lemma decrypt_chacha20_no_panic k n c a m : decrypt_chacha20 k n c a <> Panic m.
Proof. destruct (decrypt_chacha20_cases k n c a) as [[? ->]|[? ->]]; done. Qed.

Lemma encrypt_chacha20_no_panic k n c a m : encrypt_chacha20 k n c a <> Panic m.
Proof. unfold encrypt_chacha20, ok_or. repeat case_match; done. Qed.

End Aead.

Lemma length_nonce seq gen : length (generate_nonce_from_seq seq gen) = 12%nat.
Proof. unfold generate_nonce_from_seq. by rewrite length_app, !length_be_bytes. Qed.

Lemma nonce_generation_of seq gen :
  u32_range gen -> nonce_generation (generate_nonce_from_seq seq gen) = gen.
Proof.
  unfold u32_range, u32_max, nonce_generation, generate_nonce_from_seq. intros.
  rewrite take_app_length' by (by rewrite length_be_bytes). apply be_Z_be_bytes_small. lia.
Qed.

Lemma nonce_seq_of seq gen :
  u64_range seq -> nonce_seq (generate_nonce_from_seq seq gen) = seq.
Proof.
  unfold u64_range, u64_max, nonce_seq, generate_nonce_from_seq. intros.
  rewrite drop_app_length' by (by rewrite length_be_bytes).
  rewrite take_ge by (by rewrite length_be_bytes). apply be_Z_be_bytes_small. lia.
Qed.

Lemma nonce_seq_range nonce : u64_range (nonce_seq nonce).
Proof.
  unfold u64_range, u64_max, nonce_seq. pose proof (be_Z_range (take 8 (drop 4 nonce))) as H.
  assert (len (take 8 (drop 4 nonce)) <= 8) by (unfold len; rewrite length_take; lia).
  pose proof (Z.pow_le_mono_r 256 (len (take 8 (drop 4 nonce))) 8). lia.
Qed.

Lemma nonce_generation_range nonce : u32_range (nonce_generation nonce).
Proof.
  unfold u32_range, u32_max, nonce_generation. pose proof (be_Z_range (take 4 nonce)) as H.
  assert (len (take 4 nonce) <= 4) by (unfold len; rewrite length_take; lia).
  pose proof (Z.pow_le_mono_r 256 (len (take 4 nonce)) 4). lia.
Qed.

(** A 12-byte nonce is determined by its two fields. *)
Lemma nonce_inj a b :
  length a = 12%nat -> length b = 12%nat ->
  nonce_generation a = nonce_generation b -> nonce_seq a = nonce_seq b -> a = b.
Proof.
  intros Ha Hb Hg Hs. rewrite <- (take_drop 4 a), <- (take_drop 4 b).
  unfold nonce_generation, nonce_seq in *. f_equal.
  - apply be_Z_inj; [rewrite !length_take; lia|done].
  - rewrite <- (take_ge (drop 4 a) 8), <- (take_ge (drop 4 b) 8) by (rewrite length_drop; lia).
    apply be_Z_inj; [rewrite !length_take, !length_drop; lia|done].
Qed.
