(* ===== verification/Kem.v ===== *)
(** * Kem: the hybrid X25519 + ML-KEM-768 key encapsulation
    (core-crypto/src/crypto/kem.rs)

    Key generation, encapsulation and decapsulation, with the low-order point
    table and every length check. *)

From S2P Require Import Prelude Error Primitives.

Record HybridKeyPair := {
  x25519_pk : bytes;
  x25519_sk : bytes;
  mlkem_pk : bytes;
  mlkem_sk : bytes
}.

Record HybridKemResult := {
  ciphertext_bytes : bytes;
  combined_shared_secret : bytes
}.

#[export] Instance HybridKeyPair_eq_dec : EqDecision HybridKeyPair.
Proof. solve_decision. Defined.

(** The random bytes a key generation or an encapsulation draws. *)
Record KemCoins := { coins_x25519 : bytes; coins_mlkem : bytes }.

Definition zeros32 : bytes := replicate 32 x00.

(** The table of [is_low_order_x25519_point]. *)
Definition LOW_ORDER : list bytes :=
  [ zeros32;
    x01 :: replicate 31 x00;
    map byte_of_Z
      [0xe0; 0xeb; 0x7a; 0x7c; 0x3b; 0x41; 0xb8; 0xae; 0x16; 0x56; 0xe3; 0xfa; 0xf1; 0x9f;
       0xc4; 0x6a; 0xda; 0x09; 0x8d; 0xeb; 0x9c; 0x32; 0xb1; 0xfd; 0x86; 0x62; 0x05; 0x16;
       0x5f; 0x49; 0xb8; 0x00];
    map byte_of_Z
      [0x5f; 0x9c; 0x95; 0xbc; 0xa3; 0x50; 0x8c; 0x24; 0xb1; 0xd0; 0xb1; 0x55; 0x9c; 0x83;
       0xef; 0x5b; 0x04; 0x44; 0x5c; 0xc4; 0x58; 0x1c; 0x8e; 0x86; 0xd8; 0x22; 0x4e; 0xdd;
       0xd0; 0x9f; 0x11; 0x57] ].

(** [canonical[31] &= 0x7F]. *)
Definition mask_sign_bit (pk : bytes) : bytes :=
  alter (fun b => byte_of_Z (Z.land (Z_of_byte b) 0x7F)) 31%nat pk.

Definition is_low_order_x25519_point (pk : bytes) : bool :=
  bool_decide (mask_sign_bit pk ∈ LOW_ORDER).

(** [bytes.iter().all(|&b| b == 0)]. *)
Definition all_zero (bs : bytes) : bool := forallb (fun b => eqb_dec b x00) bs.

Section Kem.
Context `{P : Primitives}.

Definition generate_hybrid_keypair (c : KemCoins) : HybridKeyPair :=
  let '(mpk, msk) := kyber768_keypair (coins_mlkem c) in
  {| x25519_pk := x25519_public (coins_x25519 c);
     x25519_sk := coins_x25519 c;
     mlkem_pk := mpk;
     mlkem_sk := msk |}.

(** The Tor client-authorization keypair: (private, public). *)
Definition generate_client_auth_keypair (coins : bytes) : bytes * bytes :=
  (coins, x25519_public coins).

(** The domain-separated concatenation of the two shared secrets. *)
Definition combine_secrets (x25519_ss mlkem_ss : bytes) : bytes :=
  bstr "KyberPipe-X25519" ++ x25519_ss ++ bstr "KyberPipe-MLKEM" ++ mlkem_ss.

Definition encapsulate_hybrid (peer_x25519_pk_bytes peer_mlkem_pk_bytes : bytes) (c : KemCoins)
  : kres HybridKemResult :=
  let ephem_x25519_sk := coins_x25519 c in
  let ephem_x25519_pk := x25519_public ephem_x25519_sk in
  let x25519_ss := x25519_dh ephem_x25519_sk peer_x25519_pk_bytes in
  if is_low_order_x25519_point peer_x25519_pk_bytes || all_zero x25519_ss
  then Err (EncapsulationFailed "Peer X25519 public key is a low-order point — shared secret is all zero")
  else if negb (len peer_mlkem_pk_bytes =? kyber768_public_key_bytes)
  then Err (EncapsulationFailed "Invalid ML-KEM-768 public key bytes")
  else
    let '(mlkem_ss, mlkem_ct) := kyber768_encapsulate peer_mlkem_pk_bytes (coins_mlkem c) in
    Ok {| ciphertext_bytes := ephem_x25519_pk ++ mlkem_ct;
          combined_shared_secret := combine_secrets x25519_ss mlkem_ss |}.

Definition decapsulate_hybrid (combined_ct_bytes my_x25519_sk_bytes my_mlkem_sk_bytes : bytes)
  : kres bytes :=
  if negb (len combined_ct_bytes =? 32 + kyber768_ciphertext_bytes)
  then Err (DecapsulationFailed "Ciphertext has unexpected length: expected 32 + ML-KEM-768 ct")
  else
    let ephem_x25519 := take 32 combined_ct_bytes in
    let mlkem_ct := drop 32 combined_ct_bytes in
    if is_low_order_x25519_point ephem_x25519
    then Err (DecapsulationFailed "Ephemeral X25519 public key is a low-order point")
    else
      let x25519_ss := x25519_dh my_x25519_sk_bytes ephem_x25519 in
      if all_zero x25519_ss
      then Err (DecapsulationFailed "Ephemeral X25519 public key is a low-order point — shared secret is all zero")
      else if negb (len mlkem_ct =? kyber768_ciphertext_bytes)
      then Err (DecapsulationFailed "Invalid ML-KEM-768 ciphertext bytes")
      else if negb (len my_mlkem_sk_bytes =? kyber768_secret_key_bytes)
      then Err (DecapsulationFailed "Invalid ML-KEM-768 secret key bytes")
      else Ok (combine_secrets x25519_ss (kyber768_decapsulate mlkem_ct my_mlkem_sk_bytes)).

(** RFC 7748: a low-order public value forces the all-zero output. *)
Class LowOrderLaw : Prop :=
  x25519_low_order : forall s p, is_low_order_x25519_point p = true -> all_zero (x25519_dh s p) = true.

(** ** Lemmas *)

(** The two halves of a hybrid exchange agree: the holder of the keypair whose
    public halves were encapsulated to recovers the same combined secret. *)
Lemma decapsulate_encapsulate `{!PrimitivesLaws, !LowOrderLaw} kc c res :
  let kp := generate_hybrid_keypair kc in
  encapsulate_hybrid (x25519_pk kp) (mlkem_pk kp) c = Ok res ->
  decapsulate_hybrid (ciphertext_bytes res) (x25519_sk kp) (mlkem_sk kp)
    = Ok (combined_shared_secret res).
Proof.
  unfold generate_hybrid_keypair, encapsulate_hybrid.
  destruct (kyber768_keypair _) as [mpk msk] eqn:Ek. simpl.
  destruct (_ || _) eqn:Elow; [done|]. apply orb_false_iff in Elow as [_ Hnz].
  destruct (negb _); [done|].
  destruct (kyber768_encapsulate _ _) as [ss ct] eqn:Ee. intros [= <-]. simpl.
  pose proof (kyber768_ciphertext_length _ _ _ _ Ee) as Hct.
  destruct (kyber768_keypair_length _ _ _ Ek) as [_ Hsk].
  assert (length (x25519_public (coins_x25519 c)) = 32%nat) as Hl by apply x25519_public_length.
  unfold decapsulate_hybrid. rewrite len_app, Hct. unfold len at 1. rewrite Hl.
  change (Z.of_nat 32 + kyber768_ciphertext_bytes =? 32 + kyber768_ciphertext_bytes) with true. simpl.
  rewrite take_app_length' by done. rewrite drop_app_length' by done.
  rewrite x25519_dh_comm, Hnz, Hct, Hsk. simpl.
  destruct (is_low_order_x25519_point _) eqn:Elo.
  - apply (x25519_low_order (coins_x25519 kc)) in Elo. rewrite x25519_dh_comm in Elo. congruence.
  - rewrite (kyber768_correct _ _ _ _ _ _ Ek Ee). done.
Qed.

Lemma encapsulate_no_panic a b c m : encapsulate_hybrid a b c <> Panic m.
Proof. unfold encapsulate_hybrid. repeat case_match; done. Qed.

Lemma decapsulate_no_panic a b c m : decapsulate_hybrid a b c <> Panic m.
Proof. unfold decapsulate_hybrid. repeat case_match; done. Qed.

(** A low-order peer key is refused whatever its sign bit. *)
Lemma encapsulate_low_order a b c :
  is_low_order_x25519_point a = true ->
  encapsulate_hybrid a b c =
  Err (EncapsulationFailed "Peer X25519 public key is a low-order point — shared secret is all zero").
Proof. unfold encapsulate_hybrid. by intros ->. Qed.

End Kem.

(** Both encodings of a point are classified alike: the sign bit is ignored. *)
Lemma is_low_order_sign_bit pk b :
  pk !! 31%nat = Some b ->
  is_low_order_x25519_point (<[31%nat := byte_of_Z (Z.lxor (Z_of_byte b) 0x80)]> pk)
    = is_low_order_x25519_point pk.
Proof.
  intros Hb. unfold is_low_order_x25519_point, mask_sign_bit. f_equal. apply bool_decide_ext.
  replace (alter _ 31%nat (<[31%nat:=_]> pk))
    with (alter (fun b => byte_of_Z (Z.land (Z_of_byte b) 127)) 31%nat pk); [done|].
  apply list_eq. intros i. destruct (decide (i = 31%nat)) as [->|Hne].
  - rewrite !list_lookup_alter. rewrite list_lookup_insert_eq by (eapply lookup_lt_Some; eauto).
    rewrite Hb. simpl. f_equal. destruct b; reflexivity.
  - rewrite !list_lookup_alter_ne by done. by rewrite list_lookup_insert_ne.
Qed.
