(* ===== verification/Toy.v ===== *)
(** * Toy: a concrete instance of the primitives

    A toy instance that satisfies the laws, used to evaluate the definitions on
    concrete inputs: the "cipher" leaves the text in clear and tags it with a
    checksum of all its inputs, X25519 is bytewise exclusive or (zero on a
    low-order point), the KEM sends the secret in the ciphertext. *)

From S2P Require Import Prelude Error Primitives Kem.

Module Toy.

(** A 32-bit FNV-style checksum. *)
Definition fnv (bs : bytes) : Z :=
  fold_left (fun h b => Z.land (Z.lxor h (Z_of_byte b) * 16777619) 4294967295) bs 2166136261.

(** [n] bytes drawn from a checksum. *)
Definition stretch (n : nat) (bs : bytes) : bytes :=
  let h := fnv bs in map (fun i => byte_of_Z (Z.shiftr ((h + Z.of_nat i) * 1103515245) 12)) (seq 0 n).

(** Exactly [n] bytes: cut or pad with zeros. *)
Definition fit (n : nat) (bs : bytes) : bytes := take n (bs ++ replicate n x00).

Definition frame (parts : list bytes) : bytes :=
  concat (map (fun p => be_bytes 4 (len p) ++ p) parts).

Definition xor_bytes (a b : bytes) : bytes :=
  zip_with (fun x y => byte_of_Z (Z.lxor (Z_of_byte x) (Z_of_byte y))) a b.

Definition tag (k n a p : bytes) : bytes := stretch 16 (frame [k; n; a; p]).

#[export] Instance toy_primitives : Primitives := {|
  hkdf_okm salt ikm info n := stretch n (frame [default [] salt; ikm; info]);
  sha256 m := stretch 32 m;
  hmac_sha256 k m := stretch 32 (frame [k; m]);
  chacha_seal k n a p := Some (p, tag k n a p);
  chacha_open k n a c t := if decide (t = tag k n a c) then Some c else None;
  x25519_public s := fit 32 s;
  x25519_dh s p :=
    if is_low_order_x25519_point (fit 32 s) || is_low_order_x25519_point p then zeros32
    else xor_bytes (fit 32 s) (fit 32 p);
  kyber768_keypair c := (fit 1184 c, fit 2400 c);
  kyber768_encapsulate pk c := (fit 32 c, fit 1088 c);
  kyber768_decapsulate ct sk := fit 32 ct
|}.

Lemma length_fit n bs : length (fit n bs) = n.
Proof. unfold fit. rewrite length_take, length_app, length_replicate. lia. Qed.

Lemma fit_fit n m bs : (n <= m)%nat -> fit n (fit m bs) = fit n bs.
Proof.
  intros Hn. unfold fit. rewrite take_app_le by (rewrite length_take, length_app, length_replicate; lia).
  rewrite take_take, Nat.min_l by lia.
  destruct (decide (n <= length bs)%nat).
  - by rewrite !take_app_le by lia.
  - rewrite !take_app_ge by lia. f_equal. rewrite !take_replicate. f_equal. lia.
Qed.

Lemma xor_bytes_comm a b : xor_bytes a b = xor_bytes b a.
Proof.
  revert b. induction a as [|x a IH]; intros [|y b]; simpl; auto. by rewrite Z.lxor_comm, IH.
Qed.

#[export] Instance toy_laws : PrimitivesLaws.
Proof.
  split; cbn -[fit stretch decide Nat.of_num_uint is_low_order_x25519_point].
  - intros. unfold stretch. by rewrite length_map, length_seq.
  - intros * H. injection H as _ <-. unfold tag, stretch. by rewrite length_map, length_seq.
  - intros * H. injection H as -> <-. by rewrite decide_True.
  - intros. rewrite !fit_fit by done. by rewrite orb_comm, xor_bytes_comm.
  - intros. apply length_fit.
  - intros * _ H. injection H as <- <-. by rewrite fit_fit by lia.
  - intros * H. injection H as <- <-. unfold len. by rewrite !length_fit.
  - intros pk r ss ct H. injection H as _ <-. unfold len. by rewrite length_fit.
Qed.

#[export] Instance toy_low_order : LowOrderLaw.
Proof. intros s p Hp. cbn -[is_low_order_x25519_point]. by rewrite Hp, orb_true_r. Qed.

End Toy.
