(* ===== verification/Tlv.v ===== *)
(** * Tlv: the binary wire format of ratchet messages
    (core-crypto/src/crypto/ratchet/tlv.rs)

    [to_binary] and [from_binary] with the decoder's cursor as its state. *)

From S2P Require Import Prelude Error.

Record RatchetEncryptedMessage := {
  msg_nonce : bytes;
  msg_ciphertext : bytes;
  msg_rekey_x25519_pk : option bytes;
  msg_rekey_mlkem_pk : option bytes;
  msg_rekey_ciphertext : option bytes
}.

#[export] Instance RatchetEncryptedMessage_eq_dec : EqDecision RatchetEncryptedMessage.
Proof. solve_decision. Defined.

(** [is_some() as u8]. *)
Definition present_bit {A} (o : option A) : Z := match o with Some _ => 1 | None => 0 end.

(** A length-prefixed field. *)
Definition put_field (bs : bytes) : bytes := be_bytes 4 (len bs) ++ bs.

Definition to_binary (m : RatchetEncryptedMessage) : kres bytes :=
  let present := present_bit (msg_rekey_x25519_pk m) + present_bit (msg_rekey_mlkem_pk m)
                 + present_bit (msg_rekey_ciphertext m) in
  if (0 <? present) && (present <? 3)
  then Err (SerializationError "Ratchet TLV rekey payload must be all-or-nothing (partial set)")
  else
    let has_rekey := present =? 3 in
    let buf := [x01; if has_rekey then x01 else x00]
               ++ put_field (msg_nonce m) ++ put_field (msg_ciphertext m) in
    if has_rekey then
      x ← expect (msg_rekey_x25519_pk m) "all-or-nothing rekey verified above";
      k ← expect (msg_rekey_mlkem_pk m) "all-or-nothing rekey verified above";
      c ← expect (msg_rekey_ciphertext m) "all-or-nothing rekey verified above";
      Ok (buf ++ put_field x ++ put_field k ++ put_field c)
    else Ok buf.

#[global] Arguments put_field : simpl never.

(** The closure [take] of the decoder: [n] bytes at the cursor. *)
Definition take_bytes (data : bytes) (n : Z) (what : string) : Comp KyberError Z bytes :=
  fun cursor =>
    if len data <? cursor + n
    then (Err (SerializationError ("Ratchet TLV truncated at " +:+ what)), cursor)
    else (Ok (take (Z.to_nat n) (drop (Z.to_nat cursor) data)), cursor + n).

(** The closure [read_bytes]: a four-byte length, then that many bytes. *)
Definition read_bytes (data : bytes) (what : string) : Comp KyberError Z bytes :=
  l ← take_bytes data 4 what;
  take_bytes data (be_Z l) what.

(** [take(1, what)?[0]]. *)
Definition take_byte (data : bytes) (what : string) : Comp KyberError Z byte :=
  b ← take_bytes data 1 what;
  lift (expect (head b) "index out of bounds").

Definition is_empty {A} (l : list A) : bool := match l with [] => true | _ => false end.

Definition from_binary_comp (data : bytes) : Comp KyberError Z RatchetEncryptedMessage :=
  version ← take_byte data "version";
  if negb (eqb_dec version x01)
  then throw (SerializationError "Unsupported ratchet TLV version {version}")
  else
    flag ← take_byte data "has_rekey";
    nonce ← read_bytes data "nonce";
    ciphertext ← read_bytes data "ciphertext";
    if negb (eqb_dec flag x00) then
      x ← read_bytes data "rekey_x";
      m ← read_bytes data "rekey_m";
      ct ← read_bytes data "rekey_ct";
      if is_empty x || is_empty m || is_empty ct
      then throw (SerializationError "Ratchet TLV rekey payload contains empty field(s)")
      else mret {| msg_nonce := nonce; msg_ciphertext := ciphertext;
                   msg_rekey_x25519_pk := Some x; msg_rekey_mlkem_pk := Some m;
                   msg_rekey_ciphertext := Some ct |}
    else mret {| msg_nonce := nonce; msg_ciphertext := ciphertext;
                 msg_rekey_x25519_pk := None; msg_rekey_mlkem_pk := None;
                 msg_rekey_ciphertext := None |}.

Definition from_binary (data : bytes) : kres RatchetEncryptedMessage := fst (from_binary_comp data 0).

(** ** Specification *)

(** A length that fits the four-byte prefix. *)
Definition fits_u32 (bs : bytes) : Prop := len bs < 2 ^ 32.

(** The messages the format represents: lengths fit, the rekey payload is
    all-or-nothing and has no empty field. *)
Definition wf_message (m : RatchetEncryptedMessage) : Prop :=
  fits_u32 (msg_nonce m) /\ fits_u32 (msg_ciphertext m) /\
  match msg_rekey_x25519_pk m, msg_rekey_mlkem_pk m, msg_rekey_ciphertext m with
  | None, None, None => True
  | Some x, Some k, Some c =>
      fits_u32 x /\ fits_u32 k /\ fits_u32 c /\ x <> [] /\ k <> [] /\ c <> []
  | _, _, _ => False
  end.

(** Some of the rekey fields are present and some are not. *)
Definition partial_rekey (m : RatchetEncryptedMessage) : bool :=
  match msg_rekey_x25519_pk m, msg_rekey_mlkem_pk m, msg_rekey_ciphertext m with
  | None, None, None | Some _, Some _, Some _ => false
  | _, _, _ => true
  end.

(** The encoding after its two header bytes. *)
Definition tlv_body (m : RatchetEncryptedMessage) : bytes :=
  put_field (msg_nonce m) ++ put_field (msg_ciphertext m) ++
  match msg_rekey_x25519_pk m, msg_rekey_mlkem_pk m, msg_rekey_ciphertext m with
  | Some x, Some k, Some c => put_field x ++ put_field k ++ put_field c
  | _, _, _ => []
  end.

Definition tlv_flag (m : RatchetEncryptedMessage) : bool :=
  match msg_rekey_x25519_pk m with Some _ => true | None => false end.

(** ** Lemmas *)

Lemma to_binary_spec m :
  to_binary m =
  if partial_rekey m
  then Err (SerializationError "Ratchet TLV rekey payload must be all-or-nothing (partial set)")
  else Ok (x01 :: (if tlv_flag m then x01 else x00) :: tlv_body m).
Proof.
  destruct m as [n c [x|] [k|] [r|]]; try reflexivity.
  - unfold to_binary, tlv_body. simpl. by rewrite <- !app_assoc.
  - unfold to_binary, tlv_body. simpl. by rewrite app_nil_r.
Qed.

(** The cursor [c] of the decoder stands before [rest]. *)
Definition At (data : bytes) (c : Z) (rest : bytes) : Prop :=
  exists pre, data = pre ++ rest /\ c = len pre.

(** Reduce the projections of a message, and nothing else. *)
Ltac msg_proj :=
  cbn [msg_nonce msg_ciphertext msg_rekey_x25519_pk msg_rekey_mlkem_pk msg_rekey_ciphertext] in *.

Lemma At_start data : At data 0 data.
Proof. by exists []. Qed.

Lemma At_step data c x rest : At data c (x ++ rest) -> At data (c + len x) rest.
Proof. intros (pre & -> & ->). exists (pre ++ x). by rewrite <- app_assoc, len_app. Qed.

Lemma take_bytes_here data c x rest n what :
  At data c (x ++ rest) -> n = len x -> take_bytes data n what c = (Ok x, c + n).
Proof.
  intros (pre & -> & ->) ->. unfold take_bytes. rewrite !len_app. pose proof (len_nonneg rest).
  destruct (Z.ltb_spec (len pre + (len x + len rest)) (len pre + len x)); [lia|].
  f_equal. f_equal. unfold len. rewrite !Nat2Z.id, drop_app_length. apply take_app_length.
Qed.

Lemma take_byte_here data c b rest what :
  At data c (b :: rest) -> take_byte data what c = (Ok b, c + 1).
Proof.
  intros H. unfold take_byte, mbind, comp_mbind, comp_bind.
  by rewrite (take_bytes_here _ _ [b] rest).
Qed.

Lemma read_bytes_here data c x rest what :
  At data c (put_field x ++ rest) -> fits_u32 x ->
  read_bytes data what c = (Ok x, c + len (put_field x)).
Proof.
  intros H Hx. unfold read_bytes, mbind, comp_mbind, comp_bind, put_field in *.
  rewrite <- app_assoc in H. erewrite take_bytes_here by (eauto; by rewrite len_be_bytes).
  rewrite be_Z_be_bytes_small by (unfold fits_u32 in Hx; pose proof (len_nonneg x); lia).
  apply At_step in H. rewrite len_be_bytes in H.
  erewrite take_bytes_here by eauto. f_equal. rewrite len_app, len_be_bytes. lia.
Qed.

(** What a successful read says about the data. *)
Lemma take_bytes_inv data n what c rest x c' :
  At data c rest -> 0 <= n -> take_bytes data n what c = (Ok x, c') ->
  exists post, rest = x ++ post /\ len x = n /\ At data c' post.
Proof.
  intros (pre & -> & ->) Hn. unfold take_bytes.
  destruct (Z.ltb_spec (len (pre ++ rest)) (len pre + n)) as [|Hlt]; [done|].
  intros [= <- <-]. rewrite len_app in Hlt. unfold len in *. rewrite Nat2Z.id, drop_app_length.
  exists (drop (Z.to_nat n) rest). rewrite take_drop, length_take. split; [done|]. split; [lia|].
  exists (pre ++ take (Z.to_nat n) rest). rewrite <- app_assoc, take_drop. split; [done|].
  unfold len. rewrite length_app, length_take. lia.
Qed.

Lemma read_bytes_inv data what c rest x c' :
  At data c rest -> read_bytes data what c = (Ok x, c') ->
  exists post, rest = put_field x ++ post /\ fits_u32 x /\ At data c' post.
Proof.
  intros HA. unfold read_bytes, mbind, comp_mbind, comp_bind.
  destruct (take_bytes data 4 what c) as [[l|e|p] c1] eqn:E1; [|done|done].
  apply (take_bytes_inv _ _ _ _ _ _ _ HA) in E1 as (post & -> & Hl & HA'); [|lia].
  pose proof (be_Z_range l) as Hr. rewrite Hl in Hr. intros E2.
  apply (take_bytes_inv _ _ _ _ _ _ _ HA') in E2 as (post' & -> & Hx & HA''); [|lia].
  exists post'. unfold put_field, fits_u32. rewrite Hx, <- app_assoc. split; [|split; [lia|done]].
  f_equal. replace 4%nat with (length l) by (unfold len in Hl; lia). by rewrite be_bytes_be_Z.
Qed.

Lemma take_byte_inv data what c rest b c' :
  At data c rest -> take_byte data what c = (Ok b, c') ->
  exists post, rest = b :: post /\ At data c' post.
Proof.
  intros HA. unfold take_byte, mbind, comp_mbind, comp_bind, lift.
  destruct (take_bytes data 1 what c) as [[l|e|p] c1] eqn:E1; [|done|done].
  apply (take_bytes_inv _ _ _ _ _ _ _ HA) in E1 as (post & -> & Hl & HA'); [|lia].
  destruct l as [|b0 [|]]; [done| |unfold len in Hl; simpl in Hl; lia].
  simpl. intros [= -> <-]. eauto.
Qed.

Lemma take_byte_no_panic data what c rest p :
  At data c rest -> fst (take_byte data what c) <> Panic p.
Proof.
  intros HA. unfold take_byte, mbind, comp_mbind, comp_bind, lift.
  destruct (take_bytes data 1 what c) as [[l|e|q] c1] eqn:E1; [|done|].
  - apply (take_bytes_inv _ _ _ _ _ _ _ HA) in E1 as (post & _ & Hl & _); [|lia]. destruct l; [done|]. done.
  - unfold take_bytes in E1. by case_match.
Qed.

Lemma read_bytes_no_panic data what c p : fst (read_bytes data what c) <> Panic p.
Proof.
  unfold read_bytes, mbind, comp_mbind, comp_bind, take_bytes. by repeat (case_match; simplify_eq/=).
Qed.

#[local] Opaque put_field.

(** The decoder on an encoding whose flag byte agrees with the payload and which
    may be followed by anything. *)
Lemma from_binary_encoded m flag rest :
  wf_message m -> (flag = x00 <-> tlv_flag m = false) ->
  from_binary (x01 :: flag :: tlv_body m ++ rest) = Ok m.
Proof.
  intros Hwf Hflag. unfold from_binary, from_binary_comp, mbind, comp_mbind, comp_bind.
  set (data := x01 :: flag :: tlv_body m ++ rest).
  pose proof (At_start data) as HA.
  rewrite (take_byte_here _ _ _ _ _ HA). apply (At_step _ _ [x01]) in HA.
  change (len [x01]) with 1 in HA. change (negb (eqb_dec x01 x01)) with false. cbv beta iota.
  rewrite (take_byte_here data 1 _ _ _ HA). apply (At_step _ _ [flag]) in HA. clearbody data.
  change (0 + 1 + len [flag]) with (1 + 1) in HA.
  destruct m as [n c ox ok oc]. destruct Hwf as (Hn & Hc & Hr). unfold tlv_body, tlv_flag in *. msg_proj.
  rewrite <- !app_assoc in HA.
  rewrite (read_bytes_here _ _ _ _ _ HA) by done. apply At_step in HA.
  rewrite (read_bytes_here _ _ _ _ _ HA) by done. apply At_step in HA.
  destruct ox as [x|], ok as [k|], oc as [r|]; try done.
  - destruct Hr as (Hx & Hk & Hct & Nx & Nk & Nc). rewrite <- !app_assoc in HA.
    assert (flag <> x00) by (intros ->; by destruct Hflag as [Hf _]; discriminate Hf).
    unfold eqb_dec. rewrite bool_decide_false by done. cbv beta iota delta [negb].
    rewrite (read_bytes_here _ _ _ _ _ HA) by done. apply At_step in HA.
    rewrite (read_bytes_here _ _ _ _ _ HA) by done. apply At_step in HA.
    rewrite (read_bytes_here _ _ _ _ _ HA) by done.
    by destruct x, k, r.
  - unfold eqb_dec. by rewrite bool_decide_true by (by apply Hflag).
Qed.

(** Whatever the decoder accepts is an encoding, up to the value of a set flag
    byte and to bytes after the end. *)
Lemma from_binary_inv data m :
  from_binary data = Ok m ->
  exists flag rest, data = x01 :: flag :: tlv_body m ++ rest /\
                    wf_message m /\ (flag = x00 <-> tlv_flag m = false).
Proof.
  unfold from_binary, from_binary_comp, mbind, comp_mbind, comp_bind, throw, mret, comp_mret, comp_ret.
  pose proof (At_start data) as HA.
  destruct (take_byte data "version" 0) as [[v| |] c1] eqn:E; [|done..].
  apply (take_byte_inv _ _ _ _ _ _ HA) in E as (d1 & -> & HA1). clear HA.
  unfold eqb_dec. case_bool_decide as Ev; [subst v; simpl|done].
  set (data := x01 :: d1) in *.
  destruct (take_byte data "has_rekey" c1) as [[f| |] c2] eqn:E; [|done..].
  apply (take_byte_inv _ _ _ _ _ _ HA1) in E as (d2 & -> & HA2).
  destruct (read_bytes data "nonce" c2) as [[n| |] c3] eqn:E; [|done..].
  apply (read_bytes_inv _ _ _ _ _ _ HA2) in E as (d3 & -> & Hn & HA3).
  destruct (read_bytes data "ciphertext" c3) as [[c| |] c4] eqn:E; [|done..].
  apply (read_bytes_inv _ _ _ _ _ _ HA3) in E as (d4 & -> & Hc & HA4).
  case_bool_decide as Ef; simpl.
  - intros [= <-]. exists f, d4. unfold wf_message, tlv_body, tlv_flag. msg_proj.
    rewrite app_nil_r, <- app_assoc. naive_solver.
  - destruct (read_bytes data "rekey_x" c4) as [[x| |] c5] eqn:E; [|done..].
    apply (read_bytes_inv _ _ _ _ _ _ HA4) in E as (d5 & -> & Hx & HA5).
    destruct (read_bytes data "rekey_m" c5) as [[k| |] c6] eqn:E; [|done..].
    apply (read_bytes_inv _ _ _ _ _ _ HA5) in E as (d6 & -> & Hk & HA6).
    destruct (read_bytes data "rekey_ct" c6) as [[r| |] c7] eqn:E; [|done..].
    apply (read_bytes_inv _ _ _ _ _ _ HA6) in E as (d7 & -> & Hr & HA7).
    destruct (is_empty x || is_empty k || is_empty r) eqn:Ee; [done|]. intros [= <-].
    apply orb_false_iff in Ee as [Ee ?]. apply orb_false_iff in Ee as [? ?].
    exists f, d7. unfold wf_message, tlv_body, tlv_flag. msg_proj. rewrite <- !app_assoc.
    split; [done|]. split; [|by split].
    split_and!; try done; by intros ->.
Qed.

Lemma from_binary_no_panic data p : from_binary data <> Panic p.
Proof.
  unfold from_binary, from_binary_comp, mbind, comp_mbind, comp_bind, throw, mret, comp_mret, comp_ret.
  pose proof (At_start data) as HA.
  pose proof (take_byte_no_panic data "version" 0 data) as N.
  destruct (take_byte data "version" 0) as [[v| |] c1] eqn:E; [|done|by eapply N in HA].
  apply (take_byte_inv _ _ _ _ _ _ HA) in E as (d1 & -> & HA1). clear HA N.
  case_match; [done|]. set (data := v :: d1) in *.
  pose proof (take_byte_no_panic data "has_rekey" c1 d1) as N.
  destruct (take_byte data "has_rekey" c1) as [[f| |] c2] eqn:E; [|done|by eapply N in HA1].
  repeat first
    [ progress cbv beta iota
    | match goal with
      | |- context [read_bytes ?d ?w ?c] =>
          let N := fresh in pose proof (read_bytes_no_panic d w c) as N;
          destruct (read_bytes d w c) as [[?|?|?] ?]; [|done|exfalso; by eapply N]
      | |- context [if ?b then _ else _] => destruct b
      end ]; done.
Qed.

(** ** Properties *)

(** Encoding then decoding a representable message, with any bytes after it,
    gives the message back. *)
Theorem tlv_roundtrip m rest :
  wf_message m -> exists b, to_binary m = Ok b /\ from_binary (b ++ rest) = Ok m.
Proof.
  intros Hwf. rewrite to_binary_spec.
  assert (partial_rekey m = false) as ->.
  { destruct m as [n c [] [] []], Hwf as (_ & _ & H); done. }
  eexists. split; [done|]. simpl. apply from_binary_encoded; [done|].
  by destruct (tlv_flag m).
Qed.

(** A decoded message is representable and the data was its encoding: the
    version byte, a flag byte that is zero exactly when there is no rekey
    payload, the body of [to_binary], and ignored trailing bytes. *)
Theorem tlv_decode_sound data m :
  from_binary data = Ok m ->
  wf_message m /\
  exists flag rest b,
    to_binary m = Ok b /\ data = x01 :: flag :: drop 2 b ++ rest /\
    (flag = x00 <-> msg_rekey_x25519_pk m = None).
Proof.
  intros (flag & rest & -> & Hwf & Hf)%from_binary_inv. split; [done|].
  rewrite to_binary_spec.
  assert (partial_rekey m = false) as ->.
  { destruct m as [n c [] [] []], Hwf as (_ & _ & H); done. }
  exists flag, rest. eexists. split; [done|]. split; [done|].
  rewrite Hf. unfold tlv_flag. by destruct (msg_rekey_x25519_pk m).
Qed.

(** No strict prefix of an encoding decodes: a truncated message is an error,
    never a shorter message. *)
Theorem tlv_truncation m b n :
  wf_message m -> to_binary m = Ok b -> (n < length b)%nat ->
  exists e, from_binary (take n b) = Err e.
Proof.
  intros Hwf Hb Hn. rewrite to_binary_spec in Hb. destruct (partial_rekey m); [done|].
  injection Hb as Hb.
  destruct (from_binary (take n b)) as [m'|e|p] eqn:E; [|eauto|by apply from_binary_no_panic in E].
  exfalso. apply from_binary_inv in E as (flag & rest & Ht & Hwf' & Hf').
  assert (from_binary b = Ok m') as E1.
  { rewrite <- (take_drop n b), Ht. simpl. rewrite <- app_assoc. by apply from_binary_encoded. }
  assert (from_binary b = Ok m) as E2.
  { rewrite <- Hb, <- (app_nil_r (tlv_body m)). apply from_binary_encoded; [done|]. by destruct (tlv_flag m). }
  assert (m' = m) as -> by congruence. apply (f_equal length) in Ht.
  rewrite length_take, <- Hb in Ht. rewrite <- Hb in Hn. simpl in *. rewrite length_app in Ht. lia.
Qed.

Definition demo_message : RatchetEncryptedMessage := {|
  msg_nonce := replicate 12 x07; msg_ciphertext := [x01; x02; x03];
  msg_rekey_x25519_pk := Some [x0a]; msg_rekey_mlkem_pk := Some [x0b; x0c];
  msg_rekey_ciphertext := Some [x0d] |}.

Lemma demo_message_wf : wf_message demo_message.
Proof. unfold wf_message, fits_u32, len; simpl. repeat split; (lia || done). Defined.

Lemma tlv_roundtrip_witness :
  exists b, to_binary demo_message = Ok b /\ from_binary (b ++ [xff]) = Ok demo_message.
Proof. exact (tlv_roundtrip demo_message [xff] demo_message_wf). Defined.

Lemma tlv_decode_sound_witness :
  wf_message {| msg_nonce := []; msg_ciphertext := [x05];
                msg_rekey_x25519_pk := None; msg_rekey_mlkem_pk := None; msg_rekey_ciphertext := None |}.
Proof.
  apply (tlv_decode_sound [x01; x00; x00; x00; x00; x00; x00; x00; x00; x01; x05; xff]).
  reflexivity.
Defined.

Lemma tlv_truncation_witness :
  exists b e, to_binary demo_message = Ok b /\ from_binary (take 20 b) = Err e.
Proof.
  assert (exists b, to_binary demo_message = Ok b /\ (20 < length b)%nat) as (b & Hb & Hl).
  { eexists. split; [vm_compute; reflexivity|vm_compute; lia]. }
  destruct (tlv_truncation demo_message b 20 demo_message_wf Hb Hl) as [e He]. eauto.
Defined.
