(* ===== verification/Frame.v ===== *)
(** * Frame: QUIC application frames and payload padding
    (core-crypto/src/quic_app/frame.rs, core-crypto/src/crypto/padding.rs)

    The frame codec, the two-step stream reader (header, then body), and the
    padding of payloads to fixed block sizes. *)

From S2P Require Import Prelude Error.

(** Stream type identifiers. *)
Definition STREAM_PAIRING : byte := x01.
Definition STREAM_CLIPBOARD : byte := x02.
Definition STREAM_MEDIA : byte := x03.
Definition STREAM_POLL : byte := x04.
Definition STREAM_UNPAIR : byte := x05.
Definition STREAM_REKEY_ACK : byte := x06.
Definition STREAM_SMS : byte := x07.

Definition MAX_MESSAGE_SIZE : Z := 1024 * 1024.

Record QuicFrame := { stream_type : byte; body : bytes }.

Definition encode (f : QuicFrame) : bytes :=
  [stream_type f] ++ be_bytes 4 (len (body f)) ++ body f.

Definition frame_too_large : KyberError := NetworkError "Frame body too large: {body_len} > {MAX_MESSAGE_SIZE}".

Definition decode (data : bytes) : kres QuicFrame :=
  if len data <? 5 then Err (NetworkError "Frame too short")
  else
    st ← expect (head data) "index out of bounds";
    let body_len := be_Z (take 4 (drop 1 data)) in
    if MAX_MESSAGE_SIZE <? body_len then Err frame_too_large
    else if len data <? 5 + body_len then Err (NetworkError "Frame truncated")
    else Ok {| stream_type := st; body := take (Z.to_nat body_len) (drop 5 data) |}.

(** ** Reading from a stream

    The state is what is left to read: [read_exact] fails when the stream ends
    first, [take(n).read_to_end] returns what there is up to [n] bytes. *)
Definition recv_frame_header : Comp KyberError bytes (byte * Z) :=
  fun stream =>
    match stream with
    | st :: b1 :: b2 :: b3 :: b4 :: rest =>
        let body_len := be_Z [b1; b2; b3; b4] in
        if MAX_MESSAGE_SIZE <? body_len then (Err frame_too_large, rest)
        else (Ok (st, body_len), rest)
    | _ => (Err (NetworkError "Read frame header failed: {e}"), [])
    end.

Definition recv_frame_body (body_len : Z) : Comp KyberError bytes bytes :=
  fun stream =>
    if MAX_MESSAGE_SIZE <? body_len then (Err frame_too_large, stream)
    else
      let got := if 0 <? body_len then take (Z.to_nat body_len) stream else [] in
      let rest := if 0 <? body_len then drop (Z.to_nat body_len) stream else stream in
      if (0 <? body_len) && negb (len got =? body_len)
      then (Err (NetworkError "Frame body truncated: expected {body_len} bytes, got {}"), rest)
      else (Ok got, rest).

Definition recv_frame : Comp KyberError bytes QuicFrame :=
  h ← recv_frame_header;
  b ← recv_frame_body (snd h);
  mret {| stream_type := fst h; body := b |}.

(** [send_frame] appends the encoding to what the stream already carries. *)
Definition send_frame (f : QuicFrame) (stream : bytes) : bytes := stream ++ encode f.

(** ** Padding *)

Definition pad_target (orig_len : Z) : Z :=
  if orig_len + 4 <=? 256 then 256 else if orig_len + 4 <=? 1024 then 1024 else 64 * 1024.

(** [padded.resize(target, 0)] on a buffer no longer than the target. *)
Definition resize (n : Z) (bs : bytes) : bytes :=
  take (Z.to_nat n) bs ++ replicate (Z.to_nat n - length bs) x00.

Definition pad_payload (data : bytes) : kres bytes :=
  let orig_len := len data in
  if 64 * 1024 - 4 <? orig_len
  then Err (EncryptionFailed "Payload exceeds 64KB max padded block size")
  else Ok (resize (pad_target orig_len) (be_bytes 4 orig_len ++ data)).

Definition unpad_payload (padded : bytes) : kres bytes :=
  if len padded <? 4 then Err (DecryptionFailed "Padded block too short")
  else
    let orig_len := be_Z (take 4 padded) in
    if sat_sub (len padded) 4 <? orig_len
    then Err (DecryptionFailed "Invalid padded length header")
    else Ok (take (Z.to_nat orig_len) (drop 4 padded)).

(** ** Lemmas *)

Lemma header_cons st l rest :
  exists b1 b2 b3 b4, [st] ++ be_bytes 4 l ++ rest = st :: b1 :: b2 :: b3 :: b4 :: rest /\
                      [b1; b2; b3; b4] = be_bytes 4 l.
Proof. unfold be_bytes. simpl. eauto 10. Qed.

Lemma recv_frame_header_spec st l rest :
  0 <= l < 2 ^ 32 ->
  recv_frame_header ([st] ++ be_bytes 4 l ++ rest) =
  if MAX_MESSAGE_SIZE <? l then (Err frame_too_large, rest) else (Ok (st, l), rest).
Proof.
  intros Hl. destruct (header_cons st l rest) as (b1 & b2 & b3 & b4 & -> & Hb).
  cbn [recv_frame_header]. rewrite Hb, be_Z_be_bytes_small by lia. done.
Qed.

Lemma recv_frame_body_app x rest :
  len x <= MAX_MESSAGE_SIZE -> recv_frame_body (len x) (x ++ rest) = (Ok x, rest).
Proof.
  intros Hx. unfold recv_frame_body. rewrite (proj2 (Z.ltb_ge _ _)) by lia.
  destruct (Z.ltb_spec 0 (len x)).
  - unfold len. rewrite Nat2Z.id, take_app_length, drop_app_length, Z.eqb_refl. done.
  - assert (x = []) as -> by (apply len_nil_iff; pose proof (len_nonneg x); lia). done.
Qed.

Lemma pad_target_cases n : n <= 64 * 1024 - 4 -> n + 4 <= pad_target n /\
  (pad_target n = 256 \/ pad_target n = 1024 \/ pad_target n = 65536).
Proof. unfold pad_target. intros. repeat case_match; zify_bool; lia. Qed.

Lemma length_resize n bs : (length bs <= Z.to_nat n)%nat -> length (resize n bs) = Z.to_nat n.
Proof. intros. unfold resize. rewrite length_app, length_take, length_replicate. lia. Qed.

Lemma resize_prefix n bs : (length bs <= Z.to_nat n)%nat ->
  resize n bs = bs ++ replicate (Z.to_nat n - length bs) x00.
Proof. intros. unfold resize. by rewrite take_ge by lia. Qed.

(** ** Properties *)

(** A frame whose body is within the size cap survives encoding and reading
    from a stream, whatever follows it, and the reader leaves exactly what
    follows. *)
Theorem frame_roundtrip f rest :
  len (body f) <= MAX_MESSAGE_SIZE -> recv_frame (encode f ++ rest) = (Ok f, rest).
Proof.
  intros Hb. unfold recv_frame, mbind, comp_mbind, comp_bind, encode.
  rewrite <- !app_assoc, recv_frame_header_spec
    by (pose proof (len_nonneg (body f)); unfold MAX_MESSAGE_SIZE in *; lia).
  rewrite (proj2 (Z.ltb_ge _ _)) by lia. cbn [fst snd].
  rewrite recv_frame_body_app by done. by destruct f.
Qed.

(** The buffer decoder and the stream reader accept the same frames. *)
Theorem frame_decode_agrees data f :
  decode data = Ok f <-> exists rest, recv_frame data = (Ok f, rest).
Proof.
  unfold recv_frame, mbind, comp_mbind, comp_bind, mret, comp_mret, comp_ret, decode.
  destruct (Z.ltb_spec (len data) 5) as [Hs|Hl].
  { split; [done|]. intros [rest H].
    do 5 (destruct data as [|? data]; [done|]). unfold len in Hs. simpl in Hs. lia. }
  do 5 (destruct data as [|? data]; [unfold len in Hl; simpl in Hl; lia|]).
  cbn [recv_frame_header head drop take expect mbind result_bind].
  set (l := be_Z _). assert (0 <= l) by (apply be_Z_range).
  destruct (Z.ltb_spec MAX_MESSAGE_SIZE l); [split; [done|by intros [? ?]]|].
  unfold recv_frame_body. cbn [fst snd]. rewrite (proj2 (Z.ltb_ge _ l)) by lia.
  destruct (Z.ltb_spec 0 l); simpl.
  - destruct (Z.ltb_spec (len (b :: b0 :: b1 :: b2 :: b3 :: data)) (5 + l)) as [Hlt|Hge].
    + split; [done|]. intros [rest HH].
      destruct (Z.eqb_spec (len (take (Z.to_nat l) data)) l) as [E|]; [|done].
      unfold len in *. rewrite length_take in E. simpl in *. lia.
    + destruct (Z.eqb_spec (len (take (Z.to_nat l) data)) l) as [E|E]; simpl.
      * split; [intros [= <-]; eauto|intros [rest [= <- _]]; done].
      * exfalso. apply E. unfold len in *. rewrite length_take. simpl in *. lia.
  - assert (l = 0) as -> by lia.
    rewrite (proj2 (Z.ltb_ge _ _)) by (unfold len; simpl; lia). simpl.
    split; [intros [= <-]; eauto|intros [rest [= <- _]]; done].
Qed.

(** A header announcing more than the size cap is refused before any byte of
    the body is read. *)
Theorem frame_oversize_refused st l rest :
  MAX_MESSAGE_SIZE < l < 2 ^ 32 ->
  recv_frame ([st] ++ be_bytes 4 l ++ rest) = (Err frame_too_large, rest).
Proof.
  intros Hl. unfold recv_frame, mbind, comp_mbind, comp_bind.
  rewrite recv_frame_header_spec by (unfold MAX_MESSAGE_SIZE in *; lia).
  by rewrite (proj2 (Z.ltb_lt _ _)) by lia.
Qed.

(** A payload that fits is padded to 256, 1024 or 65536 bytes and unpadding
    gives it back; a longer one is refused. *)
Theorem padding_roundtrip data :
  match pad_payload data with
  | Ok padded =>
      (len padded = 256 \/ len padded = 1024 \/ len padded = 65536) /\ unpad_payload padded = Ok data
  | Err _ => 65532 < len data
  | Panic _ => False
  end.
Proof.
  unfold pad_payload. destruct (Z.ltb_spec (64 * 1024 - 4) (len data)) as [|Hd]; [lia|].
  destruct (pad_target_cases _ Hd) as [Hge Hcases]. pose proof (len_nonneg data).
  assert (length (be_bytes 4 (len data) ++ data) <= Z.to_nat (pad_target (len data)))%nat as Hl.
  { rewrite length_app, length_be_bytes. unfold len in *. lia. }
  assert (len (resize (pad_target (len data)) (be_bytes 4 (len data) ++ data))
          = pad_target (len data)) as Hlen.
  { unfold len at 1. rewrite length_resize by done. lia. }
  split; [by rewrite Hlen|].
  unfold unpad_payload, sat_sub. rewrite Hlen. rewrite resize_prefix by done.
  rewrite <- app_assoc, take_app_length' by (by rewrite length_be_bytes).
  rewrite drop_app_length' by (by rewrite length_be_bytes).
  rewrite be_Z_be_bytes_small by lia.
  rewrite !(proj2 (Z.ltb_ge _ _)) by lia.
  unfold len at 1. by rewrite Nat2Z.id, take_app_length.
Qed.

Lemma frame_roundtrip_witness :
  recv_frame (encode {| stream_type := STREAM_POLL; body := [x61; x62] |} ++ [x09])
  = (Ok {| stream_type := STREAM_POLL; body := [x61; x62] |}, [x09]).
Proof. apply frame_roundtrip. vm_compute. discriminate. Defined.

Lemma frame_oversize_refused_witness :
  recv_frame ([STREAM_MEDIA] ++ be_bytes 4 2000000 ++ [x01]) = (Err frame_too_large, [x01]).
Proof. apply frame_oversize_refused. vm_compute. split; reflexivity. Defined.
