(* ===== verification/RatchetState.v ===== *)
(** * RatchetState: the double-ratchet session state
    (core-crypto/src/crypto/ratchet/state.rs, policy.rs)

    The records of [state.rs], the clock and the staleness policy of
    [policy.rs], the replay window, the constructor, and the commit, cancel and
    acknowledgement operations of the two rekey proposal slots. *)

From S2P Require Import Prelude Error Primitives Kem.

(** ** Constants *)
Definition RATCHET_REKEY_INTERVAL : Z := 100.
Definition INCOMING_REKEY_TTL_SECS : Z := 60.
Definition SEEN_SET_MAX : Z := 4096.
Definition REKEY_RETRY_TTL_SECS : Z := 15.

(** ** Time

    An operation reads both clocks once: [now_unix] is the wall clock in
    seconds, [now_mono] the monotonic clock in nanoseconds. *)
Record Clock := { now_unix : Z; now_mono : Z }.

(** [Duration::from_secs], in nanoseconds. *)
Definition secs (s : Z) : Z := s * 1000000000.
(** [Instant::elapsed], which saturates at zero. *)
Definition elapsed (clk : Clock) (at_mono : Z) : Z := sat_sub (now_mono clk) at_mono.
(** [Duration::as_secs]. *)
Definition as_secs (d : Z) : Z := d / 1000000000.

(** ** Data *)

Record RekeyCarrier := {
  carrier_seq : Z;
  attached_at : Z;
  attached_at_unix : Z;
  first_attached_at : Z;
  first_attached_at_unix : Z;
  car_rekey_x25519_pk : bytes;
  car_rekey_mlkem_pk : bytes;
  car_rekey_ciphertext : bytes
}.

Record Chain := { key : bytes; message_count : Z }.

Record IncomingProposal := {
  in_root_key : option bytes;
  in_sending_chain_key : option bytes;
  in_receiving_chain_key : option bytes;
  in_peer_x25519_pk : option bytes;
  in_peer_mlkem_pk : option bytes;
  in_generation_bump : bool;
  in_carrier_seq : option Z;
  in_carrier_gen : option Z;
  in_attached_at_unix : option Z;
  in_attached_at_mono : option Z
}.

Record OutgoingProposal := {
  out_root_key : option bytes;
  out_sending_chain_key : option bytes;
  out_receiving_chain_key : option bytes;
  out_hybrid_pair : option HybridKeyPair;
  out_rekey_payload : option (bytes * bytes * bytes)
}.

Record ReplayWindow := {
  seen : gset (Z * Z);
  prev_gen_highest_delivered : option Z
}.

(** [SkipKeyMap]: (generation, sequence number) to message key. *)
Abbreviation SkipKeyMap := (gmap (Z * Z) bytes).

Record DoubleRatchetState := {
  root_key : bytes;
  send : Chain;
  recv : Chain;
  our_hybrid_pair : HybridKeyPair;
  peer_x25519_pk : option bytes;
  peer_mlkem_pk : option bytes;
  rekey_interval : Z;
  ratchet_generation : Z;
  pairing_epoch : Z;
  previous_recv_chain_key : option bytes;
  previous_recv_anchor : option Z;
  previous_recv_gen : option Z;
  replay_window : ReplayWindow;
  incoming_proposal : IncomingProposal;
  outgoing_proposal : OutgoingProposal;
  skip_message_keys : option SkipKeyMap;
  max_skip : Z;
  previous_keypairs : list HybridKeyPair;
  max_key_history : Z;
  rekey_pending_confirm_queue : list RekeyCarrier;
  pending_rekey_ack_seq : option Z;
  is_initiator : bool;
  resync_forward_total : Z;
  peeked_ack_cache : option (Z * bytes)
}.

(** ** Field updates *)
Definition eta_state (s : DoubleRatchetState) : DoubleRatchetState := {|
  root_key := root_key s; send := send s; recv := recv s;
  our_hybrid_pair := our_hybrid_pair s; peer_x25519_pk := peer_x25519_pk s;
  peer_mlkem_pk := peer_mlkem_pk s; rekey_interval := rekey_interval s;
  ratchet_generation := ratchet_generation s; pairing_epoch := pairing_epoch s;
  previous_recv_chain_key := previous_recv_chain_key s;
  previous_recv_anchor := previous_recv_anchor s; previous_recv_gen := previous_recv_gen s;
  replay_window := replay_window s; incoming_proposal := incoming_proposal s;
  outgoing_proposal := outgoing_proposal s; skip_message_keys := skip_message_keys s;
  max_skip := max_skip s; previous_keypairs := previous_keypairs s;
  max_key_history := max_key_history s;
  rekey_pending_confirm_queue := rekey_pending_confirm_queue s;
  pending_rekey_ack_seq := pending_rekey_ack_seq s; is_initiator := is_initiator s;
  resync_forward_total := resync_forward_total s; peeked_ack_cache := peeked_ack_cache s |}.

#[export] Instance upd_root_key : Update root_key. Proof. solve_update eta_state root_key. Defined.
#[export] Instance upd_send : Update send. Proof. solve_update eta_state send. Defined.
#[export] Instance upd_recv : Update recv. Proof. solve_update eta_state recv. Defined.
#[export] Instance upd_our_hybrid_pair : Update our_hybrid_pair. Proof. solve_update eta_state our_hybrid_pair. Defined.
#[export] Instance upd_peer_x25519_pk : Update peer_x25519_pk. Proof. solve_update eta_state peer_x25519_pk. Defined.
#[export] Instance upd_peer_mlkem_pk : Update peer_mlkem_pk. Proof. solve_update eta_state peer_mlkem_pk. Defined.
#[export] Instance upd_ratchet_generation : Update ratchet_generation. Proof. solve_update eta_state ratchet_generation. Defined.
#[export] Instance upd_pairing_epoch : Update pairing_epoch. Proof. solve_update eta_state pairing_epoch. Defined.
#[export] Instance upd_previous_recv_chain_key : Update previous_recv_chain_key. Proof. solve_update eta_state previous_recv_chain_key. Defined.
#[export] Instance upd_previous_recv_anchor : Update previous_recv_anchor. Proof. solve_update eta_state previous_recv_anchor. Defined.
#[export] Instance upd_previous_recv_gen : Update previous_recv_gen. Proof. solve_update eta_state previous_recv_gen. Defined.
#[export] Instance upd_replay_window : Update replay_window. Proof. solve_update eta_state replay_window. Defined.
#[export] Instance upd_incoming_proposal : Update incoming_proposal. Proof. solve_update eta_state incoming_proposal. Defined.
#[export] Instance upd_outgoing_proposal : Update outgoing_proposal. Proof. solve_update eta_state outgoing_proposal. Defined.
#[export] Instance upd_skip_message_keys : Update skip_message_keys. Proof. solve_update eta_state skip_message_keys. Defined.
#[export] Instance upd_max_skip : Update max_skip. Proof. solve_update eta_state max_skip. Defined.
#[export] Instance upd_previous_keypairs : Update previous_keypairs. Proof. solve_update eta_state previous_keypairs. Defined.
#[export] Instance upd_confirm_queue : Update rekey_pending_confirm_queue. Proof. solve_update eta_state rekey_pending_confirm_queue. Defined.
#[export] Instance upd_pending_rekey_ack_seq : Update pending_rekey_ack_seq. Proof. solve_update eta_state pending_rekey_ack_seq. Defined.
#[export] Instance upd_resync_forward_total : Update resync_forward_total. Proof. solve_update eta_state resync_forward_total. Defined.
#[export] Instance upd_peeked_ack_cache : Update peeked_ack_cache. Proof. solve_update eta_state peeked_ack_cache. Defined.

Definition eta_chain (c : Chain) : Chain := {| key := key c; message_count := message_count c |}.
#[export] Instance upd_key : Update key. Proof. solve_update eta_chain key. Defined.
#[export] Instance upd_message_count : Update message_count. Proof. solve_update eta_chain message_count. Defined.

Definition eta_window (w : ReplayWindow) : ReplayWindow :=
  {| seen := seen w; prev_gen_highest_delivered := prev_gen_highest_delivered w |}.
#[export] Instance upd_seen : Update seen. Proof. solve_update eta_window seen. Defined.
#[export] Instance upd_watermark : Update prev_gen_highest_delivered. Proof. solve_update eta_window prev_gen_highest_delivered. Defined.

Definition eta_incoming (p : IncomingProposal) : IncomingProposal := {|
  in_root_key := in_root_key p; in_sending_chain_key := in_sending_chain_key p;
  in_receiving_chain_key := in_receiving_chain_key p; in_peer_x25519_pk := in_peer_x25519_pk p;
  in_peer_mlkem_pk := in_peer_mlkem_pk p; in_generation_bump := in_generation_bump p;
  in_carrier_seq := in_carrier_seq p; in_carrier_gen := in_carrier_gen p;
  in_attached_at_unix := in_attached_at_unix p; in_attached_at_mono := in_attached_at_mono p |}.
#[export] Instance upd_in_carrier_seq : Update in_carrier_seq. Proof. solve_update eta_incoming in_carrier_seq. Defined.
#[export] Instance upd_in_attached_at_unix : Update in_attached_at_unix. Proof. solve_update eta_incoming in_attached_at_unix. Defined.
#[export] Instance upd_in_attached_at_mono : Update in_attached_at_mono. Proof. solve_update eta_incoming in_attached_at_mono. Defined.

(** Evaluate record updates and projections of a destructed state; the normal
    form keeps conversion checks on nested updates cheap. *)
Ltac state_cbv :=
  cbv beta iota delta [update upd_root_key upd_send upd_recv upd_our_hybrid_pair upd_peer_x25519_pk
    upd_peer_mlkem_pk upd_ratchet_generation upd_pairing_epoch upd_previous_recv_chain_key
    upd_previous_recv_anchor upd_previous_recv_gen upd_replay_window upd_incoming_proposal
    upd_outgoing_proposal upd_skip_message_keys upd_max_skip upd_previous_keypairs upd_confirm_queue
    upd_pending_rekey_ack_seq upd_resync_forward_total upd_peeked_ack_cache upd_key upd_message_count
    upd_seen upd_watermark upd_in_carrier_seq upd_in_attached_at_unix upd_in_attached_at_mono
    root_key send recv our_hybrid_pair peer_x25519_pk peer_mlkem_pk rekey_interval ratchet_generation
    pairing_epoch previous_recv_chain_key previous_recv_anchor previous_recv_gen replay_window
    incoming_proposal outgoing_proposal skip_message_keys max_skip previous_keypairs max_key_history
    rekey_pending_confirm_queue pending_rekey_ack_seq is_initiator resync_forward_total
    peeked_ack_cache key message_count seen prev_gen_highest_delivered in_root_key
    in_sending_chain_key in_receiving_chain_key in_peer_x25519_pk in_peer_mlkem_pk
    in_generation_bump in_carrier_seq in_carrier_gen in_attached_at_unix in_attached_at_mono].

(** ** Policy (policy.rs) *)

Definition carrier_effective_age (clk : Clock) (c : RekeyCarrier) : Z :=
  Z.max (elapsed clk (attached_at c)) (secs (sat_sub (now_unix clk) (attached_at_unix c))).

Definition carrier_first_attached_effective_age (clk : Clock) (c : RekeyCarrier) : Z :=
  Z.max (elapsed clk (first_attached_at c)) (secs (sat_sub (now_unix clk) (first_attached_at_unix c))).

Definition incoming_proposal_is_stale (clk : Clock) (p : IncomingProposal) : bool :=
  let wall_elapsed := match in_attached_at_unix p with
                      | Some t => sat_sub (now_unix clk) t
                      | None => 0
                      end in
  let mono_elapsed := match in_attached_at_mono p with
                      | Some t => as_secs (elapsed clk t)
                      | None => 0
                      end in
  INCOMING_REKEY_TTL_SECS <=? Z.max wall_elapsed mono_elapsed.

Definition outgoing_proposal_is_stale (clk : Clock) (queue : list RekeyCarrier) : bool :=
  match queue with
  | [] => false
  | _ => forallb (fun c => secs INCOMING_REKEY_TTL_SECS <=? carrier_first_attached_effective_age clk c) queue
  end.

(** ** Proposal slots *)

Definition default_incoming : IncomingProposal := {|
  in_root_key := None; in_sending_chain_key := None; in_receiving_chain_key := None;
  in_peer_x25519_pk := None; in_peer_mlkem_pk := None; in_generation_bump := false;
  in_carrier_seq := None; in_carrier_gen := None;
  in_attached_at_unix := None; in_attached_at_mono := None |}.

Definition default_outgoing : OutgoingProposal := {|
  out_root_key := None; out_sending_chain_key := None; out_receiving_chain_key := None;
  out_hybrid_pair := None; out_rekey_payload := None |}.

Definition is_some {A} (o : option A) : bool := match o with Some _ => true | None => false end.

(** [IncomingProposal::is_pending]. *)
Definition incoming_is_pending (p : IncomingProposal) : bool :=
  is_some (in_root_key p) || is_some (in_receiving_chain_key p).
(** [OutgoingProposal::is_pending]. *)
Definition outgoing_is_pending (p : OutgoingProposal) : bool :=
  is_some (out_root_key p) || is_some (out_sending_chain_key p).

(** ** Replay window *)

Definition seen_len (s : gset (Z * Z)) : Z := Z.of_nat (size s).

(** [iter().map(|(g, _)| *g).min()]. *)
Definition min_gen (s : gset (Z * Z)) : option Z :=
  match elements s with
  | [] => None
  | (g, _) :: l => Some (fold_right (fun p m => Z.min (fst p) m) g l)
  end.

Definition pair_le (a b : Z * Z) : Prop := fst a < fst b \/ (fst a = fst b /\ snd a <= snd b).
#[export] Instance pair_le_dec : RelDecision pair_le.
Proof. intros a b. unfold Decision, pair_le. destruct (decide (fst a < fst b)); [left; auto|].
  destruct (decide (fst a = fst b /\ snd a <= snd b)); [left; auto|right; tauto]. Defined.

(** The branch that sorts the pairs and drops the lowest ones. *)
Definition evict_lowest (s : gset (Z * Z)) : gset (Z * Z) :=
  let seqs := merge_sort pair_le (elements s) in
  let over := seen_len s - SEEN_SET_MAX in
  s ∖ list_to_set (take (Z.to_nat over) seqs).

(** The eviction loop; each turn removes at least one pair, so the number of
    pairs is enough fuel (lemma [evict_loop_bound]). *)
Fixpoint evict_loop (fuel : nat) (s : gset (Z * Z)) : gset (Z * Z) :=
  match fuel with
  | O => s
  | S fuel' =>
      if seen_len s <=? SEEN_SET_MAX then s
      else match min_gen s with
           | None => s
           | Some g =>
               let before := seen_len s in
               let s' := filter (fun p => fst p <> g) s in
               let removed := before - seen_len s' in
               evict_loop fuel' (if removed =? 0 then evict_lowest s' else s')
           end
  end.

(** [ReplayWindow::record_delivered]. *)
Definition record_delivered (gen seq : Z) (w : ReplayWindow) : ReplayWindow :=
  let s := {[(gen, seq)]} ∪ seen w in
  if seen_len s <=? SEEN_SET_MAX then w <| seen := s |>
  else w <| seen := evict_loop (size s) s |>.

(** ** Rekey associated data *)

Definition present {A} (o : option A) : Z := if is_some o then 1 else 0.

Definition build_rekey_aad (rekey_ciphertext rekey_x25519_pk rekey_mlkem_pk : option bytes) : kres bytes :=
  let n := present rekey_ciphertext + present rekey_x25519_pk + present rekey_mlkem_pk in
  if (0 <? n) && (n <? 3)
  then Err (CryptoError "Rekey AAD: partial rekey parameter set (must be all-or-nothing)")
  else match rekey_ciphertext, rekey_x25519_pk, rekey_mlkem_pk with
       | Some ct, Some xpk, Some mpk => Ok (bstr "r" ++ xpk ++ bstr "m" ++ mpk ++ bstr "c" ++ ct)
       | _, _, _ => Ok []
       end.

Section State.
Context `{P : Primitives}.

(** ** Construction *)

(** [derive_chain_keys_from_root] (derive.rs). *)
Definition derive_chain_keys_from_root (root : bytes) (send_label recv_label : bytes)
  : kres (bytes * bytes) :=
  send_ck ← hkdf_expand (Some (bstr "kyberpipe-chain-salt")) root send_label 32;
  recv_ck ← hkdf_expand (Some (bstr "kyberpipe-chain-salt")) root recv_label 32;
  Ok (send_ck, recv_ck).

(** [DoubleRatchetState::new_with_keypair]. *)
Definition new_with_keypair (master_shared_secret : bytes) (initiator : bool) (our_pair : HybridKeyPair)
  (peer_xpk peer_mpk : option bytes) : kres DoubleRatchetState :=
  session_salt ← hkdf_expand None master_shared_secret (bstr "kyberpipe-session-salt") 16;
  let hk_salt := bstr "kyberpipe-pq-salt-" ++ session_salt in
  master_seed ← hkdf_expand (Some hk_salt) master_shared_secret (bstr "kyberpipe-master-seed") 32;
  let root_salt := bstr "kyberpipe-root-" ++ session_salt in
  root ← hkdf_expand (Some root_salt) master_seed (bstr "kyberpipe-root-key") 32;
  cks ← (if initiator
         then derive_chain_keys_from_root root (bstr "kyberpipe-send-chain") (bstr "kyberpipe-recv-chain")
         else derive_chain_keys_from_root root (bstr "kyberpipe-recv-chain") (bstr "kyberpipe-send-chain"));
  Ok {| root_key := root;
        send := {| key := fst cks; message_count := 0 |};
        recv := {| key := snd cks; message_count := 0 |};
        our_hybrid_pair := our_pair;
        peer_x25519_pk := peer_xpk;
        peer_mlkem_pk := peer_mpk;
        rekey_interval := RATCHET_REKEY_INTERVAL;
        ratchet_generation := 0;
        pairing_epoch := 0;
        previous_recv_chain_key := None;
        previous_recv_anchor := None;
        previous_recv_gen := None;
        replay_window := {| seen := ∅; prev_gen_highest_delivered := None |};
        incoming_proposal := default_incoming;
        outgoing_proposal := default_outgoing;
        skip_message_keys := Some ∅;
        max_skip := 100;
        previous_keypairs := [];
        max_key_history := 3;
        rekey_pending_confirm_queue := [];
        pending_rekey_ack_seq := None;
        is_initiator := initiator;
        resync_forward_total := 0;
        peeked_ack_cache := None |}.

(** [DoubleRatchetState::new]: a fresh, never exchanged keypair. *)
Definition new_session (master_shared_secret : bytes) (initiator : bool) (coins : KemCoins)
  (peer_xpk peer_mpk : option bytes) : kres DoubleRatchetState :=
  new_with_keypair master_shared_secret initiator (generate_hybrid_keypair coins) peer_xpk peer_mpk.

(** ** What the constructor returns *)

Definition session_root (mss : bytes) : bytes :=
  let salt := hkdf_okm None mss (bstr "kyberpipe-session-salt") 16 in
  let seed := hkdf_okm (Some (bstr "kyberpipe-pq-salt-" ++ salt)) mss (bstr "kyberpipe-master-seed") 32 in
  hkdf_okm (Some (bstr "kyberpipe-root-" ++ salt)) seed (bstr "kyberpipe-root-key") 32.

(** The chain the initiator sends on, and the one the responder sends on. *)
Definition initiator_chain (mss : bytes) : bytes :=
  hkdf_okm (Some (bstr "kyberpipe-chain-salt")) (session_root mss) (bstr "kyberpipe-send-chain") 32.
Definition responder_chain (mss : bytes) : bytes :=
  hkdf_okm (Some (bstr "kyberpipe-chain-salt")) (session_root mss) (bstr "kyberpipe-recv-chain") 32.

Definition fresh_session (mss : bytes) (ini : bool) (kp : HybridKeyPair) (xpk mpk : option bytes)
  : DoubleRatchetState := {|
  root_key := session_root mss;
  send := {| key := if ini then initiator_chain mss else responder_chain mss; message_count := 0 |};
  recv := {| key := if ini then responder_chain mss else initiator_chain mss; message_count := 0 |};
  our_hybrid_pair := kp; peer_x25519_pk := xpk; peer_mlkem_pk := mpk;
  rekey_interval := RATCHET_REKEY_INTERVAL; ratchet_generation := 0; pairing_epoch := 0;
  previous_recv_chain_key := None; previous_recv_anchor := None; previous_recv_gen := None;
  replay_window := {| seen := ∅; prev_gen_highest_delivered := None |};
  incoming_proposal := default_incoming; outgoing_proposal := default_outgoing;
  skip_message_keys := Some ∅; max_skip := 100; previous_keypairs := []; max_key_history := 3;
  rekey_pending_confirm_queue := []; pending_rekey_ack_seq := None; is_initiator := ini;
  resync_forward_total := 0; peeked_ack_cache := None |}.

Lemma new_with_keypair_ok mss ini kp xpk mpk :
  new_with_keypair mss ini kp xpk mpk = Ok (fresh_session mss ini kp xpk mpk).
Proof.
  unfold new_with_keypair. rewrite hkdf_expand_16. cbn [mbind result_bind].
  rewrite hkdf_expand_32. cbn [mbind result_bind]. rewrite hkdf_expand_32. cbn [mbind result_bind].
  unfold derive_chain_keys_from_root. rewrite !hkdf_expand_32. by destruct ini.
Qed.

End State.

(** ** Commit and cancel *)

(** The largest delivered sequence number of a generation. *)
Definition max_seen (gen : Z) (s : gset (Z * Z)) : option Z :=
  fold_right (fun p m => if fst p =? gen
                         then Some (match m with Some x => Z.max (snd p) x | None => snd p end)
                         else m) None (elements s).

Definition capture_previous_recv_watermark (s : DoubleRatchetState) : option Z :=
  let m := max_seen (ratchet_generation s) (seen (replay_window s)) in
  let contiguous := sat_sub (message_count (recv s)) 1 in
  if 0 <? message_count (recv s)
  then Some (match m with Some x => Z.max contiguous x | None => contiguous end)
  else m.

Definition retain_previous_receiving_chain (s : DoubleRatchetState) : DoubleRatchetState :=
  let s := s <| previous_recv_chain_key := Some (key (recv s)) |> in
  let s := s <| previous_recv_anchor := Some (message_count (recv s)) |> in
  let s := s <| previous_recv_gen := Some (ratchet_generation s) |> in
  s <| replay_window ::= fun w =>
         w <| prev_gen_highest_delivered := capture_previous_recv_watermark s |> |>.

Definition reset_generation_counters (s : DoubleRatchetState) : DoubleRatchetState :=
  s <| send ::= fun c => c <| message_count := 0 |> |>
    <| recv ::= fun c => c <| message_count := 0 |> |>
    <| replay_window ::= fun w => w <| seen := ∅ |> |>.

(** [cancel_pending_incoming_rekey]: every field of the slot but the monotonic
    stamp, which the code does not clear. *)
Definition cancel_pending_incoming_rekey (s : DoubleRatchetState) : DoubleRatchetState :=
  s <| incoming_proposal ::= fun p => {|
         in_root_key := None; in_sending_chain_key := None; in_receiving_chain_key := None;
         in_peer_x25519_pk := None; in_peer_mlkem_pk := None; in_generation_bump := false;
         in_carrier_seq := None; in_carrier_gen := None; in_attached_at_unix := None;
         in_attached_at_mono := in_attached_at_mono p |} |>.

Definition cancel_outgoing_rekey (s : DoubleRatchetState) : DoubleRatchetState :=
  s <| outgoing_proposal := default_outgoing |> <| rekey_pending_confirm_queue := [] |>.

Definition commit_pending_rekey (s : DoubleRatchetState) : DoubleRatchetState :=
  let p := incoming_proposal s in
  let s :=
    match in_root_key p, in_sending_chain_key p, in_receiving_chain_key p with
    | Some pk, Some psk, Some prk =>
        let s := retain_previous_receiving_chain s in
        let s := s <| root_key := pk |>
                   <| send ::= fun c => c <| key := psk |> |>
                   <| recv ::= fun c => c <| key := prk |> |> in
        let s := match in_peer_x25519_pk p with
                 | Some xpk => s <| peer_x25519_pk := Some xpk |>
                 | None => s
                 end in
        let s := match in_peer_mlkem_pk p with
                 | Some mpk => s <| peer_mlkem_pk := Some mpk |>
                 | None => s
                 end in
        let s := if in_generation_bump p
                 then s <| ratchet_generation ::= fun g => sat_add32 g 1 |>
                 else s in
        reset_generation_counters s
    | _, _, _ => s
    end in
  let s := s <| pending_rekey_ack_seq ::= fun a =>
                  match a with None => in_carrier_seq p | Some _ => a end |> in
  cancel_pending_incoming_rekey s.

Definition commit_pending_rekey_with_race_resolution (s : DoubleRatchetState) : DoubleRatchetState :=
  let s := if is_some (out_root_key (outgoing_proposal s)) then cancel_outgoing_rekey s else s in
  commit_pending_rekey s.

(** [push_back] then [pop_front] while longer than the cap. *)
Definition push_bounded (cap : Z) (p : HybridKeyPair) (l : list HybridKeyPair) : list HybridKeyPair :=
  let l' := l ++ [p] in drop (Z.to_nat (len l' - cap)) l'.

Definition commit_outgoing_rekey (s : DoubleRatchetState) : DoubleRatchetState :=
  let p := outgoing_proposal s in
  let s :=
    match out_root_key p, out_sending_chain_key p, out_receiving_chain_key p with
    | Some ok, Some osk, Some ork =>
        let s := retain_previous_receiving_chain s in
        let s := s <| root_key := ok |>
                   <| send ::= fun c => c <| key := osk |> |>
                   <| recv ::= fun c => c <| key := ork |> |> in
        let s := match out_hybrid_pair p with
                 | Some new_pair =>
                     s <| previous_keypairs ::= push_bounded (max_key_history s) (our_hybrid_pair s) |>
                       <| our_hybrid_pair := new_pair |>
                       <| ratchet_generation ::= fun g => sat_add32 g 1 |>
                 | None => s
                 end in
        reset_generation_counters s
    | _, _, _ => s
    end in
  s <| outgoing_proposal := default_outgoing |> <| rekey_pending_confirm_queue := [] |>.

(** ** Acknowledgements *)

Definition stamp_incoming_proposal_attached_at (clk : Clock) (p : IncomingProposal) : IncomingProposal :=
  let p := match in_attached_at_unix p with
           | None => p <| in_attached_at_unix := Some (now_unix clk) |>
           | Some _ => p
           end in
  match in_attached_at_mono p with
  | None => p <| in_attached_at_mono := Some (now_mono clk) |>
  | Some _ => p
  end.

Definition take_pending_rekey_ack_seq (s : DoubleRatchetState) : option Z * DoubleRatchetState :=
  (pending_rekey_ack_seq s,
   s <| pending_rekey_ack_seq := None |>
     <| incoming_proposal ::= fun p => p <| in_carrier_seq := None |> |>
     <| peeked_ack_cache := None |>).

Definition process_rekey_ack (seq : Z) (s : DoubleRatchetState) : bool * DoubleRatchetState :=
  match list_find (fun c => carrier_seq c = seq) (rekey_pending_confirm_queue s) with
  | Some (idx, _) =>
      (true, commit_outgoing_rekey (s <| rekey_pending_confirm_queue ::= delete idx |>))
  | None => (false, s)
  end.

(** [assert_confirm_queue_invariant], the two debug assertions. *)
Definition confirm_queue_invariant (s : DoubleRatchetState) : bool :=
  (outgoing_is_pending (outgoing_proposal s) || (len (rekey_pending_confirm_queue s) =? 0))
  && (len (rekey_pending_confirm_queue s) <=? 1).

(** ** The replay window is bounded *)

Lemma fold_min_gen_in (g : Z) (l : list (Z * Z)) :
  fold_right (fun p m => Z.min (fst p) m) g l ∈ g :: l.*1.
Proof.
  induction l as [|p l IH]; cbn [fold_right fmap list_fmap]; [set_solver|].
  destruct (Z.min_spec (fst p) (fold_right (fun p m => Z.min (fst p) m) g l)) as [[_ ->]|[_ ->]]; set_solver.
Qed.

(** The lowest generation is one that occurs. *)
Lemma min_gen_in (s : gset (Z * Z)) : s <> ∅ -> exists g q, min_gen s = Some g /\ (g, q) ∈ s.
Proof.
  intros Hs. unfold min_gen. destruct (elements s) as [|[g q] l] eqn:E.
  - apply elements_empty_inv in E. set_solver.
  - assert (forall x, x ∈ g :: l.*1 -> exists y, (x, y) ∈ s) as Hin.
    { intros x Hx. change (g :: l.*1) with (((g, q) :: l).*1) in Hx. rewrite <- E in Hx.
      apply list_elem_of_fmap in Hx as ([a b] & -> & Hx). exists b. by apply elem_of_elements. }
    destruct (Hin _ (fold_min_gen_in g l)) as [y Hy]. eauto.
Qed.

(** A turn of the eviction loop removes something: the branch for [removed = 0]
    is never taken. *)
Lemma evict_removes (s : gset (Z * Z)) g q :
  (g, q) ∈ s -> (size (filter (fun p => fst p <> g) s) < size s)%nat.
Proof.
  intros Hin. apply subset_size. split; [set_solver|].
  intros Hsub. apply Hsub in Hin. apply elem_of_filter in Hin as [H _]. done.
Qed.

Lemma evict_turn (s : gset (Z * Z)) g q fuel :
  SEEN_SET_MAX < seen_len s -> min_gen s = Some g -> (g, q) ∈ s ->
  evict_loop (S fuel) s = evict_loop fuel (filter (fun p => fst p <> g) s).
Proof.
  intros Hlt Hm Hin. pose proof (evict_removes _ _ _ Hin). cbn [evict_loop].
  rewrite (proj2 (Z.leb_gt _ _)) by done. rewrite Hm.
  rewrite (proj2 (Z.eqb_neq _ _)); [done|]. unfold seen_len. lia.
Qed.

Lemma big_not_empty (s : gset (Z * Z)) : SEEN_SET_MAX < seen_len s -> s <> ∅.
Proof. intros H ->. unfold seen_len in H. rewrite size_empty in H. compute in H. done. Qed.

Lemma evict_loop_bound (fuel : nat) (s : gset (Z * Z)) :
  (size s <= fuel)%nat -> seen_len (evict_loop fuel s) <= SEEN_SET_MAX.
Proof.
  revert s. induction fuel as [|fuel IH]; intros s Hf.
  - assert (size s = 0%nat) as H0 by lia. cbn [evict_loop]. unfold seen_len. rewrite H0. done.
  - destruct (Z.leb_spec (seen_len s) SEEN_SET_MAX) as [Hle|Hlt].
    + cbn [evict_loop]. by rewrite (proj2 (Z.leb_le _ _)).
    + destruct (min_gen_in s (big_not_empty _ Hlt)) as (g & q & Hm & Hin).
      rewrite (evict_turn _ _ _ _ Hlt Hm Hin). apply IH. pose proof (evict_removes _ _ _ Hin). lia.
Qed.

Lemma evict_loop_sub (fuel : nat) (s : gset (Z * Z)) : evict_loop fuel s ⊆ s.
Proof.
  revert s. induction fuel as [|fuel IH]; intros s; cbn [evict_loop]; [done|].
  repeat case_match; try done; (etransitivity; [apply IH|]); [|set_solver].
  unfold evict_lowest. set_solver.
Qed.

Lemma record_delivered_bound g q w : seen_len (seen (record_delivered g q w)) <= SEEN_SET_MAX.
Proof.
  unfold record_delivered. case_match eqn:E; destruct w; simpl in *.
  - by apply Z.leb_le in E.
  - by apply evict_loop_bound.
Qed.

Lemma record_delivered_sub g q w : seen (record_delivered g q w) ⊆ {[(g, q)]} ∪ seen w.
Proof. unfold record_delivered. case_match; destruct w; simpl; [done|apply evict_loop_sub]. Qed.

(** Below the cap nothing is evicted. *)
Lemma record_delivered_small g q w :
  seen_len (seen w) < SEEN_SET_MAX -> seen (record_delivered g q w) = {[(g, q)]} ∪ seen w.
Proof.
  intros H. unfold record_delivered. rewrite (proj2 (Z.leb_le _ _)); [by destruct w|].
  assert (size ({[(g, q)]} ∪ seen w) <= 1 + size (seen w))%nat.
  { rewrite size_union_alt, size_singleton.
    assert (size (seen w ∖ {[(g, q)]}) <= size (seen w))%nat by (apply subseteq_size; set_solver). lia. }
  unfold seen_len in *. lia.
Qed.

Lemma record_delivered_watermark g q w :
  prev_gen_highest_delivered (record_delivered g q w) = prev_gen_highest_delivered w.
Proof. unfold record_delivered. case_match; by destruct w. Qed.
