(* ===== verification/RatchetChain.v ===== *)
(** * RatchetChain: symmetric chains and the skip-key cache
    (core-crypto/src/crypto/ratchet/resync.rs, derive.rs)

    A receiving chain is stepped with HKDF; the keys of skipped positions go to
    a cache keyed by (generation, sequence number).  The specification of a
    chain is [chain_at]/[msg_at]: the chain key and the message key at a
    position. *)

From S2P Require Import Prelude Error Primitives Aead RatchetState.

Section Chain.
Context `{P : Primitives}.

(** One HKDF step from a chain key. *)
Definition expand_msg_key (ck : bytes) : kres bytes :=
  hkdf_expand (Some ck) (bstr "step") (bstr "kyberpipe-msg-key") 32.
Definition expand_next_chain (ck : bytes) : kres bytes :=
  hkdf_expand (Some ck) (bstr "step") (bstr "kyberpipe-next-chain") 32.

(** The loop shared by the receiving paths: for each position in the list, the
    message key goes to the map and the chain key advances. *)
Fixpoint skip_loop (generation : Z) (seqs : list Z) (ck : bytes) (skip_keys : SkipKeyMap)
  : kres (bytes * SkipKeyMap) :=
  match seqs with
  | [] => Ok (ck, skip_keys)
  | skip_seq :: seqs' =>
      skip_key ← expand_msg_key ck;
      ck' ← expand_next_chain ck;
      skip_loop generation seqs' ck' (<[(generation, skip_seq) := skip_key]> skip_keys)
  end.

(** The loop that only advances the chain key. *)
Fixpoint chain_loop (seqs : list Z) (ck : bytes) : kres bytes :=
  match seqs with
  | [] => Ok ck
  | _ :: seqs' => ck' ← expand_next_chain ck; chain_loop seqs' ck'
  end.

(** The range [from..to]. *)
Definition range (from to : Z) : list Z := seqZ from (to - from).

Definition gap_exceeds (base target skip_cap : Z) : bool :=
  (base <? target) && (skip_cap <? target - base).

Definition advance_receiving_chain (recv_chain_key : bytes) (base_seq target_seq generation skip_cap : Z)
  : kres (bytes * SkipKeyMap) :=
  if gap_exceeds base_seq target_seq skip_cap
  then Err (SessionDesynchronized "Sequence gap {} exceeds max_skip {}")
  else
    r ← skip_loop generation (range base_seq target_seq) recv_chain_key ∅;
    next_ck ← expand_next_chain (fst r);
    Ok (next_ck, snd r).

Definition derive_tentative_msg_key (recv_chain_key : bytes) (recv_message_count target_seq skip_cap : Z)
  : kres bytes :=
  if gap_exceeds recv_message_count target_seq skip_cap
  then Err (CryptoError "Tentative derivation gap {} exceeds max_skip {}")
  else
    ck ← chain_loop (range recv_message_count target_seq) recv_chain_key;
    expand_msg_key ck.

(** The lexicographic minimum of the cached positions. *)
Definition pair_min (a b : Z * Z) : Z * Z := if decide (pair_le a b) then a else b.
Definition min_key (m : SkipKeyMap) : option (Z * Z) :=
  match map_to_list m with
  | [] => None
  | (k, _) :: l => Some (fold_right (fun p acc => pair_min (fst p) acc) k l)
  end.

(** [retain] of [prune_skip_keys]. *)
Definition keep_generation (current_gen gen : Z) : bool :=
  (gen =? current_gen) || ((0 <? current_gen) && (gen =? current_gen - 1))
  || ((current_gen =? u32_max) && (gen =? u32_max)).

(** [while store.len() > budget]; a turn removes one entry, so the number of
    entries is enough fuel (lemma [prune_loop_size]). *)
Fixpoint prune_loop (fuel : nat) (budget : Z) (store : SkipKeyMap) : SkipKeyMap :=
  match fuel with
  | O => store
  | S fuel' =>
      if budget <? Z.of_nat (size store)
      then prune_loop fuel' budget (delete (default (0, 0) (min_key store)) store)
      else store
  end.

Definition prune_skip_keys (current_gen budget : Z) (store : SkipKeyMap) : SkipKeyMap :=
  let store := filter (fun kv => keep_generation current_gen (fst (fst kv)) = true) store in
  prune_loop (size store) budget store.

(** [try_decrypt_with_cached_key]: the key is removed only once the message has
    authenticated. *)
Definition try_decrypt_with_cached_key (nonce_gen seq : Z) (nonce ciphertext aad : bytes)
  : Comp KyberError SkipKeyMap (option bytes) :=
  fun store =>
    match store !! (nonce_gen, seq) with
    | None => (Ok None, store)
    | Some cached_key =>
        match decrypt_chacha20 cached_key nonce ciphertext aad with
        | Ok plaintext => (Ok (Some plaintext), delete (nonce_gen, seq) store)
        | Err e => (Err e, store)
        | Panic m => (Panic m, store)
        end
    end.

(** ** Specification of a chain *)

Definition next_ck (ck : bytes) : bytes :=
  hkdf_okm (Some ck) (bstr "step") (bstr "kyberpipe-next-chain") 32.
Definition msg_key (ck : bytes) : bytes :=
  hkdf_okm (Some ck) (bstr "step") (bstr "kyberpipe-msg-key") 32.

(** The chain key [n] steps after [ck], and the message key of that position. *)
Definition chain_at (ck : bytes) (n : nat) : bytes := Nat.iter n next_ck ck.
Definition msg_at (ck : bytes) (n : nat) : bytes := msg_key (chain_at ck n).

(** The keys of the [n] positions from [base]. *)
Fixpoint range_keys (generation base : Z) (n : nat) (ck : bytes) : SkipKeyMap :=
  match n with
  | O => ∅
  | S n' => <[(generation, base) := msg_key ck]> (range_keys generation (base + 1) n' (next_ck ck))
  end.

(** ** Lemmas *)

Lemma expand_msg_key_ok ck : expand_msg_key ck = Ok (msg_key ck).
Proof. apply hkdf_expand_32. Qed.
Lemma expand_next_chain_ok ck : expand_next_chain ck = Ok (next_ck ck).
Proof. apply hkdf_expand_32. Qed.

Lemma chain_at_S ck n : chain_at ck (S n) = chain_at (next_ck ck) n.
Proof. unfold chain_at. by rewrite Nat.iter_succ_r. Qed.
Lemma chain_at_add ck n m : chain_at (chain_at ck n) m = chain_at ck (n + m).
Proof. unfold chain_at. by rewrite (Nat.add_comm n), Nat.iter_add. Qed.
Lemma next_ck_chain_at ck n : next_ck (chain_at ck n) = chain_at ck (S n).
Proof. done. Qed.

Lemma range_S from n : seqZ from (Z.of_nat (S n)) = from :: seqZ (from + 1) (Z.of_nat n).
Proof. rewrite seqZ_cons by lia. f_equal. f_equal; lia. Qed.

Lemma range_nat from to : range from to = seqZ from (Z.of_nat (Z.to_nat (to - from))).
Proof.
  unfold range. destruct (decide (0 <= to - from)); [by rewrite Z2Nat.id|].
  rewrite (seqZ_nil _ (to - from)) by lia. by rewrite seqZ_nil by lia.
Qed.

Lemma chain_loop_ok n from ck : chain_loop (seqZ from (Z.of_nat n)) ck = Ok (chain_at ck n).
Proof.
  revert from ck. induction n as [|n IH]; intros from ck; [done|].
  rewrite range_S. cbn [chain_loop]. rewrite expand_next_chain_ok. cbn [mbind result_bind].
  by rewrite IH, chain_at_S.
Qed.

Lemma range_keys_lookup generation n base ck g q :
  range_keys generation base n ck !! (g, q) =
  if decide (g = generation /\ base <= q < base + Z.of_nat n)
  then Some (msg_at ck (Z.to_nat (q - base))) else None.
Proof.
  revert base ck. induction n as [|n IH]; intros base ck; cbn [range_keys].
  - rewrite lookup_empty. case_decide; [lia|done].
  - destruct (decide ((generation, base) = (g, q))) as [[= <- <-]|Hne].
    + rewrite lookup_insert_eq, decide_True by lia. by rewrite Z.sub_diag.
    + rewrite lookup_insert_ne, IH by done. repeat case_decide; try done; try lia.
      * unfold msg_at. replace (Z.to_nat (q - base)) with (S (Z.to_nat (q - (base + 1)))) by lia.
        by rewrite chain_at_S.
      * destruct (decide (q = base)); [naive_solver|lia].
Qed.

Lemma skip_loop_ok generation n base ck m :
  skip_loop generation (seqZ base (Z.of_nat n)) ck m
  = Ok (chain_at ck n, range_keys generation base n ck ∪ m).
Proof.
  revert base ck m. induction n as [|n IH]; intros base ck m.
  - simpl. by rewrite (left_id_L ∅ (∪)).
  - rewrite range_S. cbn [skip_loop]. rewrite expand_msg_key_ok, expand_next_chain_ok.
    cbn [mbind result_bind]. rewrite IH, chain_at_S. do 2 f_equal. cbn [range_keys].
    rewrite <- insert_union_l, insert_union_r; [done|].
    rewrite range_keys_lookup. case_decide; [lia|done].
Qed.

(** A gap within the cap: the chain ends just after the target and the cache gets
    the keys of the positions before it. *)
Lemma advance_receiving_chain_ok ck base target generation cap :
  gap_exceeds base target cap = false ->
  let n := Z.to_nat (target - base) in
  advance_receiving_chain ck base target generation cap
  = Ok (chain_at ck (S n), range_keys generation base n ck).
Proof.
  intros Hg n. unfold advance_receiving_chain. rewrite Hg, range_nat, skip_loop_ok.
  cbn [mbind result_bind fst snd]. rewrite expand_next_chain_ok. cbn [mbind result_bind].
  by rewrite (right_id_L ∅ (∪)).
Qed.

Lemma derive_tentative_msg_key_ok ck base target cap :
  gap_exceeds base target cap = false ->
  derive_tentative_msg_key ck base target cap = Ok (msg_at ck (Z.to_nat (target - base))).
Proof.
  intros Hg. unfold derive_tentative_msg_key. rewrite Hg, range_nat, chain_loop_ok.
  cbn [mbind result_bind]. by rewrite expand_msg_key_ok.
Qed.

Lemma derive_tentative_msg_key_gap ck base target cap k :
  derive_tentative_msg_key ck base target cap = Ok k -> gap_exceeds base target cap = false.
Proof. unfold derive_tentative_msg_key. by destruct (gap_exceeds _ _ _). Qed.

(** ** The cache bound *)

Lemma pair_le_trans a b c : pair_le a b -> pair_le b c -> pair_le a c.
Proof. unfold pair_le. lia. Qed.
Lemma pair_le_total a b : pair_le a b \/ pair_le b a.
Proof. unfold pair_le. lia. Qed.
Lemma pair_le_refl a : pair_le a a.
Proof. unfold pair_le. lia. Qed.

Lemma pair_min_cases a b : pair_min a b = a \/ pair_min a b = b.
Proof. unfold pair_min. case_decide; auto. Qed.
Lemma pair_min_le a b : pair_le (pair_min a b) a /\ pair_le (pair_min a b) b.
Proof.
  unfold pair_min. case_decide; split; auto using pair_le_refl.
  by destruct (pair_le_total a b).
Qed.

Lemma fold_min_in (k : Z * Z) (l : list ((Z * Z) * bytes)) :
  fold_right (fun p acc => pair_min (fst p) acc) k l ∈ k :: l.*1.
Proof.
  induction l as [|p l IH]; cbn [fold_right]; [set_solver|].
  destruct (pair_min_cases (fst p) (fold_right (fun p acc => pair_min (fst p) acc) k l)) as [->| ->];
    set_solver.
Qed.

Lemma fold_min_le (k : Z * Z) (l : list ((Z * Z) * bytes)) x :
  x ∈ k :: l.*1 -> pair_le (fold_right (fun p acc => pair_min (fst p) acc) k l) x.
Proof.
  induction l as [|p l IH]; cbn [fold_right fmap list_fmap].
  - intros ->%list_elem_of_singleton. apply pair_le_refl.
  - set (r := fold_right _ _ _) in *. destruct (pair_min_le (fst p) r) as [H1 H2].
    intros [->|[->|Hx]%elem_of_cons]%elem_of_cons; [|done|].
    + eapply pair_le_trans; [done|]. apply IH. set_solver.
    + eapply pair_le_trans; [done|]. apply IH. set_solver.
Qed.

Lemma min_key_spec (m : SkipKeyMap) :
  m <> ∅ -> exists k, min_key m = Some k /\ is_Some (m !! k) /\ forall k', is_Some (m !! k') -> pair_le k k'.
Proof.
  intros Hm. unfold min_key. destruct (map_to_list m) as [|[k v] l] eqn:E.
  - by apply map_to_list_empty_iff in E.
  - assert (forall x, x ∈ k :: l.*1 <-> is_Some (m !! x)) as Hin.
    { intros x. change (k :: l.*1) with (((k, v) :: l).*1). rewrite <- E.
      rewrite list_elem_of_fmap. split.
      - intros ([k0 v0] & -> & H). apply elem_of_map_to_list in H. by exists v0.
      - intros [v0 H]. exists (x, v0). split; [done|]. by apply elem_of_map_to_list. }
    eexists. split; [done|]. split.
    + apply Hin, fold_min_in.
    + intros k' Hk. by apply fold_min_le, Hin.
Qed.

(** The loop ends within the budget. *)
Lemma prune_loop_size (fuel : nat) (budget : Z) (m : SkipKeyMap) :
  0 <= budget -> (size m <= fuel)%nat -> Z.of_nat (size (prune_loop fuel budget m)) <= budget.
Proof.
  intros Hb. revert m. induction fuel as [|fuel IH]; intros m Hs; cbn [prune_loop]; [lia|].
  destruct (Z.ltb_spec budget (Z.of_nat (size m))) as [Hlt|]; [|lia].
  destruct (min_key_spec m) as (k & -> & [v Hv] & _).
  { intros ->. rewrite map_size_empty in Hlt. lia. }
  apply IH. simpl. rewrite map_size_delete_Some by eauto. lia.
Qed.

Lemma prune_loop_sub (fuel : nat) (budget : Z) (m : SkipKeyMap) : prune_loop fuel budget m ⊆ m.
Proof.
  revert m. induction fuel as [|fuel IH]; intros m; cbn [prune_loop]; [done|].
  case_match; [|done]. etransitivity; [apply IH|]. apply delete_subseteq.
Qed.

(** What is dropped is below what is kept. *)
Lemma prune_loop_lowest (fuel : nat) (budget : Z) (m : SkipKeyMap) k k' :
  is_Some (m !! k) -> prune_loop fuel budget m !! k = None ->
  is_Some (prune_loop fuel budget m !! k') -> pair_le k k'.
Proof.
  revert m. induction fuel as [|fuel IH]; intros m Hk Hn Hk'; cbn [prune_loop] in *.
  - rewrite Hn in Hk. by destruct Hk.
  - destruct (budget <? Z.of_nat (size m)); [|rewrite Hn in Hk; by destruct Hk].
    destruct (min_key_spec m) as (k0 & Hmin & Hk0 & Hle).
    { intros ->. rewrite lookup_empty in Hk. by destruct Hk. }
    rewrite Hmin in *. simpl in *. destruct (decide (k0 = k)) as [->|Hne].
    + apply Hle. destruct Hk' as [v Hv]. apply (lookup_weaken _ m) in Hv; [eauto|].
      etransitivity; [apply prune_loop_sub|]. apply delete_subseteq.
    + apply (IH (delete k0 m)); [by rewrite lookup_delete_ne by done|done|done].
Qed.

Lemma prune_loop_small (fuel : nat) (budget : Z) (m : SkipKeyMap) :
  Z.of_nat (size m) <= budget -> prune_loop fuel budget m = m.
Proof. intros H. destruct fuel; cbn [prune_loop]; [done|]. by rewrite (proj2 (Z.ltb_ge _ _)) by lia. Qed.

Lemma prune_skip_keys_size (g budget : Z) (m : SkipKeyMap) :
  0 <= budget -> Z.of_nat (size (prune_skip_keys g budget m)) <= budget.
Proof. intros. by apply prune_loop_size. Qed.

Lemma prune_skip_keys_sub (g budget : Z) (m : SkipKeyMap) : prune_skip_keys g budget m ⊆ m.
Proof. unfold prune_skip_keys. etransitivity; [apply prune_loop_sub|]. apply map_filter_subseteq. Qed.

Lemma prune_skip_keys_lookup (g budget : Z) (m : SkipKeyMap) k v :
  prune_skip_keys g budget m !! k = Some v -> m !! k = Some v /\ keep_generation g (fst k) = true.
Proof.
  intros H. split; [eapply lookup_weaken; [done|apply prune_skip_keys_sub]|].
  unfold prune_skip_keys in H. eapply lookup_weaken in H; [|apply prune_loop_sub].
  by apply map_lookup_filter_Some in H as [_ H].
Qed.

(** Nothing of the kept generations is lost when the cache is within budget. *)
Lemma prune_skip_keys_small (g budget : Z) (m : SkipKeyMap) k v :
  Z.of_nat (size m) <= budget -> m !! k = Some v -> keep_generation g (fst k) = true ->
  prune_skip_keys g budget m !! k = Some v.
Proof.
  intros Hs Hk Hg. unfold prune_skip_keys. rewrite prune_loop_small.
  - apply map_lookup_filter_Some. done.
  - assert (size (filter (fun kv : (Z * Z) * bytes => keep_generation g kv.1.1 = true) m) <= size m)%nat
      by (apply map_size_filter). lia.
Qed.

(** An over-full cache is cut to exactly the budget. *)
Lemma prune_loop_exact (fuel : nat) (budget : Z) (m : SkipKeyMap) :
  0 <= budget -> (size m <= fuel)%nat -> budget <= Z.of_nat (size m) ->
  Z.of_nat (size (prune_loop fuel budget m)) = budget.
Proof.
  intros Hb. revert m. induction fuel as [|fuel IH]; intros m Hs Hm; cbn [prune_loop]; [lia|].
  destruct (Z.ltb_spec budget (Z.of_nat (size m))) as [Hlt|]; [|lia].
  destruct (min_key_spec m) as (k & -> & [v Hv] & _).
  { intros ->. rewrite map_size_empty in Hlt. lia. }
  simpl. apply IH; rewrite map_size_delete_Some by eauto; lia.
Qed.

(** A key survives when fewer than the budget are at or above it. *)
Lemma prune_skip_keys_keeps (g budget : Z) (m : SkipKeyMap) k v :
  0 <= budget -> m !! k = Some v -> keep_generation g (fst k) = true ->
  Z.of_nat (size (filter (fun kv => pair_le k (fst kv)) m)) <= budget ->
  prune_skip_keys g budget m !! k = Some v.
Proof.
  intros Hb Hk Hg Hsz. unfold prune_skip_keys.
  set (m1 := filter (fun kv : (Z * Z) * bytes => keep_generation g kv.1.1 = true) m).
  assert (m1 !! k = Some v) as Hk1 by (by apply map_lookup_filter_Some).
  destruct (prune_loop (size m1) budget m1 !! k) as [v'|] eqn:E.
  { pose proof (lookup_weaken _ _ _ _ E (prune_loop_sub _ _ _)). congruence. }
  exfalso. set (p := prune_loop (size m1) budget m1) in *.
  destruct (decide (Z.of_nat (size m1) <= budget)) as [Hle|Hgt].
  { subst p. rewrite prune_loop_small in E by done. congruence. }
  assert (Z.of_nat (size p) = budget) as Hp by (apply prune_loop_exact; lia).
  assert (<[k := v]> p ⊆ filter (fun kv : (Z * Z) * bytes => pair_le k (fst kv)) m) as Hsub.
  { apply insert_subseteq_l.
    - apply map_lookup_filter_Some. split; [done|apply pair_le_refl].
    - apply map_subseteq_spec. intros k' v' Hk'. apply map_lookup_filter_Some. split.
      + eapply lookup_weaken; [exact Hk'|]. etransitivity; [apply prune_loop_sub|]. apply map_filter_subseteq.
      + simpl. apply (prune_loop_lowest (size m1) budget m1 k k'); [by exists v|exact E|by exists v']. }
  apply map_subseteq_size in Hsub. rewrite map_size_insert_None in Hsub by done. lia.
Qed.

(** Pruning leaves at most the budget of keys, only keys of the current and
    the previous generation, and drops lowest positions first: a dropped key
    of a kept generation is below every kept one, and when nothing is over
    budget no key of a kept generation is lost. *)
Theorem prune_correct (g budget : Z) (m : SkipKeyMap) :
  0 <= budget ->
  let m' := prune_skip_keys g budget m in
  Z.of_nat (size m') <= budget
  /\ (forall k v, m' !! k = Some v -> m !! k = Some v /\ keep_generation g (fst k) = true)
  /\ (forall k k', is_Some (m !! k) -> keep_generation g (fst k) = true -> m' !! k = None ->
                   is_Some (m' !! k') -> pair_le k k')
  /\ (forall k v, Z.of_nat (size m) <= budget -> m !! k = Some v -> keep_generation g (fst k) = true ->
                  m' !! k = Some v).
Proof.
  intros Hb. cbv zeta. split; [by apply prune_skip_keys_size|].
  split; [intros k v; apply prune_skip_keys_lookup|].
  split; [|intros k v; apply prune_skip_keys_small].
  intros k k' [v Hk] Hg Hn Hk'. unfold prune_skip_keys in *.
  eapply prune_loop_lowest; [|exact Hn|exact Hk']. exists v. by apply map_lookup_filter_Some.
Qed.

(** The three walks of a receiving chain compute the specification: within
    the skip cap, the advance returns the chain key just after the target and
    exactly the keys of the positions before it, the tentative derivation the
    key of the target; beyond the cap both refuse. *)
Theorem chain_walks ck base target generation cap :
  let n := Z.to_nat (target - base) in
  advance_receiving_chain ck base target generation cap
  = (if gap_exceeds base target cap
     then Err (SessionDesynchronized "Sequence gap {} exceeds max_skip {}")
     else Ok (chain_at ck (S n), range_keys generation base n ck))
  /\ derive_tentative_msg_key ck base target cap
  = (if gap_exceeds base target cap
     then Err (CryptoError "Tentative derivation gap {} exceeds max_skip {}")
     else Ok (msg_at ck n)).
Proof.
  cbv zeta. destruct (gap_exceeds base target cap) eqn:E.
  - unfold advance_receiving_chain, derive_tentative_msg_key. by rewrite E.
  - by rewrite advance_receiving_chain_ok, derive_tentative_msg_key_ok.
Qed.

End Chain.

Definition cache3 : SkipKeyMap :=
  <[(4, 7) := [x01]]> (<[(5, 1) := [x02]]> (<[(5, 9) := [x03]]> (<[(1, 1) := [x04]]> ∅))).

Lemma prune_correct_witness :
  prune_skip_keys 5 2 cache3 = <[(5, 1) := [x02]]> (<[(5, 9) := [x03]]> ∅)
  /\ Z.of_nat (size (prune_skip_keys 5 2 cache3)) <= 2.
Proof. split; [by vm_compute|]. apply (prune_correct 5 2 cache3). lia. Defined.
