(* ===== verification/RatchetEncrypt.v ===== *)
(** * RatchetEncrypt: the sending path
    (core-crypto/src/crypto/ratchet/encrypt.rs, derive.rs)

    [ratchet_encrypt] with its rekey staging and re-send, and the explicit
    [dh_ratchet_rekey].  The send counter is incremented before anything can
    fail; additions on [u64] wrap, as in a release build.  The debug assertion
    at the end of [ratchet_encrypt] is [confirm_queue_invariant], which
    RatchetInvariant shows to hold there. *)

From S2P Require Import Prelude Error Primitives Aead Kem Tlv RatchetState RatchetChain.

(** A computation on the session state. *)
Abbreviation ratchet := (Comp KyberError DoubleRatchetState).

(** The randomness of one rekey: the new keypair's and the encapsulation's. *)
Record RekeyCoins := { coins_pair : KemCoins; coins_encap : KemCoins }.

(** The rekey fields of a message: x25519 key, ML-KEM key, ciphertext. *)
Record RekeyFields := {
  rk_x25519_pk : option bytes;
  rk_mlkem_pk : option bytes;
  rk_ciphertext : option bytes
}.
Definition no_rekey : RekeyFields :=
  {| rk_x25519_pk := None; rk_mlkem_pk := None; rk_ciphertext := None |}.
Definition rekey_fields (xpk mpk ct : bytes) : RekeyFields :=
  {| rk_x25519_pk := Some xpk; rk_mlkem_pk := Some mpk; rk_ciphertext := Some ct |}.

(** [u64::is_multiple_of]. *)
Definition is_multiple_of (n m : Z) : bool := if m =? 0 then n =? 0 else n mod m =? 0.

Definition retry_due (clk : Clock) (c : RekeyCarrier) : bool :=
  secs REKEY_RETRY_TTL_SECS <=? carrier_effective_age clk c.

(** The [retain] over the confirm queue: every due carrier is dropped, the first
    one is the re-send source. *)
Definition evict_due_carriers (clk : Clock) : ratchet (option RekeyCarrier) :=
  fun s =>
    let q := rekey_pending_confirm_queue s in
    (Ok (head (filter (fun c => retry_due clk c = true) q)),
     s <| rekey_pending_confirm_queue := filter (fun c => retry_due clk c = false) q |>).

Definition proposal_pending (s : DoubleRatchetState) : bool :=
  is_some (out_root_key (outgoing_proposal s)) || is_some (in_root_key (incoming_proposal s)).

Definition should_rekey (seq : Z) (s : DoubleRatchetState) : bool :=
  (0 <? seq) && is_multiple_of seq (rekey_interval s)
  && (len (rekey_pending_confirm_queue s) =? 0) && negb (proposal_pending s).

(** A carrier for the message at [seq], staged now. *)
Definition new_carrier (clk : Clock) (seq : Z) (xpk mpk ct : bytes) : RekeyCarrier := {|
  carrier_seq := seq; attached_at := now_mono clk; attached_at_unix := now_unix clk;
  first_attached_at := now_mono clk; first_attached_at_unix := now_unix clk;
  car_rekey_x25519_pk := xpk; car_rekey_mlkem_pk := mpk; car_rekey_ciphertext := ct |}.

(** The same proposal on a later message: the first-staged stamps stay. *)
Definition resent_carrier (clk : Clock) (seq : Z) (c : RekeyCarrier) : RekeyCarrier := {|
  carrier_seq := seq; attached_at := now_mono clk; attached_at_unix := now_unix clk;
  first_attached_at := first_attached_at c; first_attached_at_unix := first_attached_at_unix c;
  car_rekey_x25519_pk := car_rekey_x25519_pk c; car_rekey_mlkem_pk := car_rekey_mlkem_pk c;
  car_rekey_ciphertext := car_rekey_ciphertext c |}.

Definition push_carrier (c : RekeyCarrier) (s : DoubleRatchetState) : DoubleRatchetState :=
  s <| rekey_pending_confirm_queue ::= fun q => q ++ [c] |>.

Section Encrypt.
Context `{P : Primitives}.

(** The three expansions of a rekey: next root, next sending and next receiving
    chain of the side that proposes. *)
Definition derive_rekey (root ss : bytes) : kres (bytes * bytes * bytes) :=
  new_root ← hkdf_expand (Some root) ss (bstr "kyberpipe-next-root-key") 32;
  new_send ← hkdf_expand (Some root) ss (bstr "kyberpipe-next-send-chain-from-rekey") 32;
  new_recv ← hkdf_expand (Some root) ss (bstr "kyberpipe-next-recv-chain-from-rekey") 32;
  Ok (new_root, new_send, new_recv).

Definition stage_proposal (keys : bytes * bytes * bytes) (pair : HybridKeyPair)
  (payload : bytes * bytes * bytes) : OutgoingProposal :=
  let '(r, sk, rk) := keys in
  {| out_root_key := Some r; out_sending_chain_key := Some sk; out_receiving_chain_key := Some rk;
     out_hybrid_pair := Some pair; out_rekey_payload := Some payload |}.

(** The branch that stages a new proposal on the message at [seq]. *)
Definition stage_rekey (clk : Clock) (coins : RekeyCoins) (seq : Z) (peer_xpk peer_mpk : bytes)
  : ratchet RekeyFields :=
  let our_new := generate_hybrid_keypair (coins_pair coins) in
  let new_x25519_pk := x25519_pk our_new in
  let new_mlkem_pk := mlkem_pk our_new in
  kem_res ← lift (encapsulate_hybrid peer_xpk peer_mpk (coins_encap coins));
  root ← gets root_key;
  keys ← lift (derive_rekey root (combined_shared_secret kem_res));
  let ct := ciphertext_bytes kem_res in
  _ ← modify (fun s => s <| outgoing_proposal :=
                           stage_proposal keys our_new (new_x25519_pk, new_mlkem_pk, ct) |>);
  _ ← modify (push_carrier (new_carrier clk seq new_x25519_pk new_mlkem_pk ct));
  mret (rekey_fields new_x25519_pk new_mlkem_pk ct).

(** The rekey fields of the message at [seq]. *)
Definition attach_rekey (clk : Clock) (coins : RekeyCoins) (seq : Z) (resend : option RekeyCarrier)
  : ratchet RekeyFields :=
  s ← get;
  match resend with
  | Some carrier =>
      _ ← modify (push_carrier (resent_carrier clk seq carrier));
      mret (rekey_fields (car_rekey_x25519_pk carrier) (car_rekey_mlkem_pk carrier)
                         (car_rekey_ciphertext carrier))
  | None =>
      if should_rekey seq s then
        match peer_x25519_pk s, peer_mlkem_pk s with
        | Some peer_xpk, Some peer_mpk => stage_rekey clk coins seq peer_xpk peer_mpk
        | _, _ => mret no_rekey
        end
      else mret no_rekey
  end.

Definition bump_send_count (s : DoubleRatchetState) : DoubleRatchetState :=
  s <| send ::= fun c => c <| message_count ::= fun n => wrap64 (n + 1) |> |>.

Definition ratchet_encrypt (clk : Clock) (coins : RekeyCoins) (plaintext : bytes)
  : ratchet RatchetEncryptedMessage :=
  seq ← gets (fun s => message_count (send s));
  _ ← modify bump_send_count;
  generation ← gets ratchet_generation;
  _ ← lift (guard_err (generation =? u32_max)
        (CryptoError "Ratchet generation {} reaches u32::MAX — nonce reuse risk. Re-pair required."));
  let nonce := generate_nonce_from_seq seq generation in
  resend ← evict_due_carriers clk;
  rk ← attach_rekey clk coins seq resend;
  aad ← lift (build_rekey_aad (rk_ciphertext rk) (rk_x25519_pk rk) (rk_mlkem_pk rk));
  ck ← gets (fun s => key (send s));
  msg_key ← lift (expand_msg_key ck);
  next ← lift (expand_next_chain ck);
  _ ← modify (fun s => s <| send ::= fun c => c <| key := next |> |>);
  ciphertext ← lift (encrypt_chacha20 msg_key nonce plaintext aad);
  mret {| msg_nonce := nonce; msg_ciphertext := ciphertext;
          msg_rekey_x25519_pk := rk_x25519_pk rk; msg_rekey_mlkem_pk := rk_mlkem_pk rk;
          msg_rekey_ciphertext := rk_ciphertext rk |}.

(** [dh_ratchet_rekey]: the payload staged carries the public keys it was
    given, those of the peer. *)
Definition dh_ratchet_rekey (clk : Clock) (coins : RekeyCoins) (peer_xpk peer_mpk : bytes)
  : ratchet HybridKemResult :=
  s ← get;
  _ ← lift (guard_err (outgoing_is_pending (outgoing_proposal s))
        (CryptoError "Outgoing rekey already pending — wait for the peer ACK before proposing again"));
  _ ← lift (guard_err (incoming_is_pending (incoming_proposal s))
        (CryptoError "An incoming rekey proposal is pending — resolve it before staging our own (single-slot serialization)"));
  kem_res ← lift (encapsulate_hybrid peer_xpk peer_mpk (coins_encap coins));
  keys ← lift (derive_rekey (root_key s) (combined_shared_secret kem_res));
  let new_pair := generate_hybrid_keypair (coins_pair coins) in
  let ct := ciphertext_bytes kem_res in
  _ ← modify (fun s => s <| outgoing_proposal := stage_proposal keys new_pair (peer_xpk, peer_mpk, ct) |>);
  _ ← modify (push_carrier (new_carrier clk 0 peer_xpk peer_mpk ct));
  mret kem_res.

(** ** Lemmas *)

Definition rekey_root (root ss : bytes) := hkdf_okm (Some root) ss (bstr "kyberpipe-next-root-key") 32.
Definition rekey_send (root ss : bytes) := hkdf_okm (Some root) ss (bstr "kyberpipe-next-send-chain-from-rekey") 32.
Definition rekey_recv (root ss : bytes) := hkdf_okm (Some root) ss (bstr "kyberpipe-next-recv-chain-from-rekey") 32.

Lemma derive_rekey_ok root ss :
  derive_rekey root ss = Ok (rekey_root root ss, rekey_send root ss, rekey_recv root ss).
Proof. unfold derive_rekey. by rewrite !hkdf_expand_32. Qed.

(** The state after [attach_rekey] differs in the outgoing slot and the confirm
    queue only; the fields it returns are all set or all empty. *)
Lemma attach_rekey_frame clk coins seq resend s r s' :
  attach_rekey clk coins seq resend s = (r, s') ->
  exists out q, s' = s <| outgoing_proposal := out |> <| rekey_pending_confirm_queue := q |>.
Proof.
  unfold attach_rekey, stage_rekey. munfold. intros E.
  destruct s; msplit; do 2 eexists; reflexivity.
Qed.

Lemma attach_rekey_aad clk coins seq resend s rk s' :
  attach_rekey clk coins seq resend s = (Ok rk, s') ->
  exists aad, build_rekey_aad (rk_ciphertext rk) (rk_x25519_pk rk) (rk_mlkem_pk rk) = Ok aad.
Proof.
  unfold attach_rekey, stage_rekey. munfold. intros E. msplit; eexists; reflexivity.
Qed.

Lemma ratchet_encrypt_frame clk coins pt s r s' :
  ratchet_encrypt clk coins pt s = (r, s') ->
  exists k out q, s' = s <| send := {| key := k; message_count := wrap64 (message_count (send s) + 1) |} |>
                         <| outgoing_proposal := out |> <| rekey_pending_confirm_queue := q |>
                  /\ (is_ok r = true -> k = next_ck (key (send s))).
Proof.
  unfold ratchet_encrypt, evict_due_carriers. munfold. cbv beta iota zeta.
  destruct (_ =? u32_max) eqn:Eg.
  { intros [= <- <-]. destruct s as [? [] ? ? ? ? ? ? ? ? ? ? ? ? ? ? ? ? ? ? ? ? ? ?].
    do 3 eexists. split; [reflexivity|done]. }
  destruct (attach_rekey _ _ _ _ _) as [r1 s1] eqn:Ea.
  apply attach_rekey_frame in Ea as (out & q & ->).
  rewrite expand_msg_key_ok, expand_next_chain_ok.
  destruct s as [? [] ? ? ? ? ? ? ? ? ? ? ? ? ? ? ? ? ? ? ? ? ? ?].
  intros E. msplit; eexists _, out, q; (split; [reflexivity|done]).
Qed.

(** What a successful encryption sends: the nonce of its position, the rekey
    fields bound as associated data, the text under the position's key. *)
Lemma ratchet_encrypt_ok clk coins pt s m s' :
  ratchet_encrypt clk coins pt s = (Ok m, s') ->
  ratchet_generation s <> u32_max
  /\ msg_nonce m = generate_nonce_from_seq (message_count (send s)) (ratchet_generation s)
  /\ exists aad,
       build_rekey_aad (msg_rekey_ciphertext m) (msg_rekey_x25519_pk m) (msg_rekey_mlkem_pk m) = Ok aad
       /\ encrypt_chacha20 (msg_key (key (send s))) (msg_nonce m) pt aad = Ok (msg_ciphertext m).
Proof.
  unfold ratchet_encrypt, evict_due_carriers. munfold. cbv beta iota zeta.
  destruct (_ =? u32_max) eqn:Eg; [done|].
  destruct (attach_rekey _ _ _ _ _) as [r1 s1] eqn:Ea.
  pose proof Ea as (out & q & ->)%attach_rekey_frame.
  rewrite expand_msg_key_ok, expand_next_chain_ok.
  destruct r1 as [rk| |]; [|done|done].
  apply attach_rekey_aad in Ea as [aad Haad]. rewrite Haad.
  destruct (encrypt_chacha20 _ _ _ _) eqn:Ee; [|done|done].
  intros [= <- _]. apply Z.eqb_neq in Eg. eauto 10.
Qed.

(** The send counter moves on every call, the chain key only on a success. *)
Lemma ratchet_encrypt_max_generation clk coins pt s :
  ratchet_generation s = u32_max ->
  ratchet_encrypt clk coins pt s =
  (Err (CryptoError "Ratchet generation {} reaches u32::MAX — nonce reuse risk. Re-pair required."),
   bump_send_count s).
Proof.
  intros Hg. unfold ratchet_encrypt. munfold. cbv beta iota zeta.
  change (ratchet_generation (bump_send_count s)) with (ratchet_generation s).
  by rewrite Hg, Z.eqb_refl.
Qed.

Lemma dh_ratchet_rekey_frame clk coins a b s r s' :
  dh_ratchet_rekey clk coins a b s = (r, s') ->
  exists out q, s' = s <| outgoing_proposal := out |> <| rekey_pending_confirm_queue := q |>.
Proof.
  unfold dh_ratchet_rekey. munfold. intros E.
  destruct s; msplit; do 2 eexists; reflexivity.
Qed.

End Encrypt.
