(* ===== verification/Scenario.v ===== *)
(** * Scenario: two concrete sessions

    An initiator and a responder over the toy primitives, for evaluating the
    definitions on concrete inputs. *)

From S2P Require Import Prelude Error Primitives Aead Kem Toy Tlv RatchetState RatchetChain RatchetEncrypt.

Module Scenario.
Export Toy.

Definition coins (z : Z) : KemCoins :=
  {| coins_x25519 := be_bytes 32 z; coins_mlkem := be_bytes 32 (z + 1) |}.
Definition rekey_coins (z : Z) : RekeyCoins := {| coins_pair := coins z; coins_encap := coins (z + 100) |}.

Definition pair_a : HybridKeyPair := generate_hybrid_keypair (coins 11).
Definition pair_b : HybridKeyPair := generate_hybrid_keypair (coins 21).
Definition secret : bytes := bstr "shared secret".

Definition alice : DoubleRatchetState :=
  fresh_session secret true pair_a (Some (x25519_pk pair_b)) (Some (mlkem_pk pair_b)).
Definition bob : DoubleRatchetState :=
  fresh_session secret false pair_b (Some (x25519_pk pair_a)) (Some (mlkem_pk pair_a)).

Definition clock : Clock := {| now_unix := 1000; now_mono := 5000 |}.

(** The result of a successful call, and the state after any call. *)
Definition message (r : kres RatchetEncryptedMessage) : RatchetEncryptedMessage :=
  match r with
  | Ok m => m
  | _ => {| msg_nonce := []; msg_ciphertext := []; msg_rekey_x25519_pk := None;
            msg_rekey_mlkem_pk := None; msg_rekey_ciphertext := None |}
  end.

(** Alice sends [n] messages. *)
Fixpoint send_many (n : nat) (s : DoubleRatchetState) : list RatchetEncryptedMessage * DoubleRatchetState :=
  match n with
  | O => ([], s)
  | S n' => let '(r, s1) := ratchet_encrypt clock (rekey_coins 31) (bstr "hello") s in
            let '(ms, s2) := send_many n' s1 in (message r :: ms, s2)
  end.

End Scenario.
