(* ===== verification/RatchetDecrypt.v ===== *)
(** * RatchetDecrypt: the receiving path
    (core-crypto/src/crypto/ratchet/decrypt.rs, previous_generation.rs)

    Nonce validation, the previous-generation path, the current chain, the
    pending chain of an incoming rekey, and the two entry points: the plain one
    and the rekey-aware one.  A failed call keeps the state it reached. *)

From S2P Require Import Prelude Error Primitives Aead Kem Tlv RatchetState RatchetChain RatchetEncrypt.

Inductive DecryptOutcome :=
| Committed
| Skipped
| ProposalDerived
| Replay
| GapExceeded.

#[export] Instance DecryptOutcome_eq_dec : EqDecision DecryptOutcome.
Proof. solve_decision. Defined.

Definition store_consumed : KyberError := CryptoError "Skip key store already consumed".
Definition duplicate_error : KyberError := CryptoError "Duplicate sequence number {} detected (replay attack)".
Definition gap_error : KyberError := SessionDesynchronized "Sequence gap {} exceeds max_skip {}".

(** [self.skip_message_keys.as_mut().ok_or_else(..)?] then a computation on the
    map. *)
Definition with_store {A} (c : Comp KyberError SkipKeyMap A) : ratchet A :=
  fun s => match skip_message_keys s with
           | None => (Err store_consumed, s)
           | Some store => let '(r, store') := c store in (r, s <| skip_message_keys := Some store' |>)
           end.

(** [self.max_skip * 2]. *)
Definition skip_budget (s : DoubleRatchetState) : Z := wrap64 (max_skip s * 2).

(** [for (k, v) in new { store.insert(k, v) }], the new keys winning. *)
Definition insert_all (new store : SkipKeyMap) : SkipKeyMap := new ∪ store.

(** The merge and prune at the end of every path that skipped positions. *)
Definition absorb_skip_keys (new : SkipKeyMap) : ratchet unit :=
  s ← get;
  with_store (modify (fun store => prune_skip_keys (ratchet_generation s) (skip_budget s)
                                     (insert_all new store))).

Definition record (gen seq : Z) (s : DoubleRatchetState) : DoubleRatchetState :=
  s <| replay_window ::= record_delivered gen seq |>.

(** [prev_gen_highest_delivered.map_or(seq, |w| w.max(seq))]. *)
Definition raise_watermark (seq : Z) (s : DoubleRatchetState) : DoubleRatchetState :=
  s <| replay_window ::= fun w => w <| prev_gen_highest_delivered ::= fun o =>
         Some (match o with Some x => Z.max x seq | None => seq end) |> |>.

(** [previous_recv_gen.unwrap_or(u32::MAX)], and the dispatch condition. *)
Definition expected_prev (s : DoubleRatchetState) : Z := default u32_max (previous_recv_gen s).
Definition is_previous_generation (nonce_gen : Z) (s : DoubleRatchetState) : bool :=
  (nonce_gen =? expected_prev s) && is_some (previous_recv_chain_key s).

Definition validate_and_extract_nonce (s : DoubleRatchetState) (nonce : bytes) : kres (Z * Z) :=
  let nonce_gen := nonce_generation nonce in
  let seq := nonce_seq nonce in
  if ratchet_generation s =? u32_max
  then Err (CryptoError "Ratchet generation at u32::MAX — nonce reuse risk. Re-pair required.")
  else if negb ((nonce_gen =? ratchet_generation s)
                || (nonce_gen =? sat_add32 (ratchet_generation s) 1)
                || is_previous_generation nonce_gen s)
  then Err (CryptoError "Nonce generation mismatch: expected {} or {}, got {}")
  else if bool_decide ((nonce_gen, seq) ∈ seen (replay_window s))
  then Err duplicate_error
  else Ok (nonce_gen, seq).

Section Decrypt.
Context `{P : Primitives}.

(** ** Previous generation *)

(** The part after the cache: the message is positioned on the retained chain. *)
Definition advance_previous_generation (prev_ck : bytes) (prev_anchor prev_gen seq : Z)
  (nonce ciphertext aad : bytes) : ratchet bytes :=
  s ← get;
  _ ← lift (guard_err (bool_decide ((prev_gen, seq) ∈ seen (replay_window s))) duplicate_error);
  _ ← lift (guard_err (seq <? prev_anchor)
        (SessionDesynchronized "Previous-generation message seq {} predates retained anchor {}"));
  _ ← lift (guard_err (match prev_gen_highest_delivered (replay_window s) with
                       | Some watermark => seq <=? watermark
                       | None => false
                       end)
        (CryptoError "Previous-generation message seq {} already delivered (watermark {}) — replay"));
  adv ← lift (advance_receiving_chain prev_ck prev_anchor seq prev_gen (max_skip s));
  ck ← lift (chain_loop (range prev_anchor seq) prev_ck);
  msg_key ← lift (expand_msg_key ck);
  plaintext ← lift (decrypt_chacha20 msg_key nonce ciphertext aad);
  _ ← modify (fun s => s <| previous_recv_chain_key := Some (fst adv) |>
                         <| previous_recv_anchor := Some (wrap64 (seq + 1)) |>);
  _ ← modify (raise_watermark seq);
  _ ← absorb_skip_keys (snd adv);
  _ ← modify (record prev_gen seq);
  mret plaintext.

(** [try_decrypt_previous_generation]: the plaintext and whether it came from
    the cache. *)
Definition try_decrypt_previous_generation (nonce_gen seq : Z) (nonce ciphertext aad : bytes)
  : ratchet (option (bytes * bool)) :=
  s ← get;
  match previous_recv_chain_key s, previous_recv_anchor s, previous_recv_gen s with
  | Some prev_ck, Some prev_anchor, Some prev_gen =>
      if negb (nonce_gen =? prev_gen) then mret None
      else
        cached ← with_store (try_decrypt_with_cached_key nonce_gen seq nonce ciphertext aad);
        match cached with
        | Some plaintext =>
            _ ← modify (record nonce_gen seq);
            _ ← modify (raise_watermark seq);
            mret (Some (plaintext, true))
        | None =>
            plaintext ← advance_previous_generation prev_ck prev_anchor prev_gen seq nonce ciphertext aad;
            mret (Some (plaintext, false))
        end
  | _, _, _ => mret None
  end.

(** The dispatch of both entry points: messages of the previous generation,
    while its chain is retained. *)
Definition dispatch_previous (nonce_gen seq : Z) (nonce ciphertext aad : bytes)
  : ratchet (option (bytes * bool)) :=
  s ← get;
  if is_previous_generation nonce_gen s
  then try_decrypt_previous_generation nonce_gen seq nonce ciphertext aad
  else mret None.

(** ** Current chain *)

(** [seen.retain(|&(gen, s)| gen == generation && s >= lower_bound)]. *)
Definition slide_window (s : DoubleRatchetState) : DoubleRatchetState :=
  let lower_bound := sat_sub (message_count (recv s)) (skip_budget s) in
  s <| replay_window ::= fun w => w <| seen ::= fun l =>
         filter (fun p => fst p = ratchet_generation s /\ lower_bound <= snd p) l |> |>.

Definition set_recv (k : bytes) (n : Z) (s : DoubleRatchetState) : DoubleRatchetState :=
  s <| recv := {| key := k; message_count := n |} |>.

Definition try_decrypt_with_chain (seq : Z) (nonce ciphertext aad : bytes) : ratchet bytes :=
  _ ← with_store (mret tt);
  s ← get;
  let count := message_count (recv s) in
  _ ← lift (guard_err (gap_exceeds count seq (max_skip s)) gap_error);
  tentative ← lift (skip_loop (ratchet_generation s) (range count seq) (key (recv s)) ∅);
  target_msg_key ← lift (expand_msg_key (fst tentative));
  next_ck ← lift (expand_next_chain (fst tentative));
  plaintext ← lift (decrypt_chacha20 target_msg_key nonce ciphertext aad);
  _ ← modify (set_recv next_ck (wrap64 (seq + 1)));
  _ ← modify (record (ratchet_generation s) seq);
  _ ← modify slide_window;
  _ ← absorb_skip_keys (snd tentative);
  mret plaintext.

(** ** Pending chain *)

(** The message authenticated under the pending chain: commit the proposal and
    step the new receiving chain past the message. *)
Definition deliver_on_pending (seq : Z) (plaintext : bytes) : ratchet bytes :=
  _ ← modify commit_pending_rekey_with_race_resolution;
  s ← get;
  adv ← lift (advance_receiving_chain (key (recv s)) 0 seq (ratchet_generation s) (max_skip s));
  _ ← modify (set_recv (fst adv) (wrap64 (seq + 1)));
  store ← lift (expect (skip_message_keys s) "called `Option::unwrap()` on a `None` value");
  _ ← modify (fun s => s <| skip_message_keys :=
                 Some (prune_skip_keys (ratchet_generation s) (skip_budget s)
                         (insert_all (snd adv) store)) |>);
  _ ← modify (record (ratchet_generation s) seq);
  mret plaintext.

(** The fallback after the current chain failed with [first_err]. *)
Definition try_pending_chain (seq : Z) (nonce ciphertext aad : bytes) (first_err : KyberError)
  : ratchet bytes :=
  s ← get;
  match in_receiving_chain_key (incoming_proposal s) with
  | Some pending_recv_key =>
      match derive_tentative_msg_key pending_recv_key 0 seq (max_skip s) with
      | Ok pending_msg_key =>
          match decrypt_chacha20 pending_msg_key nonce ciphertext aad with
          | Ok plaintext => deliver_on_pending seq plaintext
          | _ => throw first_err
          end
      | _ => throw first_err
      end
  | None => throw first_err
  end.

(** ** Plain entry point *)

Definition ratchet_decrypt_with_aad (nonce ciphertext aad : bytes) : ratchet bytes :=
  s ← get;
  gs ← lift (validate_and_extract_nonce s nonce);
  let nonce_gen := fst gs in
  let seq := snd gs in
  prev ← dispatch_previous nonce_gen seq nonce ciphertext aad;
  match prev with
  | Some (pt, _) => mret pt
  | None =>
      cached ← with_store (try_decrypt_with_cached_key nonce_gen seq nonce ciphertext aad);
      match cached with
      | Some plaintext => _ ← modify (record nonce_gen seq); mret plaintext
      | None =>
          fun s => match try_decrypt_with_chain seq nonce ciphertext aad s with
                   | (Err first_err, s') => try_pending_chain seq nonce ciphertext aad first_err s'
                   | ok => ok
                   end
      end
  end.

Definition ratchet_decrypt (nonce ciphertext : bytes) : ratchet bytes :=
  ratchet_decrypt_with_aad nonce ciphertext [].

(** ** Rekey-aware entry point *)

(** The first of the current and the retained keypairs that decapsulates. *)
Fixpoint first_decapsulation (ct : bytes) (pairs : list HybridKeyPair) : option bytes :=
  match pairs with
  | [] => None
  | kp :: pairs' =>
      match decapsulate_hybrid ct (x25519_sk kp) (mlkem_sk kp) with
      | Ok ss => Some ss
      | _ => first_decapsulation ct pairs'
      end
  end.

(** A carrier that must not touch the slot. *)
Definition carrier_is_stale (nonce_gen : Z) (s : DoubleRatchetState) : bool :=
  (nonce_gen <? ratchet_generation s)
  || match in_carrier_gen (incoming_proposal s) with Some g => nonce_gen <? g | None => false end.

(** A carrier of a newer generation than the staged one restarts the clock. *)
Definition reset_age_if_newer (nonce_gen : Z) (p : IncomingProposal) : IncomingProposal :=
  match in_carrier_gen p with
  | Some g => if g <? nonce_gen
              then p <| in_attached_at_unix := None |> <| in_attached_at_mono := None |>
              else p
  | None => p
  end.

(** The staged proposal: the sender's chains with the roles swapped. *)
Definition stage_incoming (keys : bytes * bytes * bytes) (xpk mpk : bytes) (seq nonce_gen : Z)
  (p : IncomingProposal) : IncomingProposal :=
  let '(new_root, new_send, new_recv) := keys in
  {| in_root_key := Some new_root; in_sending_chain_key := Some new_recv;
     in_receiving_chain_key := Some new_send; in_peer_x25519_pk := Some xpk;
     in_peer_mlkem_pk := Some mpk; in_generation_bump := true;
     in_carrier_seq := Some seq; in_carrier_gen := Some nonce_gen;
     in_attached_at_unix := in_attached_at_unix p; in_attached_at_mono := in_attached_at_mono p |}.

(** Phase 1: derive the incoming proposal from the payload. *)
Definition derive_incoming_proposal (clk : Clock) (nonce_gen seq : Z) (ct xpk mpk : bytes)
  : ratchet unit :=
  s ← get;
  if carrier_is_stale nonce_gen s then mret tt
  else
    ss ← lift (ok_or (first_decapsulation ct (our_hybrid_pair s :: previous_keypairs s))
           (DecapsulationFailed "Rekey ciphertext cannot be decapsulated with current or retained keypairs"));
    _ ← modify (fun s => s <| incoming_proposal ::= reset_age_if_newer nonce_gen |>);
    keys ← lift (derive_rekey (root_key s) ss);
    modify (fun s => s <| incoming_proposal ::= fun p =>
      stamp_incoming_proposal_attached_at clk (stage_incoming keys xpk mpk seq nonce_gen p) |>).

(** [>] on pairs of byte slices. *)
Definition pair_gt (a b : bytes * bytes) : bool :=
  match bytes_cmp (fst a) (fst b) with
  | Gt => true
  | Lt => false
  | Eq => match bytes_cmp (snd a) (snd b) with Gt => true | _ => false end
  end.

(** Whether the peer's proposal wins a two-sided race. *)
Definition peer_wins (s : DoubleRatchetState) : bool :=
  match out_rekey_payload (outgoing_proposal s), in_peer_x25519_pk (incoming_proposal s),
        in_peer_mlkem_pk (incoming_proposal s) with
  | Some (our_xpk, our_mpk, _), Some peer_xpk, Some peer_mpk =>
      pair_gt (peer_xpk, peer_mpk) (our_xpk, our_mpk)
  | Some _, _, _ => false
  | None, _, _ => true
  end.

Definition resolve_rekey_race_and_ack (seq : Z) (has_rekey_payload : bool) (s : DoubleRatchetState)
  : DoubleRatchetState :=
  if negb has_rekey_payload then s
  else if is_some (out_root_key (outgoing_proposal s)) then
    if peer_wins s
    then (cancel_outgoing_rekey s) <| pending_rekey_ack_seq := Some seq |>
    else cancel_pending_incoming_rekey s
  else s <| pending_rekey_ack_seq := Some seq |>.

(** Phase 1 runs only on a full payload. *)
Definition run_phase1 (clk : Clock) (nonce_gen seq : Z) (rekey_ct rekey_xpk rekey_mpk : option bytes)
  : ratchet unit :=
  match rekey_ct, rekey_xpk, rekey_mpk with
  | Some ct, Some xpk, Some mpk => derive_incoming_proposal clk nonce_gen seq ct xpk mpk
  | _, _, _ => mret tt
  end.

(** Cached-key dispatch, the current chain, then the pending chain. *)
Definition dispatch_current (nonce_gen seq : Z) (nonce ciphertext aad : bytes) (has_rekey : bool)
  : ratchet (bytes * DecryptOutcome) :=
  cached ← with_store (try_decrypt_with_cached_key nonce_gen seq nonce ciphertext aad);
  match cached with
  | Some plaintext =>
      _ ← modify (record nonce_gen seq);
      _ ← modify (resolve_rekey_race_and_ack seq has_rekey);
      mret (plaintext, if has_rekey then ProposalDerived else Skipped)
  | None =>
      fun s => match try_decrypt_with_chain seq nonce ciphertext aad s with
               | (Ok plaintext, s') =>
                   (Ok (plaintext, if has_rekey then ProposalDerived else Committed),
                    resolve_rekey_race_and_ack seq has_rekey s')
               | (Err first_err, s') =>
                   (pt ← try_pending_chain seq nonce ciphertext aad first_err; mret (pt, Committed)) s'
               | (Panic m, s') => (Panic m, s')
               end
  end.

Definition ratchet_decrypt_with_rekey_classified (clk : Clock) (nonce ciphertext : bytes)
  (rekey_ct rekey_xpk rekey_mpk : option bytes) : ratchet (bytes * DecryptOutcome) :=
  s ← get;
  gs ← lift (validate_and_extract_nonce s nonce);
  let nonce_gen := fst gs in
  let seq := snd gs in
  aad ← lift (build_rekey_aad rekey_ct rekey_xpk rekey_mpk);
  prev ← dispatch_previous nonce_gen seq nonce ciphertext aad;
  match prev with
  | Some (pt, from_cache) => mret (pt, if from_cache : bool then Skipped else Committed)
  | None =>
      _ ← run_phase1 clk nonce_gen seq rekey_ct rekey_xpk rekey_mpk;
      dispatch_current nonce_gen seq nonce ciphertext aad (is_some rekey_ct)
  end.

Definition ratchet_decrypt_with_rekey (clk : Clock) (nonce ciphertext : bytes)
  (rekey_ct rekey_xpk rekey_mpk : option bytes) : ratchet bytes :=
  r ← ratchet_decrypt_with_rekey_classified clk nonce ciphertext rekey_ct rekey_xpk rekey_mpk;
  mret (fst r).

End Decrypt.
