(* ===== verification/RatchetResync.v ===== *)
(** * RatchetResync: explicit recovery from a long gap
    (core-crypto/src/crypto/ratchet/resync.rs, [resync_receiving_chain]) *)

From S2P Require Import Prelude Error Primitives Aead Kem RatchetState RatchetChain RatchetEncrypt RatchetDecrypt.

Definition SYNC_MAX_GAP : Z := 1000.
Definition SYNC_MAX_CUMULATIVE : Z := 20000.

(** A pending incoming proposal is evicted when stale and refuses the resync
    otherwise. *)
Definition clear_incoming (clk : Clock) : ratchet unit :=
  s ← get;
  if incoming_is_pending (incoming_proposal s) then
    if incoming_proposal_is_stale clk (incoming_proposal s)
    then modify cancel_pending_incoming_rekey
    else throw (CryptoError "Synchronize refused: a fresh unconsumed rekey proposal is pending — resolve it first")
  else mret tt.

Definition clear_outgoing (clk : Clock) : ratchet unit :=
  s ← get;
  if outgoing_is_pending (outgoing_proposal s) then
    if outgoing_proposal_is_stale clk (rekey_pending_confirm_queue s)
    then modify cancel_outgoing_rekey
    else throw (CryptoError "Synchronize refused: a fresh unconsumed outgoing rekey proposal is pending — resolve it first")
  else mret tt.

Section Resync.
Context `{P : Primitives}.

Definition resync_receiving_chain (clk : Clock) (target_seq : Z) : ratchet Z :=
  _ ← clear_incoming clk;
  _ ← clear_outgoing clk;
  s ← get;
  let cur := message_count (recv s) in
  _ ← lift (guard_err (target_seq <=? cur) (CryptoError "Stale Synchronize target {target_seq} (already at {cur})"));
  let gap := target_seq - cur in
  _ ← lift (guard_err (SYNC_MAX_GAP <? gap)
        (CryptoError "Synchronize gap {gap} exceeds maximum {SYNC_MAX_GAP} — session must be re-paired"));
  _ ← lift (guard_err (SYNC_MAX_CUMULATIVE <? sat_add64 (resync_forward_total s) gap)
        (CryptoError "Synchronize budget exhausted (cumulative {} + gap {gap} > {SYNC_MAX_CUMULATIVE}) — session must be re-paired"));
  r ← lift (skip_loop (ratchet_generation s) (range cur target_seq) (key (recv s)) ∅);
  _ ← modify (set_recv (fst r) target_seq);
  _ ← modify (fun s => s <| resync_forward_total ::= fun t => sat_add64 t gap |>);
  _ ← absorb_skip_keys (snd r);
  mret gap.

(** ** Lemmas *)

(** The two clearing steps change the proposal slots and the queue only. *)
Lemma clear_incoming_cases clk s r s1 :
  clear_incoming clk s = (r, s1) ->
  (exists e, r = Err e /\ s1 = s /\ incoming_proposal_is_stale clk (incoming_proposal s) = false)
  \/ (r = Ok tt /\ (s1 = s \/ s1 = cancel_pending_incoming_rekey s)).
Proof.
  unfold clear_incoming. munfold. intros E. repeat case_match; simplify_eq; eauto 10.
Qed.

Lemma clear_outgoing_cases clk s r s1 :
  clear_outgoing clk s = (r, s1) ->
  (exists e, r = Err e /\ s1 = s) \/ (r = Ok tt /\ (s1 = s \/ s1 = cancel_outgoing_rekey s)).
Proof.
  unfold clear_outgoing. munfold. intros E. repeat case_match; simplify_eq; eauto 10.
Qed.

(** A state with the same receive side. *)
Definition same_receive (s s1 : DoubleRatchetState) : Prop :=
  recv s1 = recv s /\ ratchet_generation s1 = ratchet_generation s
  /\ resync_forward_total s1 = resync_forward_total s /\ skip_message_keys s1 = skip_message_keys s
  /\ max_skip s1 = max_skip s /\ replay_window s1 = replay_window s
  /\ previous_recv_chain_key s1 = previous_recv_chain_key s
  /\ previous_recv_anchor s1 = previous_recv_anchor s /\ previous_recv_gen s1 = previous_recv_gen s.

Lemma clear_same clk s r1 s1 r2 s2 :
  clear_incoming clk s = (r1, s1) -> clear_outgoing clk s1 = (r2, s2) -> same_receive s s1 /\ same_receive s1 s2.
Proof.
  intros E1 E2. apply clear_incoming_cases in E1 as [(e & -> & -> & _)|[-> [->| ->]]];
    apply clear_outgoing_cases in E2 as [(e' & -> & ->)|[-> [->| ->]]]; by split_and!.
Qed.

(** What a successful resync does. *)
Lemma resync_ok clk target s gap s' :
  resync_receiving_chain clk target s = (Ok gap, s') ->
  let cur := message_count (recv s) in
  gap = target - cur /\ 0 < gap <= SYNC_MAX_GAP
  /\ sat_add64 (resync_forward_total s) gap <= SYNC_MAX_CUMULATIVE
  /\ exists s2 st, same_receive s s2 /\ skip_message_keys s = Some st
       /\ s' = (set_recv (chain_at (key (recv s)) (Z.to_nat gap)) target s2)
                 <| resync_forward_total ::= fun t => sat_add64 t gap |>
                 <| skip_message_keys := Some (prune_skip_keys (ratchet_generation s) (skip_budget s)
                      (insert_all (range_keys (ratchet_generation s) cur (Z.to_nat gap) (key (recv s))) st)) |>.
Proof.
  unfold resync_receiving_chain. munfold. cbv beta iota. intros E.
  destruct (clear_incoming clk s) as [r1 s1] eqn:E1. destruct r1; [|done..].
  destruct (clear_outgoing clk s1) as [r2 s2] eqn:E2. destruct r2; [|done..].
  destruct (clear_same _ _ _ _ _ _ E1 E2) as [(H1 & H2 & H3 & H4 & H5 & H6 & H7 & H8 & H9)
    (K1 & K2 & K3 & K4 & K5 & K6 & K7 & K8 & K9)]. clear E1 E2.
  assert (same_receive s s2) as Hsame by (unfold same_receive; split_and!; congruence).
  destruct (target <=? _) eqn:Et; [done|]. destruct (SYNC_MAX_GAP <? _) eqn:Eg; [done|].
  destruct (SYNC_MAX_CUMULATIVE <? _) eqn:Ec; [done|].
  rewrite range_nat, skip_loop_ok, (right_id_L ∅ (∪)) in E. cbn [fst snd] in E.
  unfold absorb_skip_keys, with_store in E. munfold. cbv beta iota in E.
  match type of E with context [match skip_message_keys ?x with _ => _ end] =>
    change (skip_message_keys x) with (skip_message_keys s2) in E end.
  destruct (skip_message_keys s2) as [st|] eqn:Es; [|done]. injection E as <- <-.
  zify_bool. rewrite K1, H1, K3, H3 in *. split_and!; try lia. exists s2, st. split; [done|]. split; [congruence|].
  unfold skip_budget. rewrite <- H2, <- K2, <- H5, <- K5. reflexivity.
Qed.

End Resync.
