(* ===== verification/RatchetSnapshot.v ===== *)
(** * RatchetSnapshot: the persisted form of a session
    (core-crypto/src/crypto/ratchet/snapshot.rs)

    The vectors collected from hash maps and sets are in some iteration order;
    here the order of [map_to_list] and [elements]. *)

From S2P Require Import Prelude Error Primitives Kem RatchetState.

Record RatchetSnapshot := {
  snap_root_key : bytes;
  snap_sending_chain_key : bytes;
  snap_receiving_chain_key : bytes;
  snap_send_message_count : Z;
  snap_recv_message_count : Z;
  snap_our_x25519_pk : bytes;
  snap_our_x25519_sk : bytes;
  snap_our_mlkem_pk : bytes;
  snap_our_mlkem_sk : bytes;
  snap_peer_x25519_pk : option bytes;
  snap_peer_mlkem_pk : option bytes;
  snap_ratchet_generation : Z;
  snap_pairing_epoch : Z;
  snap_pending_root_key : option bytes;
  snap_pending_sending_chain_key : option bytes;
  snap_pending_receiving_chain_key : option bytes;
  snap_pending_peer_x25519_pk : option bytes;
  snap_pending_peer_mlkem_pk : option bytes;
  snap_pending_generation_bump : bool;
  snap_pending_rekey_carrier_seq : option Z;
  snap_pending_carrier_gen : option Z;
  snap_outgoing_root_key : option bytes;
  snap_outgoing_sending_chain_key : option bytes;
  snap_outgoing_receiving_chain_key : option bytes;
  snap_outgoing_x25519_pk : option bytes;
  snap_outgoing_x25519_sk : option bytes;
  snap_outgoing_mlkem_pk : option bytes;
  snap_outgoing_mlkem_sk : option bytes;
  snap_max_skip : Z;
  snap_max_key_history : Z;
  snap_previous_x25519_pk : list bytes;
  snap_previous_x25519_sk : list bytes;
  snap_previous_mlkem_pk : list bytes;
  snap_previous_mlkem_sk : list bytes;
  snap_skip_message_keys : list ((Z * Z) * bytes);
  snap_seen_sequence_numbers : list (Z * Z);
  snap_previous_recv_chain_key : option bytes;
  snap_previous_recv_anchor : option Z;
  snap_previous_recv_gen : option Z;
  snap_previous_recv_highest_delivered : option Z;
  snap_confirm_queue : list Z;
  snap_confirm_queue_attached_at_unix : list Z;
  snap_confirm_queue_first_attached_at_unix : list Z;
  snap_pending_rekey_ack_seq : option Z;
  snap_resync_forward_total : Z;
  snap_is_initiator : bool;
  snap_outgoing_rekey_payload : option (bytes * bytes * bytes);
  snap_pending_proposal_attached_at_unix : option Z
}.

Definition to_snapshot (s : DoubleRatchetState) : RatchetSnapshot := {|
  snap_root_key := root_key s;
  snap_sending_chain_key := key (send s);
  snap_receiving_chain_key := key (recv s);
  snap_send_message_count := message_count (send s);
  snap_recv_message_count := message_count (recv s);
  snap_our_x25519_pk := x25519_pk (our_hybrid_pair s);
  snap_our_x25519_sk := x25519_sk (our_hybrid_pair s);
  snap_our_mlkem_pk := mlkem_pk (our_hybrid_pair s);
  snap_our_mlkem_sk := mlkem_sk (our_hybrid_pair s);
  snap_peer_x25519_pk := peer_x25519_pk s;
  snap_peer_mlkem_pk := peer_mlkem_pk s;
  snap_ratchet_generation := ratchet_generation s;
  snap_pairing_epoch := pairing_epoch s;
  snap_pending_root_key := in_root_key (incoming_proposal s);
  snap_pending_sending_chain_key := in_sending_chain_key (incoming_proposal s);
  snap_pending_receiving_chain_key := in_receiving_chain_key (incoming_proposal s);
  snap_pending_peer_x25519_pk := in_peer_x25519_pk (incoming_proposal s);
  snap_pending_peer_mlkem_pk := in_peer_mlkem_pk (incoming_proposal s);
  snap_pending_generation_bump := in_generation_bump (incoming_proposal s);
  snap_pending_rekey_carrier_seq := in_carrier_seq (incoming_proposal s);
  snap_pending_carrier_gen := in_carrier_gen (incoming_proposal s);
  snap_outgoing_root_key := out_root_key (outgoing_proposal s);
  snap_outgoing_sending_chain_key := out_sending_chain_key (outgoing_proposal s);
  snap_outgoing_receiving_chain_key := out_receiving_chain_key (outgoing_proposal s);
  snap_outgoing_x25519_pk := x25519_pk <$> out_hybrid_pair (outgoing_proposal s);
  snap_outgoing_x25519_sk := x25519_sk <$> out_hybrid_pair (outgoing_proposal s);
  snap_outgoing_mlkem_pk := mlkem_pk <$> out_hybrid_pair (outgoing_proposal s);
  snap_outgoing_mlkem_sk := mlkem_sk <$> out_hybrid_pair (outgoing_proposal s);
  snap_max_skip := max_skip s;
  snap_max_key_history := max_key_history s;
  snap_previous_x25519_pk := x25519_pk <$> previous_keypairs s;
  snap_previous_x25519_sk := x25519_sk <$> previous_keypairs s;
  snap_previous_mlkem_pk := mlkem_pk <$> previous_keypairs s;
  snap_previous_mlkem_sk := mlkem_sk <$> previous_keypairs s;
  snap_skip_message_keys := match skip_message_keys s with Some m => map_to_list m | None => [] end;
  snap_seen_sequence_numbers := elements (seen (replay_window s));
  snap_previous_recv_chain_key := previous_recv_chain_key s;
  snap_previous_recv_anchor := previous_recv_anchor s;
  snap_previous_recv_gen := previous_recv_gen s;
  snap_previous_recv_highest_delivered := prev_gen_highest_delivered (replay_window s);
  snap_confirm_queue := carrier_seq <$> rekey_pending_confirm_queue s;
  snap_confirm_queue_attached_at_unix := attached_at_unix <$> rekey_pending_confirm_queue s;
  snap_confirm_queue_first_attached_at_unix := first_attached_at_unix <$> rekey_pending_confirm_queue s;
  snap_pending_rekey_ack_seq := pending_rekey_ack_seq s;
  snap_resync_forward_total := resync_forward_total s;
  snap_is_initiator := is_initiator s;
  snap_outgoing_rekey_payload := out_rekey_payload (outgoing_proposal s);
  snap_pending_proposal_attached_at_unix := in_attached_at_unix (incoming_proposal s) |}.

(** [v[i]], a panic out of range. *)
Definition index {A} (l : list A) (i : nat) : kres A := expect (l !! i) "index out of bounds".

(** The loop over [0..previous_x25519_pk.len()]. *)
Fixpoint restore_keypairs (snap : RatchetSnapshot) (idxs : list nat) : kres (list HybridKeyPair) :=
  match idxs with
  | [] => Ok []
  | i :: idxs' =>
      pk ← index (snap_previous_x25519_pk snap) i;
      sk ← index (snap_previous_x25519_sk snap) i;
      mpk ← index (snap_previous_mlkem_pk snap) i;
      msk ← index (snap_previous_mlkem_sk snap) i;
      rest ← restore_keypairs snap idxs';
      Ok ({| x25519_pk := pk; x25519_sk := sk; mlkem_pk := mpk; mlkem_sk := msk |} :: rest)
  end.

Definition restore_outgoing_pair (snap : RatchetSnapshot) : option HybridKeyPair :=
  match snap_outgoing_x25519_pk snap, snap_outgoing_x25519_sk snap,
        snap_outgoing_mlkem_pk snap, snap_outgoing_mlkem_sk snap with
  | Some pk, Some sk, Some mpk, Some msk =>
      Some {| x25519_pk := pk; x25519_sk := sk; mlkem_pk := mpk; mlkem_sk := msk |}
  | _, _, _, _ => None
  end.

(** [Vec::resize] when the vector is shorter. *)
Definition extend_to (n : nat) (v : Z) (l : list Z) : list Z := l ++ replicate (n - length l) v.

(** The confirm queue before trimming, with empty payloads. *)
Definition restore_carriers (clk : Clock) (snap : RatchetSnapshot) : list RekeyCarrier :=
  let queue_len := length (snap_confirm_queue snap) in
  let attach := extend_to queue_len (now_unix clk) (snap_confirm_queue_attached_at_unix snap) in
  let first := snap_confirm_queue_first_attached_at_unix snap in
  let first := if (length first <? queue_len)%nat then attach else first in
  imap (fun idx s => {|
          carrier_seq := s;
          attached_at := now_mono clk;
          attached_at_unix := default (now_unix clk) (attach !! idx);
          first_attached_at := now_mono clk;
          first_attached_at_unix := default (now_unix clk) (first !! idx);
          car_rekey_x25519_pk := []; car_rekey_mlkem_pk := []; car_rekey_ciphertext := [] |})
       (snap_confirm_queue snap).

(** Several carriers are trimmed to the last one. *)
Definition trim_queue (q : list RekeyCarrier) : list RekeyCarrier :=
  if (1 <? length q)%nat then drop (length q - 1) q else q.

Definition set_payload (payload : bytes * bytes * bytes) (c : RekeyCarrier) : RekeyCarrier :=
  let '(xpk, mpk, ct) := payload in
  {| carrier_seq := carrier_seq c; attached_at := attached_at c;
     attached_at_unix := attached_at_unix c; first_attached_at := first_attached_at c;
     first_attached_at_unix := first_attached_at_unix c;
     car_rekey_x25519_pk := xpk; car_rekey_mlkem_pk := mpk; car_rekey_ciphertext := ct |}.

(** The payload goes to the back entry. *)
Definition attach_payload (payload : option (bytes * bytes * bytes)) (q : list RekeyCarrier)
  : list RekeyCarrier :=
  match payload with
  | Some pl => alter (set_payload pl) (length q - 1)%nat q
  | None => q
  end.

Definition from_snapshot (clk : Clock) (snap : RatchetSnapshot) : kres DoubleRatchetState :=
  previous ← restore_keypairs snap (seq 0 (length (snap_previous_x25519_pk snap)));
  let queue := attach_payload (snap_outgoing_rekey_payload snap) (trim_queue (restore_carriers clk snap)) in
  Ok {|
    root_key := snap_root_key snap;
    send := {| key := snap_sending_chain_key snap; message_count := snap_send_message_count snap |};
    recv := {| key := snap_receiving_chain_key snap; message_count := snap_recv_message_count snap |};
    our_hybrid_pair := {| x25519_pk := snap_our_x25519_pk snap; x25519_sk := snap_our_x25519_sk snap;
                          mlkem_pk := snap_our_mlkem_pk snap; mlkem_sk := snap_our_mlkem_sk snap |};
    peer_x25519_pk := snap_peer_x25519_pk snap;
    peer_mlkem_pk := snap_peer_mlkem_pk snap;
    rekey_interval := RATCHET_REKEY_INTERVAL;
    ratchet_generation := snap_ratchet_generation snap;
    pairing_epoch := snap_pairing_epoch snap;
    previous_recv_chain_key := snap_previous_recv_chain_key snap;
    previous_recv_anchor := snap_previous_recv_anchor snap;
    previous_recv_gen := snap_previous_recv_gen snap;
    replay_window := {| seen := list_to_set (snap_seen_sequence_numbers snap);
                        prev_gen_highest_delivered := snap_previous_recv_highest_delivered snap |};
    incoming_proposal := {|
      in_root_key := snap_pending_root_key snap;
      in_sending_chain_key := snap_pending_sending_chain_key snap;
      in_receiving_chain_key := snap_pending_receiving_chain_key snap;
      in_peer_x25519_pk := snap_pending_peer_x25519_pk snap;
      in_peer_mlkem_pk := snap_pending_peer_mlkem_pk snap;
      in_generation_bump := snap_pending_generation_bump snap;
      in_carrier_seq := snap_pending_rekey_carrier_seq snap;
      in_carrier_gen := snap_pending_carrier_gen snap;
      in_attached_at_unix := snap_pending_proposal_attached_at_unix snap;
      in_attached_at_mono := None |};
    outgoing_proposal := {|
      out_root_key := snap_outgoing_root_key snap;
      out_sending_chain_key := snap_outgoing_sending_chain_key snap;
      out_receiving_chain_key := snap_outgoing_receiving_chain_key snap;
      out_hybrid_pair := restore_outgoing_pair snap;
      out_rekey_payload := snap_outgoing_rekey_payload snap |};
    skip_message_keys := Some (list_to_map (reverse (snap_skip_message_keys snap)));
    max_skip := snap_max_skip snap;
    previous_keypairs := previous;
    max_key_history := snap_max_key_history snap;
    rekey_pending_confirm_queue := queue;
    pending_rekey_ack_seq := snap_pending_rekey_ack_seq snap;
    is_initiator := snap_is_initiator snap;
    resync_forward_total := snap_resync_forward_total snap;
    peeked_ack_cache := None |}.

(** ** What a restart changes *)

(** Monotonic stamps restart at the current instant. *)
Definition restart_carrier (clk : Clock) (c : RekeyCarrier) : RekeyCarrier := {|
  carrier_seq := carrier_seq c; attached_at := now_mono clk; attached_at_unix := attached_at_unix c;
  first_attached_at := now_mono clk; first_attached_at_unix := first_attached_at_unix c;
  car_rekey_x25519_pk := car_rekey_x25519_pk c; car_rekey_mlkem_pk := car_rekey_mlkem_pk c;
  car_rekey_ciphertext := car_rekey_ciphertext c |}.

(** The session after a save and a restore: the same but for the monotonic
    stamps and the transient peek cache. *)
Definition restart (clk : Clock) (s : DoubleRatchetState) : DoubleRatchetState :=
  s <| incoming_proposal ::= fun p => p <| in_attached_at_mono := None |> |>
    <| rekey_pending_confirm_queue ::= fmap (restart_carrier clk) |>
    <| peeked_ack_cache := None |>.

(** ** Lemmas *)

Lemma restore_keypairs_ok (l : list HybridKeyPair) snap off :
  snap_previous_x25519_pk snap = x25519_pk <$> l ->
  snap_previous_x25519_sk snap = x25519_sk <$> l ->
  snap_previous_mlkem_pk snap = mlkem_pk <$> l ->
  snap_previous_mlkem_sk snap = mlkem_sk <$> l ->
  (off <= length l)%nat ->
  restore_keypairs snap (seq off (length l - off)) = Ok (drop off l).
Proof.
  intros H1 H2 H3 H4. remember (length l - off)%nat as n eqn:Hn.
  revert off Hn. induction n as [|n IH]; intros off Hn Ho.
  - by rewrite drop_ge by lia.
  - destruct (lookup_lt_is_Some_2 l off) as [p Hp]; [lia|].
    cbn [seq restore_keypairs]. unfold index. rewrite H1, H2, H3, H4, !list_lookup_fmap, Hp.
    simpl. rewrite IH by lia. simpl. rewrite (drop_S l p off Hp). by destruct p.
Qed.

Lemma extend_to_full n v l : (n <= length l)%nat -> extend_to n v l = l.
Proof. intros H. unfold extend_to. replace (n - length l)%nat with 0%nat by lia. by rewrite app_nil_r. Qed.

(** The vector of a map rebuilds the map. *)
Lemma restore_map (m : SkipKeyMap) : list_to_map (reverse (map_to_list m)) = m.
Proof.
  rewrite <- (list_to_map_to_list m) at 2. apply list_to_map_proper.
  - rewrite fmap_reverse. apply NoDup_Permutation_proper with (x := (map_to_list m).*1).
    + by rewrite reverse_Permutation.
    + apply NoDup_fst_map_to_list.
  - by rewrite reverse_Permutation.
Qed.

Lemma restore_outgoing_pair_ok s : restore_outgoing_pair (to_snapshot s) = out_hybrid_pair (outgoing_proposal s).
Proof. unfold restore_outgoing_pair. simpl. by destruct (out_hybrid_pair _) as [[]|]. Qed.

(** A queue that holds at most the carrier of the stored payload comes back. *)
Lemma restore_queue_ok clk s :
  let q := rekey_pending_confirm_queue s in
  (length q <= 1)%nat ->
  (forall c, c ∈ q -> out_rekey_payload (outgoing_proposal s)
              = Some (car_rekey_x25519_pk c, car_rekey_mlkem_pk c, car_rekey_ciphertext c)) ->
  attach_payload (out_rekey_payload (outgoing_proposal s)) (trim_queue (restore_carriers clk (to_snapshot s)))
  = restart_carrier clk <$> q.
Proof.
  unfold restore_carriers. simpl. destruct (rekey_pending_confirm_queue s) as [|c [|c' q]]; simpl.
  - intros _ _. by destruct (out_rekey_payload _).
  - intros _ H. rewrite (H c) by set_solver. done.
  - lia.
Qed.
