(* ===== verification/RatchetStep.v ===== *)
(** * RatchetStep: the receive path as an abstract machine

    [deliver] is the specification of the receiving path: a message is
    delivered from the previous generation (cache or retained chain), from the
    skip cache, on the current chain, or on the pending chain, and the state
    after each is written out with the chain specification of RatchetChain
    instead of the code's loops.  The lemmas show that the code of
    RatchetDecrypt either takes one of these steps or fails and changes
    nothing (the rekey-aware entry point: nothing but the incoming slot). *)

From S2P Require Import Prelude Error Primitives Aead Kem Tlv RatchetState RatchetChain RatchetEncrypt RatchetDecrypt.

Section Step.
Context `{P : Primitives}.

(** ** States after a delivery *)

Definition store_keys (new st : SkipKeyMap) (s : DoubleRatchetState) : DoubleRatchetState :=
  s <| skip_message_keys := Some (prune_skip_keys (ratchet_generation s) (skip_budget s) (insert_all new st)) |>.

Definition after_cached (g q : Z) (st : SkipKeyMap) (s : DoubleRatchetState) : DoubleRatchetState :=
  record g q (s <| skip_message_keys := Some (delete (g, q) st) |>).

Definition after_chain (q : Z) (st : SkipKeyMap) (s : DoubleRatchetState) : DoubleRatchetState :=
  let count := message_count (recv s) in
  let n := Z.to_nat (q - count) in
  store_keys (range_keys (ratchet_generation s) count n (key (recv s))) st
    (slide_window (record (ratchet_generation s) q
      (set_recv (chain_at (key (recv s)) (S n)) (wrap64 (q + 1)) s))).

Definition after_previous (ck : bytes) (anchor g q : Z) (st : SkipKeyMap) (s : DoubleRatchetState)
  : DoubleRatchetState :=
  let n := Z.to_nat (q - anchor) in
  record g q (store_keys (range_keys g anchor n ck) st
    (raise_watermark q (s <| previous_recv_chain_key := Some (chain_at ck (S n)) |>
                          <| previous_recv_anchor := Some (wrap64 (q + 1)) |>))).

Definition after_pending (q : Z) (st : SkipKeyMap) (s : DoubleRatchetState) : DoubleRatchetState :=
  let c := commit_pending_rekey_with_race_resolution s in
  let n := Z.to_nat q in
  record (ratchet_generation c) q
    (store_keys (range_keys (ratchet_generation c) 0 n (key (recv c))) st
      (set_recv (chain_at (key (recv c)) (S n)) (wrap64 (q + 1)) c)).

(** ** The abstract machine *)

(** The chain of generation [g] is the retained previous one. *)
Definition retained_generation (g : Z) (s : DoubleRatchetState) : bool :=
  match previous_recv_chain_key s, previous_recv_anchor s, previous_recv_gen s with
  | Some _, Some _, Some pg => g =? pg
  | _, _, _ => false
  end.

Inductive Path := PreviousCache | PreviousChain | SkipCache | CurrentChain | PendingChain.

Inductive deliver (g q : Z) (nonce ct aad : bytes) (s : DoubleRatchetState)
  : bytes -> Path -> DoubleRatchetState -> Prop :=
| D_previous_cached pt st k :
    retained_generation g s = true ->
    skip_message_keys s = Some st -> st !! (g, q) = Some k ->
    decrypt_chacha20 k nonce ct aad = Ok pt ->
    deliver g q nonce ct aad s pt PreviousCache (raise_watermark q (after_cached g q st s))
| D_previous_chain pt st ck anchor :
    previous_recv_chain_key s = Some ck -> previous_recv_anchor s = Some anchor ->
    previous_recv_gen s = Some g ->
    skip_message_keys s = Some st -> st !! (g, q) = None ->
    (g, q) ∉ seen (replay_window s) -> anchor <= q ->
    (forall w, prev_gen_highest_delivered (replay_window s) = Some w -> w < q) ->
    gap_exceeds anchor q (max_skip s) = false ->
    decrypt_chacha20 (msg_at ck (Z.to_nat (q - anchor))) nonce ct aad = Ok pt ->
    deliver g q nonce ct aad s pt PreviousChain (after_previous ck anchor g q st s)
| D_cached pt st k :
    retained_generation g s = false ->
    skip_message_keys s = Some st -> st !! (g, q) = Some k ->
    decrypt_chacha20 k nonce ct aad = Ok pt ->
    deliver g q nonce ct aad s pt SkipCache (after_cached g q st s)
| D_chain pt st :
    retained_generation g s = false ->
    skip_message_keys s = Some st -> st !! (g, q) = None ->
    gap_exceeds (message_count (recv s)) q (max_skip s) = false ->
    decrypt_chacha20 (msg_at (key (recv s)) (Z.to_nat (q - message_count (recv s)))) nonce ct aad = Ok pt ->
    deliver g q nonce ct aad s pt CurrentChain (after_chain q st s)
| D_pending pt st pk :
    retained_generation g s = false ->
    skip_message_keys s = Some st -> st !! (g, q) = None ->
    in_receiving_chain_key (incoming_proposal s) = Some pk ->
    gap_exceeds 0 q (max_skip s) = false ->
    decrypt_chacha20 (msg_at pk (Z.to_nat q)) nonce ct aad = Ok pt ->
    deliver g q nonce ct aad s pt PendingChain (after_pending q st s).

(** ** Auxiliary equations *)

Lemma skip_keys_id st s : skip_message_keys s = Some st -> s <| skip_message_keys := Some st |> = s.
Proof. destruct s. simpl. by intros ->. Qed.

Lemma commit_skip_keys s :
  skip_message_keys (commit_pending_rekey_with_race_resolution s) = skip_message_keys s.
Proof.
  unfold commit_pending_rekey_with_race_resolution, commit_pending_rekey, cancel_outgoing_rekey.
  destruct s; simpl. repeat case_match; done.
Qed.

Lemma commit_max_skip s : max_skip (commit_pending_rekey_with_race_resolution s) = max_skip s.
Proof.
  unfold commit_pending_rekey_with_race_resolution, commit_pending_rekey, cancel_outgoing_rekey.
  destruct s; simpl. repeat case_match; done.
Qed.

(** ** Each routine takes one step or fails in place *)

(** The cached-key helper. *)
Lemma cached_cases g q nonce ct aad s r s' :
  with_store (try_decrypt_with_cached_key g q nonce ct aad) s = (r, s') ->
  (exists e, r = Err e /\ s' = s)
  \/ (exists st, skip_message_keys s = Some st /\ st !! (g, q) = None /\ r = Ok None /\ s' = s)
  \/ (exists st k pt, skip_message_keys s = Some st /\ st !! (g, q) = Some k
        /\ decrypt_chacha20 k nonce ct aad = Ok pt /\ r = Ok (Some pt)
        /\ s' = s <| skip_message_keys := Some (delete (g, q) st) |>).
Proof.
  unfold with_store, try_decrypt_with_cached_key.
  destruct (skip_message_keys s) as [st|] eqn:Es; [|intros [= <- <-]; eauto].
  destruct (st !! (g, q)) as [k|] eqn:Ek.
  - destruct (decrypt_chacha20 k nonce ct aad) as [pt|e|m] eqn:Ed.
    + intros [= <- <-]. right. right. eauto 10.
    + intros [= <- <-]. left. rewrite skip_keys_id by done. eauto.
    + by destruct (decrypt_chacha20_no_panic k nonce ct aad m).
  - intros [= <- <-]. right. left. rewrite skip_keys_id by done. eauto 10.
Qed.

Lemma absorb_skip_keys_ok new st s :
  skip_message_keys s = Some st -> absorb_skip_keys new s = (Ok tt, store_keys new st s).
Proof. unfold absorb_skip_keys, with_store. munfold. by intros ->. Qed.

Lemma chain_cases q nonce ct aad s r s' :
  try_decrypt_with_chain q nonce ct aad s = (r, s') ->
  (exists e, r = Err e /\ s' = s)
  \/ (exists st pt, skip_message_keys s = Some st /\ r = Ok pt
        /\ gap_exceeds (message_count (recv s)) q (max_skip s) = false
        /\ decrypt_chacha20 (msg_at (key (recv s)) (Z.to_nat (q - message_count (recv s)))) nonce ct aad = Ok pt
        /\ s' = after_chain q st s).
Proof.
  unfold try_decrypt_with_chain. munfold. unfold with_store at 1.
  destruct (skip_message_keys s) as [st|] eqn:Es; [|intros [= <- <-]; eauto].
  cbv beta iota. rewrite (skip_keys_id st) by done.
  destruct (gap_exceeds _ _ _) eqn:Eg; [intros [= <- <-]; eauto|].
  rewrite range_nat, skip_loop_ok. cbn [fst snd].
  rewrite expand_msg_key_ok, expand_next_chain_ok. fold (msg_at (key (recv s)) (Z.to_nat (q - message_count (recv s)))).
  rewrite next_ck_chain_at, (right_id_L ∅ (∪)).
  destruct (decrypt_chacha20 _ _ _ _) as [pt|e|m] eqn:Ed.
  - rewrite (absorb_skip_keys_ok _ st) by (by destruct s). intros [= <- <-]. right. exists st, pt.
    split_and!; first [assumption|reflexivity].
  - intros [= <- <-]; eauto.
  - by destruct (decrypt_chacha20_no_panic _ _ _ _ _ Ed).
Qed.

Lemma pending_cases q nonce ct aad e0 st s r s' :
  skip_message_keys s = Some st ->
  try_pending_chain q nonce ct aad e0 s = (r, s') ->
  (r = Err e0 /\ s' = s)
  \/ (exists pk pt, in_receiving_chain_key (incoming_proposal s) = Some pk /\ r = Ok pt
        /\ gap_exceeds 0 q (max_skip s) = false
        /\ decrypt_chacha20 (msg_at pk (Z.to_nat q)) nonce ct aad = Ok pt
        /\ s' = after_pending q st s).
Proof.
  intros Hst. unfold try_pending_chain. munfold. cbv beta iota.
  destruct (in_receiving_chain_key _) as [pk|] eqn:Ep; [|intros [= <- <-]; eauto].
  destruct (derive_tentative_msg_key _ _ _ _) as [k| |] eqn:Ek; [|intros [= <- <-]; eauto..].
  pose proof (derive_tentative_msg_key_gap _ _ _ _ _ Ek) as Hg.
  rewrite derive_tentative_msg_key_ok, Z.sub_0_r in Ek by done. injection Ek as <-.
  destruct (decrypt_chacha20 _ _ _ _) as [pt| |] eqn:Ed; [|intros [= <- <-]; eauto..].
  unfold deliver_on_pending. munfold. cbv beta iota zeta.
  rewrite commit_max_skip, commit_skip_keys, Hst, advance_receiving_chain_ok, Z.sub_0_r by done.
  intros [= <- <-]. right. exists pk, pt. unfold after_pending, store_keys. cbv zeta.
  split_and!; first [assumption|reflexivity].
Qed.

Lemma previous_chain_cases ck anchor g q nonce ct aad st s r s' :
  skip_message_keys s = Some st ->
  advance_previous_generation ck anchor g q nonce ct aad s = (r, s') ->
  (exists e, r = Err e /\ s' = s)
  \/ (exists pt, r = Ok pt /\ ((g, q) ∉ seen (replay_window s)) /\ anchor <= q
        /\ (forall w, prev_gen_highest_delivered (replay_window s) = Some w -> w < q)
        /\ gap_exceeds anchor q (max_skip s) = false
        /\ decrypt_chacha20 (msg_at ck (Z.to_nat (q - anchor))) nonce ct aad = Ok pt
        /\ s' = after_previous ck anchor g q st s).
Proof.
  intros Hst. unfold advance_previous_generation. munfold. cbv beta iota.
  case_bool_decide as Hseen; [intros [= <- <-]; eauto|].
  destruct (q <? anchor) eqn:Ea; [intros [= <- <-]; eauto|].
  destruct (match prev_gen_highest_delivered _ with Some w => q <=? w | None => false end) eqn:Ew;
    [intros [= <- <-]; eauto|].
  destruct (gap_exceeds anchor q (max_skip s)) eqn:Eg.
  { unfold advance_receiving_chain. rewrite Eg. intros [= <- <-]. eauto. }
  rewrite advance_receiving_chain_ok by done. rewrite range_nat, chain_loop_ok, expand_msg_key_ok.
  fold (msg_at ck (Z.to_nat (q - anchor))).
  destruct (decrypt_chacha20 _ _ _ _) as [pt|e|m] eqn:Ed.
  - cbn [fst snd]. rewrite (absorb_skip_keys_ok _ st) by (by destruct s). intros [= <- <-]. right. exists pt.
    zify_bool. split_and!; try first [assumption|reflexivity].
    intros w Hw. rewrite Hw in Ew. by apply Z.leb_gt in Ew.
  - intros [= <- <-]; eauto.
  - by destruct (decrypt_chacha20_no_panic _ _ _ _ _ Ed).
Qed.

Lemma previous_cases g q nonce ct aad s r s' :
  try_decrypt_previous_generation g q nonce ct aad s = (r, s') ->
  (exists e, r = Err e /\ s' = s)
  \/ (r = Ok None /\ s' = s /\ retained_generation g s = false)
  \/ (exists pt, r = Ok (Some (pt, true)) /\ deliver g q nonce ct aad s pt PreviousCache s')
  \/ (exists pt, r = Ok (Some (pt, false)) /\ deliver g q nonce ct aad s pt PreviousChain s').
Proof.
  unfold try_decrypt_previous_generation. munfold. cbv beta iota.
  destruct (retained_generation g s) eqn:Hret.
  2:{ unfold retained_generation in Hret. repeat case_match; simplify_eq/=; intros [= <- <-]; auto;
      by rewrite Hret in *. }
  unfold retained_generation in Hret.
  destruct (previous_recv_chain_key s) as [ck|] eqn:Eck; [|done].
  destruct (previous_recv_anchor s) as [anchor|] eqn:Ea; [|done].
  destruct (previous_recv_gen s) as [pg|] eqn:Epg; [|done].
  rewrite Hret. apply Z.eqb_eq in Hret as ->.
  cbn [negb]. cbv beta iota. destruct (with_store (A := option bytes) _ s) as [r1 s1] eqn:Ec.
  apply cached_cases in Ec as [(e & -> & ->)|[(st & Hst & Hn & -> & ->)|(st & k & pt & Hst & Hk & Hd & -> & ->)]].
  - intros [= <- <-]. eauto.
  - destruct (advance_previous_generation _ _ _ _ _ _ _ s) as [r2 s2] eqn:Ev.
    apply (previous_chain_cases _ _ _ _ _ _ _ st) in Ev
      as [(e & -> & ->)|(pt & -> & ? & ? & ? & ? & ? & ->)]; [| |done].
    + intros [= <- <-]. eauto.
    + intros [= <- <-]. right. right. right. exists pt. split; [done|]. by eapply D_previous_chain.
  - intros [= <- <-]. right. right. left. exists pt. split; [done|]. eapply D_previous_cached; try done.
    unfold retained_generation. by rewrite Eck, Ea, Epg, Z.eqb_refl.
Qed.

Lemma dispatch_previous_cases g q nonce ct aad s r s' :
  dispatch_previous g q nonce ct aad s = (r, s') ->
  (exists e, r = Err e /\ s' = s)
  \/ (r = Ok None /\ s' = s /\ retained_generation g s = false)
  \/ (exists pt (b : bool), r = Ok (Some (pt, b))
        /\ deliver g q nonce ct aad s pt (if b then PreviousCache else PreviousChain) s').
Proof.
  unfold dispatch_previous. munfold. cbv beta iota.
  destruct (is_previous_generation g s) eqn:Ep.
  2:{ intros [= <- <-]. right. left. split_and!; try done. revert Ep.
      unfold is_previous_generation, retained_generation, expected_prev.
      destruct (previous_recv_chain_key s), (previous_recv_anchor s), (previous_recv_gen s); simpl;
        try done. by rewrite andb_true_r. }
  intros E. apply previous_cases in E as [?|[?|[(pt & -> & ?)|(pt & -> & ?)]]]; eauto 10.
Qed.

Lemma validate_no_panic s nonce m : validate_and_extract_nonce s nonce <> Panic m.
Proof. unfold validate_and_extract_nonce. repeat case_match; done. Qed.

(** The plain entry point: one step of the machine, or a failure in place. *)
Lemma decrypt_with_aad_refines nonce ct aad s r s' :
  ratchet_decrypt_with_aad nonce ct aad s = (r, s') ->
  (exists e, r = Err e /\ s' = s)
  \/ (exists g q pt path, validate_and_extract_nonce s nonce = Ok (g, q) /\ r = Ok pt
        /\ deliver g q nonce ct aad s pt path s').
Proof.
  unfold ratchet_decrypt_with_aad. munfold. cbv beta iota.
  destruct (validate_and_extract_nonce s nonce) as [[g q]|e|m] eqn:Ev; [|intros [= <- <-]; eauto|].
  2:{ by apply validate_no_panic in Ev. }
  cbn [fst snd].
  destruct (dispatch_previous g q nonce ct aad s) as [r1 s1] eqn:E1.
  apply dispatch_previous_cases in E1 as [(e & -> & ->)|[(-> & -> & Hret)|(pt & b & -> & Hd)]].
  { intros [= <- <-]. eauto. }
  2:{ intros [= <- <-]. right. eauto 10. }
  destruct (with_store (A := option bytes) _ s) as [r2 s2] eqn:Ec.
  apply cached_cases in Ec as [(e & -> & ->)|[(st & Hst & Hn & -> & ->)|(st & k & pt & Hst & Hk & Hd & -> & ->)]].
  { intros [= <- <-]. eauto. }
  2:{ intros [= <- <-]. right. exists g, q, pt, SkipCache. split_and!; [done..|]. by eapply D_cached. }
  destruct (try_decrypt_with_chain _ _ _ _ s) as [r3 s3] eqn:Eh.
  apply chain_cases in Eh as [(e & -> & ->)|(st' & pt & Hst' & -> & ? & ? & ->)].
  - intros E. apply (pending_cases _ _ _ _ _ st) in E as [[-> ->]|(pk & pt & ? & -> & ? & ? & ->)]; [eauto| |done].
    right. exists g, q, pt, PendingChain. split_and!; [done..|]. by eapply D_pending.
  - intros [= <- <-]. right. simplify_eq. exists g, q, pt, CurrentChain.
    split_and!; [done..|]. by eapply D_chain.
Qed.

(** ** The rekey-aware entry point *)

(** How a path is classified, and the bookkeeping that follows it. *)
Definition path_outcome (path : Path) (has_rekey : bool) : DecryptOutcome :=
  match path with
  | PreviousCache => Skipped
  | PreviousChain => Committed
  | SkipCache => if has_rekey then ProposalDerived else Skipped
  | CurrentChain => if has_rekey then ProposalDerived else Committed
  | PendingChain => Committed
  end.

Definition finish (path : Path) (q : Z) (has_rekey : bool) (s : DoubleRatchetState) : DoubleRatchetState :=
  match path with
  | SkipCache | CurrentChain => resolve_rekey_race_and_ack q has_rekey s
  | _ => s
  end.

(** The state a path starts from: phase 1 has run, except for the previous
    generation. *)
Definition prepared (clk : Clock) (path : Path) (g q : Z) (rct rx rm : option bytes)
  (s s1 : DoubleRatchetState) : Prop :=
  match path with
  | PreviousCache | PreviousChain => s1 = s
  | _ => run_phase1 clk g q rct rx rm s = (Ok tt, s1)
  end.

Lemma incoming_id s : s <| incoming_proposal := incoming_proposal s |> = s.
Proof. by destruct s. Qed.

Lemma incoming_twice p p' s :
  s <| incoming_proposal := p |> <| incoming_proposal := p' |> = s <| incoming_proposal := p' |>.
Proof. by destruct s. Qed.

Lemma incoming_compose f f' s :
  s <| incoming_proposal ::= f |> <| incoming_proposal ::= f' |>
  = s <| incoming_proposal := f' (f (incoming_proposal s)) |>.
Proof. by destruct s. Qed.

(** Phase 1 touches the incoming slot only, and nothing when it fails. *)
Lemma phase1_cases clk g q rct rx rm s r s1 :
  run_phase1 clk g q rct rx rm s = (r, s1) ->
  (exists e, r = Err e /\ s1 = s) \/ (r = Ok tt /\ exists p, s1 = s <| incoming_proposal := p |>).
Proof.
  unfold run_phase1.
  assert (forall r s1, mret (M := ratchet) tt s = (r, s1) ->
    (exists e, r = Err e /\ s1 = s) \/ (r = Ok tt /\ exists p, s1 = s <| incoming_proposal := p |>)) as Hret.
  { intros ? ? [= <- <-]. right. split; [done|]. exists (incoming_proposal s). by rewrite incoming_id. }
  destruct rct as [ct|], rx as [xpk|], rm as [mpk|]; try apply Hret.
  unfold derive_incoming_proposal. munfold. cbv beta iota.
  destruct (carrier_is_stale g s); [apply Hret|].
  destruct (first_decapsulation _ _) as [ss|]; [|intros [= <- <-]; eauto].
  rewrite derive_rekey_ok. intros [= <- <-]. right. split; [done|].
  destruct s. eexists. reflexivity.
Qed.

Lemma dispatch_current_cases g q nonce ct aad has s r s' :
  retained_generation g s = false ->
  dispatch_current g q nonce ct aad has s = (r, s') ->
  (exists e, r = Err e /\ s' = s)
  \/ (exists pt path s2, r = Ok (pt, path_outcome path has)
        /\ (match path with PreviousCache | PreviousChain => False | _ => True end)
        /\ deliver g q nonce ct aad s pt path s2 /\ s' = finish path q has s2).
Proof.
  intros Hret. unfold dispatch_current. munfold. cbv beta iota.
  destruct (with_store (A := option bytes) _ s) as [r2 s2] eqn:Ec.
  apply cached_cases in Ec as [(e & -> & ->)|[(st & Hst & Hn & -> & ->)|(st & k & pt & Hst & Hk & Hd & -> & ->)]].
  { intros [= <- <-]. eauto. }
  2:{ intros [= <- <-]. right. exists pt, SkipCache. eexists. split_and!; [done..|by eapply D_cached|done]. }
  destruct (try_decrypt_with_chain _ _ _ _ s) as [r3 s3] eqn:Eh.
  apply chain_cases in Eh as [(e & -> & ->)|(st' & pt & Hst' & -> & ? & ? & ->)].
  - destruct (try_pending_chain _ _ _ _ _ s) as [r4 s4] eqn:Ep.
    apply (pending_cases _ _ _ _ _ st) in Ep as [[-> ->]|(pk & pt & ? & -> & ? & ? & ->)]; [| |done].
    + intros [= <- <-]. eauto.
    + intros [= <- <-]. right. exists pt, PendingChain. eexists. split_and!; [done..|by eapply D_pending|done].
  - intros [= <- <-]. right. simplify_eq. exists pt, CurrentChain. eexists.
    split_and!; [done..|by eapply D_chain|done].
Qed.

Lemma classified_refines clk nonce ct rct rx rm s r s' :
  ratchet_decrypt_with_rekey_classified clk nonce ct rct rx rm s = (r, s') ->
  (exists e p, r = Err e /\ s' = s <| incoming_proposal := p |>)
  \/ (exists g q aad pt path s1 s2,
        validate_and_extract_nonce s nonce = Ok (g, q)
        /\ build_rekey_aad rct rx rm = Ok aad
        /\ prepared clk path g q rct rx rm s s1
        /\ deliver g q nonce ct aad s1 pt path s2
        /\ r = Ok (pt, path_outcome path (is_some rct))
        /\ s' = finish path q (is_some rct) s2).
Proof.
  unfold ratchet_decrypt_with_rekey_classified. munfold. cbv beta iota.
  assert (forall (r0 : kres (bytes * DecryptOutcome)) e s1, r0 = Err e -> s1 = s ->
    exists e p, r0 = Err e /\ s1 = s <| incoming_proposal := p |>) as Hsame.
  { intros r0 e s1 -> ->. exists e, (incoming_proposal s). by rewrite incoming_id. }
  destruct (validate_and_extract_nonce s nonce) as [[g q]|e|m] eqn:Ev;
    [|intros [= <- <-]; eauto|by apply validate_no_panic in Ev].
  cbn [fst snd]. destruct (build_rekey_aad rct rx rm) as [aad|e|m] eqn:Eb;
    [|intros [= <- <-]; eauto|unfold build_rekey_aad in Eb; repeat case_match; done].
  destruct (dispatch_previous g q nonce ct aad s) as [r1 s1] eqn:E1.
  apply dispatch_previous_cases in E1 as [(e & -> & ->)|[(-> & -> & Hret)|(pt & b & -> & Hd)]].
  { intros [= <- <-]. eauto. }
  2:{ intros [= <- <-]. right. exists g, q, aad, pt. destruct b; do 3 eexists; split_and!; eauto; done. }
  destruct (run_phase1 _ _ _ _ _ _ s) as [r2 s2] eqn:E2.
  pose proof E2 as [(e & -> & ->)|[-> [p Hp]]]%phase1_cases; [intros [= <- <-]; eauto|].
  intros E. apply dispatch_current_cases in E
    as [(e & -> & ->)|(pt & path & s3 & -> & Hpath & Hd & ->)]; [eauto| |by subst s2].
  right. exists g, q, aad, pt, path, s2, s3. split_and!; auto. by destruct path.
Qed.

End Step.
