(* ===== verification/RatchetInvariant.v ===== *)
(** * RatchetInvariant: the invariant of a session and its preservation

    [wf_state] collects what every operation of the ratchet maintains: machine
    ranges, the bound on the skip-key cache and on the replay window, the
    all-or-nothing shape of the two proposal slots, at most one carrier and
    only for the pending outgoing proposal, the retained previous generation,
    the resync budget.  [step] is one operation of the session; reachability is
    the closure of its runs from a fresh session. *)

From S2P Require Import Prelude Error Primitives Aead Kem Tlv RatchetState.
From S2P Require Import RatchetChain RatchetEncrypt RatchetDecrypt RatchetResync RatchetSnapshot RatchetStep.

(** ** The invariant *)

Definition wf_incoming (p : IncomingProposal) : Prop :=
  match in_root_key p with
  | None => in_sending_chain_key p = None /\ in_receiving_chain_key p = None
            /\ in_peer_x25519_pk p = None /\ in_peer_mlkem_pk p = None
            /\ in_generation_bump p = false /\ in_carrier_gen p = None
  | Some _ => is_Some (in_sending_chain_key p) /\ is_Some (in_receiving_chain_key p)
              /\ is_Some (in_peer_x25519_pk p) /\ is_Some (in_peer_mlkem_pk p)
              /\ in_generation_bump p = true /\ is_Some (in_carrier_gen p)
  end.

Definition wf_outgoing (p : OutgoingProposal) : Prop :=
  match out_root_key p with
  | None => out_sending_chain_key p = None /\ out_receiving_chain_key p = None
            /\ out_hybrid_pair p = None /\ out_rekey_payload p = None
  | Some _ => is_Some (out_sending_chain_key p) /\ is_Some (out_receiving_chain_key p)
              /\ is_Some (out_hybrid_pair p) /\ is_Some (out_rekey_payload p)
  end.

(** At most one carrier, and it carries the pending payload. *)
Definition wf_queue (p : OutgoingProposal) (q : list RekeyCarrier) : Prop :=
  (length q <= 1)%nat /\
  forall c, c ∈ q -> out_rekey_payload p
              = Some (car_rekey_x25519_pk c, car_rekey_mlkem_pk c, car_rekey_ciphertext c).

Definition wf_previous (s : DoubleRatchetState) : Prop :=
  match previous_recv_chain_key s, previous_recv_anchor s, previous_recv_gen s with
  | Some _, Some _, Some g => u32_range g /\ ratchet_generation s = sat_add32 g 1
  | None, None, None => True
  | _, _, _ => False
  end.

(** A cache of at most [budget] keys, none of a later generation. *)
Definition wf_store (gen budget : Z) (o : option SkipKeyMap) : Prop :=
  exists st, o = Some st /\ Z.of_nat (size st) <= budget
             /\ forall g q, is_Some (st !! (g, q)) -> g <= gen.

Record wf_state (s : DoubleRatchetState) : Prop := {
  wf_gen : u32_range (ratchet_generation s);
  wf_send_count : u64_range (message_count (send s));
  wf_recv_count : u64_range (message_count (recv s));
  wf_interval : rekey_interval s = RATCHET_REKEY_INTERVAL;
  wf_max_skip : max_skip s = 100;
  wf_skip : wf_store (ratchet_generation s) (skip_budget s) (skip_message_keys s);
  wf_seen : seen_len (seen (replay_window s)) <= SEEN_SET_MAX;
  wf_seen_gen : forall g q, (g, q) ∈ seen (replay_window s) -> g <= ratchet_generation s;
  wf_in : wf_incoming (incoming_proposal s);
  wf_out : wf_outgoing (outgoing_proposal s);
  wf_carriers : wf_queue (outgoing_proposal s) (rekey_pending_confirm_queue s);
  wf_prev : wf_previous s;
  wf_history : len (previous_keypairs s) <= max_key_history s;
  wf_resync : 0 <= resync_forward_total s <= SYNC_MAX_CUMULATIVE
}.

#[export] Hint Resolve wf_gen wf_send_count wf_recv_count wf_interval wf_skip wf_seen wf_seen_gen
  wf_in wf_out wf_carriers wf_prev wf_history wf_resync : kyber.

(** Split the invariant of an updated state into its fields; those the update
    does not touch come from the hypothesis. *)
Ltac wf_fields s :=
  let H := fresh "Hwf" in
  intros H; destruct H, s; constructor; simpl in *; try assumption.

(** ** Elementary updates *)

Lemma wrap64_range z : u64_range (wrap64 z).
Proof. unfold u64_range, u64_max, wrap64. pose proof (Z.mod_pos_bound z (2 ^ 64) ltac:(lia)). lia. Qed.
#[export] Hint Resolve wrap64_range : kyber.

Lemma sat_add32_range z : u32_range z -> u32_range (sat_add32 z 1).
Proof. unfold u32_range, sat_add32. lia. Qed.
#[export] Hint Resolve sat_add32_range : kyber.

Lemma sat_add32_le z : u32_range z -> z <= sat_add32 z 1.
Proof. unfold u32_range, sat_add32. lia. Qed.

Lemma skip_budget_nonneg s : 0 <= skip_budget s.
Proof. unfold skip_budget, wrap64. apply Z.mod_pos_bound. lia. Qed.

Lemma wf_set_recv k n s : u64_range n -> wf_state s -> wf_state (set_recv k n s).
Proof. intros Hn. wf_fields s. Qed.

Lemma wf_set_send c s : u64_range (message_count c) -> wf_state s -> wf_state (s <| send := c |>).
Proof. intros Hn. wf_fields s. Qed.

Lemma wf_record g q s : g <= ratchet_generation s -> wf_state s -> wf_state (record g q s).
Proof.
  intros Hg. wf_fields s.
  - apply record_delivered_bound.
  - intros g' q' H%record_delivered_sub. set_solver.
Qed.

Lemma wf_raise_watermark q s : wf_state s -> wf_state (raise_watermark q s).
Proof. wf_fields s. Qed.

Lemma wf_slide_window s : wf_state s -> wf_state (slide_window s).
Proof.
  wf_fields s.
  - etransitivity; [|exact wf_seen0]. unfold seen_len.
    apply inj_le, subseteq_size. set_solver.
  - intros g q H. apply elem_of_filter in H as [_ H]. eauto.
Qed.

Lemma wf_set_in p s : wf_incoming p -> wf_state s -> wf_state (s <| incoming_proposal := p |>).
Proof. intros Hp. wf_fields s. Qed.

Lemma wf_set_out out q s :
  wf_outgoing out -> wf_queue out q -> wf_state s ->
  wf_state (s <| outgoing_proposal := out |> <| rekey_pending_confirm_queue := q |>).
Proof. intros Ho Hq. wf_fields s. Qed.

Lemma wf_set_ack a s : wf_state s -> wf_state (s <| pending_rekey_ack_seq := a |>).
Proof. wf_fields s. Qed.

Lemma wf_set_peek a s : wf_state s -> wf_state (s <| peeked_ack_cache := a |>).
Proof. wf_fields s. Qed.

Lemma wf_store_keys new st s :
  skip_message_keys s = Some st ->
  (forall g q, is_Some (new !! (g, q)) -> g <= ratchet_generation s) ->
  wf_state s -> wf_state (store_keys new st s).
Proof.
  intros Hst Hnew H. pose proof (wf_skip _ H) as (st' & Hst' & _ & Hgen). simplify_eq/=.
  assert (wf_store (ratchet_generation s) (skip_budget s)
    (Some (prune_skip_keys (ratchet_generation s) (skip_budget s) (insert_all new st)))) as Hs.
  { eexists. split; [done|]. split; [apply prune_skip_keys_size, skip_budget_nonneg|].
    intros g q [v Hv]. apply prune_skip_keys_lookup in Hv as [Hv _].
    apply lookup_union_Some_raw in Hv as [Hv|[_ Hv]]; eauto. }
  revert H. unfold store_keys. wf_fields s.
Qed.

Lemma wf_delete_key k st s :
  skip_message_keys s = Some st -> wf_state s -> wf_state (s <| skip_message_keys := Some (delete k st) |>).
Proof.
  intros Hst. wf_fields s. subst. destruct wf_skip0 as (st' & [= <-] & Hsz & Hg). eexists. split; [done|].
  split; [etransitivity; [|exact Hsz]; apply inj_le, map_subseteq_size, delete_subseteq|].
  intros g q [v Hv]. apply (Hg g q). exists v. by apply lookup_delete_Some in Hv as [_ ?].
Qed.

#[export] Hint Resolve wf_set_recv wf_record wf_raise_watermark wf_slide_window wf_set_in wf_set_out
  wf_set_ack wf_set_peek : kyber.

(** ** Proposal slots *)

Lemma wf_queue_nil p : wf_queue p [].
Proof. split; [simpl; lia|]. intros c Hc. set_solver. Qed.
#[export] Hint Resolve wf_queue_nil : kyber.

Lemma wf_cancel_out s : wf_state s -> wf_state (cancel_outgoing_rekey s).
Proof. intros H. apply wf_set_out; auto with kyber. by split_and!. Qed.

Lemma wf_cancel_in s : wf_state s -> wf_state (cancel_pending_incoming_rekey s).
Proof. wf_fields s. by split_and!. Qed.
#[export] Hint Resolve wf_cancel_out wf_cancel_in : kyber.

(** The part of a commit common to both directions: the receiving chain is
    retained, the chains are replaced, the generation moves up and the
    per-generation counters restart. *)
Definition switch_generation (root sk rk : bytes) (s : DoubleRatchetState) : DoubleRatchetState :=
  reset_generation_counters
    ((retain_previous_receiving_chain s)
       <| root_key := root |> <| send ::= fun c => c <| key := sk |> |>
       <| recv ::= fun c => c <| key := rk |> |>
       <| ratchet_generation ::= fun g => sat_add32 g 1 |>).

Lemma switch_store s :
  wf_state s ->
  wf_store (sat_add32 (ratchet_generation s) 1) (skip_budget s) (skip_message_keys s).
Proof.
  intros H. destruct (wf_skip _ H) as (st & -> & Hsz & Hg). exists st. split_and!; [done..|].
  intros g q Hs. specialize (Hg g q Hs). pose proof (sat_add32_le _ (wf_gen _ H)). lia.
Qed.

Lemma switch_previous root sk rk s : wf_state s -> wf_previous (switch_generation root sk rk s).
Proof.
  intros H. unfold wf_previous.
  change (previous_recv_chain_key (switch_generation root sk rk s)) with (Some (key (recv s))).
  change (previous_recv_anchor (switch_generation root sk rk s)) with (Some (message_count (recv s))).
  change (previous_recv_gen (switch_generation root sk rk s)) with (Some (ratchet_generation s)).
  change (ratchet_generation (switch_generation root sk rk s)) with (sat_add32 (ratchet_generation s) 1).
  split; [apply (wf_gen _ H)|done].
Qed.

Lemma wf_switch root sk rk s : wf_state s -> wf_state (switch_generation root sk rk s).
Proof.
  intros H. constructor.
  - apply (sat_add32_range (ratchet_generation s)), (wf_gen _ H).
  - change (u64_range 0). by split.
  - change (u64_range 0). by split.
  - apply (wf_interval _ H).
  - apply (wf_max_skip _ H).
  - by apply (switch_store s).
  - change (seen_len ∅ <= SEEN_SET_MAX). by vm_compute.
  - change (forall g q, (g, q) ∈ (∅ : gset (Z * Z)) -> g <= sat_add32 (ratchet_generation s) 1). set_solver.
  - apply (wf_in _ H).
  - apply (wf_out _ H).
  - apply (wf_carriers _ H).
  - by apply switch_previous.
  - apply (wf_history _ H).
  - apply (wf_resync _ H).
Qed.

(** A commit of the incoming slot is a generation switch to the staged keys. *)
Lemma commit_pending_eq s r sk rk :
  wf_incoming (incoming_proposal s) ->
  in_root_key (incoming_proposal s) = Some r ->
  in_sending_chain_key (incoming_proposal s) = Some sk ->
  in_receiving_chain_key (incoming_proposal s) = Some rk ->
  commit_pending_rekey s =
  cancel_pending_incoming_rekey
    ((switch_generation r sk rk s)
       <| peer_x25519_pk := in_peer_x25519_pk (incoming_proposal s) |>
       <| peer_mlkem_pk := in_peer_mlkem_pk (incoming_proposal s) |>
       <| pending_rekey_ack_seq := match pending_rekey_ack_seq s with
                                   | None => in_carrier_seq (incoming_proposal s)
                                   | a => a end |>).
Proof.
  intros Hwf Hr Hs Hk. unfold commit_pending_rekey, wf_incoming in *. rewrite Hr, Hs, Hk in *.
  destruct Hwf as (_ & _ & [x Hx] & [m Hm] & Hb & _). rewrite Hx, Hm, Hb.
  unfold cancel_pending_incoming_rekey, switch_generation, retain_previous_receiving_chain,
    reset_generation_counters.
  destruct s, pending_rekey_ack_seq; state_cbv; reflexivity.
Qed.

Lemma wf_peer_keys x m s :
  wf_state s -> wf_state (s <| peer_x25519_pk := x |> <| peer_mlkem_pk := m |>).
Proof. wf_fields s. Qed.

Lemma wf_commit_pending s : wf_state s -> wf_state (commit_pending_rekey s).
Proof.
  intros H. pose proof (wf_in _ H) as Hin. destruct (in_root_key (incoming_proposal s)) as [r|] eqn:Er.
  - pose proof Hin as Hin'. unfold wf_incoming in Hin'. rewrite Er in Hin'.
    destruct Hin' as ([sk Hs] & [rk Hk] & _).
    rewrite (commit_pending_eq s r sk rk) by done. eauto using wf_cancel_in, wf_set_ack, wf_peer_keys, wf_switch.
  - unfold commit_pending_rekey. rewrite Er. apply wf_cancel_in. revert H. clear. wf_fields s.
Qed.

Lemma wf_commit_race s : wf_state s -> wf_state (commit_pending_rekey_with_race_resolution s).
Proof.
  intros H. unfold commit_pending_rekey_with_race_resolution.
  case_match; auto using wf_commit_pending with kyber.
Qed.

Lemma push_bounded_len cap p l : 0 <= cap -> len (push_bounded cap p l) <= cap.
Proof. intros H. unfold push_bounded, len. rewrite length_drop. lia. Qed.

Lemma wf_push_keypair p s :
  0 <= max_key_history s ->
  wf_state s -> wf_state (s <| previous_keypairs ::= push_bounded (max_key_history s) (our_hybrid_pair s) |>
                            <| our_hybrid_pair := p |>).
Proof. intros Hm. wf_fields s. by apply push_bounded_len. Qed.

Lemma wf_history_nonneg s : wf_state s -> 0 <= max_key_history s.
Proof. intros H. pose proof (wf_history _ H). pose proof (len_nonneg (previous_keypairs s)). lia. Qed.

Lemma commit_outgoing_eq s r sk rk p :
  out_root_key (outgoing_proposal s) = Some r ->
  out_sending_chain_key (outgoing_proposal s) = Some sk ->
  out_receiving_chain_key (outgoing_proposal s) = Some rk ->
  out_hybrid_pair (outgoing_proposal s) = Some p ->
  commit_outgoing_rekey s =
  cancel_outgoing_rekey
    (switch_generation r sk rk
      (s <| previous_keypairs ::= push_bounded (max_key_history s) (our_hybrid_pair s) |>
         <| our_hybrid_pair := p |>)).
Proof.
  intros Hr Hs Hk Hp. unfold commit_outgoing_rekey. rewrite Hr, Hs, Hk, Hp.
  unfold cancel_outgoing_rekey, switch_generation, retain_previous_receiving_chain,
    reset_generation_counters. destruct s. state_cbv. reflexivity.
Qed.

Lemma wf_commit_outgoing s : wf_state s -> wf_state (commit_outgoing_rekey s).
Proof.
  intros H. pose proof (wf_out _ H) as Ho. unfold wf_outgoing in Ho.
  destruct (out_root_key (outgoing_proposal s)) as [r|] eqn:Er.
  - destruct Ho as ([sk Hs] & [rk Hk] & [p Hp] & _). rewrite (commit_outgoing_eq s r sk rk p) by done.
    auto using wf_cancel_out, wf_switch, wf_push_keypair, wf_history_nonneg.
  - unfold commit_outgoing_rekey. rewrite Er. by apply wf_cancel_out.
Qed.

Lemma wf_stage_incoming clk keys x m q g p : wf_incoming (stamp_incoming_proposal_attached_at clk (stage_incoming keys x m q g p)).
Proof.
  destruct keys as [[r sk] rk]. unfold stamp_incoming_proposal_attached_at. destruct p; simpl.
  repeat case_match; split_and!; simpl; eauto.
Qed.

Section Preservation.
Context `{P : Primitives}.

Lemma range_keys_gen gen base n ck g q : is_Some (range_keys gen base n ck !! (g, q)) -> g = gen.
Proof. rewrite range_keys_lookup. intros [v Hv]. case_decide; naive_solver. Qed.

Lemma wf_derive_incoming clk g q ct x m s :
  wf_state s -> wf_state (snd (derive_incoming_proposal clk g q ct x m s)).
Proof.
  intros H. unfold derive_incoming_proposal. munfold. cbv beta iota.
  destruct (carrier_is_stale g s); [done|]. destruct (first_decapsulation _ _) as [ss|]; [|done].
  rewrite derive_rekey_ok. cbn [snd]. rewrite incoming_compose. apply wf_set_in; [apply wf_stage_incoming|done].
Qed.

Lemma wf_phase1 clk g q rct rx rm s : wf_state s -> wf_state (snd (run_phase1 clk g q rct rx rm s)).
Proof. intros H. unfold run_phase1. repeat case_match; auto using wf_derive_incoming. Qed.

Lemma wf_resolve q has s : wf_state s -> wf_state (resolve_rekey_race_and_ack q has s).
Proof. intros H. unfold resolve_rekey_race_and_ack. repeat case_match; auto with kyber. Qed.

(** ** Deliveries *)

Lemma wf_after_cached g q k st s :
  skip_message_keys s = Some st -> st !! (g, q) = Some k -> wf_state s -> wf_state (after_cached g q st s).
Proof.
  intros Hst Hk H. pose proof (wf_skip _ H) as (st' & Hst' & _ & Hgen). simplify_eq/=.
  apply wf_record; [apply (Hgen g q); eauto|]. by apply wf_delete_key.
Qed.

Lemma wf_after_chain q st s : skip_message_keys s = Some st -> wf_state s -> wf_state (after_chain q st s).
Proof.
  intros Hst H. apply wf_store_keys; [by destruct s|..].
  - intros g q' ->%range_keys_gen. by destruct s.
  - apply wf_slide_window, wf_record; [by destruct s|]. auto with kyber.
Qed.

Lemma wf_after_previous ck anchor g q st s :
  previous_recv_chain_key s = Some ck -> previous_recv_gen s = Some g ->
  skip_message_keys s = Some st -> wf_state s -> wf_state (after_previous ck anchor g q st s).
Proof.
  intros Hp Hg Hst H. pose proof (wf_prev _ H) as Hprev. unfold wf_previous in Hprev. rewrite Hg, Hp in Hprev.
  destruct (previous_recv_anchor s) as [a0|] eqn:Ea; [|done]. destruct Hprev as [Hr Hgen].
  assert (g <= ratchet_generation s) as Hle by (rewrite Hgen; by apply sat_add32_le).
  apply wf_record; [by destruct s|]. apply wf_store_keys; [by destruct s|..].
  - intros g' q' ->%range_keys_gen. by destruct s.
  - apply wf_raise_watermark. revert H. clear -Hg Hr Hgen. wf_fields s. by rewrite Hg.
Qed.

Lemma wf_after_pending q st s : skip_message_keys s = Some st -> wf_state s -> wf_state (after_pending q st s).
Proof.
  intros Hst H. apply wf_commit_race in H. pose proof (commit_skip_keys s) as Hk. rewrite Hst in Hk.
  unfold after_pending. generalize dependent (commit_pending_rekey_with_race_resolution s). intros c H Hk.
  apply wf_record; [by destruct c|]. apply wf_store_keys; [by destruct c| |auto with kyber].
  intros g' q' ->%range_keys_gen. by destruct c.
Qed.

Lemma wf_deliver g q nonce ct aad s pt path s' :
  deliver g q nonce ct aad s pt path s' -> wf_state s -> wf_state s'.
Proof.
  intros Hd Hs. destruct Hd; eauto using wf_after_cached, wf_after_chain, wf_after_previous, wf_after_pending with kyber.
Qed.

(** ** Sending *)

Definition payload_of (c : RekeyCarrier) : bytes * bytes * bytes :=
  (car_rekey_x25519_pk c, car_rekey_mlkem_pk c, car_rekey_ciphertext c).

(** After the eviction the queue is empty whenever there is something to
    re-send. *)
Lemma wf_evict clk s r s1 :
  wf_state s -> evict_due_carriers clk s = (Ok r, s1) ->
  wf_state s1 /\ (forall c, r = Some c -> rekey_pending_confirm_queue s1 = []
                    /\ out_rekey_payload (outgoing_proposal s1) = Some (payload_of c)).
Proof.
  intros H [= <- <-]. destruct (wf_carriers _ H) as [Hlen Hpay]. split.
  - revert H. wf_fields s. destruct wf_carriers0 as [Hl Hp]. split.
    + etransitivity; [apply length_filter|done].
    + intros c [_ Hc]%list_elem_of_filter. by apply Hp.
  - intros c Hc. destruct s; simpl in *. destruct rekey_pending_confirm_queue as [|c0 [|? ?]]; simpl in *; try done; [|lia].
    rewrite !filter_cons, !filter_nil in Hc. rewrite filter_cons, filter_nil.
    destruct (retry_due clk c0); simpl in *; [|done]. injection Hc as <-. split; [done|]. apply Hpay. set_solver.
Qed.

Lemma wf_push_carrier c s :
  rekey_pending_confirm_queue s = [] -> out_rekey_payload (outgoing_proposal s) = Some (payload_of c) ->
  wf_state s -> wf_state (push_carrier c s).
Proof.
  intros Hq Hp. unfold push_carrier. wf_fields s. subst. split; [simpl; lia|]. intros c' ->%list_elem_of_singleton. done.
Qed.

Lemma wf_stage keys pair payload s :
  rekey_pending_confirm_queue s = [] ->
  wf_state s -> wf_state (s <| outgoing_proposal := stage_proposal keys pair payload |>).
Proof.
  intros Hq. destruct keys as [[r sk] rk]. wf_fields s; [|subst; apply wf_queue_nil].
  split_and!; simpl; eauto.
Qed.

Lemma wf_attach clk coins seq r s :
  wf_state s ->
  (forall c, r = Some c -> rekey_pending_confirm_queue s = []
     /\ out_rekey_payload (outgoing_proposal s) = Some (payload_of c)) ->
  wf_state (snd (attach_rekey clk coins seq r s)).
Proof.
  intros H Hr. unfold attach_rekey. munfold. cbv beta iota. destruct r as [c|].
  { destruct (Hr c eq_refl). by apply wf_push_carrier. }
  destruct (should_rekey seq s) eqn:Es; [|done].
  destruct (peer_x25519_pk s) as [x|], (peer_mlkem_pk s) as [m|]; try done.
  unfold stage_rekey. munfold. cbv beta iota zeta.
  destruct (encapsulate_hybrid _ _ _) as [k| |]; [|done..]. rewrite derive_rekey_ok. cbn [snd].
  unfold should_rekey in Es. zify_bool. apply len_nil_iff in H2.
  apply wf_push_carrier; [by destruct s|by destruct s|]. by apply wf_stage.
Qed.

Lemma wf_set_send_key k s : wf_state s -> wf_state (s <| send ::= fun c => c <| key := k |> |>).
Proof. wf_fields s. Qed.

Lemma wf_bump s : wf_state s -> wf_state (bump_send_count s).
Proof. wf_fields s. apply wrap64_range. Qed.

Lemma wf_encrypt clk coins pt s : wf_state s -> wf_state (snd (ratchet_encrypt clk coins pt s)).
Proof.
  intros H%wf_bump. unfold ratchet_encrypt. munfold. cbv beta iota zeta.
  destruct (_ =? u32_max); [done|].
  destruct (evict_due_carriers clk (bump_send_count s)) as [r1 s1] eqn:Ee.
  destruct r1 as [resend| |]; [|done..]. destruct (wf_evict _ _ _ _ H Ee) as [H1 Hr].
  destruct (attach_rekey clk coins _ resend s1) as [r2 s2] eqn:Ea.
  pose proof (wf_attach clk coins (message_count (send s)) resend s1 H1 Hr) as H2. rewrite Ea in H2.
  rewrite expand_msg_key_ok, expand_next_chain_ok.
  repeat case_match; try assumption; by apply wf_set_send_key.
Qed.

Lemma wf_not_pending_queue s : wf_state s -> outgoing_is_pending (outgoing_proposal s) = false ->
  rekey_pending_confirm_queue s = [].
Proof.
  intros H Hp. destruct (wf_carriers _ H) as [_ Hc]. pose proof (wf_out _ H) as Ho. unfold wf_outgoing in Ho.
  destruct (rekey_pending_confirm_queue s) as [|c q]; [done|]. exfalso.
  specialize (Hc c ltac:(set_solver)). unfold outgoing_is_pending in Hp.
  destruct (out_root_key (outgoing_proposal s)); [done|]. destruct Ho as (_ & _ & _ & Ho). congruence.
Qed.

Lemma wf_dh_rekey clk coins x m s : wf_state s -> wf_state (snd (dh_ratchet_rekey clk coins x m s)).
Proof.
  intros H. unfold dh_ratchet_rekey. munfold. cbv beta iota zeta.
  destruct (outgoing_is_pending _) eqn:Ep; [done|]. destruct (incoming_is_pending _); [done|].
  destruct (encapsulate_hybrid _ _ _) as [k| |]; [|done..]. rewrite derive_rekey_ok. cbn [snd].
  pose proof (wf_not_pending_queue s H Ep).
  apply wf_push_carrier; [by destruct s|by destruct s|]. by apply wf_stage.
Qed.

(** ** Receiving, acknowledging, recovering *)

Lemma wf_decrypt nonce ct aad s : wf_state s -> wf_state (snd (ratchet_decrypt_with_aad nonce ct aad s)).
Proof.
  intros H. destruct (ratchet_decrypt_with_aad nonce ct aad s) as [r s'] eqn:E.
  apply decrypt_with_aad_refines in E as [(e & -> & ->)|(g & q & pt & path & _ & -> & Hd)]; [done|].
  by eapply wf_deliver.
Qed.

Lemma wf_prepared clk path g q rct rx rm s s1 :
  prepared clk path g q rct rx rm s s1 -> wf_state s -> wf_state s1.
Proof.
  intros Hp H. pose proof (wf_phase1 clk g q rct rx rm s H) as H1.
  destruct path; simpl in Hp; try (by subst); rewrite Hp in H1; done.
Qed.

Lemma wf_decrypt_rekey clk nonce ct rct rx rm s :
  wf_state s -> wf_state (snd (ratchet_decrypt_with_rekey_classified clk nonce ct rct rx rm s)).
Proof.
  intros H. unfold ratchet_decrypt_with_rekey_classified. munfold. cbv beta iota.
  destruct (validate_and_extract_nonce s nonce) as [[g q]| |]; [|done..]. cbn [fst snd].
  destruct (build_rekey_aad rct rx rm) as [aad| |]; [|done..].
  destruct (dispatch_previous g q nonce ct aad s) as [r1 s1] eqn:E1.
  apply dispatch_previous_cases in E1 as [(e & -> & ->)|[(-> & -> & Hret)|(pt & b & -> & Hd)]]; [done| |by eapply wf_deliver].
  destruct (run_phase1 clk g q rct rx rm s) as [r2 s2] eqn:E2.
  pose proof (wf_phase1 clk g q rct rx rm s H) as H2. rewrite E2 in H2. destruct r2; [|done..].
  apply phase1_cases in E2 as [(? & ? & _)|[_ [p Hs2]]]; [done|].
  destruct (dispatch_current g q nonce ct aad (is_some rct) s2) as [r3 s3] eqn:E3.
  apply dispatch_current_cases in E3 as [(e & -> & ->)|(pt & path & s4 & -> & _ & Hd & ->)]; [done| |by rewrite Hs2].
  apply wf_deliver in Hd; [|done]. destruct path; simpl; auto using wf_resolve.
Qed.

Lemma wf_add_resync gap s :
  0 <= gap -> sat_add64 (resync_forward_total s) gap <= SYNC_MAX_CUMULATIVE ->
  wf_state s -> wf_state (s <| resync_forward_total ::= fun t => sat_add64 t gap |>).
Proof.
  intros Hg Hb. wf_fields s. unfold sat_add64, u64_max in *. lia.
Qed.

Lemma wf_resync_op clk target s : u64_range target -> wf_state s -> wf_state (snd (resync_receiving_chain clk target s)).
Proof.
  intros Ht H. unfold resync_receiving_chain. munfold. cbv beta iota.
  destruct (clear_incoming clk s) as [r1 s1] eqn:E1.
  assert (wf_state s1) as H1.
  { unfold clear_incoming in E1. munfold. repeat case_match; simplify_eq; auto with kyber. }
  destruct r1; [|done..]. destruct (clear_outgoing clk s1) as [r2 s2] eqn:E2.
  assert (wf_state s2) as H2.
  { unfold clear_outgoing in E2. munfold. repeat case_match; simplify_eq; auto with kyber. }
  destruct r2; [|done..].
  destruct (target <=? _) eqn:Et; [done|]. destruct (SYNC_MAX_GAP <? _) eqn:Eg; [done|].
  destruct (SYNC_MAX_CUMULATIVE <? _) eqn:Ec; [done|].
  rewrite range_nat, skip_loop_ok, (right_id_L ∅ (∪)). cbn [fst snd].
  destruct (wf_skip _ H2) as (st & Hst & _ & _). rewrite (absorb_skip_keys_ok _ st) by (by destruct s2).
  cbn [snd]. apply wf_store_keys; [by destruct s2|intros g q ->%range_keys_gen; by destruct s2|].
  zify_bool. apply wf_add_resync; [lia|by destruct s2|]. by apply wf_set_recv.
Qed.

Lemma wf_drop_carrier i s : wf_state s -> wf_state (s <| rekey_pending_confirm_queue ::= delete i |>).
Proof.
  wf_fields s. destruct wf_carriers0 as [Hl Hp]. split.
  - etransitivity; [apply sublist_length, sublist_delete|done].
  - intros c' Hc'. apply Hp. by eapply list_elem_of_delete_inv.
Qed.

Lemma wf_process_ack q s : wf_state s -> wf_state (snd (process_rekey_ack q s)).
Proof.
  intros H. unfold process_rekey_ack. destruct (list_find _ _) as [[i c]|]; [|done].
  by apply wf_commit_outgoing, wf_drop_carrier.
Qed.

Lemma wf_take_ack s : wf_state s -> wf_state (snd (take_pending_rekey_ack_seq s)).
Proof. wf_fields s. Qed.

Lemma wf_restart clk s : wf_state s -> wf_state (restart clk s).
Proof.
  wf_fields s.
  destruct wf_carriers0 as [Hl Hp]. split; [by rewrite length_fmap|].
  intros c [c0 [-> Hc0]]%list_elem_of_fmap. by apply (Hp c0).
Qed.

(** A save and a restore give the session back, up to the monotonic stamps. *)
Lemma from_to_snapshot clk s : wf_state s -> from_snapshot clk (to_snapshot s) = Ok (restart clk s).
Proof.
  intros H. destruct (wf_carriers _ H) as [Hl Hp]. destruct (wf_skip _ H) as (st & Hst & _ & _).
  pose proof (wf_interval _ H) as Hi.
  unfold from_snapshot. pose proof (restore_keypairs_ok (previous_keypairs s) (to_snapshot s) 0) as Hr.
  replace (length (snap_previous_x25519_pk (to_snapshot s)) ) with (length (previous_keypairs s) - 0)%nat
    by (simpl; rewrite length_fmap; lia).
  rewrite Hr by (done || lia). cbn [mbind result_bind drop].
  replace (snap_outgoing_rekey_payload (to_snapshot s)) with (out_rekey_payload (outgoing_proposal s)) by done.
  rewrite restore_queue_ok, restore_outgoing_pair_ok by done.
  f_equal. unfold restart. destruct s; simpl in *. subst. rewrite restore_map, list_to_set_elements_L.
  by destruct send, recv, our_hybrid_pair, replay_window, incoming_proposal, outgoing_proposal.
Qed.

Lemma wf_fresh mss ini kp x m : wf_state (fresh_session mss ini kp x m).
Proof.
  constructor; simpl; try (by split); try (by vm_compute); try set_solver.
  - exists ∅. split; [done|]. split; [by vm_compute|]. intros g q [v Hv]. by rewrite lookup_empty in Hv.
  - apply wf_queue_nil.
Qed.

(** The debug assertion of the code. *)
Lemma wf_confirm_queue s : wf_state s -> confirm_queue_invariant s = true.
Proof.
  intros H. unfold confirm_queue_invariant. destruct (wf_carriers _ H) as [Hl _]. apply andb_true_iff. split.
  - destruct (outgoing_is_pending _) eqn:E; [done|]. by rewrite (wf_not_pending_queue s H E).
  - apply Z.leb_le. unfold len. lia.
Qed.

End Preservation.

(** ** Sessions as state machines *)

Inductive Op :=
| Encrypt (clk : Clock) (coins : RekeyCoins) (plaintext : bytes)
| Decrypt (nonce ciphertext : bytes)
| DecryptWithRekey (clk : Clock) (nonce ciphertext : bytes) (rekey_ct rekey_xpk rekey_mpk : option bytes)
| ProposeRekey (clk : Clock) (coins : RekeyCoins) (peer_xpk peer_mpk : bytes)
| ProcessAck (seq : Z)
| TakeAck
| Resync (clk : Clock) (target : Z)
| CancelOutgoing
| CancelIncoming
| SaveRestore (clk : Clock).

(** The values an operation receives are machine integers. *)
Definition op_typed (o : Op) : Prop :=
  match o with Resync _ target => u64_range target | _ => True end.

Section Runs.
Context `{P : Primitives}.

(** One operation: the nonces it put on the wire, and the state it leaves. *)
Definition exec (o : Op) (s : DoubleRatchetState) : list bytes * DoubleRatchetState :=
  match o with
  | Encrypt clk coins pt =>
      let '(r, s') := ratchet_encrypt clk coins pt s in
      (match r with Ok m => [msg_nonce m] | _ => [] end, s')
  | Decrypt nonce ct => ([], snd (ratchet_decrypt nonce ct s))
  | DecryptWithRekey clk nonce ct rct rx rm => ([], snd (ratchet_decrypt_with_rekey clk nonce ct rct rx rm s))
  | ProposeRekey clk coins x m => ([], snd (dh_ratchet_rekey clk coins x m s))
  | ProcessAck q => ([], snd (process_rekey_ack q s))
  | TakeAck => ([], snd (take_pending_rekey_ack_seq s))
  | Resync clk target => ([], snd (resync_receiving_chain clk target s))
  | CancelOutgoing => ([], cancel_outgoing_rekey s)
  | CancelIncoming => ([], cancel_pending_incoming_rekey s)
  | SaveRestore clk => ([], match from_snapshot clk (to_snapshot s) with Ok s' => s' | _ => s end)
  end.

Fixpoint run (ops : list Op) (s : DoubleRatchetState) : list bytes * DoubleRatchetState :=
  match ops with
  | [] => ([], s)
  | o :: ops' => let '(n1, s1) := exec o s in let '(n2, s2) := run ops' s1 in (n1 ++ n2, s2)
  end.

Lemma with_rekey_state clk nonce ct rct rx rm s :
  snd (ratchet_decrypt_with_rekey clk nonce ct rct rx rm s)
  = snd (ratchet_decrypt_with_rekey_classified clk nonce ct rct rx rm s).
Proof. unfold ratchet_decrypt_with_rekey. munfold. by destruct (ratchet_decrypt_with_rekey_classified _ _ _ _ _ _ s) as [[| |] ?]. Qed.

Lemma wf_exec o s : op_typed o -> wf_state s -> wf_state (snd (exec o s)).
Proof.
  intros Ho H. destruct o; cbn [exec snd op_typed] in *.
  - pose proof (wf_encrypt clk coins plaintext s H). destruct (ratchet_encrypt clk coins plaintext s). done.
  - by apply wf_decrypt.
  - rewrite with_rekey_state. by apply wf_decrypt_rekey.
  - by apply wf_dh_rekey.
  - by apply wf_process_ack.
  - by apply wf_take_ack.
  - by apply wf_resync_op.
  - by apply wf_cancel_out.
  - by apply wf_cancel_in.
  - rewrite from_to_snapshot by done. by apply wf_restart.
Qed.

Lemma wf_run ops s : Forall op_typed ops -> wf_state s -> wf_state (snd (run ops s)).
Proof.
  revert s. induction ops as [|o ops IH]; intros s Ho H; cbn [run]; [done|].
  inversion Ho; subst. pose proof (wf_exec o s) as He. destruct (exec o s) as [n1 s1].
  specialize (IH s1). destruct (run ops s1) as [n2 s2]. simpl in *. auto.
Qed.

End Runs.
