(* ===== verification/RatchetSafety.v ===== *)
(** * RatchetSafety: safety of a session over any run

    The invariant of RatchetInvariant for every reachable state, nonce
    uniqueness over a run, failures that leave the session in place, rejection
    of replays, the persistence round trip. *)

From S2P Require Import Prelude Error Primitives Aead Kem Toy Tlv RatchetState.
From S2P Require Import RatchetChain RatchetEncrypt Scenario RatchetDecrypt RatchetResync RatchetSnapshot RatchetStep RatchetInvariant.

(** ** Runs with durable saves *)

Inductive LifeOp :=
| Live (o : Op)
| Save
| Restore (clk : Clock).

Definition life_typed (o : LifeOp) : Prop := match o with Live o => op_typed o | _ => True end.

(** The operation that puts a message on the wire. *)
Definition sends (o : Op) : bool := match o with Encrypt _ _ _ => true | _ => false end.

(** Every restore reads a save made after the last message was sent
    ([current]: nothing was sent since the last save). *)
Fixpoint restores_current (current : bool) (ops : list LifeOp) : bool :=
  match ops with
  | [] => true
  | Live o :: ops' => restores_current (current && negb (sends o)) ops'
  | Save :: ops' => restores_current true ops'
  | Restore _ :: ops' => current && restores_current current ops'
  end.

Section Safety.
Context `{P : Primitives}.

(** ** The sending position *)

Abbreviation gen := ratchet_generation.
Definition send_count (s : DoubleRatchetState) : Z := message_count (send s).

(** An operation keeps the sending position, or starts the next generation. *)
Definition send_kept (s s' : DoubleRatchetState) : Prop :=
  (gen s' = gen s /\ send_count s' = send_count s)
  \/ (gen s' = sat_add32 (gen s) 1 /\ send_count s' = 0).

Lemma send_kept_refl s : send_kept s s.
Proof. by left. Qed.
Hint Resolve send_kept_refl : core.

Lemma commit_race_send s pk :
  wf_state s -> in_receiving_chain_key (incoming_proposal s) = Some pk ->
  send_kept s (commit_pending_rekey_with_race_resolution s).
Proof.
  intros H Hk. right.
  set (c := if is_some (out_root_key (outgoing_proposal s)) then cancel_outgoing_rekey s else s).
  assert (incoming_proposal c = incoming_proposal s /\ gen c = gen s) as [Hc Hg]
    by (subst c; case_match; done).
  pose proof (wf_in _ H) as Hi. rewrite <- Hc in Hi, Hk. pose proof Hi as Hi'. unfold wf_incoming in Hi'.
  destruct (in_root_key (incoming_proposal c)) as [r|] eqn:Er; [|naive_solver].
  destruct Hi' as ([sk Hs] & _). change (commit_pending_rekey_with_race_resolution s) with (commit_pending_rekey c).
  rewrite (commit_pending_eq c r sk pk Hi Er Hs Hk), <- Hg. split; reflexivity.
Qed.

(** A commit empties the window. *)
Lemma commit_race_seen s :
  let c := commit_pending_rekey_with_race_resolution s in
  seen (replay_window c) = ∅ \/ seen (replay_window c) = seen (replay_window s).
Proof.
  unfold commit_pending_rekey_with_race_resolution, commit_pending_rekey.
  destruct (is_some (out_root_key _)); cbv zeta; repeat case_match; auto.
Qed.

Lemma deliver_send g q nonce ct aad s pt path s' :
  wf_state s -> deliver g q nonce ct aad s pt path s' -> send_kept s s'.
Proof.
  intros H Hd. destruct Hd; try (left; split; reflexivity). by apply (commit_race_send s pk).
Qed.

Lemma commit_outgoing_send s : wf_state s -> send_kept s (commit_outgoing_rekey s).
Proof.
  intros H. pose proof (wf_out _ H) as Ho. unfold wf_outgoing in Ho.
  destruct (out_root_key (outgoing_proposal s)) as [r|] eqn:Er.
  - destruct Ho as ([sk Hs] & [rk Hk] & [p Hp] & _). right.
    rewrite (commit_outgoing_eq s r sk rk p) by done. split; reflexivity.
  - left. unfold commit_outgoing_rekey. rewrite Er. done.
Qed.

Lemma resolve_send q has s : send_kept s (resolve_rekey_race_and_ack q has s).
Proof. unfold resolve_rekey_race_and_ack. repeat case_match; left; split; reflexivity. Qed.

Lemma classified_send clk nonce ct rct rx rm s :
  wf_state s -> send_kept s (snd (ratchet_decrypt_with_rekey_classified clk nonce ct rct rx rm s)).
Proof.
  intros H. destruct (ratchet_decrypt_with_rekey_classified clk nonce ct rct rx rm s) as [r s'] eqn:E.
  apply classified_refines in E as [(e & p & -> & ->)|(g & q & aad & pt & path & s1 & s2 & _ & _ & Hp & Hd & -> & ->)].
  - by left.
  - pose proof (wf_prepared _ _ _ _ _ _ _ _ _ Hp H) as H1. apply deliver_send in Hd; [|done].
    assert (gen s1 = gen s /\ send_count s1 = send_count s) as [Hg Hc].
    { destruct path; simpl in Hp; try (by subst); apply phase1_cases in Hp as [(? & ? & ?)|[_ [p ->]]]; done. }
    assert (send_kept s s2) as Hk by (unfold send_kept in *; rewrite Hg, Hc in Hd; done).
    destruct path; simpl; try done; unfold resolve_rekey_race_and_ack; repeat case_match; done.
Qed.

Lemma resync_send clk t s : send_kept s (snd (resync_receiving_chain clk t s)).
Proof.
  left. unfold resync_receiving_chain, clear_incoming, clear_outgoing, absorb_skip_keys, with_store. munfold.
  repeat case_match; simplify_eq; done.
Qed.

Lemma process_ack_send q s : wf_state s -> send_kept s (snd (process_rekey_ack q s)).
Proof.
  intros H. unfold process_rekey_ack. destruct (list_find _ _) as [[i c]|]; [|apply send_kept_refl].
  exact (commit_outgoing_send _ (wf_drop_carrier i s H)).
Qed.

(** ** Nonce uniqueness *)

(** What one operation does to the sending position and what it emits. *)
Lemma exec_send o s :
  op_typed o -> wf_state s ->
  let s' := snd (exec o s) in
  (fst (exec o s) = [] /\ send_kept s s')
  \/ (gen s' = gen s /\ send_count s' = wrap64 (send_count s + 1)
      /\ (fst (exec o s) = []
          \/ (gen s <> u32_max /\ fst (exec o s) = [generate_nonce_from_seq (send_count s) (gen s)]))).
Proof.
  intros Ho H. destruct o; cbn [exec fst snd].
  - destruct (ratchet_encrypt clk coins plaintext s) as [r s'] eqn:E. right. cbn [fst snd].
    pose proof E as (k & out & q & -> & _)%ratchet_encrypt_frame. split; [done|]. split; [done|].
    destruct r as [m| |]; auto. apply ratchet_encrypt_ok in E as (Hg & Hn & _). right. by rewrite Hn.
  - left. split; [done|]. unfold ratchet_decrypt.
    destruct (ratchet_decrypt_with_aad nonce ciphertext [] s) as [r s'] eqn:E.
    apply decrypt_with_aad_refines in E as [(e & -> & ->)|(g & q & pt & path & _ & -> & Hd)]; [done|].
    by eapply deliver_send.
  - left. rewrite with_rekey_state. split; [done|]. by apply classified_send.
  - left. split; [done|]. destruct (dh_ratchet_rekey clk coins peer_xpk peer_mpk s) as [r s'] eqn:E.
    apply dh_ratchet_rekey_frame in E as (out & q & ->). by left.
  - left. split; [done|]. by apply process_ack_send.
  - left. split; [done|]. by left.
  - left. split; [done|]. apply resync_send.
  - left. split; [done|]. by left.
  - left. split; [done|]. by left.
  - left. split; [done|]. rewrite from_to_snapshot by done. by left.
Qed.

(** A nonce at or after the sending position of [s], not in the last generation. *)
Definition nonce_from (s : DoubleRatchetState) (n : bytes) : Prop :=
  exists g c, n = generate_nonce_from_seq c g /\ u32_range g /\ g <> u32_max /\ u64_range c
              /\ (gen s < g \/ (g = gen s /\ send_count s <= c)).

Lemma nonce_from_mono s s' n :
  wf_state s -> send_kept s s' \/ (gen s' = gen s /\ send_count s <= send_count s') ->
  nonce_from s' n -> nonce_from s n.
Proof.
  intros H Hk (g & c & -> & Hg & Hne & Hc & Hpos). exists g, c. split_and!; try done.
  pose proof (wf_gen _ H) as Hr. pose proof (wf_send_count _ H) as Hsc. unfold send_kept, sat_add32, u32_range in *.
  fold (send_count s) in Hsc. unfold u64_range in Hsc. lia.
Qed.

Lemma nonce_from_next s s' n :
  gen s' = gen s -> send_count s' = send_count s + 1 -> wf_state s ->
  nonce_from s' n -> n <> generate_nonce_from_seq (send_count s) (gen s).
Proof.
  intros Hg Hc H (g & c & -> & Hgr & _ & Hcr & Hpos) E.
  pose proof (f_equal nonce_generation E) as E1. pose proof (f_equal nonce_seq E) as E2.
  rewrite !nonce_generation_of in E1 by (done || apply H). rewrite !nonce_seq_of in E2 by (done || apply H). lia.
Qed.

(** One operation from [s]: at most one nonce, at or after [s], and whatever is
    sent from the state it leaves is later still. *)
Lemma exec_nonce o s :
  op_typed o -> wf_state s -> send_count s < u64_max ->
  let '(ns, s') := exec o s in
  wf_state s' /\ send_count s' <= send_count s + 1
  /\ (forall n, nonce_from s' n -> nonce_from s n)
  /\ (ns = [] \/ exists n, ns = [n] /\ sends o = true /\ nonce_from s n /\ ~ nonce_from s' n).
Proof.
  intros Ho H Hb. pose proof (wf_exec o s Ho H) as H1. pose proof (exec_send o s Ho H) as Hs.
  assert (sends o = false -> fst (exec o s) = []) as Hq by (by destruct o).
  destruct (exec o s) as [ns s'] eqn:E. cbn [fst snd] in *. pose proof (wf_send_count _ H) as Hsc.
  fold (send_count s) in Hsc. split; [done|]. destruct Hs as [[-> Hk]|(Hg & Hc & Hn)].
  - split_and!; [unfold send_kept in Hk; unfold u64_range in Hsc; lia| |by left].
    intros n. apply nonce_from_mono; auto.
  - assert (send_count s' = send_count s + 1) as Hc'.
    { rewrite Hc. unfold wrap64. apply Z.mod_small. unfold u64_range, u64_max in *. lia. }
    split_and!; [lia|intros n; apply nonce_from_mono; auto with lia|].
    destruct Hn as [-> |[Hgm ->]]; [by left|]. right. eexists. split; [done|]. split.
    { destruct (sends o); [done|]. by specialize (Hq eq_refl). }
    split; [|intros Hin; by apply (nonce_from_next s s' _ Hg Hc' H Hin)].
    exists (gen s), (send_count s). split_and!; auto with lia. apply H.
Qed.

(** ** Nonces across saves and restores

    A process keeps its session live and saves it now and then; after a crash
    it restores the last save.  The snapshot is the last one written, however
    old. *)

Record Life := { running : DoubleRatchetState; last_save : option RatchetSnapshot }.

Definition life_step (o : LifeOp) (l : Life) : list bytes * Life :=
  match o with
  | Live o => let '(ns, s') := exec o (running l) in (ns, {| running := s'; last_save := last_save l |})
  | Save => ([], {| running := running l; last_save := Some (to_snapshot (running l)) |})
  | Restore clk =>
      ([], match from_snapshot clk <$> last_save l with
           | Some (Ok s') => {| running := s'; last_save := last_save l |}
           | _ => l
           end)
  end.

Fixpoint life_run (ops : list LifeOp) (l : Life) : list bytes * Life :=
  match ops with
  | [] => ([], l)
  | o :: ops' => let '(n1, l1) := life_step o l in let '(n2, l2) := life_run ops' l1 in (n1 ++ n2, l2)
  end.

(** The state the last save holds, while nothing was sent since. *)
Definition save_holds (t : DoubleRatchetState) (room : Z) (l : Life) : Prop :=
  wf_state t /\ send_count t + room <= u64_max
  /\ (forall snap, last_save l = Some snap -> snap = to_snapshot t)
  /\ (forall n, nonce_from (running l) n -> nonce_from t n).

Lemma life_nonces ops current t l :
  Forall life_typed ops -> restores_current current ops = true -> wf_state (running l) ->
  send_count (running l) + len ops <= u64_max ->
  (current = true -> save_holds t (len ops) l) ->
  NoDup (fst (life_run ops l))
  /\ Forall (nonce_from (if current then t else running l)) (fst (life_run ops l)).
Proof.
  revert current t l.
  induction ops as [|o ops IH]; intros current t l Ht Hr H Hb Hsv; cbn [life_run]; [by split; constructor|].
  inversion Ht as [|? ? Ho Ht']; subst. rewrite len_cons in Hb. pose proof (len_nonneg ops) as Hlen.
  destruct o as [o| |clk]; cbn [life_step restores_current] in *.
  - pose proof (exec_nonce o (running l) Ho H ltac:(lia)) as Hx.
    destruct (exec o (running l)) as [n1 s1]. destruct Hx as (H1 & Hc & Hmono & Hn).
    set (l1 := {| running := s1; last_save := last_save l |}). set (c1 := current && negb (sends o)) in *.
    assert (c1 = true -> save_holds t (len ops) l1) as Hsv1.
    { intros [Hcur _]%andb_true_iff. destruct (Hsv Hcur) as (? & Hr' & ? & ?). rewrite len_cons in Hr'.
      split_and!; auto with lia. }
    destruct (IH c1 t l1 Ht' Hr H1 ltac:(simpl; lia) Hsv1) as [Hnd Hall].
    destruct (life_run ops l1) as [n2 l2]. cbn [fst] in *.
    assert (forall n, nonce_from (running l) n -> nonce_from (if current then t else running l) n) as Hup.
    { destruct current; [|done]. apply (Hsv eq_refl). }
    assert (Forall (nonce_from (if current then t else running l)) n2) as Hall'.
    { eapply Forall_impl; [done|]. intros n Hin. subst c1. destruct current; simpl in Hin; [|by apply Hmono].
      destruct (negb (sends o)); [done|]. by apply Hup, Hmono. }
    destruct Hn as [-> |(n & -> & Hs & Hfrom & Hnot)]; [done|]. cbn [app]. split; constructor; auto.
    intros Hin. rewrite Forall_forall in Hall. specialize (Hall n Hin).
    subst c1. rewrite Hs, andb_false_r in Hall. done.
  - set (l1 := {| running := running l; last_save := Some (to_snapshot (running l)) |}).
    destruct (IH true (running l) l1 Ht' Hr H ltac:(simpl; lia)) as [Hnd Hall].
    { intros _. split_and!; auto with lia. by intros snap [= <-]. }
    destruct (life_run ops l1) as [n2 l2]. cbn [fst app] in *. split; [done|].
    eapply Forall_impl; [done|]. intros n Hin. destruct current; [|done]. by apply (Hsv eq_refl).
  - apply andb_true_iff in Hr as [-> Hr]. destruct (Hsv eq_refl) as (Hwt & Hbt & Hsnap & Hmono).
    rewrite len_cons in Hbt. destruct (last_save l) as [snap|] eqn:Es; cbn [fmap option_fmap option_map].
    + rewrite (Hsnap snap eq_refl), from_to_snapshot by done.
      set (l1 := {| running := restart clk t; last_save := Some snap |}).
      destruct (IH true t l1 Ht' Hr (wf_restart _ _ Hwt)) as [Hnd Hall].
      { change (send_count (running l1)) with (send_count t). lia. }
      { intros _. split_and!; auto with lia. }
      rewrite <- (Hsnap snap eq_refl). fold l1. by destruct (life_run ops l1) as [n2 l2].
    + destruct (IH true t l Ht' Hr H ltac:(lia)) as [Hnd Hall].
      { intros _. split_and!; auto with lia. intros snap. by rewrite Es. }
      by destruct (life_run ops l) as [n2 l2].
Qed.

(** ** Replays *)

Lemma budget_200 s : wf_state s -> skip_budget s = 200.
Proof. intros H. unfold skip_budget. by rewrite (wf_max_skip _ H). Qed.

Lemma seen_record g q s :
  seen_len (seen (replay_window s)) < SEEN_SET_MAX -> (g, q) ∈ seen (replay_window (record g q s)).
Proof.
  intros H. change (replay_window (record g q s)) with (record_delivered g q (replay_window s)).
  rewrite record_delivered_small by done. set_solver.
Qed.

Lemma seen_after_chain q st s :
  wf_state s -> u64_range q -> seen_len (seen (replay_window s)) < SEEN_SET_MAX ->
  (gen s, q) ∈ seen (replay_window (after_chain q st s)).
Proof.
  intros H Hq Hb.
  change (seen (replay_window (after_chain q st s)))
    with (filter (fun p => fst p = gen s /\ sat_sub (wrap64 (q + 1)) (skip_budget s) <= snd p)
            (seen (record_delivered (gen s) q (replay_window s)))).
  rewrite record_delivered_small, budget_200 by done. apply elem_of_filter. split; [|set_solver].
  split; [done|]. simpl. unfold sat_sub, wrap64. unfold u64_range, u64_max in Hq.
  destruct (decide (q = 2 ^ 64 - 1)) as [->|]; [by vm_compute|]. rewrite Z.mod_small by lia. lia.
Qed.

(** A delivery marks its position as seen, when the nonce names the generation
    that delivered it. *)
Lemma deliver_recorded g q nonce ct aad s pt path s' :
  wf_state s -> u64_range q -> seen_len (seen (replay_window s)) < SEEN_SET_MAX ->
  deliver g q nonce ct aad s pt path s' ->
  g = gen s' \/ retained_generation g s = true ->
  (g, q) ∈ seen (replay_window s').
Proof.
  intros H Hq Hb Hd Hg. destruct Hd.
  - apply (seen_record g q). done.
  - apply (seen_record g q). done.
  - apply (seen_record g q). done.
  - destruct Hg as [->|Hr]; [|congruence].
    change (gen (after_chain q st s)) with (gen s). by apply seen_after_chain.
  - destruct Hg as [->|Hr]; [|congruence].
    set (c := commit_pending_rekey_with_race_resolution s).
    change (gen (after_pending q st s)) with (gen c).
    change (replay_window (after_pending q st s)) with (record_delivered (gen c) q (replay_window c)).
    rewrite record_delivered_small; [set_solver|].
    pose proof (commit_race_seen s) as [E|E]; fold c in E; rewrite E; [by vm_compute|done].
Qed.

Lemma validate_seen s nonce :
  (nonce_generation nonce, nonce_seq nonce) ∈ seen (replay_window s) ->
  exists e, validate_and_extract_nonce s nonce = Err e.
Proof.
  intros H. unfold validate_and_extract_nonce. repeat case_match; eauto.
  by rewrite bool_decide_eq_false in *.
Qed.

Lemma validate_ok s nonce g q :
  validate_and_extract_nonce s nonce = Ok (g, q) -> g = nonce_generation nonce /\ q = nonce_seq nonce.
Proof. unfold validate_and_extract_nonce. repeat case_match; naive_solver. Qed.

(** Both entry points refuse a seen nonce in place. *)
Definition refuses (nonce : bytes) (s : DoubleRatchetState) : Prop :=
  (forall ct aad, exists e, ratchet_decrypt_with_aad nonce ct aad s = (Err e, s))
  /\ (forall clk ct rct rx rm, exists e,
        ratchet_decrypt_with_rekey_classified clk nonce ct rct rx rm s = (Err e, s)).

Lemma refuses_seen nonce s :
  (nonce_generation nonce, nonce_seq nonce) ∈ seen (replay_window s) -> refuses nonce s.
Proof.
  intros [e He]%validate_seen. split; intros; exists e.
  - unfold ratchet_decrypt_with_aad. munfold. by rewrite He.
  - unfold ratchet_decrypt_with_rekey_classified. munfold. by rewrite He.
Qed.

Lemma deliver_refused g q nonce ct aad s pt path s' :
  wf_state s -> seen_len (seen (replay_window s)) < SEEN_SET_MAX ->
  validate_and_extract_nonce s nonce = Ok (g, q) ->
  deliver g q nonce ct aad s pt path s' ->
  nonce_generation nonce = gen s' \/ retained_generation (nonce_generation nonce) s = true ->
  (nonce_generation nonce, nonce_seq nonce) ∈ seen (replay_window s').
Proof.
  intros H Hb [-> ->]%validate_ok Hd Hg. eapply deliver_recorded; eauto using nonce_seq_range.
Qed.

Lemma prepared_fields clk path g q rct rx rm s s1 :
  prepared clk path g q rct rx rm s s1 ->
  seen (replay_window s1) = seen (replay_window s)
  /\ (forall g', retained_generation g' s1 = retained_generation g' s)
  /\ (forall nonce, validate_and_extract_nonce s1 nonce = validate_and_extract_nonce s nonce).
Proof.
  intros Hp. assert (exists p, s1 = s <| incoming_proposal := p |>) as [p ->]; [|done].
  destruct path; simpl in Hp;
    try (apply phase1_cases in Hp as [(? & ? & ?)|[_ ?]]; done);
    exists (incoming_proposal s); by rewrite incoming_id.
Qed.

Lemma finish_seen path q has s :
  seen (replay_window (finish path q has s)) = seen (replay_window s) /\ gen (finish path q has s) = gen s.
Proof. destruct path; simpl; try done; unfold resolve_rekey_race_and_ack; repeat case_match; done. Qed.

(** ** Properties *)

(** C2: from a fresh session, every run of operations keeps the session
    invariant, and with it the debug assertion on the confirm queue. *)
Theorem session_invariant mss ini kp x m s ops :
  new_with_keypair mss ini kp x m = Ok s -> Forall op_typed ops ->
  wf_state (snd (run ops s)) /\ confirm_queue_invariant (snd (run ops s)) = true.
Proof.
  rewrite new_with_keypair_ok. intros [= <-] Ho.
  assert (wf_state (snd (run ops (fresh_session mss ini kp x m)))) as H by auto using wf_run, wf_fresh.
  auto using wf_confirm_queue.
Qed.

(** C1: over any run of fewer than 2^64 steps from a fresh session (sends,
    receives, rekey commits, resyncs, saves, and restores of the last save) in
    which every restore reads a snapshot saved after the last message was sent,
    no two messages are sealed under the same nonce. *)
Theorem nonce_uniqueness mss ini kp x m s ops :
  new_with_keypair mss ini kp x m = Ok s -> Forall life_typed ops -> len ops <= u64_max ->
  restores_current true ops = true ->
  NoDup (fst (life_run ops {| running := s; last_save := None |})).
Proof.
  rewrite new_with_keypair_ok. intros [= <-] Ho Hl Hr.
  apply (life_nonces ops true (fresh_session mss ini kp x m)); [done|done|apply wf_fresh|exact Hl|].
  intros _. split_and!; [apply wf_fresh|exact Hl|done|done].
Qed.

(** The plain decrypt entry point takes exactly one step of the abstract
    receive machine or fails; a failure leaves the session as it was, and no
    input makes it panic. *)
Theorem decrypt_refines nonce ct aad s :
  let '(r, s') := ratchet_decrypt_with_aad nonce ct aad s in
  match r with
  | Ok pt => exists g q path, validate_and_extract_nonce s nonce = Ok (g, q)
                              /\ deliver g q nonce ct aad s pt path s'
  | Err _ => s' = s
  | Panic _ => False
  end.
Proof.
  destruct (ratchet_decrypt_with_aad nonce ct aad s) as [r s'] eqn:E.
  apply decrypt_with_aad_refines in E as [(e & -> & ->)|(g & q & pt & path & Hv & -> & Hd)]; eauto.
Qed.

(** C19: the rekey-aware entry point stages the proposal, takes one step of the
    receive machine and settles the rekey race, with the outcome it reports; a
    failure changes nothing but the incoming proposal slot; no input makes it
    panic. *)
Theorem decrypt_rekey_refines clk nonce ct rct rx rm s :
  let '(r, s') := ratchet_decrypt_with_rekey_classified clk nonce ct rct rx rm s in
  match r with
  | Ok (pt, o) =>
      exists g q aad path s1 s2,
        validate_and_extract_nonce s nonce = Ok (g, q) /\ build_rekey_aad rct rx rm = Ok aad
        /\ prepared clk path g q rct rx rm s s1 /\ deliver g q nonce ct aad s1 pt path s2
        /\ o = path_outcome path (is_some rct) /\ s' = finish path q (is_some rct) s2
  | Err _ => s' = s <| incoming_proposal := incoming_proposal s' |>
  | Panic _ => False
  end.
Proof.
  destruct (ratchet_decrypt_with_rekey_classified clk nonce ct rct rx rm s) as [r s'] eqn:E.
  apply classified_refines in E as [(e & p & -> & ->)|(g & q & aad & pt & path & s1 & s2 & ? & ? & ? & ? & -> & ->)].
  - by destruct s.
  - exists g, q, aad, path, s1, s2. done.
Qed.

(** C6: in the state a delivery leaves, by either entry point, the message's
    nonce is refused by both entry points and the session does not change,
    when the replay window held fewer than SEEN_SET_MAX entries before the
    delivery and the nonce names the session's generation after it or the
    retained previous generation. *)
Theorem replay_refused nonce ct aad s pt s' :
  wf_state s -> seen_len (seen (replay_window s)) < SEEN_SET_MAX ->
  ratchet_decrypt_with_aad nonce ct aad s = (Ok pt, s')
  \/ (exists clk rct rx rm o,
        ratchet_decrypt_with_rekey_classified clk nonce ct rct rx rm s = (Ok (pt, o), s')) ->
  nonce_generation nonce = gen s' \/ retained_generation (nonce_generation nonce) s = true ->
  refuses nonce s'.
Proof.
  intros H Hb Hor Hg. apply refuses_seen. destruct Hor as [E|(clk & rct & rx & rm & o & E)].
  - apply decrypt_with_aad_refines in E as [(e & ? & _)|(g & q & pt' & path & Hv & _ & Hd)]; [done|].
    eapply deliver_refused; eauto.
  - apply classified_refines in E as [(e & p & ? & _)|(g & q & aad' & pt' & path & s1 & s2 & Hv & _ & Hp & Hd & _ & ->)]; [done|].
    destruct (finish_seen path q (is_some rct) s2) as [Hf Hfg]. rewrite Hf. rewrite Hfg in Hg.
    destruct (prepared_fields _ _ _ _ _ _ _ _ _ Hp) as (Hs & Hr & Hval).
    rewrite <- Hr in Hg. rewrite <- Hval in Hv. rewrite <- Hs in Hb.
    apply (deliver_refused g q nonce ct aad' s1 pt' path s2); try done. by eapply wf_prepared.
Qed.

(** Saving a session and restoring it gives the same session, up to the
    monotonic stamps and the transient peek cache, and the restored session
    saves to the same snapshot. *)
Theorem snapshot_roundtrip clk s :
  wf_state s ->
  from_snapshot clk (to_snapshot s) = Ok (restart clk s) /\ to_snapshot (restart clk s) = to_snapshot s.
Proof.
  intros H. split; [by apply from_to_snapshot|].
  unfold to_snapshot, restart. destruct s, incoming_proposal. simpl. by rewrite <- !list_fmap_compose.
Qed.

End Safety.

(** ** Witnesses *)

Import Scenario.

Definition ops_demo : list Op :=
  [Encrypt clock (rekey_coins 31) (bstr "one"); SaveRestore clock; TakeAck;
   Encrypt clock (rekey_coins 31) (bstr "two"); Resync clock 7].

Lemma ops_demo_typed : Forall op_typed ops_demo.
Proof. repeat constructor; vm_compute; congruence. Qed.

Lemma session_invariant_witness :
  wf_state (snd (run ops_demo alice)) /\ confirm_queue_invariant (snd (run ops_demo alice)) = true.
Proof.
  apply (session_invariant secret true pair_a (Some (x25519_pk pair_b)) (Some (mlkem_pk pair_b)) alice ops_demo).
  - apply new_with_keypair_ok.
  - apply ops_demo_typed.
Defined.

Definition life_demo : list LifeOp :=
  [Live (Encrypt clock (rekey_coins 31) (bstr "one")); Save; Live (Resync clock 7); Restore clock;
   Live (Encrypt clock (rekey_coins 31) (bstr "two"))].

Lemma nonce_uniqueness_witness :
  length (fst (life_run life_demo {| running := alice; last_save := None |})) = 2%nat
  /\ NoDup (fst (life_run life_demo {| running := alice; last_save := None |})).
Proof.
  split; [by vm_compute|].
  apply (nonce_uniqueness secret true pair_a (Some (x25519_pk pair_b)) (Some (mlkem_pk pair_b)) alice life_demo).
  - apply new_with_keypair_ok.
  - repeat constructor; vm_compute; congruence.
  - by vm_compute.
  - by vm_compute.
Defined.

(** Without the condition the next message after the restore repeats a nonce. *)
Lemma stale_restore_repeats :
  let sent := fst (life_run [Save; Live (Encrypt clock (rekey_coins 31) (bstr "one")); Restore clock;
                             Live (Encrypt clock (rekey_coins 31) (bstr "two"))]
                            {| running := alice; last_save := None |}) in
  length sent = 2%nat /\ sent !! 0%nat = sent !! 1%nat.
Proof. by vm_compute. Qed.

Definition first_message : RatchetEncryptedMessage :=
  message (fst (ratchet_encrypt clock (rekey_coins 31) (bstr "hello") alice)).
Definition bob_after_first : DoubleRatchetState :=
  snd (ratchet_decrypt_with_aad (msg_nonce first_message) (msg_ciphertext first_message) [] bob).

Lemma replay_refused_witness : refuses (msg_nonce first_message) bob_after_first.
Proof.
  apply (replay_refused (msg_nonce first_message) (msg_ciphertext first_message) [] bob (bstr "hello") bob_after_first).
  - apply wf_fresh.
  - by vm_compute.
  - left. unfold bob_after_first. apply run_ok. by vm_compute.
  - left. by vm_compute.
Defined.

Lemma snapshot_roundtrip_witness :
  from_snapshot clock (to_snapshot bob_after_first) = Ok (restart clock bob_after_first)
  /\ to_snapshot (restart clock bob_after_first) = to_snapshot bob_after_first.
Proof. apply (snapshot_roundtrip clock bob_after_first). apply wf_decrypt, wf_fresh. Defined.
