(* ===== verification/RatchetSession.v ===== *)
(** * RatchetSession: two sessions talking to each other

    A sender and a receiver that hold the same chain.  [Tracks] is the
    receiver's side of a generation: its chain key, its cache and its replay
    window as functions of the chain and of the set of delivered positions.
    The theorems are about delivery in any order and about the keys two sides
    hold after a rekey. *)

From S2P Require Import Prelude Error Primitives Aead Kem Toy Tlv.
From S2P Require Import RatchetState RatchetChain RatchetEncrypt Scenario RatchetDecrypt RatchetStep RatchetInvariant.

(** ** Cache lemmas *)

Lemma prune_skip_keys_id (g budget : Z) (m : SkipKeyMap) :
  Z.of_nat (size m) <= budget -> (forall g' q, is_Some (m !! (g', q)) -> g' = g) ->
  prune_skip_keys g budget m = m.
Proof.
  intros Hs Hg. unfold prune_skip_keys. rewrite map_filter_id; [by apply prune_loop_small|].
  intros [g' q] v Hv. unfold keep_generation. simpl. rewrite (Hg g' q) by eauto. by rewrite Z.eqb_refl.
Qed.

Section Session.
Context `{P : Primitives}.

Lemma range_keys_size g base n ck : (size (range_keys g base n ck) <= n)%nat.
Proof.
  revert base ck. induction n as [|n IH]; intros base ck; cbn [range_keys]; [by rewrite map_size_empty|].
  specialize (IH (base + 1) (next_ck ck)). rewrite map_size_insert. case_match; simpl; lia.
Qed.

(** ** The forward direction of the receive machine *)

Lemma validate_current s g q :
  u32_range g -> u64_range q -> ratchet_generation s = g -> g <> u32_max ->
  (g, q) ∉ seen (replay_window s) ->
  validate_and_extract_nonce s (generate_nonce_from_seq q g) = Ok (g, q).
Proof.
  intros Hg Hq Hgen Hmax Hs. unfold validate_and_extract_nonce.
  rewrite nonce_generation_of, nonce_seq_of, Hgen, (proj2 (Z.eqb_neq _ _)), Z.eqb_refl by done. simpl.
  by rewrite bool_decide_eq_false_2.
Qed.

Lemma dispatch_previous_none g q nonce ct aad s :
  retained_generation g s = false -> dispatch_previous g q nonce ct aad s = (Ok None, s).
Proof.
  unfold retained_generation, dispatch_previous, try_decrypt_previous_generation. munfold. cbv beta iota.
  intros H. destruct (is_previous_generation g s); [|done].
  destruct (previous_recv_chain_key s), (previous_recv_anchor s), (previous_recv_gen s); try done. by rewrite H.
Qed.

Lemma decrypt_cached_ok nonce ct aad g q st k pt s :
  validate_and_extract_nonce s nonce = Ok (g, q) -> retained_generation g s = false ->
  skip_message_keys s = Some st -> st !! (g, q) = Some k -> decrypt_chacha20 k nonce ct aad = Ok pt ->
  ratchet_decrypt_with_aad nonce ct aad s = (Ok pt, after_cached g q st s).
Proof.
  intros Hv Hr Hst Hk Hd. unfold ratchet_decrypt_with_aad. munfold. cbv beta iota. rewrite Hv. cbn [fst snd].
  rewrite dispatch_previous_none by done. unfold with_store, try_decrypt_with_cached_key. rewrite Hst, Hk, Hd. done.
Qed.

Lemma try_chain_ok q nonce ct aad st pt s :
  skip_message_keys s = Some st ->
  gap_exceeds (message_count (recv s)) q (max_skip s) = false ->
  decrypt_chacha20 (msg_at (key (recv s)) (Z.to_nat (q - message_count (recv s)))) nonce ct aad = Ok pt ->
  try_decrypt_with_chain q nonce ct aad s = (Ok pt, after_chain q st s).
Proof.
  intros Hst Hg Hd. unfold try_decrypt_with_chain. munfold. unfold with_store at 1. rewrite Hst.
  cbv beta iota. rewrite (skip_keys_id st) by done. rewrite Hg, range_nat, skip_loop_ok. cbn [fst snd].
  rewrite expand_msg_key_ok, expand_next_chain_ok, next_ck_chain_at, (right_id_L ∅ (∪)).
  unfold msg_at in Hd. rewrite Hd, (absorb_skip_keys_ok _ st) by (by destruct s). reflexivity.
Qed.

Lemma decrypt_chain_ok nonce ct aad g q st pt s :
  validate_and_extract_nonce s nonce = Ok (g, q) -> retained_generation g s = false ->
  skip_message_keys s = Some st -> st !! (g, q) = None ->
  gap_exceeds (message_count (recv s)) q (max_skip s) = false ->
  decrypt_chacha20 (msg_at (key (recv s)) (Z.to_nat (q - message_count (recv s)))) nonce ct aad = Ok pt ->
  ratchet_decrypt_with_aad nonce ct aad s = (Ok pt, after_chain q st s).
Proof.
  intros Hv Hr Hst Hk Hg Hd. unfold ratchet_decrypt_with_aad. munfold. cbv beta iota. rewrite Hv. cbn [fst snd].
  rewrite dispatch_previous_none by done.
  unfold with_store, try_decrypt_with_cached_key at 1. rewrite Hst, Hk. cbv beta iota.
  rewrite (skip_keys_id st) by done. by rewrite (try_chain_ok q nonce ct aad st pt s).
Qed.

(** ** The receiver of one generation *)

(** The receiver of generation [g] whose chain started at [ck], after exactly
    the positions [D] were delivered. *)
Record Tracks (ck : bytes) (g : Z) (D : gset Z) (s : DoubleRatchetState) : Prop := {
  tr_gen : ratchet_generation s = g;
  tr_range : u32_range g;
  tr_max : g <> u32_max;
  tr_max_skip : max_skip s = 100;
  tr_count : 0 <= message_count (recv s) <= 100;
  tr_key : key (recv s) = chain_at ck (Z.to_nat (message_count (recv s)));
  tr_delivered : forall q, q ∈ D -> 0 <= q < message_count (recv s);
  tr_retained : retained_generation g s = false;
  tr_seen : forall g' q, (g', q) ∈ seen (replay_window s) <-> g' = g /\ q ∈ D;
  tr_store : exists st, skip_message_keys s = Some st /\
    forall g' q, st !! (g', q) =
      if decide (g' = g /\ 0 <= q < message_count (recv s) /\ q ∉ D)
      then Some (msg_at ck (Z.to_nat q)) else None
}.

Lemma tracks_store_small (ck : bytes) (g : Z) (n : Z) (D : gset Z) (st : SkipKeyMap) :
  0 <= n ->
  (forall g' q, st !! (g', q) = if decide (g' = g /\ 0 <= q < n /\ q ∉ D)
                               then Some (msg_at ck (Z.to_nat q)) else None) ->
  Z.of_nat (size st) <= n.
Proof.
  intros Hn Hst. assert (st ⊆ range_keys g 0 (Z.to_nat n) ck) as Hsub.
  { apply map_subseteq_spec. intros [g' q] v Hv. rewrite Hst in Hv. case_decide as Hd; [|done].
    rewrite range_keys_lookup, decide_True by lia. by rewrite Z.sub_0_r. }
  apply map_subseteq_size in Hsub. pose proof (range_keys_size g 0 (Z.to_nat n) ck). lia.
Qed.

Lemma tracks_seen_small ck g D s : Tracks ck g D s -> seen_len (seen (replay_window s)) <= 100.
Proof.
  intros T. destruct (tr_count _ _ _ _ T) as [H0 H100]. unfold seen_len.
  assert (seen (replay_window s) ⊆ list_to_set ((fun q => (g, q)) <$> seqZ 0 100)) as Hsub.
  { intros [g' q] Hin. apply (tr_seen _ _ _ _ T) in Hin as [-> Hq]. apply (tr_delivered _ _ _ _ T) in Hq.
    apply elem_of_list_to_set, list_elem_of_fmap. exists q. split; [done|]. apply elem_of_seqZ. lia. }
  apply subseteq_size in Hsub.
  rewrite size_list_to_set, length_fmap, length_seqZ in Hsub; [lia|].
  apply (NoDup_fmap_2 (fun q => (g, q))), NoDup_seqZ.
Qed.

Lemma tracks_cached ck g D q st s :
  Tracks ck g D s -> skip_message_keys s = Some st -> q ∉ D -> 0 <= q < message_count (recv s) ->
  Tracks ck g ({[q]} ∪ D) (after_cached g q st s).
Proof.
  intros T Hst HqD Hq. pose proof (tracks_seen_small _ _ _ _ T) as Hsm.
  destruct T as [<- ? ? ? ? ? Hdel ? Hseen (st' & Hst' & Hlook)].
  rewrite Hst in Hst'. injection Hst' as <-. constructor; try done.
  - intros q'. change (recv (after_cached (ratchet_generation s) q st s)) with (recv s). set_solver.
  - intros g' q'.
    change (seen (replay_window (after_cached (ratchet_generation s) q st s)))
      with (seen (record_delivered (ratchet_generation s) q (replay_window s))).
    rewrite record_delivered_small by (unfold SEEN_SET_MAX; lia). specialize (Hseen g' q'). set_solver.
  - exists (delete (ratchet_generation s, q) st). split; [done|]. intros g' q'.
    change (recv (after_cached (ratchet_generation s) q st s)) with (recv s).
    destruct (decide ((g', q') = (ratchet_generation s, q))) as [[= -> ->]|Hne].
    + rewrite lookup_delete_eq, decide_False by set_solver. done.
    + rewrite lookup_delete_ne, Hlook by congruence. apply decide_ext.
      assert (g' = ratchet_generation s -> q' <> q) by congruence. set_solver.
Qed.

(** The cache after a jump to [q]: the skipped positions and the old keys. *)
Lemma tracks_merged (ck : bytes) (g n q : Z) (D : gset Z) (st : SkipKeyMap) :
  0 <= n -> n <= q -> (forall x, x ∈ D -> 0 <= x < n) ->
  (forall g' q', st !! (g', q') = if decide (g' = g /\ 0 <= q' < n /\ q' ∉ D)
                                 then Some (msg_at ck (Z.to_nat q')) else None) ->
  forall g' q', insert_all (range_keys g n (Z.to_nat (q - n)) (chain_at ck (Z.to_nat n))) st !! (g', q')
    = if decide (g' = g /\ 0 <= q' < q + 1 /\ q' ∉ {[q]} ∪ D)
      then Some (msg_at ck (Z.to_nat q')) else None.
Proof.
  intros Hn Hq HD Hst g' q'. unfold insert_all. rewrite lookup_union, range_keys_lookup, Hst.
  assert (msg_at (chain_at ck (Z.to_nat n)) (Z.to_nat (q' - n)) = msg_at ck (Z.to_nat q') \/ q' < n) as Hm.
  { destruct (decide (q' < n)); [auto|left]. unfold msg_at. rewrite chain_at_add. do 2 f_equal. lia. }
  assert (q' ∉ {[q]} ∪ D <-> q' <> q /\ q' ∉ D) as HqD by set_solver.
  repeat case_decide; simpl; try done; try lia.
  - destruct Hm as [->|]; [done|lia].
  - exfalso. destruct H as [-> H]. assert (q' ∉ D) by (intros ?%HD; lia). apply H1. split; [done|].
    split; [lia|]. apply HqD. split; [lia|done].
  - exfalso. destruct H0 as (-> & H0 & H2). apply H1. split; [done|]. split; [lia|]. apply HqD. split; [lia|done].
  - exfalso. destruct H1 as (-> & H1 & [H2 H3]%HqD). destruct (decide (q' < n)); [apply H0|apply H];
      (split; [done|]; try (split; [|done]); lia).
Qed.

Lemma tracks_chain ck g D q st s :
  Tracks ck g D s -> skip_message_keys s = Some st -> message_count (recv s) <= q < 100 ->
  Tracks ck g ({[q]} ∪ D) (after_chain q st s).
Proof.
  intros T Hst Hq. pose proof (tracks_seen_small _ _ _ _ T) as Hsm.
  destruct T as [Hgen ? ? Hskip Hcnt Hkey Hdel ? Hseen (st' & Hst' & Hlook)].
  rewrite Hst in Hst'. injection Hst' as <-.
  assert (wrap64 (q + 1) = q + 1) as Hw by (unfold wrap64; apply Z.mod_small; lia).
  assert (skip_budget s = 200) as Hbud by (unfold skip_budget; by rewrite Hskip).
  pose proof (tracks_merged ck g _ q D st (proj1 Hcnt) (proj1 Hq) Hdel Hlook) as Hmerged. rewrite <- Hkey in Hmerged.
  assert (recv (after_chain q st s) = {| key := chain_at (key (recv s)) (S (Z.to_nat (q - message_count (recv s))));
                                         message_count := q + 1 |}) as Hrecv by (rewrite <- Hw; reflexivity).
  constructor; try done; rewrite ?Hrecv; cbn [message_count key].
  - lia.
  - rewrite Hkey, chain_at_add. f_equal. lia.
  - intros q'. set_solver by lia.
  - intros g' q'.
    change (seen (replay_window (after_chain q st s)))
      with (filter (fun p => fst p = ratchet_generation s /\ sat_sub (wrap64 (q + 1)) (skip_budget s) <= snd p)
              (seen (record_delivered (ratchet_generation s) q (replay_window s)))).
    rewrite record_delivered_small by (unfold SEEN_SET_MAX; lia).
    rewrite elem_of_filter, elem_of_union, elem_of_singleton, Hseen, Hw, Hbud, Hgen. simpl.
    unfold sat_sub. replace (Z.max 0 (q + 1 - 200)) with 0 by lia. rewrite elem_of_union, elem_of_singleton.
    split; [naive_solver|]. intros [-> [->|HqD]]; [split; [split; [done|lia]|by left]|].
    split; [|auto]. split; [done|]. apply Hdel in HqD. lia.
  - eexists. split; [reflexivity|].
    change (ratchet_generation (slide_window _)) with (ratchet_generation s).
    change (skip_budget (slide_window _)) with (skip_budget s). rewrite Hgen, Hbud.
    assert (Z.of_nat (size (insert_all (range_keys g (message_count (recv s)) (Z.to_nat (q - message_count (recv s)))
      (key (recv s))) st)) <= q + 1) by (eapply tracks_store_small; [lia|apply Hmerged]).
    rewrite prune_skip_keys_id; [done|lia|].
    intros g' q' [v Hv]. rewrite Hmerged in Hv. case_decide; naive_solver.
Qed.

(** A receiver delivers any of the first hundred positions it has not delivered,
    in whatever order they come. *)
Lemma tracks_deliver ck g D q ct aad pt s :
  Tracks ck g D s -> q ∉ D -> 0 <= q < 100 ->
  decrypt_chacha20 (msg_at ck (Z.to_nat q)) (generate_nonce_from_seq q g) ct aad = Ok pt ->
  exists s', ratchet_decrypt_with_aad (generate_nonce_from_seq q g) ct aad s = (Ok pt, s')
             /\ Tracks ck g ({[q]} ∪ D) s'.
Proof.
  intros T HqD Hq Hd. destruct (tr_store _ _ _ _ T) as (st & Hst & Hlook).
  assert (validate_and_extract_nonce s (generate_nonce_from_seq q g) = Ok (g, q)) as Hv.
  { destruct T as [? ? ? ? ? ? ? ? Hseen _]. apply validate_current; try done.
    - unfold u64_range, u64_max. lia.
    - rewrite Hseen. tauto. }
  pose proof (tr_retained _ _ _ _ T) as Hret. pose proof (tr_count _ _ _ _ T) as Hcnt.
  destruct (decide (q < message_count (recv s))) as [Hlt|Hge].
  - exists (after_cached g q st s). split; [|apply tracks_cached; auto; lia].
    eapply decrypt_cached_ok; eauto. by rewrite Hlook, decide_True by (split_and!; auto; lia).
  - exists (after_chain q st s). split; [|apply tracks_chain; auto; lia].
    eapply decrypt_chain_ok; eauto.
    + rewrite Hlook, decide_False; [done|]. intros (_ & ? & _). lia.
    + unfold gap_exceeds. rewrite (tr_max_skip _ _ _ _ T). apply andb_false_iff. right. apply Z.ltb_ge. lia.
    + unfold msg_at. rewrite (tr_key _ _ _ _ T), chain_at_add.
      replace (Z.to_nat (message_count (recv s)) + Z.to_nat (q - message_count (recv s)))%nat with (Z.to_nat q) by lia.
      done.
Qed.

Lemma tracks_fresh (mss : bytes) (ini : bool) kp x m :
  Tracks (if ini then responder_chain mss else initiator_chain mss) 0 ∅ (fresh_session mss ini kp x m).
Proof.
  constructor; simpl; try (by split); try done; try set_solver.
  exists ∅. split; [done|]. intros g' q. rewrite lookup_empty. case_decide; [lia|done].
Qed.

(** ** The sender *)

Record Sends (ck : bytes) (g : Z) (s : DoubleRatchetState) : Prop := {
  sn_gen : ratchet_generation s = g;
  sn_count : 0 <= message_count (send s);
  sn_key : key (send s) = chain_at ck (Z.to_nat (message_count (send s)));
  sn_queue : rekey_pending_confirm_queue s = [];
  sn_interval : rekey_interval s = RATCHET_REKEY_INTERVAL
}.

(** The message [m] holds [pt] at position [q] of the chain. *)
Definition sealed (ck : bytes) (g q : Z) (mp : RatchetEncryptedMessage * bytes) : Prop :=
  msg_nonce (fst mp) = generate_nonce_from_seq q g
  /\ decrypt_chacha20 (msg_at ck (Z.to_nat q)) (msg_nonce (fst mp)) (msg_ciphertext (fst mp)) [] = Ok (snd mp).

Lemma attach_none clk coins seq s :
  0 <= seq < 100 -> rekey_interval s = RATCHET_REKEY_INTERVAL ->
  attach_rekey clk coins seq None s = (Ok no_rekey, s).
Proof.
  intros Hq Hi. unfold attach_rekey, should_rekey, is_multiple_of. munfold. cbv beta iota. rewrite Hi. simpl.
  destruct (Z.ltb_spec 0 seq); [|done]. by rewrite Z.mod_small, (proj2 (Z.eqb_neq _ _)) by (unfold RATCHET_REKEY_INTERVAL; lia).
Qed.

Lemma sends_encrypt `{!PrimitivesLaws} ck g clk coins pt s m s' :
  Sends ck g s -> message_count (send s) < 100 -> ratchet_encrypt clk coins pt s = (Ok m, s') ->
  Sends ck g s' /\ message_count (send s') = message_count (send s) + 1
  /\ sealed ck g (message_count (send s)) (m, pt)
  /\ msg_rekey_x25519_pk m = None /\ msg_rekey_mlkem_pk m = None /\ msg_rekey_ciphertext m = None.
Proof.
  intros S Hlt E. destruct S as [Hg Hc Hk Hq Hi]. pose proof E as (k & out & q & Hs' & Hkey)%ratchet_encrypt_frame.
  specialize (Hkey eq_refl).
  assert (wrap64 (message_count (send s) + 1) = message_count (send s) + 1) as Hw
    by (unfold wrap64; apply Z.mod_small; lia).
  pose proof E as (_ & Hn & aad & Haad & Hct)%ratchet_encrypt_ok.
  unfold ratchet_encrypt, evict_due_carriers in E. munfold. cbv beta iota zeta in E.
  change (rekey_pending_confirm_queue (bump_send_count s)) with (rekey_pending_confirm_queue s) in E.
  rewrite Hq in E. cbn [filter list_filter head] in E.
  destruct (_ =? u32_max) in E; [done|]. rewrite attach_none in E by (done || lia).
  cbn [rk_ciphertext rk_x25519_pk rk_mlkem_pk no_rekey] in E. cbn in E. rewrite expand_msg_key_ok, expand_next_chain_ok in E.
  change (build_rekey_aad None None None) with (@Ok KyberError bytes []) in E. cbv beta iota in E.
  destruct (encrypt_chacha20 _ _ _ _) in E; [|done..]. injection E as Hm Hs. subst m.
  injection Haad as <-.
  assert (send s' = {| key := next_ck (key (send s)); message_count := message_count (send s) + 1 |}) as Hsend
    by (rewrite <- Hkey, <- Hw, Hs'; reflexivity).
  split_and!.
  - constructor; rewrite ?Hsend; cbn [key message_count]; try (rewrite <- Hs; done); try (rewrite Hs'; done).
    + lia.
    + rewrite Hk, next_ck_chain_at. f_equal. lia.
  - by rewrite Hsend.
  - split; cbn [fst snd]; [by rewrite Hn, Hg|]. rewrite Hk in Hct. by apply decrypt_encrypt_chacha20.
  - done.
  - done.
  - done.
Qed.

(** ** Many messages *)

Definition Input : Type := Clock * RekeyCoins * bytes.

Fixpoint send_all (ins : list Input) : ratchet (list RatchetEncryptedMessage) :=
  match ins with
  | [] => mret []
  | (clk, coins, pt) :: ins' =>
      m ← ratchet_encrypt clk coins pt;
      ms ← send_all ins';
      mret (m :: ms)
  end.

Fixpoint recv_all (ms : list RatchetEncryptedMessage) (s : DoubleRatchetState) : list (kres bytes) :=
  match ms with
  | [] => []
  | m :: ms' =>
      let '(r, s1) := ratchet_decrypt (msg_nonce m) (msg_ciphertext m) s in
      r :: recv_all ms' s1
  end.

Lemma send_all_sealed `{!PrimitivesLaws} ck g ins s ms s' :
  Sends ck g s -> message_count (send s) + len ins <= 100 -> send_all ins s = (Ok ms, s') ->
  Forall2 (sealed ck g) (seqZ (message_count (send s)) (len ins)) (zip ms (snd <$> ins)).
Proof.
  revert s ms. induction ins as [|[[clk coins] pt] ins IH]; intros s ms S Hb E; cbn [send_all] in E.
  { injection E as <- <-. constructor. }
  munfold. destruct (ratchet_encrypt clk coins pt s) as [[m| |] s1] eqn:E1; [|done..].
  destruct (send_all ins s1) as [[ms'| |] s2] eqn:E2; [|done..]. injection E as <- <-.
  pose proof (len_nonneg ins). rewrite len_cons in *.
  apply (sends_encrypt ck g) in E1 as (S1 & Hc & Hsl & _); [|done|lia].
  rewrite seqZ_cons by lia. cbn [fmap list_fmap zip zip_with]. constructor; [done|].
  specialize (IH s1 ms' S1). rewrite Hc in IH.
  replace (Z.succ (message_count (send s))) with (message_count (send s) + 1) by lia.
  replace (Z.pred (len ins + 1)) with (len ins) by lia. apply IH; [lia|done].
Qed.

Lemma recv_all_sealed ck g (qs : list Z) l D s :
  Tracks ck g D s -> NoDup qs -> (forall q, q ∈ qs -> 0 <= q < 100 /\ q ∉ D) ->
  Forall2 (sealed ck g) qs l ->
  recv_all (fst <$> l) s = Ok <$> (snd <$> l).
Proof.
  revert l D s. induction qs as [|q qs IH]; intros l D s T Hnd Hq Hl; inversion Hl as [|? [m pt] ? l' [Hn Hd] Hl']; subst.
  { done. }
  cbn [fmap list_fmap fst snd recv_all] in *. rewrite Hn in Hd |- *.
  destruct (Hq q) as [Hq1 Hq2]; [set_solver|].
  destruct (tracks_deliver ck g D q _ _ _ s T Hq2 Hq1 Hd) as (s1 & E & T1).
  unfold ratchet_decrypt. rewrite E. f_equal. apply NoDup_cons in Hnd as [Hnin Hnd].
  apply (IH l' ({[q]} ∪ D) s1 T1 Hnd); [|done].
  intros q' Hq'. destruct (Hq q') as [? ?]; [set_solver|]. split; [done|]. set_solver.
Qed.

(** C4: two sessions built from the same secret: whatever the initiator sends
    in its first hundred messages, the responder recovers exactly, in whatever
    order the messages arrive. *)
Theorem delivery_any_order `{!PrimitivesLaws} mss kpa xa ma kpb xb mb a b ins ms a' order :
  new_with_keypair mss true kpa xa ma = Ok a -> new_with_keypair mss false kpb xb mb = Ok b ->
  len ins <= 100 -> send_all ins a = (Ok ms, a') -> order ≡ₚ zip ms (snd <$> ins) ->
  recv_all (fst <$> order) b = Ok <$> (snd <$> order).
Proof.
  rewrite !new_with_keypair_ok. intros [= <-] [= <-] Hl Hs Hord.
  assert (Sends (initiator_chain mss) 0 (fresh_session mss true kpa xa ma)) as S by (by constructor).
  apply (send_all_sealed (initiator_chain mss) 0) in Hs; [|done|exact Hl].
  apply Forall2_flip in Hs. symmetry in Hord.
  destruct (Permutation_Forall2 Hord Hs) as (qs & Hqs & Hall). apply Forall2_flip in Hall.
  apply (recv_all_sealed (initiator_chain mss) 0 qs order ∅).
  - apply (tracks_fresh mss false).
  - rewrite <- Hqs. apply NoDup_seqZ.
  - intros q Hq. rewrite <- Hqs in Hq. apply elem_of_seqZ in Hq. cbn in Hq. split; [lia|set_solver].
  - done.
Qed.

End Session.

Import Scenario.

Definition inputs3 : list Input :=
  [(clock, rekey_coins 31, bstr "one"); (clock, rekey_coins 31, bstr "two"); (clock, rekey_coins 31, bstr "three")].
Definition sent3 : list RatchetEncryptedMessage :=
  match fst (send_all inputs3 alice) with Ok ms => ms | _ => [] end.
Definition order3 : list (RatchetEncryptedMessage * bytes) := reverse (zip sent3 (snd <$> inputs3)).

Lemma delivery_any_order_witness :
  recv_all (fst <$> order3) bob = [Ok (bstr "three"); Ok (bstr "two"); Ok (bstr "one")].
Proof.
  transitivity ((Ok : bytes -> kres bytes) <$> (snd <$> order3)); [|by vm_compute].
  apply (delivery_any_order secret pair_a (Some (x25519_pk pair_b)) (Some (mlkem_pk pair_b))
           pair_b (Some (x25519_pk pair_a)) (Some (mlkem_pk pair_a)) alice bob inputs3 sent3
           (snd (send_all inputs3 alice)) order3).
  - apply new_with_keypair_ok.
  - apply new_with_keypair_ok.
  - by vm_compute.
  - apply run_ok. by vm_compute.
  - apply reverse_Permutation.
Defined.
