(* ===== verification/RatchetRekey.v ===== *)
(** * RatchetRekey: agreement of two sessions across a rekey

    A rekey is a carrier message, an acknowledgement, and the first message of
    the new generation.  The theorems: after these three, both sides hold the
    same root and matching chains of the next generation; and when both sides
    propose at once, they agree on whose proposal wins. *)

From S2P Require Import Prelude Error Primitives Aead Kem Toy Tlv RatchetState.
From S2P Require Import RatchetChain RatchetEncrypt Scenario RatchetDecrypt RatchetStep RatchetInvariant RatchetSession.

Section Rekey.
Context `{P : Primitives}.

(** ** The sender stages a proposal *)

Lemma encrypt_stages clk coins pt x mp s m s' :
  let new := generate_hybrid_keypair (coins_pair coins) in
  should_rekey (message_count (send s)) s = true ->
  peer_x25519_pk s = Some x -> peer_mlkem_pk s = Some mp ->
  ratchet_encrypt clk coins pt s = (Ok m, s') ->
  exists kr,
    encapsulate_hybrid x mp (coins_encap coins) = Ok kr
    /\ msg_rekey_x25519_pk m = Some (x25519_pk new) /\ msg_rekey_mlkem_pk m = Some (mlkem_pk new)
    /\ msg_rekey_ciphertext m = Some (ciphertext_bytes kr)
    /\ outgoing_proposal s' =
         stage_proposal (rekey_root (root_key s) (combined_shared_secret kr),
                         rekey_send (root_key s) (combined_shared_secret kr),
                         rekey_recv (root_key s) (combined_shared_secret kr))
           new (x25519_pk new, mlkem_pk new, ciphertext_bytes kr)
    /\ rekey_pending_confirm_queue s' =
         [new_carrier clk (message_count (send s)) (x25519_pk new) (mlkem_pk new) (ciphertext_bytes kr)].
Proof.
  intros new Hs Hx Hm E. pose proof Hs as Hs'. unfold should_rekey in Hs'. zify_bool. apply len_nil_iff in H1.
  unfold ratchet_encrypt, evict_due_carriers in E. munfold. cbv beta iota zeta in E.
  destruct (_ =? u32_max) in E; [done|].
  change (rekey_pending_confirm_queue (bump_send_count s)) with (rekey_pending_confirm_queue s) in E.
  rewrite H1 in E. cbn [filter list_filter head] in E. unfold attach_rekey, stage_rekey in E. munfold.
  cbv beta iota zeta in E.
  set (s1 := (bump_send_count s) <| rekey_pending_confirm_queue := [] |>) in E.
  replace (should_rekey (message_count (send s)) s1) with true in E
    by (rewrite <- Hs; unfold should_rekey; subst s1; cbn -[is_multiple_of]; by rewrite H1).
  change (peer_x25519_pk s1) with (peer_x25519_pk s) in E. change (peer_mlkem_pk s1) with (peer_mlkem_pk s) in E.
  rewrite Hx, Hm in E. cbv beta iota in E.
  destruct (encapsulate_hybrid x mp (coins_encap coins)) as [kr| |] eqn:Ek; [|done..].
  change (root_key s1) with (root_key s) in E. rewrite derive_rekey_ok in E. cbv beta iota in E.
  rewrite expand_msg_key_ok, expand_next_chain_ok in E.
  destruct (build_rekey_aad _ _ _) in E; [|done..]. destruct (encrypt_chacha20 _ _ _ _) in E; [|done..].
  injection E as <- <-. exists kr. split_and!; reflexivity.
Qed.

(** ** The receiver derives it *)

Definition staged (clk : Clock) (root ss x mp : bytes) (q g : Z) (p : IncomingProposal) : IncomingProposal :=
  stamp_incoming_proposal_attached_at clk
    (stage_incoming (rekey_root root ss, rekey_send root ss, rekey_recv root ss) x mp q g p).

Lemma phase1_stages clk g q ct x mp ss s :
  ratchet_generation s = g -> in_carrier_gen (incoming_proposal s) = None ->
  decapsulate_hybrid ct (x25519_sk (our_hybrid_pair s)) (mlkem_sk (our_hybrid_pair s)) = Ok ss ->
  run_phase1 clk g q (Some ct) (Some x) (Some mp) s
  = (Ok tt, s <| incoming_proposal := staged clk (root_key s) ss x mp q g (incoming_proposal s) |>).
Proof.
  intros Hg Hc Hd. unfold run_phase1, derive_incoming_proposal. munfold. cbv beta iota.
  unfold carrier_is_stale. rewrite Hc, Hg, Z.ltb_irrefl. cbn [orb first_decapsulation]. rewrite Hd. cbv beta iota.
  rewrite derive_rekey_ok, incoming_compose. unfold reset_age_if_newer. by rewrite Hc.
Qed.

Lemma classified_chain_ok clk nonce ct rct rx rm g q aad st pt s s1 :
  validate_and_extract_nonce s nonce = Ok (g, q) -> build_rekey_aad rct rx rm = Ok aad ->
  retained_generation g s = false -> run_phase1 clk g q rct rx rm s = (Ok tt, s1) ->
  skip_message_keys s1 = Some st -> st !! (g, q) = None ->
  gap_exceeds (message_count (recv s1)) q (max_skip s1) = false ->
  decrypt_chacha20 (msg_at (key (recv s1)) (Z.to_nat (q - message_count (recv s1)))) nonce ct aad = Ok pt ->
  ratchet_decrypt_with_rekey_classified clk nonce ct rct rx rm s
  = (Ok (pt, if is_some rct then ProposalDerived else Committed),
     resolve_rekey_race_and_ack q (is_some rct) (after_chain q st s1)).
Proof.
  intros Hv Ha Hr Hp Hst Hn Hg Hd. unfold ratchet_decrypt_with_rekey_classified. munfold. cbv beta iota.
  rewrite Hv, Ha. cbn [fst snd]. rewrite dispatch_previous_none, Hp by done. cbv beta iota.
  unfold dispatch_current. munfold. unfold with_store, try_decrypt_with_cached_key at 1. rewrite Hst, Hn.
  cbv beta iota. rewrite (skip_keys_id st) by done. by rewrite (try_chain_ok q nonce ct aad st pt s1).
Qed.

(** ** The first message of the new generation *)

Lemma chain_fails q nonce ct aad st e s :
  skip_message_keys s = Some st ->
  gap_exceeds (message_count (recv s)) q (max_skip s) = false ->
  decrypt_chacha20 (msg_at (key (recv s)) (Z.to_nat (q - message_count (recv s)))) nonce ct aad = Err e ->
  try_decrypt_with_chain q nonce ct aad s = (Err e, s).
Proof.
  intros Hst Hg Hd. unfold try_decrypt_with_chain. munfold. unfold with_store at 1. rewrite Hst.
  cbv beta iota. rewrite (skip_keys_id st) by done. rewrite Hg, range_nat, skip_loop_ok. cbn [fst snd].
  rewrite expand_msg_key_ok, expand_next_chain_ok. unfold msg_at in Hd. by rewrite Hd.
Qed.

Lemma decrypt_pending_ok nonce ct aad g q st pk e pt s :
  validate_and_extract_nonce s nonce = Ok (g, q) -> retained_generation g s = false ->
  skip_message_keys s = Some st -> st !! (g, q) = None ->
  gap_exceeds (message_count (recv s)) q (max_skip s) = false ->
  decrypt_chacha20 (msg_at (key (recv s)) (Z.to_nat (q - message_count (recv s)))) nonce ct aad = Err e ->
  in_receiving_chain_key (incoming_proposal s) = Some pk -> gap_exceeds 0 q (max_skip s) = false ->
  decrypt_chacha20 (msg_at pk (Z.to_nat q)) nonce ct aad = Ok pt ->
  ratchet_decrypt_with_aad nonce ct aad s = (Ok pt, after_pending q st s).
Proof.
  intros Hv Hr Hst Hn Hg He Hk Hg0 Hd. unfold ratchet_decrypt_with_aad. munfold. cbv beta iota. rewrite Hv. cbn [fst snd].
  rewrite dispatch_previous_none by done.
  unfold with_store, try_decrypt_with_cached_key at 1. rewrite Hst, Hn. cbv beta iota.
  rewrite (skip_keys_id st) by done. rewrite (chain_fails q nonce ct aad st e s) by done.
  unfold try_pending_chain. munfold. cbv beta iota. rewrite Hk, derive_tentative_msg_key_ok, Z.sub_0_r, Hd by done.
  unfold deliver_on_pending. munfold. cbv beta iota zeta.
  rewrite commit_max_skip, commit_skip_keys, Hst, advance_receiving_chain_ok, Z.sub_0_r by done. reflexivity.
Qed.

(** ** Two sessions in step *)

(** [a] and [b] hold the same root and, in both directions, the same chain at
    the same position. *)
Record Paired (a b : DoubleRatchetState) : Prop := {
  pr_gen : ratchet_generation a = ratchet_generation b;
  pr_root : root_key a = root_key b;
  pr_ab : send a = recv b;
  pr_ba : send b = recv a
}.

(** No proposal is pending, and the next position is neither delivered nor
    cached. *)
Record Quiet (s : DoubleRatchetState) : Prop := {
  qt_in : in_root_key (incoming_proposal s) = None;
  qt_out : out_root_key (outgoing_proposal s) = None;
  qt_seen : (ratchet_generation s, message_count (recv s)) ∉ seen (replay_window s);
  qt_cache : forall st, skip_message_keys s = Some st -> st !! (ratchet_generation s, message_count (recv s)) = None
}.

Lemma wf_not_retained g s :
  wf_state s -> ratchet_generation s <> u32_max -> ratchet_generation s <= g -> retained_generation g s = false.
Proof.
  intros H Hm Hg. pose proof (wf_prev _ H) as Hp. unfold wf_previous, retained_generation in *.
  repeat case_match; try done. destruct Hp as [Hr Hgen]. apply Z.eqb_neq. unfold sat_add32, u32_range in *. lia.
Qed.

Lemma not_pending_carrier s :
  wf_state s -> in_root_key (incoming_proposal s) = None -> in_carrier_gen (incoming_proposal s) = None.
Proof. intros H Hn. pose proof (wf_in _ H) as Hi. unfold wf_incoming in Hi. rewrite Hn in Hi. naive_solver. Qed.

(** What the staged slot holds. *)
Lemma staged_fields clk root ss x mp q g p :
  let st := staged clk root ss x mp q g p in
  in_root_key st = Some (rekey_root root ss) /\ in_sending_chain_key st = Some (rekey_recv root ss)
  /\ in_receiving_chain_key st = Some (rekey_send root ss)
  /\ in_peer_x25519_pk st = Some x /\ in_peer_mlkem_pk st = Some mp.
Proof.
  unfold staged, stamp_incoming_proposal_attached_at, stage_incoming. cbn.
  destruct (in_attached_at_unix p); cbn; destruct (in_attached_at_mono p); done.
Qed.

(** Step 1: the carrier is delivered and its proposal staged. *)
Lemma carrier_delivered `{!PrimitivesLaws, !LowOrderLaw} clk clkb coins pt kc a b m a1 :
  let q := message_count (send a) in
  let new := generate_hybrid_keypair (coins_pair coins) in
  wf_state b -> Paired a b -> Quiet b -> ratchet_generation b <> u32_max ->
  our_hybrid_pair b = generate_hybrid_keypair kc ->
  peer_x25519_pk a = Some (x25519_pk (our_hybrid_pair b)) ->
  peer_mlkem_pk a = Some (mlkem_pk (our_hybrid_pair b)) ->
  should_rekey q a = true -> ratchet_encrypt clk coins pt a = (Ok m, a1) ->
  exists kr st,
    encapsulate_hybrid (x25519_pk (our_hybrid_pair b)) (mlkem_pk (our_hybrid_pair b)) (coins_encap coins) = Ok kr
    /\ skip_message_keys b = Some st
    /\ ratchet_decrypt_with_rekey_classified clkb (msg_nonce m) (msg_ciphertext m) (msg_rekey_ciphertext m)
         (msg_rekey_x25519_pk m) (msg_rekey_mlkem_pk m) b
       = (Ok (pt, ProposalDerived),
          (after_chain q st (b <| incoming_proposal := staged clkb (root_key b) (combined_shared_secret kr)
              (x25519_pk new) (mlkem_pk new) q (ratchet_generation b) (incoming_proposal b) |>))
            <| pending_rekey_ack_seq := Some q |>).
Proof.
  intros q new Hb [Hgen Hroot Hab Hba] Q Hmax Hkc Hx Hm Hs E.
  destruct (encrypt_stages _ _ _ _ _ _ _ _ Hs Hx Hm E) as (kr & Hkr & Hfx & Hfm & Hfc & _ & _).
  apply ratchet_encrypt_ok in E as (_ & Hn & aad & Haad & Hct).
  destruct (wf_skip _ Hb) as (st & Hst & _ & _). exists kr, st. split; [done|]. split; [done|].
  assert (decapsulate_hybrid (ciphertext_bytes kr) (x25519_sk (our_hybrid_pair b)) (mlkem_sk (our_hybrid_pair b))
          = Ok (combined_shared_secret kr)) as Hdec.
  { rewrite Hkc in *. by apply (decapsulate_encapsulate kc (coins_encap coins)). }
  assert (q = message_count (recv b)) as Hq by (unfold q; by rewrite Hab).
  pose proof (wf_recv_count _ Hb) as Hqr. rewrite <- Hq in Hqr.
  pose proof (qt_seen _ Q) as Hseen. pose proof (qt_cache _ Q st Hst) as Hcache. rewrite <- Hq in Hseen, Hcache.
  rewrite Hn, Hgen in *. rewrite Hfc, Hfx, Hfm in *.
  set (s1 := b <| incoming_proposal := _ |>).
  rewrite (classified_chain_ok clkb _ _ _ _ _ (ratchet_generation b) q aad st pt b s1).
  - cbn [is_some]. unfold resolve_rekey_race_and_ack. cbn [negb].
    change (outgoing_proposal (after_chain q st s1)) with (outgoing_proposal b). rewrite (qt_out _ Q). reflexivity.
  - apply validate_current; try done. apply Hb.
  - done.
  - by apply wf_not_retained.
  - apply phase1_stages; [done|by apply not_pending_carrier, Q|exact Hdec].
  - done.
  - done.
  - change (recv s1) with (recv b). rewrite <- Hq. unfold gap_exceeds. by rewrite Z.ltb_irrefl.
  - change (recv s1) with (recv b). rewrite <- Hq, <- Hab, Z.sub_diag.
    by apply decrypt_encrypt_chacha20.
Qed.

(** Step 2: the acknowledgement commits the sender's proposal. *)
Lemma ack_commits clk coins pt x mp s m s1 :
  let q := message_count (send s) in
  let new := generate_hybrid_keypair (coins_pair coins) in
  should_rekey q s = true -> peer_x25519_pk s = Some x -> peer_mlkem_pk s = Some mp ->
  ratchet_encrypt clk coins pt s = (Ok m, s1) ->
  exists kr s2,
    encapsulate_hybrid x mp (coins_encap coins) = Ok kr
    /\ process_rekey_ack q s1 = (true, s2)
    /\ ratchet_generation s2 = sat_add32 (ratchet_generation s) 1
    /\ root_key s2 = rekey_root (root_key s) (combined_shared_secret kr)
    /\ send s2 = {| key := rekey_send (root_key s) (combined_shared_secret kr); message_count := 0 |}
    /\ recv s2 = {| key := rekey_recv (root_key s) (combined_shared_secret kr); message_count := 0 |}
    /\ our_hybrid_pair s2 = new /\ rekey_pending_confirm_queue s2 = [] /\ rekey_interval s2 = rekey_interval s.
Proof.
  intros q new Hs Hx Hm E.
  destruct (encrypt_stages _ _ _ _ _ _ _ _ Hs Hx Hm E) as (kr & Hkr & _ & _ & _ & Hout & Hqueue).
  apply ratchet_encrypt_frame in E as (k & out & q' & -> & _).
  change (outgoing_proposal (s <| send := _ |> <| outgoing_proposal := out |> <| rekey_pending_confirm_queue := q' |>)) with out in Hout.
  change (rekey_pending_confirm_queue (s <| send := _ |> <| outgoing_proposal := out |> <| rekey_pending_confirm_queue := q' |>)) with q' in Hqueue.
  subst out q'. exists kr. unfold process_rekey_ack.
  change (rekey_pending_confirm_queue (s <| send := _ |> <| outgoing_proposal := _ |> <| rekey_pending_confirm_queue := ?l |>)) with l.
  cbn [list_find]. rewrite decide_True by done. eexists. split; [done|]. split; [reflexivity|].
  erewrite commit_outgoing_eq by reflexivity. split_and!; reflexivity.
Qed.

(** Step 3: the first message of the new generation commits the receiver's. *)
Lemma pending_commit_fields q st s r sk rk :
  wf_state s -> out_root_key (outgoing_proposal s) = None ->
  in_root_key (incoming_proposal s) = Some r -> in_sending_chain_key (incoming_proposal s) = Some sk ->
  in_receiving_chain_key (incoming_proposal s) = Some rk ->
  let s' := after_pending q st s in
  ratchet_generation s' = sat_add32 (ratchet_generation s) 1 /\ root_key s' = r
  /\ send s' = {| key := sk; message_count := 0 |}
  /\ recv s' = {| key := chain_at rk (S (Z.to_nat q)); message_count := wrap64 (q + 1) |}
  /\ peer_x25519_pk s' = in_peer_x25519_pk (incoming_proposal s)
  /\ peer_mlkem_pk s' = in_peer_mlkem_pk (incoming_proposal s).
Proof.
  intros H Ho Hr Hs Hk. unfold after_pending, commit_pending_rekey_with_race_resolution. rewrite Ho. cbn [is_some].
  rewrite (commit_pending_eq s r sk rk (wf_in _ H) Hr Hs Hk). cbv zeta. split_and!; reflexivity.
Qed.

(** The state of the receiver between the carrier and the commit. *)
Lemma first_of_generation clkb root ss x mp q g pt2 m2 e st b b1 :
  wf_state b -> Quiet b -> ratchet_generation b = g -> g + 1 < u32_max ->
  b1 = (after_chain q st (b <| incoming_proposal := staged clkb root ss x mp q g (incoming_proposal b) |>))
         <| pending_rekey_ack_seq := Some q |> ->
  skip_message_keys b = Some st -> q = message_count (recv b) ->
  sealed (rekey_send root ss) (g + 1) 0 (m2, pt2) ->
  decrypt_chacha20 (msg_key (key (recv b1))) (msg_nonce m2) (msg_ciphertext m2) [] = Err e ->
  exists st1, ratchet_decrypt (msg_nonce m2) (msg_ciphertext m2) b1 = (Ok pt2, after_pending 0 st1 b1) /\ wf_state b1.
Proof.
  intros Hb Q Hg Hmax Hb1 Hst Hq [Hn Hd] He. cbn [fst snd] in *.
  assert (wf_state b1) as Hwf.
  { subst b1. apply wf_set_ack, wf_after_chain; [done|]. apply wf_set_in; [apply wf_stage_incoming|done]. }
  assert (ratchet_generation b1 = g) as Hg1 by (rewrite <- Hg, Hb1; reflexivity).
  pose proof (wf_gen _ Hwf) as Hgr. rewrite Hg1 in Hgr. unfold u32_range in Hgr.
  destruct (wf_skip _ Hwf) as (st1 & Hst1 & _ & Hgens). exists st1. split; [|done].
  destruct (staged_fields clkb root ss x mp q g (incoming_proposal b)) as (_ & _ & Hrk & _ & _).
  unfold ratchet_decrypt. apply (decrypt_pending_ok _ _ _ (g + 1) 0 _ (rekey_send root ss) e); try done.
  - rewrite Hn. unfold validate_and_extract_nonce.
    rewrite nonce_generation_of, nonce_seq_of, Hg1 by (unfold u32_range, u64_range, u64_max; lia).
    rewrite (proj2 (Z.eqb_neq g u32_max)) by lia.
    assert (sat_add32 g 1 = g + 1) as -> by (unfold sat_add32; lia). rewrite Z.eqb_refl, orb_true_r. simpl.
    rewrite bool_decide_eq_false_2; [done|]. intros Hin. apply (wf_seen_gen _ Hwf) in Hin. lia.
  - apply wf_not_retained; try done; rewrite Hg1; lia.
  - destruct (st1 !! (g + 1, 0)) as [k|] eqn:Ek; [|done]. specialize (Hgens (g + 1) 0 ltac:(eauto)). lia.
  - unfold gap_exceeds. rewrite (proj2 (Z.ltb_ge _ _)); [done|]. pose proof (wf_recv_count _ Hwf) as [? _]. lia.
  - replace (Z.to_nat (0 - message_count (recv b1))) with 0%nat; [done|]. pose proof (wf_recv_count _ Hwf) as [? _]. lia.
  - by rewrite Hb1.
Qed.

(** C3: a rekey leaves the two sides with the same keys.  Two sessions in step,
    the first with the second's public keys, at a rekey boundary: the carrier
    is delivered with its text and its position is queued for acknowledgement;
    the acknowledgement commits the sender's proposal; the first message of the
    new generation (which the old chain key does not open) is delivered and
    commits the receiver's.  Both sides are then in step in the next
    generation, and the receiver holds the sender's new public keys. *)
Theorem rekey_agreement `{!PrimitivesLaws, !LowOrderLaw} clk clkb coins pt kc a b m a1 :
  wf_state a -> wf_state b -> Paired a b -> Quiet b -> ratchet_generation a + 1 < u32_max ->
  our_hybrid_pair b = generate_hybrid_keypair kc ->
  peer_x25519_pk a = Some (x25519_pk (our_hybrid_pair b)) ->
  peer_mlkem_pk a = Some (mlkem_pk (our_hybrid_pair b)) ->
  should_rekey (message_count (send a)) a = true -> ratchet_encrypt clk coins pt a = (Ok m, a1) ->
  exists b1 a2,
    ratchet_decrypt_with_rekey_classified clkb (msg_nonce m) (msg_ciphertext m) (msg_rekey_ciphertext m)
      (msg_rekey_x25519_pk m) (msg_rekey_mlkem_pk m) b = (Ok (pt, ProposalDerived), b1)
    /\ pending_rekey_ack_seq b1 = Some (message_count (send a))
    /\ process_rekey_ack (message_count (send a)) a1 = (true, a2)
    /\ forall clk2 coins2 pt2 m2 a3 e,
         ratchet_encrypt clk2 coins2 pt2 a2 = (Ok m2, a3) ->
         decrypt_chacha20 (msg_key (key (recv b1))) (msg_nonce m2) (msg_ciphertext m2) [] = Err e ->
         exists b2, ratchet_decrypt (msg_nonce m2) (msg_ciphertext m2) b1 = (Ok pt2, b2)
           /\ Paired a3 b2 /\ ratchet_generation a3 = ratchet_generation a + 1
           /\ peer_x25519_pk b2 = Some (x25519_pk (our_hybrid_pair a3))
           /\ peer_mlkem_pk b2 = Some (mlkem_pk (our_hybrid_pair a3)).
Proof.
  intros Ha Hb Hp Q Hmax Hkc Hx Hm Hs E.
  pose proof Hp as [Hgen Hroot Hab Hba]. rewrite Hgen in Hmax.
  destruct (carrier_delivered clk clkb coins pt kc a b m a1) as (kr & st & Hkr & Hst & Hdec); auto; [lia|].
  destruct (ack_commits _ _ _ _ _ _ _ _ Hs Hx Hm E) as (kr' & a2 & Hkr' & Hack & Hg2 & Hr2 & Hs2 & Hv2 & Hp2 & Hq2 & Hi2).
  rewrite Hkr in Hkr'. injection Hkr' as <-. rewrite Hroot in *. do 2 eexists. split; [exact Hdec|]. split; [done|].
  split; [exact Hack|]. intros clk2 coins2 pt2 m2 a3 e E2 He.
  set (g := ratchet_generation b) in *. set (ss := combined_shared_secret kr) in *.
  assert (sat_add32 g 1 = g + 1) as Hsat by (unfold sat_add32; lia). rewrite Hgen, Hsat in Hg2.
  assert (Sends (rekey_send (root_key b) ss) (g + 1) a2) as Hsends.
  { constructor; rewrite ?Hs2; try done. by rewrite Hi2, (wf_interval _ Ha). }
  pose proof E2 as (k3 & out3 & q3 & Ha3 & Hk3)%ratchet_encrypt_frame. specialize (Hk3 eq_refl).
  apply (sends_encrypt (rekey_send (root_key b) ss) (g + 1)) in E2 as (_ & Hc3 & Hsl & _); [|done|by rewrite Hs2].
  rewrite Hs2 in Hsl, Hc3, Hk3. cbn [message_count key] in Hsl, Hc3, Hk3.
  set (b1 := (after_chain _ _ _) <| pending_rekey_ack_seq := _ |>) in *.
  assert (message_count (send a) = message_count (recv b)) as Hcount by (by rewrite Hab).
  destruct (first_of_generation clkb (root_key b) ss _ _ _ g pt2 m2 e st b b1 Hb Q eq_refl Hmax eq_refl Hst
              Hcount Hsl He) as (st1 & Hfirst & Hwf1).
  eexists. split; [exact Hfirst|].
  destruct (staged_fields clkb (root_key b) ss (x25519_pk (generate_hybrid_keypair (coins_pair coins)))
     (mlkem_pk (generate_hybrid_keypair (coins_pair coins))) (message_count (send a)) g (incoming_proposal b))
     as (Hf1 & Hf2 & Hf3 & Hf4 & Hf5).
  destruct (pending_commit_fields 0 st1 b1 _ _ _ Hwf1 (qt_out _ Q) Hf1 Hf2 Hf3)
    as (Hcg & Hcr & Hcs & Hcv & Hcx & Hcm).
  assert (send a3 = {| key := k3; message_count := 1 |}) as Hs3 by (rewrite Ha3, Hs2; reflexivity).
  assert (ratchet_generation a3 = g + 1 /\ root_key a3 = root_key a2 /\ recv a3 = recv a2
          /\ our_hybrid_pair a3 = our_hybrid_pair a2) as (Hg3 & Hr3 & Hv3 & Hp3)
    by (rewrite Ha3, <- Hg2; split_and!; reflexivity).
  split_and!.
  - constructor.
    + rewrite Hcg, Hg3. symmetry. exact Hsat.
    + by rewrite Hcr, Hr3, Hr2.
    + rewrite Hs3, Hcv, Hk3. reflexivity.
    + by rewrite Hcs, Hv3, Hv2.
  - by rewrite Hg3, Hgen.
  - rewrite Hcx, Hp3, Hp2. exact Hf4.
  - rewrite Hcm, Hp3, Hp2. exact Hf5.
Qed.

End Rekey.

(** ** Simultaneous proposals *)

Lemma pair_gt_total a b : a <> b -> pair_gt a b = negb (pair_gt b a).
Proof.
  destruct a as [a1 a2], b as [b1 b2]. intros Hne. unfold pair_gt. simpl.
  rewrite (bytes_cmp_antisym b1 a1), (bytes_cmp_antisym b2 a2).
  destruct (bytes_cmp b1 a1) eqn:E1, (bytes_cmp b2 a2) eqn:E2; simpl; try done.
  apply bytes_cmp_eq in E1, E2. congruence.
Qed.

(** One side keeps its proposal and drops the peer's; the other does the
    opposite and acknowledges. *)
Definition race_settled (s s' w w' : DoubleRatchetState) (qw : Z) : Prop :=
  outgoing_proposal s' = outgoing_proposal s /\ in_root_key (incoming_proposal s') = None
  /\ pending_rekey_ack_seq s' = pending_rekey_ack_seq s
  /\ outgoing_proposal w' = default_outgoing /\ rekey_pending_confirm_queue w' = []
  /\ incoming_proposal w' = incoming_proposal w /\ pending_rekey_ack_seq w' = Some qw.

Lemma resolve_wins q s :
  is_some (out_root_key (outgoing_proposal s)) = true -> peer_wins s = false ->
  resolve_rekey_race_and_ack q true s = cancel_pending_incoming_rekey s.
Proof. unfold resolve_rekey_race_and_ack. simpl. by intros -> ->. Qed.

Lemma resolve_loses q s :
  is_some (out_root_key (outgoing_proposal s)) = true -> peer_wins s = true ->
  resolve_rekey_race_and_ack q true s = (cancel_outgoing_rekey s) <| pending_rekey_ack_seq := Some q |>.
Proof. unfold resolve_rekey_race_and_ack. simpl. by intros -> ->. Qed.

(** C12: when both sides have a proposal in flight and each holds the other's,
    exactly one of the two proposals survives on both sides, whatever their
    generations and positions. *)
Theorem race_agreement qa qb xa ma ca xb mb cb a b :
  is_some (out_root_key (outgoing_proposal a)) = true ->
  is_some (out_root_key (outgoing_proposal b)) = true ->
  out_rekey_payload (outgoing_proposal a) = Some (xa, ma, ca) ->
  out_rekey_payload (outgoing_proposal b) = Some (xb, mb, cb) ->
  in_peer_x25519_pk (incoming_proposal a) = Some xb -> in_peer_mlkem_pk (incoming_proposal a) = Some mb ->
  in_peer_x25519_pk (incoming_proposal b) = Some xa -> in_peer_mlkem_pk (incoming_proposal b) = Some ma ->
  (xa, ma) <> (xb, mb) ->
  let a' := resolve_rekey_race_and_ack qa true a in
  let b' := resolve_rekey_race_and_ack qb true b in
  race_settled a a' b b' qb \/ race_settled b b' a a' qa.
Proof.
  intros Ha Hb Hpa Hpb Hax Ham Hbx Hbm Hne.
  assert (peer_wins a = pair_gt (xb, mb) (xa, ma)) as Wa by (unfold peer_wins; by rewrite Hpa, Hax, Ham).
  assert (peer_wins b = pair_gt (xa, ma) (xb, mb)) as Wb by (unfold peer_wins; by rewrite Hpb, Hbx, Hbm).
  rewrite pair_gt_total in Wb by done. cbv zeta. destruct (pair_gt (xb, mb) (xa, ma)); simpl in Wb.
  - right. rewrite (resolve_loses qa a Ha Wa), (resolve_wins qb b Hb Wb). by split_and!.
  - left. rewrite (resolve_wins qa a Ha Wa), (resolve_loses qb b Hb Wb). by split_and!.
Qed.

(** ** The age of a proposal *)

(** The monotonic stamp survives a cancel, so a proposal staged a TTL or
    more after an earlier one was first seen is stale the moment it is staged. *)
Theorem restaged_proposal_stale `{P : Primitives} clk root ss x mp q g t s :
  in_attached_at_mono (incoming_proposal s) = Some t -> secs INCOMING_REKEY_TTL_SECS <= now_mono clk - t ->
  incoming_proposal_is_stale clk
    (staged clk root ss x mp q g (incoming_proposal (cancel_pending_incoming_rekey s))) = true.
Proof.
  intros Ht Hd. unfold incoming_proposal_is_stale, staged, stamp_incoming_proposal_attached_at, stage_incoming.
  change (in_attached_at_unix (incoming_proposal (cancel_pending_incoming_rekey s))) with (@None Z).
  change (in_attached_at_mono (incoming_proposal (cancel_pending_incoming_rekey s)))
    with (in_attached_at_mono (incoming_proposal s)). rewrite Ht. cbn.
  unfold elapsed, sat_sub, as_secs, secs, INCOMING_REKEY_TTL_SECS in *. apply Z.leb_le.
  rewrite (Z.max_r 0 (now_mono clk - t)) by lia.
  assert (60 <= (now_mono clk - t) / 1000000000) by (apply Z.div_le_lower_bound; lia). lia.
Qed.

(** ** Witnesses *)

Import Scenario.

(** Both at position 100 of the initiator's chain, a rekey boundary. *)
Definition chain100 : Chain := {| key := initiator_chain secret; message_count := 100 |}.
Definition alice100 : DoubleRatchetState := alice <| send := chain100 |>.
Definition bob100 : DoubleRatchetState := bob <| recv := chain100 |>.
Definition carrier100 : RatchetEncryptedMessage :=
  message (fst (ratchet_encrypt clock (rekey_coins 31) (bstr "carrier") alice100)).
Definition alice101 : DoubleRatchetState := snd (ratchet_encrypt clock (rekey_coins 31) (bstr "carrier") alice100).
Definition bob101 : DoubleRatchetState :=
  snd (ratchet_decrypt_with_rekey_classified clock (msg_nonce carrier100) (msg_ciphertext carrier100)
         (msg_rekey_ciphertext carrier100) (msg_rekey_x25519_pk carrier100) (msg_rekey_mlkem_pk carrier100) bob100).
Definition alice_acked : DoubleRatchetState := snd (process_rekey_ack 100 alice101).
Definition first_new : RatchetEncryptedMessage :=
  message (fst (ratchet_encrypt clock (rekey_coins 41) (bstr "new generation") alice_acked)).

Lemma bob100_quiet : Quiet bob100.
Proof. constructor; [done|done|set_solver|]. intros st [= <-]. apply lookup_empty. Qed.

Lemma rekey_agreement_witness :
  exists a3 b2, ratchet_generation a3 = 1 /\ Paired a3 b2
    /\ ratchet_decrypt (msg_nonce first_new) (msg_ciphertext first_new) bob101 = (Ok (bstr "new generation"), b2).
Proof.
  destruct (rekey_agreement clock clock (rekey_coins 31) (bstr "carrier") (Scenario.coins 21) alice100 bob100 carrier100 alice101)
    as (b1 & a2 & E1 & _ & E2 & Hall).
  - apply wf_set_send; [by split|apply wf_fresh].
  - apply (wf_set_recv _ _ bob); [by split|apply wf_fresh].
  - by constructor.
  - apply bob100_quiet.
  - by vm_compute.
  - reflexivity.
  - reflexivity.
  - reflexivity.
  - by vm_compute.
  - apply run_ok. by vm_compute.
  - assert (b1 = bob101) as -> by (apply (f_equal snd) in E1; symmetry; exact E1).
    assert (a2 = alice_acked) as -> by (apply (f_equal snd) in E2; symmetry; exact E2).
    destruct (Hall clock (rekey_coins 41) (bstr "new generation") first_new
      (snd (ratchet_encrypt clock (rekey_coins 41) (bstr "new generation") alice_acked)) open_error)
      as (b2 & Hd & Hp & Hg & _).
    + apply run_ok. by vm_compute.
    + by vm_compute.
    + eexists _, b2. split; [exact Hg|]. split; [exact Hp|exact Hd].
Defined.

(** Both sides staged a proposal and derived the other's. *)
Definition racing (mine theirs : Z) (s : DoubleRatchetState) : DoubleRatchetState :=
  let mine := generate_hybrid_keypair (Scenario.coins mine) in
  let theirs := generate_hybrid_keypair (Scenario.coins theirs) in
  s <| outgoing_proposal := stage_proposal ([], [], []) mine (x25519_pk mine, mlkem_pk mine, []) |>
    <| incoming_proposal := staged clock [] [] (x25519_pk theirs) (mlkem_pk theirs) 100 0 default_incoming |>.

Lemma race_agreement_witness :
  let a := racing 51 61 alice in let b := racing 61 51 bob in
  let a' := resolve_rekey_race_and_ack 100 true a in let b' := resolve_rekey_race_and_ack 100 true b in
  race_settled a a' b b' 100 \/ race_settled b b' a a' 100.
Proof.
  apply (race_agreement 100 100
    (x25519_pk (generate_hybrid_keypair (Scenario.coins 51))) (mlkem_pk (generate_hybrid_keypair (Scenario.coins 51))) []
    (x25519_pk (generate_hybrid_keypair (Scenario.coins 61))) (mlkem_pk (generate_hybrid_keypair (Scenario.coins 61))) []
    (racing 51 61 alice) (racing 61 51 bob)); try reflexivity.
  intros [=].
Defined.

(** A session whose slot was cancelled, its monotonic stamp left at zero. *)
Definition stamped : DoubleRatchetState :=
  bob <| incoming_proposal ::= fun p => p <| in_attached_at_mono := Some 0 |> |>.
Definition minute_later : Clock := {| now_mono := secs 60; now_unix := now_unix clock |}.

Lemma restaged_proposal_stale_witness :
  incoming_proposal_is_stale minute_later
    (staged minute_later secret secret [] [] 100 0
       (incoming_proposal (cancel_pending_incoming_rekey stamped))) = true.
Proof.
  apply (restaged_proposal_stale minute_later secret secret [] [] 100 0 0 stamped); [reflexivity|].
  by vm_compute.
Defined.
