(* ===== verification/RatchetRecovery.v ===== *)
(** * RatchetRecovery: what an explicit resync recovers *)

From S2P Require Import Prelude Error Primitives Aead Kem Toy Tlv RatchetState RatchetChain.
From S2P Require Import RatchetEncrypt Scenario RatchetDecrypt RatchetResync RatchetStep RatchetInvariant RatchetSession RatchetRekey.

Section Recovery.
Context `{P : Primitives}.

(** The cache of the current generation holds positions already passed only. *)
Definition cache_behind (s : DoubleRatchetState) : Prop :=
  forall st q, skip_message_keys s = Some st -> is_Some (st !! (ratchet_generation s, q)) ->
  q < message_count (recv s).

(** After merging the keys of [cur..target], those at or above a skipped
    position are exactly the later skipped ones. *)
Lemma merged_above (ck : bytes) (g cur target q : Z) (st : SkipKeyMap) :
  0 <= cur <= q -> q <= target ->
  (forall g' q', is_Some (st !! (g', q')) -> g' <= g) ->
  (forall q', is_Some (st !! (g, q')) -> q' < cur) ->
  filter (fun kv : (Z * Z) * bytes => pair_le (g, q) (fst kv))
    (insert_all (range_keys g cur (Z.to_nat (target - cur)) (chain_at ck (Z.to_nat cur))) st)
  ⊆ range_keys g q (Z.to_nat (target - q)) (chain_at ck (Z.to_nat q)).
Proof.
  intros Hcur Hq Hgen Hbehind. apply map_subseteq_spec. intros [g' q'] v Hv.
  apply map_lookup_filter_Some in Hv as [Hv Hle]. unfold pair_le in Hle. simpl in Hle.
  apply lookup_union_Some_raw in Hv as [Hv|[_ Hv]].
  - rewrite range_keys_lookup in Hv. case_decide as Hd; [|done]. injection Hv as <-.
    rewrite range_keys_lookup, decide_True by lia. unfold msg_at. rewrite !chain_at_add. do 3 f_equal. lia.
  - pose proof (Hgen g' q' ltac:(eauto)). assert (g' = g) as -> by lia.
    pose proof (Hbehind q' ltac:(eauto)). lia.
Qed.

Lemma merged_kept (ck : bytes) (g cur target q : Z) (st : SkipKeyMap) :
  0 <= cur <= q -> target - 200 <= q < target ->
  (forall g' q', is_Some (st !! (g', q')) -> g' <= g) ->
  (forall q', is_Some (st !! (g, q')) -> q' < cur) ->
  prune_skip_keys g 200
    (insert_all (range_keys g cur (Z.to_nat (target - cur)) (chain_at ck (Z.to_nat cur))) st) !! (g, q)
  = Some (msg_at ck (Z.to_nat q)).
Proof.
  intros Hcur Hq Hgen Hbehind. apply prune_skip_keys_keeps; [done| | |].
  - unfold insert_all. apply lookup_union_Some_l. rewrite range_keys_lookup, decide_True by lia.
    unfold msg_at. rewrite chain_at_add. do 3 f_equal. lia.
  - unfold keep_generation. simpl. by rewrite Z.eqb_refl.
  - pose proof (merged_above ck g cur target q st ltac:(lia) ltac:(lia) Hgen Hbehind) as Hsub.
    apply map_subseteq_size in Hsub.
    pose proof (range_keys_size g q (Z.to_nat (target - q)) (chain_at ck (Z.to_nat q))). lia.
Qed.

(** C23: a resync that succeeds moves the chain forward by at most 1000
    positions, charges them to a lifetime budget of 20000, and afterwards the
    message at the target and the last 200 messages skipped (undelivered, and
    sealed on the chain) all decrypt. *)
Theorem resync_recovers ck clk target s gap s' :
  wf_state s -> ratchet_generation s <> u32_max -> u64_range target -> cache_behind s ->
  key (recv s) = chain_at ck (Z.to_nat (message_count (recv s))) ->
  resync_receiving_chain clk target s = (Ok gap, s') ->
  (gap = target - message_count (recv s) /\ 0 < gap <= SYNC_MAX_GAP
   /\ message_count (recv s') = target
   /\ resync_forward_total s' = resync_forward_total s + gap
   /\ resync_forward_total s' <= SYNC_MAX_CUMULATIVE)
  /\ forall q ct aad pt,
       Z.max (message_count (recv s)) (target - 200) <= q <= target ->
       (ratchet_generation s, q) ∉ seen (replay_window s) ->
       decrypt_chacha20 (msg_at ck (Z.to_nat q)) (generate_nonce_from_seq q (ratchet_generation s)) ct aad = Ok pt ->
       fst (ratchet_decrypt_with_aad (generate_nonce_from_seq q (ratchet_generation s)) ct aad s') = Ok pt.
Proof.
  intros H Hmax Ht Hbehind Hkey E. pose proof (wf_recv_count _ H) as [Hc0 _].
  destruct (wf_resync _ H) as [Ht0 Ht1].
  apply resync_ok in E as (Hgap & Hrange & Hbud & s2 & st & (S1 & S2 & S3 & S4 & S5 & S6 & S7 & S8 & S9) & Hst & ->).
  assert (skip_budget s = 200) as Hb by (unfold skip_budget; by rewrite (wf_max_skip _ H)). rewrite Hb.
  set (merged := insert_all _ st). set (s' := _ <| skip_message_keys := _ |>).
  assert (resync_forward_total s' = sat_add64 (resync_forward_total s) gap) as Htot by (rewrite <- S3; reflexivity).
  assert (sat_add64 (resync_forward_total s) gap = resync_forward_total s + gap) as Hsat
    by (unfold sat_add64, u64_max, SYNC_MAX_CUMULATIVE, SYNC_MAX_GAP in *; lia).
  split.
  { split_and!; try lia; try done. }
  intros q ct aad pt Hq Hseen Hd. destruct (wf_skip _ H) as (st' & Hst' & _ & Hgens).
  rewrite Hst in Hst'. injection Hst' as <-.
  assert (validate_and_extract_nonce s' (generate_nonce_from_seq q (ratchet_generation s))
          = Ok (ratchet_generation s, q)) as Hv.
  { apply validate_current; [apply H|unfold u64_range in *; lia|exact S2|done|].
    change (replay_window s') with (replay_window s2). by rewrite S6. }
  assert (retained_generation (ratchet_generation s) s' = false) as Hret.
  { pose proof (wf_not_retained (ratchet_generation s) s H Hmax ltac:(lia)) as Hr. unfold retained_generation in *.
    change (previous_recv_chain_key s') with (previous_recv_chain_key s2).
    change (previous_recv_anchor s') with (previous_recv_anchor s2).
    change (previous_recv_gen s') with (previous_recv_gen s2). by rewrite S7, S8, S9. }
  assert (skip_message_keys s' = Some (prune_skip_keys (ratchet_generation s) 200 merged)) as Hst2 by done.
  specialize (Hbehind st). assert (forall q', is_Some (st !! (ratchet_generation s, q')) -> q' < message_count (recv s))
    as Hbehind' by (intros q' Hs; by apply Hbehind).
  destruct (decide (q = target)) as [->|Hne].
  - erewrite decrypt_chain_ok; try done.
    + destruct (prune_skip_keys _ _ merged !! _) as [v|] eqn:Ev; [|done]. exfalso.
      apply prune_skip_keys_lookup in Ev as [Ev _].
      apply lookup_union_Some_raw in Ev as [Ev|[_ Ev]].
      * rewrite range_keys_lookup in Ev. case_decide; [lia|done].
      * specialize (Hbehind' target ltac:(eauto)). lia.
    + unfold gap_exceeds. change (message_count (recv s')) with target. by rewrite Z.ltb_irrefl.
    + change (message_count (recv s')) with target.
      change (key (recv s')) with (chain_at (key (recv s)) (Z.to_nat gap)).
      rewrite Z.sub_diag, Hkey, chain_at_add. unfold msg_at. simpl.
      replace (Z.to_nat (message_count (recv s)) + Z.to_nat gap)%nat with (Z.to_nat target) by lia. exact Hd.
  - erewrite decrypt_cached_ok; try done.
    unfold merged. rewrite Hgap, Hkey. apply merged_kept; auto; lia.
Qed.

End Recovery.

Import Scenario.

Definition bob_resynced : DoubleRatchetState := snd (resync_receiving_chain clock 40 bob).

Lemma resync_recovers_witness :
  resync_forward_total bob_resynced <= SYNC_MAX_CUMULATIVE
  /\ forall q ct aad pt,
       Z.max (message_count (recv bob)) (40 - 200) <= q <= 40 ->
       (ratchet_generation bob, q) ∉ seen (replay_window bob) ->
       decrypt_chacha20 (msg_at (initiator_chain secret) (Z.to_nat q))
         (generate_nonce_from_seq q (ratchet_generation bob)) ct aad = Ok pt ->
       fst (ratchet_decrypt_with_aad (generate_nonce_from_seq q (ratchet_generation bob)) ct aad bob_resynced) = Ok pt.
Proof.
  destruct (resync_recovers (initiator_chain secret) clock 40 bob 40 bob_resynced) as [(_ & _ & _ & _ & Hb) Hd].
  - apply wf_fresh.
  - by vm_compute.
  - split; by vm_compute.
  - intros st q [= <-] [v Hv]. by rewrite lookup_empty in Hv.
  - exact (eq_refl (initiator_chain secret)).
  - apply run_ok. by vm_compute.
  - exact (conj Hb Hd).
Defined.
