(* ===== verification/Packets.v ===== *)
(** * Packets: application messages (core-crypto/src/packets.rs)

    The message enumeration and [safe_decode_packet].  A Rust [String] is its
    UTF-8 bytes; an [f64] its bit pattern.  JSON text is produced and parsed by
    serde_json, a parameter ([PacketCodec]).  UTF-8 validation and
    [String::from_utf8_lossy] are written out. *)

From S2P Require Import Prelude Error Frame.

Record SensorPacket := { lux : Z; sensor_timestamp : Z }.
Record ClipboardPacket := { content : bytes; clip_hash : bytes; clip_timestamp : Z }.
Record BinaryClipboardPacket :=
  { mime_type : bytes; bin_data_base64 : bytes; bin_hash : bytes; bin_timestamp : Z }.
Record SmsPacket := { sender : bytes; sms_body : bytes; sms_timestamp : Z }.
Record OutboundSmsPacket := { recipient : bytes; out_body : bytes; out_timestamp : Z }.
Record NotificationPacket :=
  { sbn_key : bytes; title : bytes; text : bytes; app_package : bytes;
    icon_base64 : option bytes; notif_timestamp : Z }.
Record NotificationActionPacket :=
  { act_sbn_key : bytes; action_index : Z; action_title : bytes; act_timestamp : Z }.
Record HardwareCommandPacket := { command_type : bytes; payload_json : bytes; hw_timestamp : Z }.
Record FileChunkPacket :=
  { file_id : bytes; filename : bytes; chunk_index : Z; total_chunks : Z; data_base64 : bytes;
    file_timestamp : Z }.

Inductive KyberMessage :=
| Sensor (p : SensorPacket)
| ClipboardText (p : ClipboardPacket)
| ClipboardBinary (p : BinaryClipboardPacket)
| Sms (p : SmsPacket)
| OutboundSms (p : OutboundSmsPacket)
| Notification (p : NotificationPacket)
| NotificationAction (p : NotificationActionPacket)
| HardwareCommand (p : HardwareCommandPacket)
| FileChunk (p : FileChunkPacket)
| PathChallenge (challenge_token : bytes)
| PathResponse (response_token : bytes)
| Ping (timestamp : Z)
| Pong (timestamp : Z)
| RekeyAck (seq : Z)
| Synchronize (send_count : Z).

(** ** UTF-8 *)

Definition byte_in (lo hi : Z) (b : byte) : bool := (lo <=? Z_of_byte b) && (Z_of_byte b <=? hi).
Definition is_cont : byte -> bool := byte_in 0x80 0xBF.

(** The first character of a string: whether it is well formed, and the number
    of bytes it takes (of an ill-formed one, the maximal prefix that could start
    a character). *)
Definition utf8_head (bs : bytes) : bool * nat :=
  match bs with
  | [] => (true, 0%nat)
  | b0 :: r =>
      let z := Z_of_byte b0 in
      if z <? 0x80 then (true, 1%nat)
      else if (0xC2 <=? z) && (z <=? 0xDF) then
        match r with
        | b1 :: _ => if is_cont b1 then (true, 2%nat) else (false, 1%nat)
        | [] => (false, 1%nat)
        end
      else if (0xE0 <=? z) && (z <=? 0xEF) then
        let ok1 := byte_in (if z =? 0xE0 then 0xA0 else 0x80) (if z =? 0xED then 0x9F else 0xBF) in
        match r with
        | b1 :: r' => if ok1 b1
                      then match r' with
                           | b2 :: _ => if is_cont b2 then (true, 3%nat) else (false, 2%nat)
                           | [] => (false, 2%nat)
                           end
                      else (false, 1%nat)
        | [] => (false, 1%nat)
        end
      else if (0xF0 <=? z) && (z <=? 0xF4) then
        let ok1 := byte_in (if z =? 0xF0 then 0x90 else 0x80) (if z =? 0xF4 then 0x8F else 0xBF) in
        match r with
        | b1 :: r' => if ok1 b1
                      then match r' with
                           | b2 :: r'' => if is_cont b2
                                          then match r'' with
                                               | b3 :: _ => if is_cont b3 then (true, 4%nat) else (false, 3%nat)
                                               | [] => (false, 3%nat)
                                               end
                                          else (false, 2%nat)
                           | [] => (false, 2%nat)
                           end
                      else (false, 1%nat)
        | [] => (false, 1%nat)
        end
      else (false, 1%nat)
  end.

(** A character takes at least one byte, so the length is enough fuel. *)
Fixpoint utf8_valid_loop (fuel : nat) (bs : bytes) : bool :=
  match fuel, bs with
  | _, [] => true
  | O, _ :: _ => false
  | S fuel', _ :: _ => let '(ok, n) := utf8_head bs in ok && utf8_valid_loop fuel' (drop n bs)
  end.
(** [std::str::from_utf8(..).is_ok()]. *)
Definition utf8_valid (bs : bytes) : bool := utf8_valid_loop (length bs) bs.

(** U+FFFD. *)
Definition replacement : bytes := [xef; xbf; xbd].

Fixpoint lossy_loop (fuel : nat) (bs : bytes) : bytes :=
  match fuel, bs with
  | _, [] => []
  | O, _ :: _ => []
  | S fuel', _ :: _ =>
      let '(ok, n) := utf8_head bs in
      (if ok : bool then take n bs else replacement) ++ lossy_loop fuel' (drop n bs)
  end.
(** [String::from_utf8_lossy]. *)
Definition from_utf8_lossy (bs : bytes) : bytes := lossy_loop (length bs) bs.

(** ** JSON *)

Class PacketCodec := {
  serde_packet_to_string : KyberMessage -> option bytes;
  serde_packet_from_str : bytes -> option KyberMessage
}.

(** What the program relies on for its two control messages: they serialize, to
    non-empty UTF-8 text within the message cap, and parse back. *)
Class PacketCodecLaws `{C : PacketCodec} := {
  control_roundtrip m :
    (exists q, u64_range q /\ (m = RekeyAck q \/ m = Synchronize q)) ->
    exists s, serde_packet_to_string m = Some s /\ s <> [] /\ len s <= MAX_MESSAGE_SIZE
              /\ utf8_valid s = true /\ serde_packet_from_str s = Some m
}.

Definition MAX_ICON_BASE64_CHARS : Z := 350000.
Definition MAX_FILE_CHUNK_BASE64_CHARS : Z := 1400000.

Section Packets.
Context `{C : PacketCodec}.

Definition to_json (m : KyberMessage) : kres bytes := ok_or (serde_packet_to_string m) (SerializationError "{e}").
Definition from_json (s : bytes) : kres KyberMessage := ok_or (serde_packet_from_str s) (SerializationError "{e}").

Definition safe_decode_packet (data : bytes) : kres KyberMessage :=
  match data with
  | [] => Err (SerializationError "Empty payload")
  | _ =>
    if MAX_MESSAGE_SIZE <? len data
    then Err (SerializationError "Payload too large ({} bytes > MAX_MESSAGE_SIZE)")
    else if negb (utf8_valid data)
    then Err (SerializationError "Invalid UTF-8 bytes: {e}")
    else
      msg ← from_json data;
      match msg with
      | Notification n =>
          match icon_base64 n with
          | Some icon => if MAX_ICON_BASE64_CHARS <? len icon
                         then Err (SerializationError "Notification icon too large ({} base64 chars > {})")
                         else Ok msg
          | None => Ok msg
          end
      | FileChunk f => if MAX_FILE_CHUNK_BASE64_CHARS <? len (data_base64 f)
                       then Err (SerializationError "File chunk too large ({} base64 chars > {})")
                       else Ok msg
      | _ => Ok msg
      end
  end.

(** [DoubleRatchetState::is_rekey_ack]. *)
Definition is_rekey_ack (plaintext : bytes) : bool :=
  match safe_decode_packet plaintext with Ok (RekeyAck _) => true | _ => false end.

(** ** Lemmas *)

Lemma utf8_head_pos b bs : (1 <= snd (utf8_head (b :: bs)))%nat.
Proof. unfold utf8_head. repeat case_match; simpl; lia. Qed.

Lemma lossy_loop_id (fuel : nat) (bs : bytes) :
  (length bs <= fuel)%nat -> utf8_valid_loop fuel bs = true -> lossy_loop fuel bs = bs.
Proof.
  revert bs. induction fuel as [|fuel IH]; intros [|b bs] Hl; cbn [utf8_valid_loop lossy_loop]; try done.
  pose proof (utf8_head_pos b bs) as Hp. destruct (utf8_head (b :: bs)) as [ok n]. simpl in Hp.
  intros [-> Hv]%andb_true_iff. rewrite IH; [apply take_drop| |done].
  rewrite length_drop. simpl in *. lia.
Qed.

(** Valid text is unchanged by the lossy conversion. *)
Lemma lossy_valid bs : utf8_valid bs = true -> from_utf8_lossy bs = bs.
Proof. intros H. by apply lossy_loop_id. Qed.

Lemma control_json `{!PacketCodecLaws} m :
  (exists q, u64_range q /\ (m = RekeyAck q \/ m = Synchronize q)) ->
  exists s, to_json m = Ok s /\ from_json (from_utf8_lossy s) = Ok m /\ safe_decode_packet s = Ok m.
Proof.
  intros Hm. destruct (control_roundtrip m Hm) as (s & Hs & Hne & Hl & Hu & Hd). exists s.
  unfold to_json, from_json, safe_decode_packet. rewrite Hs, lossy_valid, Hd by done. split_and!; try done.
  destruct s as [|b s]; [done|]. rewrite (proj2 (Z.ltb_ge _ _)), Hu by done. unfold from_json. rewrite Hd. simpl.
  destruct Hm as (q & _ & [-> | ->]); done.
Qed.

(** A packet accepted from the wire came from a non-empty, UTF-8 payload
    within the message cap, and its notification icon or file chunk is within
    its own cap; every other payload is an error, never a panic. *)
Theorem decoded_packet_bounded data :
  match safe_decode_packet data with
  | Ok m =>
      0 < len data <= MAX_MESSAGE_SIZE /\ utf8_valid data = true /\ from_json data = Ok m
      /\ (forall n icon, m = Notification n -> icon_base64 n = Some icon -> len icon <= MAX_ICON_BASE64_CHARS)
      /\ (forall f, m = FileChunk f -> len (data_base64 f) <= MAX_FILE_CHUNK_BASE64_CHARS)
  | Err e => exists msg, e = SerializationError msg
  | Panic _ => False
  end.
Proof.
  unfold safe_decode_packet. destruct data as [|b data]; [eauto|].
  pose proof (len_cons b data) as Hl. pose proof (len_nonneg data).
  destruct (_ <? len _) eqn:El; [eauto|]. destruct (utf8_valid _) eqn:Eu; cbn [negb]; [|eauto].
  unfold from_json. destruct (serde_packet_from_str _) as [m|] eqn:Ej; cbn [ok_or mbind result_bind]; [|eauto].
  zify_bool. destruct m; try (split_and!; try done; lia).
  - destruct (icon_base64 p) as [icon|] eqn:Ei.
    + destruct (_ <? len icon) eqn:Eic; [eauto|]. zify_bool.
      split_and!; try done; try lia. intros n icon' [= <-] Hi. rewrite Hi in Ei. by injection Ei as ->.
    + split_and!; try done; try lia. intros n icon' [= <-] Hi. congruence.
  - destruct (_ <? len _) eqn:Ef; [eauto|]. zify_bool. split_and!; try done; try lia. intros f [= <-]. done.
Qed.

End Packets.

(** ** A concrete codec: the two control messages as a letter followed by the
    sixteen half bytes of their counter, so that definitions over [PacketCodec]
    can be evaluated and its laws shown to be satisfiable. *)

Module ToyCodec.

Definition nibble (z : Z) : byte := byte_of_Z (97 + z).
Definition nibbles (bs : bytes) : bytes :=
  flat_map (fun b => [nibble (Z_of_byte b / 16); nibble (Z_of_byte b mod 16)]) bs.
Fixpoint unnibbles (bs : bytes) : bytes :=
  match bs with
  | a :: b :: bs' => byte_of_Z ((Z_of_byte a - 97) * 16 + (Z_of_byte b - 97)) :: unnibbles bs'
  | _ => []
  end.

#[export] Instance toy_codec : PacketCodec := {|
  serde_packet_to_string m :=
    match m with
    | RekeyAck q => Some (x41 :: nibbles (be_bytes 8 q))
    | Synchronize q => Some (x53 :: nibbles (be_bytes 8 q))
    | _ => None
    end;
  serde_packet_from_str s :=
    match s with
    | x41 :: r => Some (RekeyAck (be_Z (unnibbles r)))
    | x53 :: r => Some (Synchronize (be_Z (unnibbles r)))
    | _ => None
    end
|}.

Lemma nibbles_unnibbles bs : unnibbles (nibbles bs) = bs.
Proof.
  induction bs as [|b bs IH]; [done|].
  change (nibbles (b :: bs)) with ([nibble (Z_of_byte b / 16); nibble (Z_of_byte b mod 16)] ++ nibbles bs).
  cbn [app unnibbles]. rewrite IH. f_equal. destruct b; reflexivity.
Qed.

Definition ascii (b : byte) : Prop := Z_of_byte b < 128.

Lemma nibbles_ascii bs : Forall ascii (nibbles bs).
Proof.
  induction bs as [|b bs IH]; [constructor|].
  change (nibbles (b :: bs)) with ([nibble (Z_of_byte b / 16); nibble (Z_of_byte b mod 16)] ++ nibbles bs).
  apply Forall_app. split; [|done]. destruct b; repeat constructor; by vm_compute.
Qed.

Lemma ascii_valid (bs : bytes) (fuel : nat) :
  Forall ascii bs -> (length bs <= fuel)%nat -> utf8_valid_loop fuel bs = true.
Proof.
  intros Ha. revert fuel. induction Ha as [|b bs Hb Ha IH]; intros [|fuel] Hl; simpl in Hl; try done; [lia|].
  cbn [utf8_valid_loop]. unfold utf8_head. unfold ascii in Hb. rewrite (proj2 (Z.ltb_lt _ _)) by done.
  cbn [drop andb]. apply IH. lia.
Qed.

Lemma length_nibbles bs : length (nibbles bs) = (2 * length bs)%nat.
Proof. induction bs as [|b bs IH]; [done|]. unfold nibbles in *. cbn [flat_map]. rewrite length_app, IH. simpl. lia. Qed.

#[export] Instance toy_codec_laws : PacketCodecLaws.
Proof.
  constructor. intros m (q & Hq & Hm).
  assert (be_Z (unnibbles (nibbles (be_bytes 8 q))) = q) as Hrt.
  { rewrite nibbles_unnibbles. apply be_Z_be_bytes_small. unfold u64_range, u64_max in Hq. lia. }
  assert (forall c, ascii c -> utf8_valid (c :: nibbles (be_bytes 8 q)) = true) as Hv.
  { intros c Hc. apply ascii_valid; [|done]. constructor; [done|apply nibbles_ascii]. }
  assert (forall c, len (c :: nibbles (be_bytes 8 q)) <= MAX_MESSAGE_SIZE) as Hlen.
  { intros c. unfold len. cbn [length]. rewrite length_nibbles, length_be_bytes. by vm_compute. }
  destruct Hm as [-> | ->]; eexists; (split; [reflexivity|]);
    (split; [done|]); (split; [apply Hlen|]); (split; [by apply Hv|]); cbn [serde_packet_from_str toy_codec]; by rewrite Hrt.
Qed.

End ToyCodec.
