(* ===== verification/Json.v ===== *)
(** * Json: the JSON values and hexadecimal strings the desktop stores

    [serde_json::Value] as a type, with the accessors the program uses.  The
    text form (serde_json) and the hexadecimal form (the hex crate) are
    parameters: the class [JsonText] and the class [Hex], each with a class of
    laws that state the documented round trips.  [ToyJson] is an instance of
    both, for evaluating definitions on concrete inputs. *)

From Stdlib.Strings Require Import Ascii.
From S2P Require Import Prelude.

(** [Number] is an integer; a number as_u64 does not read (a fraction, an
    exponent) is [Real], by its text.  An object is a map: serde_json keeps one
    value per key. *)
Inductive Value : Type :=
| Null
| Bool (b : bool)
| Number (n : Z)
| Real (text : string)
| Str (s : string)
| Array (l : list Value)
| Object (m : gmap string Value).

Definition as_object (v : Value) : option (gmap string Value) :=
  match v with Object m => Some m | _ => None end.
Definition as_array (v : Value) : option (list Value) :=
  match v with Array l => Some l | _ => None end.
Definition as_str (v : Value) : option string :=
  match v with Str s => Some s | _ => None end.
Definition as_u64 (v : Value) : option Z :=
  match v with Number n => if (0 <=? n) && (n <=? u64_max) then Some n else None | _ => None end.
(** [v.get(key)]: only an object has members. *)
Definition get_field (k : string) (v : Value) : option Value := as_object v ≫= lookup k.

(** The values serde_json represents exactly: integers of [i64] or [u64]. *)
Inductive representable : Value -> Prop :=
| repr_null : representable Null
| repr_bool b : representable (Bool b)
| repr_number n : - 2 ^ 63 <= n <= u64_max -> representable (Number n)
| repr_str s : representable (Str s)
| repr_array l : Forall representable l -> representable (Array l)
| repr_object m : (forall k v, m !! k = Some v -> representable v) -> representable (Object m).

(** [serde_json::to_string] (or [to_string_pretty]) and [serde_json::from_str]. *)
Class JsonText := {
  json_to_string : Value -> option string;
  json_from_str : string -> option Value
}.
Class JsonTextLaws `{T : JsonText} := {
  json_roundtrip v : representable v -> exists t, json_to_string v = Some t /\ json_from_str t = Some v
}.

(** [hex::encode] and [hex::decode]. *)
Class Hex := {
  hex_encode : bytes -> string;
  hex_decode : string -> option bytes
}.
Definition digit_of (c : ascii) : Prop := c <> ":"%char.
Class HexLaws `{X : Hex} := {
  hex_roundtrip b : hex_decode (hex_encode b) = Some b;
  (** The digits are [0]-[9] and [a]-[f], so no separator. *)
  hex_no_colon b : Forall digit_of (String.list_ascii_of_string (hex_encode b));
  hex_nonempty b : b <> [] -> hex_encode b <> ""
}.

(** [str::split_once]: before and after the first occurrence. *)
Fixpoint split_once (c : ascii) (s : string) : option (string * string) :=
  match s with
  | EmptyString => None
  | String a s' =>
      if decide (a = c) then Some ("", s')
      else '(l, r) ← split_once c s'; Some (String a l, r)
  end.

Lemma split_once_app c (l r : string) :
  Forall (fun a => a <> c) (String.list_ascii_of_string l) ->
  split_once c (l +:+ String c r) = Some (l, r).
Proof.
  induction l as [|a l IH]; simpl; [by rewrite decide_True|].
  intros [Ha Hl]%Forall_cons. rewrite decide_False by done. by rewrite IH.
Qed.

Lemma as_u64_number n : u64_range n -> as_u64 (Number n) = Some n.
Proof. intros [H1 H2]. cbn. by rewrite (proj2 (Z.leb_le _ _) H1), (proj2 (Z.leb_le _ _) H2). Qed.

Lemma as_u64_range v n : as_u64 v = Some n -> u64_range n.
Proof.
  destruct v as [| |z| | | |]; cbn; try done.
  destruct ((0 <=? z) && (z <=? u64_max)) eqn:E; intros H; inversion H; subst. zify_bool. by split.
Qed.

Lemma repr_u64 n : u64_range n -> representable (Number n).
Proof. intros [H1 H2]. constructor. split; [|done]. transitivity 0; [by vm_compute|done]. Qed.

Module ToyJson.

Abbreviation leaf := (string + (Z + string + string + bool))%type.

Fixpoint enc (v : Value) : gen_tree leaf :=
  match v with
  | Null => GenNode 0 []
  | Bool b => GenLeaf (inr (inr b))
  | Number n => GenLeaf (inr (inl (inl (inl n))))
  | Real s => GenLeaf (inr (inl (inl (inr s))))
  | Str s => GenLeaf (inr (inl (inr s)))
  | Array l => GenNode 1 (map enc l)
  | Object m => GenNode 2 (map_fold (fun k v acc => GenNode 3 [GenLeaf (inl k); enc v] :: acc) [] m)
  end.

Fixpoint dec (t : gen_tree leaf) : option Value :=
  match t with
  | GenNode 0 [] => Some Null
  | GenLeaf (inr (inr b)) => Some (Bool b)
  | GenLeaf (inr (inl (inl (inl n)))) => Some (Number n)
  | GenLeaf (inr (inl (inl (inr s)))) => Some (Real s)
  | GenLeaf (inr (inl (inr s))) => Some (Str s)
  | GenNode 1 l => Array <$> mapM dec l
  | GenNode 2 l =>
      (fun kvs => Object (list_to_map kvs)) <$>
        mapM (fun t => match t with GenNode 3 [GenLeaf (inl k); u] => pair k <$> dec u | _ => None end) l
  | _ => None
  end.

Lemma mapM_fields (kvs : list (string * Value)) :
  Forall (fun kv => dec (enc kv.2) = Some kv.2) kvs ->
  mapM (fun t => match t with GenNode 3 [GenLeaf (inl k); u] => pair k <$> dec u | _ => None end)
    (foldr (uncurry (fun k v acc => GenNode 3 [GenLeaf (inl k); enc v] :: acc)) [] kvs) = Some kvs.
Proof. induction 1 as [|[k v] kvs Hv _ IH]; [done|]. cbn [foldr uncurry mapM snd] in *. rewrite Hv. simpl. by rewrite IH. Qed.

Lemma dec_enc v : representable v -> dec (enc v) = Some v.
Proof.
  revert v. fix IH 2. intros v [| | | |l Hl|m Hm]; try done; cbn [enc dec].
  - assert (mapM dec (map enc l) = Some l) as ->; [|done].
    induction Hl as [|x l Hx Hl IHl]; [done|]. cbn [map mapM]. rewrite (IH x Hx). simpl. by rewrite IHl.
  - rewrite map_fold_foldr, mapM_fields; [simpl; by rewrite list_to_map_to_list|].
    apply Forall_forall. intros [k x] Hx%elem_of_map_to_list. exact (IH x (Hm k x Hx)).
Qed.

(** A positive number as a string of bits. *)
Fixpoint pos_bits (p : positive) : string :=
  match p with
  | xH => ""
  | xO p => String "0" (pos_bits p)
  | xI p => String "1" (pos_bits p)
  end.
Fixpoint bits_pos (s : string) : option positive :=
  match s with
  | "" => Some xH
  | String "0" s => xO <$> bits_pos s
  | String "1" s => xI <$> bits_pos s
  | _ => None
  end.
Lemma bits_pos_bits p : bits_pos (pos_bits p) = Some p.
Proof. induction p as [p IH|p IH|]; simpl; [by rewrite IH..|done]. Qed.

#[export] Instance toy_json : JsonText := {|
  json_to_string v := Some (pos_bits (encode (enc v)));
  json_from_str t := p ← bits_pos t; x ← decode p; dec x |}.

#[export] Instance toy_json_laws : JsonTextLaws.
Proof.
  constructor. intros v Hv. eexists. split; [done|]. unfold json_from_str, toy_json.
  rewrite bits_pos_bits. cbn [mbind option_bind]. rewrite decode_encode. by apply dec_enc.
Qed.

Definition hex_digit (z : Z) : ascii := ascii_of_nat (Z.to_nat (if z <? 10 then 48 + z else 87 + z)).
Definition digit_value (c : ascii) : option Z :=
  let n := Z.of_nat (nat_of_ascii c) in
  if (48 <=? n) && (n <=? 57) then Some (n - 48)
  else if (97 <=? n) && (n <=? 102) then Some (n - 87) else None.
Fixpoint toy_encode (b : bytes) : string :=
  match b with
  | [] => ""
  | x :: b' => String (hex_digit (Z_of_byte x / 16)) (String (hex_digit (Z_of_byte x mod 16)) (toy_encode b'))
  end.
Fixpoint toy_decode (s : string) : option bytes :=
  match s with
  | "" => Some []
  | String h (String l s') =>
      a ← digit_value h; b ← digit_value l; r ← toy_decode s'; Some (byte_of_Z (a * 16 + b) :: r)
  | _ => None
  end.

#[export] Instance toy_hex : Hex := {| hex_encode := toy_encode; hex_decode := toy_decode |}.

#[export] Instance toy_hex_laws : HexLaws.
Proof.
  split; cbn [hex_encode hex_decode toy_hex].
  - induction b as [|x b IH]; [done|]. cbn [toy_encode toy_decode]. rewrite IH. by destruct x.
  - induction b as [|x b IH]; [constructor|]. cbn [toy_encode String.list_ascii_of_string].
    repeat constructor; [by destruct x..|done].
  - by intros [|x b].
Qed.

End ToyJson.
