(* ===== verification/Registry.v ===== *)
(** * Registry: the per-peer session registry
    (core-crypto/src/ratchet_ffi/registry.rs, core-crypto/src/ratchet_ffi.rs)

    The process-global map from a peer identity to a mutex-protected session.
    A session entry keeps the poison flag of its mutex: a closure that panics
    under the lock leaves the flag set.  Every operation below is one critical
    section, except [ratchet_import_session_impl], which checks its guard and
    inserts in two: it is written as the composition of the two parts.
    serde_json is a parameter ([SnapshotCodec]). *)

From S2P Require Import Prelude Error Primitives Aead Kem Toy Tlv.
From S2P Require Import RatchetState RatchetChain RatchetEncrypt Scenario RatchetDecrypt RatchetSnapshot RatchetInvariant.

Record Session := { state : DoubleRatchetState; poisoned : bool }.
Record Registry := { sessions : gmap string Session; map_poisoned : bool }.

Definition eta_registry (r : Registry) : Registry :=
  {| sessions := sessions r; map_poisoned := map_poisoned r |}.
#[export] Instance upd_sessions : Update sessions. Proof. solve_update eta_registry sessions. Defined.

Definition put_session (peer : string) (s : DoubleRatchetState) (r : Registry) : Registry :=
  r <| sessions ::= <[peer := {| state := s; poisoned := false |}]> |>.

Abbreviation registry := (Comp KyberError Registry).

(** ** serde_json *)
Class SnapshotCodec := {
  serde_snapshot_to_writer : RatchetSnapshot -> option bytes;
  serde_snapshot_from_slice : bytes -> option RatchetSnapshot;
  (** A JSON value's unsigned fields, [v.get(name).and_then(as_u64)]; [None]
      when the text is not JSON. *)
  serde_value_u64 : bytes -> option (string -> option Z)
}.
Class SnapshotCodecLaws `{J : SnapshotCodec} := {
  snapshot_json_roundtrip s d : serde_snapshot_to_writer s = Some d -> serde_snapshot_from_slice d = Some s;
  snapshot_json_value s d :
    serde_snapshot_to_writer s = Some d ->
    exists v, serde_value_u64 d = Some v
      /\ v "ratchet_generation" = Some (snap_ratchet_generation s)
      /\ v "send_message_count" = Some (snap_send_message_count s)
      /\ v "recv_message_count" = Some (snap_recv_message_count s)
      /\ v "pairing_epoch" = Some (snap_pairing_epoch s);
  (** [as_u64] returns a [u64]. *)
  snapshot_value_range d v name n : serde_value_u64 d = Some v -> v name = Some n -> u64_range n
}.

(** ** Watermarks *)
Record RatchetWatermark := {
  wm_pairing_epoch : Z;
  wm_ratchet_generation : Z;
  wm_send_message_count : Z;
  wm_recv_message_count : Z
}.
#[export] Instance RatchetWatermark_eq_dec : EqDecision RatchetWatermark.
Proof. solve_decision. Defined.

Definition watermark_of_snapshot (snap : RatchetSnapshot) : RatchetWatermark := {|
  wm_pairing_epoch := snap_pairing_epoch snap;
  wm_ratchet_generation := snap_ratchet_generation snap;
  wm_send_message_count := snap_send_message_count snap;
  wm_recv_message_count := snap_recv_message_count snap |}.

Definition from_live (s : DoubleRatchetState) : RatchetWatermark := {|
  wm_pairing_epoch := pairing_epoch s;
  wm_ratchet_generation := ratchet_generation s;
  wm_send_message_count := message_count (send s);
  wm_recv_message_count := message_count (recv s) |}.

Definition dominates_or_equals (a b : RatchetWatermark) : bool :=
  (wm_pairing_epoch b <=? wm_pairing_epoch a)
  && (wm_ratchet_generation b <=? wm_ratchet_generation a)
  && (wm_send_message_count b <=? wm_send_message_count a)
  && (wm_recv_message_count b <=? wm_recv_message_count a).

Definition is_ahead_of (a b : RatchetWatermark) : bool :=
  (wm_pairing_epoch b <=? wm_pairing_epoch a)
  && (wm_ratchet_generation b <=? wm_ratchet_generation a)
  && (wm_send_message_count b <=? wm_send_message_count a)
  && (wm_recv_message_count b <=? wm_recv_message_count a)
  && negb (eqb_dec a b).

(** ** Sessions *)

(** [with_ratchet_session]: run a closure on the peer's session. *)
Definition with_ratchet_session {T} (peer : string) (f : Comp KyberError DoubleRatchetState T) : registry T :=
  fun r =>
    match sessions r !! peer with
    | None => (Err (CryptoError "No ratchet session for peer '{}'. Call ratchet_init_session first."), r)
    | Some sess =>
        if poisoned sess
        then (Err (CryptoError "Ratchet session for peer '{}' was corrupted (mutex poisoned). Session is marked for re-initialization — do not use until re-paired."), r)
        else let '(res, s') := f (state sess) in
             let dead := match res with Panic _ => true | _ => false end in
             (res, r <| sessions ::= <[peer := {| state := s'; poisoned := dead |}]> |>)
    end.

Definition ratchet_remove_session_impl (peer : string) (r : Registry) : bool * Registry :=
  (is_some (sessions r !! peer), r <| sessions ::= delete peer |>).

Definition ratchet_bump_pairing_epoch_impl (peer : string) (r : Registry) : option Z * Registry :=
  match sessions r !! peer with
  | None => (None, r)
  | Some sess =>
      if poisoned sess then (None, r)
      else let s := (state sess) <| pairing_epoch ::= fun e => sat_add64 e 1 |> in
           (Some (pairing_epoch s), put_session peer s r)
  end.

Definition ratchet_clear_all_sessions_impl (r : Registry) : Registry := r <| sessions := ∅ |>.

Definition ratchet_peer_ids_impl (r : Registry) : list string := (map_to_list (sessions r)).*1.

Definition check_len (expected : Z) (k : option bytes) : kres (option bytes) :=
  match k with
  | Some pk => if negb (len pk =? expected) then Err (InvalidKeyLength expected (len pk)) else Ok (Some pk)
  | None => Ok None
  end.

(** A caller's keypair: x25519 public and secret, ML-KEM public and secret. *)
Definition CallerKeypair : Type := bytes * bytes * bytes * bytes.

Section Registry.
Context `{P : Primitives} `{J : SnapshotCodec}.

Definition adopt_keypair (our_keypair : option CallerKeypair) (coins : KemCoins) : kres HybridKeyPair :=
  match our_keypair with
  | Some (xpk, xsk, mpk, msk) =>
      if negb (len xpk =? 32) || negb (len xsk =? 32)
      then Err (InvalidKeyLength 32 (len xpk))
      else Ok {| x25519_pk := xpk; x25519_sk := xsk; mlkem_pk := mpk; mlkem_sk := msk |}
  | None => Ok (generate_hybrid_keypair coins)
  end.

Definition ratchet_init_session_with_keypair_impl (peer : string) (master_shared_secret : bytes)
  (initiator : bool) (our_keypair : option CallerKeypair) (coins : KemCoins)
  (peer_xpk peer_mpk : option bytes) : registry unit :=
  x25519_arr ← lift (check_len 32 peer_xpk);
  peer_mlkem ← lift (check_len 1184 peer_mpk);
  our_pair ← lift (adopt_keypair our_keypair coins);
  ratchet ← lift (new_with_keypair master_shared_secret initiator our_pair x25519_arr peer_mlkem);
  _ ← modify (fun r => if map_poisoned r then r <| sessions := ∅ |> else r);
  r ← get;
  if is_some (sessions r !! peer)
  then throw (CryptoError "Session already exists for this peer. Remove it first.")
  else modify (put_session peer ratchet).

Definition ratchet_init_session_impl (peer : string) (master_shared_secret : bytes) (initiator : bool)
  (coins : KemCoins) (peer_xpk peer_mpk : option bytes) : registry unit :=
  ratchet_init_session_with_keypair_impl peer master_shared_secret initiator None coins peer_xpk peer_mpk.

(** ** Export *)

Definition ratchet_export_session_impl (peer : string) (r : Registry) : kres (option bytes) :=
  match sessions r !! peer with
  | None => Ok None
  | Some sess =>
      if poisoned sess then Err (CryptoError "Ratchet session mutex poisoned")
      else
        data ← ok_or (serde_snapshot_to_writer (to_snapshot (state sess))) (SerializationError "{e}");
        Ok (Some data)
  end.

(** The snapshot sealed under a wrap key with a fresh nonce. *)
Definition ratchet_export_session_wrapped_impl (peer : string) (wrap_key nonce : bytes) (r : Registry)
  : kres (option (bytes * bytes)) :=
  if negb (len wrap_key =? 32) then Err (InvalidKeyLength 32 (len wrap_key))
  else
    snap ← ratchet_export_session_impl peer r;
    match snap with
    | None => Ok None
    | Some snap_bytes =>
        ct ← encrypt_chacha20 wrap_key nonce snap_bytes [];
        Ok (Some (nonce, ct))
    end.

Definition ratchet_session_watermark_impl (peer : string) (r : Registry) : kres (option RatchetWatermark) :=
  match sessions r !! peer with
  | None => Ok None
  | Some sess =>
      if poisoned sess then Err (CryptoError "Ratchet session mutex poisoned")
      else Ok (Some (from_live (state sess)))
  end.

Definition ratchet_snapshot_watermark_impl (data : bytes) : kres (option RatchetWatermark) :=
  v ← ok_or (serde_value_u64 data) (SerializationError "{e}");
  Ok (match v "ratchet_generation", v "send_message_count", v "recv_message_count" with
      | Some gen, Some snd_count, Some rcv_count =>
          Some {| wm_pairing_epoch := default 0 (v "pairing_epoch");
                  wm_ratchet_generation := wrap32 gen;
                  wm_send_message_count := snd_count;
                  wm_recv_message_count := rcv_count |}
      | _, _, _ => None
      end).

(** ** Import *)

(** [import_watermark_guard]: whether the import must be refused. *)
Definition import_watermark_guard (peer : string) (snap_wm : RatchetWatermark) (r : Registry) : bool :=
  match sessions r !! peer with
  | None => false
  | Some sess =>
      if poisoned sess then false
      else let live_wm := from_live (state sess) in
           if negb (wm_pairing_epoch live_wm =? wm_pairing_epoch snap_wm) then true
           else negb (dominates_or_equals snap_wm live_wm)
  end.

(** The second critical section: restore and insert. *)
Definition import_commit (clk : Clock) (peer : string) (snap : RatchetSnapshot) : registry unit :=
  ratchet ← lift (from_snapshot clk snap);
  modify (put_session peer ratchet).

(** The guard and the insertion take the registry's lock separately: [others] is
    what the other threads do to the registry between the two. *)
Definition import_session (others : Registry -> Registry) (clk : Clock) (peer : string) (data : bytes) : registry unit :=
  snap ← lift (ok_or (serde_snapshot_from_slice data) (SerializationError "{e}"));
  refused ← gets (import_watermark_guard peer (watermark_of_snapshot snap));
  if refused : bool then mret tt
  else _ ← modify others; import_commit clk peer snap.

(** The import when no other thread is in between. *)
Definition ratchet_import_session_impl : Clock -> string -> bytes -> registry unit := import_session (fun r => r).

(** ** Message entry points (ratchet_ffi.rs) *)

Definition has_rekey_field (msg : RatchetEncryptedMessage) : bool :=
  is_some (msg_rekey_x25519_pk msg) || is_some (msg_rekey_mlkem_pk msg) || is_some (msg_rekey_ciphertext msg).

Definition nonce_error : KyberError := DecryptionFailed "Nonce must be 12 bytes".

Definition ratchet_encrypt_message_impl (clk : Clock) (coins : RekeyCoins) (peer : string) (plaintext : bytes)
  : registry RatchetEncryptedMessage :=
  with_ratchet_session peer (ratchet_encrypt clk coins plaintext).

Definition ratchet_decrypt_message_impl (peer : string) (msg : RatchetEncryptedMessage) : registry bytes :=
  _ ← lift (guard_err (has_rekey_field msg)
        (CarrierMisrouted "decrypt called on a message carrying a rekey payload — route through the rekey-aware dispatch"));
  _ ← lift (guard_err (negb (len (msg_nonce msg) =? 12)) nonce_error);
  with_ratchet_session peer (ratchet_decrypt (msg_nonce msg) (msg_ciphertext msg)).

Definition ratchet_decrypt_with_rekey_message_impl (clk : Clock) (peer : string) (nonce ciphertext : bytes)
  (rekey_ct rekey_xpk rekey_mpk : option bytes) : registry bytes :=
  _ ← lift (guard_err (negb (len nonce =? 12)) nonce_error);
  with_ratchet_session peer (ratchet_decrypt_with_rekey clk nonce ciphertext rekey_ct rekey_xpk rekey_mpk).

(** ** Lemmas *)

(** The session of a peer, when its mutex is sound. *)
Definition live (peer : string) (r : Registry) : option DoubleRatchetState :=
  match sessions r !! peer with
  | Some sess => if poisoned sess then None else Some (state sess)
  | None => None
  end.

Lemma live_put peer s r : live peer (put_session peer s r) = Some s.
Proof. unfold live. simpl. by rewrite lookup_insert_eq. Qed.

Lemma put_other peer p s r : p <> peer -> sessions (put_session peer s r) !! p = sessions r !! p.
Proof. intros H. simpl. by rewrite lookup_insert_ne. Qed.

(** A restored session stands where the snapshot says. *)
Lemma from_snapshot_watermark clk snap s :
  from_snapshot clk snap = Ok s -> from_live s = watermark_of_snapshot snap.
Proof.
  unfold from_snapshot. destruct (restore_keypairs _ _); cbn [mbind result_bind]; [|done..]. by intros [= <-].
Qed.

Lemma dominates_refl a : dominates_or_equals a a = true.
Proof. unfold dominates_or_equals. by rewrite !Z.leb_refl. Qed.

Lemma guard_live peer wm r s :
  live peer r = Some s -> import_watermark_guard peer wm r = false ->
  wm_pairing_epoch wm = pairing_epoch s /\ dominates_or_equals wm (from_live s) = true.
Proof.
  unfold live, import_watermark_guard. destruct (sessions r !! peer) as [sess|]; [|done].
  destruct (poisoned sess); [done|]. intros [= <-]. destruct (_ =? _) eqn:E; [|done].
  cbn [negb]. intros H%negb_false_iff. apply Z.eqb_eq in E. done.
Qed.

Lemma guard_none peer wm r : sessions r !! peer = None -> import_watermark_guard peer wm r = false.
Proof. unfold import_watermark_guard. by intros ->. Qed.

Lemma import_ok clk peer data snap s r :
  serde_snapshot_from_slice data = Some snap -> from_snapshot clk snap = Ok s ->
  import_watermark_guard peer (watermark_of_snapshot snap) r = false ->
  ratchet_import_session_impl clk peer data r = (Ok tt, put_session peer s r).
Proof.
  intros Hd Hs Hg. unfold ratchet_import_session_impl, import_session, import_commit. munfold. by rewrite Hd, Hg, Hs.
Qed.

(** No earlier than [s]: the same pairing, and no counter below its own. *)
Definition no_earlier (s s' : DoubleRatchetState) : Prop :=
  pairing_epoch s' = pairing_epoch s
  /\ ratchet_generation s <= ratchet_generation s'
  /\ message_count (send s) <= message_count (send s')
  /\ message_count (recv s) <= message_count (recv s').

Lemma dominates_no_earlier s s' :
  pairing_epoch s' = pairing_epoch s -> dominates_or_equals (from_live s') (from_live s) = true -> no_earlier s s'.
Proof. unfold dominates_or_equals, no_earlier. cbn. rewrite !andb_true_iff, !Z.leb_le. tauto. Qed.

(** C13: an import of any data for a peer with a live session, during which
    the other threads do anything to the registry but leave that peer's entry
    alone between the guard and the insertion, never rolls the session back: the peer
    still has a live session of the same pairing epoch, none of whose
    generation and two counters went down, and every other peer is where the
    other threads left it. *)
Theorem import_never_rolls_back others clk peer data r s :
  live peer r = Some s -> sessions (others r) !! peer = sessions r !! peer ->
  let '(_, r') := import_session others clk peer data r in
  (exists s', live peer r' = Some s' /\ no_earlier s s')
  /\ (exists r0, (r0 = r \/ r0 = others r) /\ forall p, p <> peer -> sessions r' !! p = sessions r0 !! p).
Proof.
  intros Hl Hk. unfold import_session, import_commit. munfold. cbv beta iota.
  assert (forall r1, sessions r1 !! peer = sessions r !! peer -> exists s', live peer r1 = Some s' /\ no_earlier s s') as Hsame.
  { intros r1 E. exists s. unfold live in *. rewrite E. split; [done|apply dominates_no_earlier; [done|apply dominates_refl]]. }
  destruct (serde_snapshot_from_slice data) as [snap|]; [|split; [by apply Hsame|by exists r; auto]].
  destruct (import_watermark_guard _ _ r) eqn:Eg; [split; [by apply Hsame|by exists r; auto]|].
  destruct (from_snapshot clk snap) as [s'| |] eqn:Es; [|split; [by apply Hsame|by exists (others r); auto]..].
  split; [|exists (others r); split; [by right|]; intros p Hp; by apply put_other].
  apply from_snapshot_watermark in Es as Hw. destruct (guard_live _ _ _ _ Hl Eg) as [He Hd].
  exists s'. rewrite live_put. split; [done|]. apply dominates_no_earlier; [|by rewrite Hw].
  apply (f_equal wm_pairing_epoch) in Hw. cbn [from_live wm_pairing_epoch] in Hw. congruence.
Qed.

(** An exported session imports back as it was, up to the monotonic stamps:
    into a registry without the peer, and over the very session it came from. *)
Theorem export_import `{!SnapshotCodecLaws} clk peer r r0 s data :
  live peer r = Some s -> wf_state s -> sessions r0 !! peer = None ->
  ratchet_export_session_impl peer r = Ok (Some data) ->
  ratchet_import_session_impl clk peer data r0 = (Ok tt, put_session peer (restart clk s) r0)
  /\ ratchet_import_session_impl clk peer data r = (Ok tt, put_session peer (restart clk s) r).
Proof.
  unfold live, ratchet_export_session_impl. intros Hl Hwf Hr0.
  destruct (sessions r !! peer) as [sess|] eqn:Ep; [|done]. destruct (poisoned sess) eqn:Epo; [done|].
  injection Hl as <-. destruct (serde_snapshot_to_writer _) as [d|] eqn:Ej; cbn [ok_or mbind result_bind]; [|done].
  intros [= <-]. apply snapshot_json_roundtrip in Ej. pose proof (from_to_snapshot clk _ Hwf) as Hft.
  split; eapply import_ok; eauto using guard_none.
  unfold import_watermark_guard. rewrite Ep, Epo. cbn. rewrite Z.eqb_refl. cbn. by rewrite dominates_refl.
Qed.

(** A wrapped export opens, under the wrap key, to exactly the plain export
    of the same session; a wrap key of another length is refused. *)
Theorem wrapped_export `{!PrimitivesLaws} peer wrap_key nonce r :
  match ratchet_export_session_wrapped_impl peer wrap_key nonce r with
  | Ok (Some (n, ct)) =>
      len wrap_key = 32 /\ n = nonce /\
      exists data, ratchet_export_session_impl peer r = Ok (Some data)
                   /\ decrypt_chacha20 wrap_key n ct [] = Ok data
  | Ok None => sessions r !! peer = None
  | Err _ => True
  | Panic _ => False
  end.
Proof.
  unfold ratchet_export_session_wrapped_impl. destruct (Z.eqb_spec (len wrap_key) 32) as [Hl|]; [|done]. cbn [negb].
  unfold ratchet_export_session_impl. destruct (sessions r !! peer) as [sess|]; [|done].
  destruct (poisoned sess); [done|]. destruct (serde_snapshot_to_writer _) as [d|]; [|done].
  cbn [ok_or mbind result_bind]. destruct (encrypt_chacha20 _ _ _ _) as [ct|e|m] eqn:Ee; cbn [mbind result_bind]; [|done|].
  - split_and!; try done. exists d. split; [done|]. by apply decrypt_encrypt_chacha20.
  - by apply encrypt_chacha20_no_panic in Ee.
Qed.

End Registry.

(** ** The import guard and its insertion are separate critical sections *)

Import Scenario.

Definition registry_a : Registry := {| sessions := {[ "bob" := {| state := alice; poisoned := false |} ]}; map_poisoned := false |}.

(** The nonce a peer's next message would carry. *)
Definition sends_nonce (r : kres RatchetEncryptedMessage * Registry) : bytes := msg_nonce (message (fst r)).

(** An encryption between the guard and the insertion is rolled back: the guard
    accepts the snapshot, a message goes out, the insertion restores the older
    sending chain, and the next message is sealed under the same nonce. *)
Theorem import_race_reuses_nonce :
  let snap := to_snapshot alice in
  import_watermark_guard "bob" (watermark_of_snapshot snap) registry_a = false
  /\ let first := ratchet_encrypt_message_impl clock (rekey_coins 1) "bob" (bstr "one") registry_a in
     let restored := snd (import_commit clock "bob" snap (snd first)) in
     let second := ratchet_encrypt_message_impl clock (rekey_coins 1) "bob" (bstr "two") restored in
     is_ok (fst first) = true /\ is_ok (fst second) = true /\ sends_nonce first = sends_nonce second.
Proof. by vm_compute. Qed.

(** ** Witnesses *)

#[export] Instance RatchetSnapshot_eq_dec : EqDecision RatchetSnapshot.
Proof. solve_decision. Defined.

(** A codec that knows one snapshot. *)
Definition one_snapshot : RatchetSnapshot := to_snapshot alice.
Definition one_data : bytes := [x7b].
Definition one_codec : SnapshotCodec := {|
  serde_snapshot_to_writer s := if decide (s = one_snapshot) then Some one_data else None;
  serde_snapshot_from_slice d := if decide (d = one_data) then Some one_snapshot else None;
  serde_value_u64 d :=
    Some (fun name =>
      if decide (name = "ratchet_generation") then Some (snap_ratchet_generation one_snapshot)
      else if decide (name = "send_message_count") then Some (snap_send_message_count one_snapshot)
      else if decide (name = "recv_message_count") then Some (snap_recv_message_count one_snapshot)
      else if decide (name = "pairing_epoch") then Some (snap_pairing_epoch one_snapshot)
      else None) |}.

Lemma one_codec_laws : SnapshotCodecLaws (J := one_codec).
Proof.
  split; cbn -[decide one_snapshot one_data].
  - intros s d. destruct (decide (s = one_snapshot)) as [->|]; [|done]. intros [= <-]. by rewrite decide_True.
  - intros s d. destruct (decide (s = one_snapshot)) as [->|]; [|done]. intros [= <-].
    eexists. split; [reflexivity|]. by split_and!.
  - intros d v name n [= <-]. repeat case_decide; intros [= <-]; by apply (bool_decide_eq_true_1 (u64_range _)).
Qed.

(** Another thread drops another peer's session meanwhile. *)
Definition drop_carol (r : Registry) : Registry := r <| sessions ::= delete "carol" |>.

Lemma import_never_rolls_back_witness :
  exists s', live "bob" (snd (import_session (J := one_codec) drop_carol clock "bob" one_data registry_a)) = Some s'
             /\ no_earlier alice s'.
Proof.
  pose proof (import_never_rolls_back (J := one_codec) drop_carol clock "bob" one_data registry_a alice eq_refl eq_refl) as H.
  destruct (import_session drop_carol clock "bob" one_data registry_a) as [res r']. exact (proj1 H).
Defined.

Lemma export_import_witness :
  ratchet_import_session_impl (J := one_codec) clock "bob" one_data {| sessions := ∅; map_poisoned := false |}
  = (Ok tt, put_session "bob" (restart clock alice) {| sessions := ∅; map_poisoned := false |})
  /\ ratchet_import_session_impl (J := one_codec) clock "bob" one_data registry_a
  = (Ok tt, put_session "bob" (restart clock alice) registry_a).
Proof.
  apply (export_import (J := one_codec) (H := one_codec_laws) clock "bob" registry_a {| sessions := ∅; map_poisoned := false |} alice one_data).
  - reflexivity.
  - apply wf_fresh.
  - reflexivity.
  - by vm_compute.
Defined.

Lemma wrapped_export_witness :
  match ratchet_export_session_wrapped_impl (J := one_codec) "bob" zeros32 (replicate 12 x00) registry_a with
  | Ok (Some (n, ct)) => len zeros32 = 32 /\ n = replicate 12 x00 /\
      exists data, ratchet_export_session_impl (J := one_codec) "bob" registry_a = Ok (Some data)
                   /\ decrypt_chacha20 zeros32 n ct [] = Ok data
  | _ => False
  end.
Proof.
  pose proof (wrapped_export (J := one_codec) "bob" zeros32 (replicate 12 x00) registry_a) as H.
  assert (exists p, ratchet_export_session_wrapped_impl (J := one_codec) "bob" zeros32 (replicate 12 x00) registry_a
                    = Ok (Some p)) as [[n ct] E] by (eexists; vm_compute; reflexivity).
  rewrite E in *. exact H.
Defined.
