(* ===== verification/RekeyAck.v ===== *)
(** * RekeyAck: the acknowledgement channel
    (core-crypto/src/ratchet_ffi/rekey_ack.rs; state.rs, [generate_rekey_ack])

    An acknowledgement names the receive-space position of the carrier it
    confirms and travels as an ordinary encrypted message.  The peek variant
    re-serves the same bytes until the acknowledgement is consumed. *)

From S2P Require Import Prelude Error Primitives Aead Kem Toy Tlv Frame Packets.
From S2P Require Import RatchetState RatchetChain RatchetEncrypt Scenario RatchetDecrypt RatchetStep RatchetInvariant RatchetSession RatchetRekey Registry.

Section RekeyAck.
Context `{P : Primitives} `{C : PacketCodec}.

(** [DoubleRatchetState::generate_rekey_ack]. *)
Definition generate_rekey_ack (clk : Clock) (coins : RekeyCoins) (seq : Z) : ratchet RatchetEncryptedMessage :=
  json ← lift (to_json (RekeyAck seq));
  ratchet_encrypt clk coins json.

Definition generate_rekey_ack_message_impl (clk : Clock) (coins : RekeyCoins) (peer : string) (seq : Z)
  : registry RatchetEncryptedMessage :=
  with_ratchet_session peer (generate_rekey_ack clk coins seq).

(** [take_pending_rekey_ack_seq] as a step of the session. *)
Definition take_ack : ratchet (option Z) :=
  fun s => let '(o, s') := take_pending_rekey_ack_seq s in (Ok o, s').

Definition ratchet_generate_rekey_ack_impl (clk : Clock) (coins : RekeyCoins) (peer : string)
  : registry (option RatchetEncryptedMessage) :=
  with_ratchet_session peer
    (o ← take_ack;
     match o with
     | Some seq => m ← generate_rekey_ack clk coins seq; mret (Some m)
     | None => mret None
     end).

Definition ratchet_process_rekey_ack_impl (peer : string) (seq : Z) : registry bool :=
  with_ratchet_session peer (fun s => let '(b, s') := process_rekey_ack seq s in (Ok b, s')).

Definition ratchet_generate_rekey_ack_binary_impl (clk : Clock) (coins : RekeyCoins) (peer : string)
  : registry (option bytes) :=
  with_ratchet_session peer
    (o ← take_ack;
     match o with
     | Some seq =>
         ack ← generate_rekey_ack clk coins seq;
         bin ← lift (to_binary ack);
         mret (Some bin)
     | None => mret None
     end).

(** The body of [ratchet_generate_rekey_ack_binary_peek_impl]. *)
Definition peek_ack (clk : Clock) (coins : RekeyCoins) : ratchet (option bytes) :=
  s ← get;
  match pending_rekey_ack_seq s with
  | Some seq =>
      match peeked_ack_cache s with
      | Some (cached_seq, cached_tlv) =>
          if cached_seq =? seq then mret (Some cached_tlv)
          else
            ack ← generate_rekey_ack clk coins seq;
            bin ← lift (to_binary ack);
            _ ← modify (fun s => s <| peeked_ack_cache := Some (seq, bin) |>);
            mret (Some bin)
      | None =>
          ack ← generate_rekey_ack clk coins seq;
          bin ← lift (to_binary ack);
          _ ← modify (fun s => s <| peeked_ack_cache := Some (seq, bin) |>);
          mret (Some bin)
      end
  | None =>
      _ ← modify (fun s => s <| peeked_ack_cache := None |>);
      mret None
  end.

Definition ratchet_generate_rekey_ack_binary_peek_impl (clk : Clock) (coins : RekeyCoins) (peer : string)
  : registry (option bytes) :=
  with_ratchet_session peer (peek_ack clk coins).

(** The body of [ratchet_consume_rekey_ack_impl]. *)
Definition consume_ack : ratchet bool :=
  fun s => (Ok (is_some (pending_rekey_ack_seq s)),
            s <| pending_rekey_ack_seq := None |> <| peeked_ack_cache := None |>).

(** [unwrap_or(false)]; a panic is not caught. *)
Definition ratchet_consume_rekey_ack_impl (peer : string) (r : Registry) : bool * Registry :=
  match with_ratchet_session peer consume_ack r with
  | (Ok b, r') => (b, r')
  | (_, r') => (false, r')
  end.

(** ** The rekey-aware dispatch of a decoded message, shared by the consumers of
    control messages *)

(** [<[u8; 32]>::try_from] on an optional slice. *)
Definition rekey_x_array (o : option bytes) : kres (option bytes) := check_len 32 o.

Definition decrypt_dispatch (clk : Clock) (msg : RatchetEncryptedMessage) : ratchet bytes :=
  if has_rekey_field msg then
    rekey_x ← lift (rekey_x_array (msg_rekey_x25519_pk msg));
    ratchet_decrypt_with_rekey clk (msg_nonce msg) (msg_ciphertext msg) (msg_rekey_ciphertext msg)
      rekey_x (msg_rekey_mlkem_pk msg)
  else ratchet_decrypt (msg_nonce msg) (msg_ciphertext msg).

Definition parse_ack (plaintext : bytes) : kres Z :=
  match from_json (from_utf8_lossy plaintext) with
  | Ok (RekeyAck seq) => Ok seq
  | Ok _ => Err (CryptoError "Decrypted payload is not a RekeyAck packet")
  | Err _ => Err (CryptoError "Decrypted RekeyAck payload is not a valid packet")
  | Panic m => Panic m
  end.

Definition ratchet_process_rekey_ack_binary_impl (clk : Clock) (peer : string) (data : bytes) : registry bool :=
  msg ← lift (from_binary data);
  _ ← lift (guard_err (negb (len (msg_nonce msg) =? 12)) nonce_error);
  plaintext ← with_ratchet_session peer (decrypt_dispatch clk msg);
  seq ← lift (parse_ack plaintext);
  ratchet_process_rekey_ack_impl peer seq.

(** ** Lemmas *)

Lemma with_session_live {T} peer (f : ratchet T) r s :
  live peer r = Some s ->
  with_ratchet_session peer f r
  = let '(res, s') := f s in
    (res, r <| sessions ::= <[peer := {| state := s'; poisoned := match res with Panic _ => true | _ => false end |}]> |>).
Proof.
  unfold live, with_ratchet_session. destruct (sessions r !! peer) as [sess|]; [|done].
  destruct (poisoned sess); [done|]. by intros [= <-].
Qed.

Lemma with_session_same peer s r :
  live peer r = Some s -> r <| sessions ::= <[peer := {| state := s; poisoned := false |}]> |> = r.
Proof.
  unfold live. destruct (sessions r !! peer) as [[s0 p]|] eqn:E; [|done]. simpl.
  destruct p; [done|]. intros [= ->]. destruct r as [m b]. simpl in *.
  unfold update, upd_sessions. simpl. by rewrite insert_id.
Qed.

(** Serving an acknowledgement leaves it pending and remembers the bytes. *)
Lemma peek_ack_served clk coins s bin s' :
  peek_ack clk coins s = (Ok (Some bin), s') ->
  exists seq, pending_rekey_ack_seq s = Some seq /\ pending_rekey_ack_seq s' = Some seq
              /\ peeked_ack_cache s' = Some (seq, bin).
Proof.
  assert (forall seq, pending_rekey_ack_seq s = Some seq ->
    (ack ← generate_rekey_ack clk coins seq; bin ← lift (to_binary ack);
     _ ← modify (fun s => s <| peeked_ack_cache := Some (seq, bin) |>); mret (Some bin)) s = (Ok (Some bin), s') ->
    exists seq, pending_rekey_ack_seq s = Some seq /\ pending_rekey_ack_seq s' = Some seq
              /\ peeked_ack_cache s' = Some (seq, bin)) as Hgen.
  { intros seq Hp E. exists seq. unfold generate_rekey_ack in E. munfold.
    destruct (to_json (RekeyAck seq)) as [json| |]; [|done..].
    destruct (ratchet_encrypt clk coins json s) as [[m| |] s1] eqn:Ee; [|done..].
    destruct (to_binary m) as [b| |]; [|done..]. injection E as <- <-.
    apply ratchet_encrypt_frame in Ee as (k & out & q & -> & _). done. }
  unfold peek_ack. intros E.
  destruct (pending_rekey_ack_seq s) as [seq|] eqn:Ep.
  2:{ munfold. cbv beta iota in E. rewrite Ep in E. done. }
  destruct (peeked_ack_cache s) as [[cs ct]|] eqn:Ec.
  - destruct (Z.eqb_spec cs seq) as [->|Hne].
    + munfold. cbv beta iota in E. rewrite Ep, Ec, Z.eqb_refl in E. injection E as <- <-. eauto.
    + apply (Hgen seq); [done|]. unfold mbind, comp_mbind, comp_bind, get in E |- *. cbv beta iota in E.
      rewrite Ep, Ec in E. apply Z.eqb_neq in Hne. rewrite Hne in E. exact E.
  - apply (Hgen seq); [done|]. unfold mbind, comp_mbind, comp_bind, get in E |- *. cbv beta iota in E.
    rewrite Ep, Ec in E. exact E.
Qed.

Lemma peek_ack_cached clk coins s seq bin :
  pending_rekey_ack_seq s = Some seq -> peeked_ack_cache s = Some (seq, bin) ->
  peek_ack clk coins s = (Ok (Some bin), s).
Proof. intros Hp Hc. unfold peek_ack. munfold. cbv beta iota. by rewrite Hp, Hc, Z.eqb_refl. Qed.

(** Peeking is idempotent: once an acknowledgement was served, peeking again
    (at any time, with any randomness) serves the same bytes and changes
    nothing: no position of the sending chain is used up. *)
Theorem peek_idempotent clk coins clk' coins' peer r s bin r' :
  live peer r = Some s ->
  ratchet_generate_rekey_ack_binary_peek_impl clk coins peer r = (Ok (Some bin), r') ->
  ratchet_generate_rekey_ack_binary_peek_impl clk' coins' peer r' = (Ok (Some bin), r').
Proof.
  intros Hl E. unfold ratchet_generate_rekey_ack_binary_peek_impl in *.
  rewrite (with_session_live peer _ r s Hl) in E. destruct (peek_ack clk coins s) as [res s'] eqn:Ep.
  injection E as -> <-. apply peek_ack_served in Ep as (seq & _ & Hp & Hc).
  set (r' := r <| sessions ::= _ |>).
  assert (live peer r' = Some s') as Hl' by (unfold live; simpl; by rewrite lookup_insert_eq).
  rewrite (with_session_live peer _ r' s' Hl'), (peek_ack_cached clk' coins' s' seq bin) by done.
  f_equal. by apply with_session_same.
Qed.

End RekeyAck.

Import Scenario ToyCodec.

(** Bob, with the carrier at position 100 to acknowledge. *)
Definition registry_b : Registry :=
  {| sessions := {[ "alice" := {| state := bob <| pending_rekey_ack_seq := Some 100 |>; poisoned := false |} ]};
     map_poisoned := false |}.
Definition served : kres (option bytes) * Registry :=
  ratchet_generate_rekey_ack_binary_peek_impl clock (rekey_coins 1) "alice" registry_b.
Definition served_bytes : bytes := match fst served with Ok (Some b) => b | _ => [] end.

Lemma peek_idempotent_witness :
  ratchet_generate_rekey_ack_binary_peek_impl clock (rekey_coins 2) "alice" (snd served) = (Ok (Some served_bytes), snd served).
Proof.
  apply (peek_idempotent clock (rekey_coins 1) clock (rekey_coins 2) "alice" registry_b
           (bob <| pending_rekey_ack_seq := Some 100 |>) served_bytes (snd served)).
  - reflexivity.
  - apply run_ok. by vm_compute.
Defined.
