(* ===== verification/Sync.v ===== *)
(** * Sync: the Synchronize recovery protocol
    (core-crypto/src/ratchet_ffi/sync.rs)

    The process-global tables of the protocol (the burst budget and the cache
    of applied packets, both per peer) together with the registry, and the
    processing of a Synchronize packet. *)

From S2P Require Import Prelude Error Primitives Aead Kem Toy Tlv Frame Packets.
From S2P Require Import RatchetState RatchetChain RatchetEncrypt Scenario RatchetDecrypt RatchetResync RatchetStep RatchetInvariant Registry RekeyAck.

(** Durations in nanoseconds. *)
Definition SYNC_RATE_WINDOW : Z := secs 15.
Definition SYNC_RATE_BURST : Z := 3.
Definition APPLIED_SYNC_CACHE_MAX : Z := 16.
Definition APPLIED_SYNC_CACHE_TTL : Z := secs 120.

Record AppliedSyncEntry := { digest : Z; applied_at : Z }.

Record SyncWorld := {
  reg : Registry;
  last_sync_at : gmap string (list Z);
  applied_sync_cache : gmap string (list AppliedSyncEntry)
}.

Definition eta_world (w : SyncWorld) : SyncWorld :=
  {| reg := reg w; last_sync_at := last_sync_at w; applied_sync_cache := applied_sync_cache w |}.
#[export] Instance upd_reg : Update reg. Proof. solve_update eta_world reg. Defined.
#[export] Instance upd_last : Update last_sync_at. Proof. solve_update eta_world last_sync_at. Defined.
#[export] Instance upd_applied : Update applied_sync_cache. Proof. solve_update eta_world applied_sync_cache. Defined.

Abbreviation world := (Comp KyberError SyncWorld).

(** 64-bit FNV-1a. *)
Definition sync_digest (data : bytes) : Z :=
  fold_left (fun hash b => wrap64 (Z.lxor hash (Z_of_byte b) * 0x100000001b3)) data 0xcbf29ce484222325.

(** [entry(peer).or_default()] and [retain] by age. *)
Definition fresh_entries (clk : Clock) (l : list AppliedSyncEntry) : list AppliedSyncEntry :=
  filter (fun e => elapsed clk (applied_at e) < APPLIED_SYNC_CACHE_TTL) l.

Definition already_applied_authenticated (clk : Clock) (peer : string) (data : bytes) (w : SyncWorld)
  : bool * SyncWorld :=
  let queue := fresh_entries clk (default [] (applied_sync_cache w !! peer)) in
  (existsb (fun e => digest e =? sync_digest data) queue,
   w <| applied_sync_cache ::= <[peer := queue]> |>).

(** [while queue.len() > max { queue.pop_front() }]. *)
Definition keep_last {A} (n : Z) (l : list A) : list A := drop (Z.to_nat (len l - n)) l.

Definition record_applied_sync (clk : Clock) (peer : string) (data : bytes) (w : SyncWorld) : SyncWorld :=
  let queue := fresh_entries clk (default [] (applied_sync_cache w !! peer)) in
  let queue := queue ++ [{| digest := sync_digest data; applied_at := now_mono clk |}] in
  w <| applied_sync_cache ::= <[peer := keep_last APPLIED_SYNC_CACHE_MAX queue]> |>.

Definition recent_syncs (clk : Clock) (l : list Z) : list Z :=
  filter (fun t => elapsed clk t < SYNC_RATE_WINDOW) l.

Definition sync_rate_limited (clk : Clock) (peer : string) (w : SyncWorld) : bool * SyncWorld :=
  let queue := recent_syncs clk (default [] (last_sync_at w !! peer)) in
  (SYNC_RATE_BURST <=? len queue, w <| last_sync_at ::= <[peer := queue]> |>).

Definition stamp_sync (clk : Clock) (peer : string) (w : SyncWorld) : SyncWorld :=
  w <| last_sync_at ::= fun m => <[peer := default [] (m !! peer) ++ [now_mono clk]]> m |>.

Definition seq_gap (cur target : Z) : Z := sat_sub target cur.

(** A registry operation inside the world. *)
Definition in_registry {A} (c : registry A) : world A :=
  fun w => let '(res, r') := c (reg w) in (res, w <| reg := r' |>).

Section Sync.
Context `{P : Primitives} `{C : PacketCodec}.

Definition ratchet_synchronize_packet_impl (clk : Clock) (coins : RekeyCoins) (peer : string)
  : registry RatchetEncryptedMessage :=
  with_ratchet_session peer
    (s ← get;
     json ← lift (to_json (Synchronize (message_count (send s))));
     ratchet_encrypt clk coins json).

Definition ratchet_synchronize_packet_binary_impl (clk : Clock) (coins : RekeyCoins) (peer : string)
  : registry bytes :=
  m ← ratchet_synchronize_packet_impl clk coins peer;
  lift (to_binary m).

(** [verify]: the payload is a Synchronize for the nonce's position. *)
Definition verify_sync (sync_seq : Z) (plaintext : bytes) : kres unit :=
  match from_json (from_utf8_lossy plaintext) with
  | Ok (Synchronize send_count) =>
      if negb (send_count =? sync_seq)
      then Err (CryptoError "Synchronize send_count {send_count} does not match nonce position {sync_seq}")
      else Ok tt
  | Ok _ => Err (CryptoError "Decrypted payload is not a Synchronize packet")
  | Err _ => Err (CryptoError "Decrypted Synchronize payload is not a valid packet")
  | Panic m => Panic m
  end.

(** [let mut trial = ratchet.clone(); ...; *ratchet = trial]: the session changes
    only if the whole computation succeeds. *)
Definition on_trial {A} (c : ratchet A) : ratchet A :=
  fun s => match c s with
           | (Ok a, trial) => (Ok a, trial)
           | (res, _) => (res, s)
           end.

Definition cross_generation_error : KyberError :=
  CrossGenerationResyncRequired "Synchronize from generation {sync_gen} (current {}) cannot be applied without the rekey carrier: {e} — a re-pair (or a fresh rekey exchange) is required".

(** The closure run on the session. *)
Definition apply_sync (clk : Clock) (msg : RatchetEncryptedMessage) (sync_gen sync_seq : Z) : ratchet Z :=
  s ← get;
  let gap := seq_gap (message_count (recv s)) sync_seq in
  if (sync_gen =? ratchet_generation s) && (max_skip s <? gap) then
    on_trial
      (skipped ← resync_receiving_chain clk sync_seq;
       plaintext ← decrypt_dispatch clk msg;
       _ ← lift (verify_sync sync_seq plaintext);
       mret skipped)
  else if sat_add32 (ratchet_generation s) 1 <=? sync_gen then
    fun s =>
      match decrypt_dispatch clk msg s with
      | (Ok plaintext, trial) =>
          match verify_sync sync_seq plaintext with
          | Ok _ => (Ok 0, trial)
          | Err e => (Err e, s)
          | Panic m => (Panic m, s)
          end
      | (Err _, _) => (Err cross_generation_error, s)
      | (Panic m, _) => (Panic m, s)
      end
  else
    plaintext ← decrypt_dispatch clk msg;
    _ ← lift (verify_sync sync_seq plaintext);
    mret 0.

Definition rate_limit_error : KyberError :=
  CryptoError "Synchronize rate-limited for peer {peer_identity} — burst ({SYNC_RATE_BURST}/{}) exhausted; retry in {}s".

Definition ratchet_process_synchronize_impl (clk : Clock) (peer : string) (data : bytes) : world Z :=
  msg ← lift (from_binary data);
  _ ← lift (guard_err (negb (len (msg_nonce msg) =? 12)) nonce_error);
  let sync_gen := nonce_generation (msg_nonce msg) in
  let sync_seq := nonce_seq (msg_nonce msg) in
  applied ← (fun w => let '(b, w') := already_applied_authenticated clk peer data w in (Ok b, w'));
  if applied : bool then mret 0
  else
    limited ← (fun w => let '(b, w') := sync_rate_limited clk peer w in (Ok b, w'));
    _ ← lift (guard_err limited rate_limit_error);
    result ← in_registry (with_ratchet_session peer (apply_sync clk msg sync_gen sync_seq));
    _ ← modify (stamp_sync clk peer);
    _ ← modify (record_applied_sync clk peer data);
    mret result.

Definition ratchet_recv_count_impl (peer : string) : registry Z :=
  with_ratchet_session peer (gets (fun s => message_count (recv s))).
Definition ratchet_send_count_impl (peer : string) : registry Z :=
  with_ratchet_session peer (gets (fun s => message_count (send s))).

(** ** Lemmas *)

(** What a Synchronize does to a session: beyond the skip cap of the session's
    own generation the receiving chain is first moved to the packet's position; then
    the packet is decrypted, and it says it is the Synchronize of its position. *)
Definition synchronized (clk : Clock) (msg : RatchetEncryptedMessage) (s : DoubleRatchetState) (n : Z)
  (s' : DoubleRatchetState) : Prop :=
  exists s0 plaintext,
    (if (nonce_generation (msg_nonce msg) =? ratchet_generation s)
        && (max_skip s <? seq_gap (message_count (recv s)) (nonce_seq (msg_nonce msg)))
     then resync_receiving_chain clk (nonce_seq (msg_nonce msg)) s = (Ok n, s0)
     else n = 0 /\ s0 = s)
    /\ decrypt_dispatch clk msg s0 = (Ok plaintext, s')
    /\ from_json (from_utf8_lossy plaintext) = Ok (Synchronize (nonce_seq (msg_nonce msg))).

Lemma verify_sync_ok q pt u : verify_sync q pt = Ok u -> from_json (from_utf8_lossy pt) = Ok (Synchronize q).
Proof.
  unfold verify_sync. destruct (from_json _) as [[]| |]; try done.
  destruct (Z.eqb_spec send_count q) as [->|]; done.
Qed.
Lemma verify_sync_no_panic q pt m : verify_sync q pt <> Panic m.
Proof.
  unfold verify_sync, from_json. destruct (serde_packet_from_str _) as [[]|]; cbn; try done. by destruct (negb _).
Qed.

Lemma resync_no_panic clk t s m : fst (resync_receiving_chain clk t s) <> Panic m.
Proof.
  unfold resync_receiving_chain. munfold. cbv beta iota zeta.
  destruct (clear_incoming clk s) as [r1 s1] eqn:E1. apply clear_incoming_cases in E1 as [(e & -> & _)|[-> _]]; [done|].
  destruct (clear_outgoing clk s1) as [r2 s2] eqn:E2. apply clear_outgoing_cases in E2 as [(e & -> & _)|[-> _]]; [done|].
  repeat match goal with |- context [if ?b then (Err _) else _] => destruct b; [done|] end.
  rewrite range_nat, skip_loop_ok. unfold absorb_skip_keys, with_store. munfold.
  repeat case_match; simplify_eq; done.
Qed.

Lemma dispatch_no_panic clk msg s m : fst (decrypt_dispatch clk msg s) <> Panic m.
Proof.
  unfold decrypt_dispatch. destruct (has_rekey_field msg).
  - munfold. destruct (rekey_x_array (msg_rekey_x25519_pk msg)) as [x|e|p] eqn:Ex; [|done|].
    2:{ unfold rekey_x_array, check_len in Ex. by repeat case_match. }
    unfold ratchet_decrypt_with_rekey. munfold.
    destruct (ratchet_decrypt_with_rekey_classified _ _ _ _ _ _ s) as [r s'] eqn:E.
    apply classified_refines in E as [(e & p & -> & _)|(g & q & aad & pt & path & s1 & s2 & _ & _ & _ & _ & -> & _)]; done.
  - unfold ratchet_decrypt. destruct (ratchet_decrypt_with_aad _ _ _ s) as [r s'] eqn:E.
    apply decrypt_with_aad_refines in E as [(e & -> & _)|(g & q & pt & path & _ & -> & _)]; done.
Qed.

(** A packet beyond the cap or from a later generation is tried on a copy: the
    session takes the whole step or none of it. *)
Lemma apply_sync_trial clk msg s :
  let g := nonce_generation (msg_nonce msg) in let q := nonce_seq (msg_nonce msg) in
  (g = ratchet_generation s /\ max_skip s < seq_gap (message_count (recv s)) q)
  \/ sat_add32 (ratchet_generation s) 1 <= g ->
  let '(res, s') := apply_sync clk msg g q s in
  match res with
  | Ok n => synchronized clk msg s n s'
  | Err _ => s' = s
  | Panic _ => False
  end.
Proof.
  intros g q Hb. unfold apply_sync. unfold mbind at 1, comp_mbind, comp_bind, get. cbv beta iota zeta. unfold synchronized.
  fold g q. destruct ((g =? ratchet_generation s) && (max_skip s <? seq_gap (message_count (recv s)) q)) eqn:Eb.
  - unfold on_trial. munfold.
    pose proof (resync_no_panic clk q s) as Hn. destruct (resync_receiving_chain clk q s) as [[n|e|m] s0] eqn:Er; [|done|by destruct (Hn m)].
    pose proof (dispatch_no_panic clk msg s0) as Hd. destruct (decrypt_dispatch clk msg s0) as [[pt|e|m] s1] eqn:Ed; [|done|by destruct (Hd m)].
    destruct (verify_sync q pt) as [u|e|m] eqn:Ev; [|done|by apply verify_sync_no_panic in Ev].
    exists s0, pt. split; [done|]. split; [done|]. by eapply verify_sync_ok.
  - assert (sat_add32 (ratchet_generation s) 1 <=? g = true) as ->.
    { apply Z.leb_le. destruct Hb as [[Hg Hm]|]; [|done].
      by rewrite (proj2 (Z.eqb_eq _ _) Hg), (proj2 (Z.ltb_lt _ _) Hm) in Eb. }
    pose proof (dispatch_no_panic clk msg s) as Hd. destruct (decrypt_dispatch clk msg s) as [[pt|e|m] s1] eqn:Ed; [|done|by destruct (Hd m)].
    destruct (verify_sync q pt) as [u|e|m] eqn:Ev; [|done|by apply verify_sync_no_panic in Ev].
    exists s, pt. split; [done|]. split; [done|]. by eapply verify_sync_ok.
Qed.

(** What a call that is not a duplicate does. *)
Lemma process_sync_cases clk peer data msg w res w' :
  from_binary data = Ok msg -> len (msg_nonce msg) = 12 ->
  fst (already_applied_authenticated clk peer data w) = false ->
  ratchet_process_synchronize_impl clk peer data w = (res, w') ->
  let recent := recent_syncs clk (default [] (last_sync_at w !! peer)) in
  let cache := fresh_entries clk (default [] (applied_sync_cache w !! peer)) in
  if SYNC_RATE_BURST <=? len recent
  then res = Err rate_limit_error /\ reg w' = reg w /\ last_sync_at w' !! peer = Some recent
  else
    let out := with_ratchet_session peer
                 (apply_sync clk msg (nonce_generation (msg_nonce msg)) (nonce_seq (msg_nonce msg))) (reg w) in
    res = fst out /\ reg w' = snd out
    /\ if is_ok res
       then last_sync_at w' !! peer = Some (recent ++ [now_mono clk])
            /\ applied_sync_cache w' !! peer
               = Some (keep_last APPLIED_SYNC_CACHE_MAX
                   (fresh_entries clk cache ++ [{| digest := sync_digest data; applied_at := now_mono clk |}]))
       else last_sync_at w' !! peer = Some recent.
Proof.
  intros Hm Hn Ha. unfold ratchet_process_synchronize_impl. munfold. cbv beta iota zeta.
  rewrite Hm, Hn. cbn [negb Z.eqb Pos.eqb]. cbv beta iota.
  unfold already_applied_authenticated in *. cbn [fst] in Ha. rewrite Ha. cbv beta iota.
  unfold sync_rate_limited. cbv beta iota zeta.
  change (last_sync_at (w <| applied_sync_cache ::= _ |>)) with (last_sync_at w).
  destruct (SYNC_RATE_BURST <=? len (recent_syncs clk (default [] (last_sync_at w !! peer)))) eqn:Er.
  { intros [= <- <-]. cbn. rewrite lookup_insert_eq. done. }
  unfold in_registry. cbn [reg update upd_last upd_applied].
  destruct (with_ratchet_session peer _ (reg w)) as [r1 rg] eqn:Es. cbn [fst snd].
  destruct r1 as [n| |]; intros [= <- <-]; cbn; rewrite ?lookup_insert_eq; cbn; rewrite ?lookup_insert_eq; done.
Qed.

Lemma from_binary_nonce_len clk peer data w n w' :
  ratchet_process_synchronize_impl clk peer data w = (Ok n, w') ->
  exists msg, from_binary data = Ok msg /\ len (msg_nonce msg) = 12.
Proof.
  unfold ratchet_process_synchronize_impl. munfold.
  destruct (from_binary data) as [msg| |]; [|done..]. destruct (Z.eqb_spec (len (msg_nonce msg)) 12); [eauto|done].
Qed.

Lemma keep_last_app {A} (n : Z) (l : list A) x : 0 < n -> x ∈ keep_last n (l ++ [x]).
Proof.
  intros Hn. unfold keep_last. rewrite len_app. change (len [x]) with 1. pose proof (len_nonneg l). unfold len in *.
  rewrite drop_app_le by lia. set_solver.
Qed.

(** A Synchronize packet that was applied is idempotent: presented again
    within the cache lifetime it succeeds with no effect on any session and
    without using the burst budget. *)
Theorem sync_idempotent clk clk' peer data w n w' :
  ratchet_process_synchronize_impl clk peer data w = (Ok n, w') ->
  fst (already_applied_authenticated clk peer data w) = false ->
  now_mono clk <= now_mono clk' < now_mono clk + APPLIED_SYNC_CACHE_TTL ->
  let '(res, w'') := ratchet_process_synchronize_impl clk' peer data w' in
  res = Ok 0 /\ reg w'' = reg w' /\ last_sync_at w'' = last_sync_at w'.
Proof.
  intros E Ha Ht. pose proof E as (msg & Hm & Hn)%from_binary_nonce_len.
  pose proof (process_sync_cases _ _ _ _ _ _ _ Hm Hn Ha E) as Hc. cbv zeta in Hc.
  destruct (SYNC_RATE_BURST <=? _); [by destruct Hc|]. destruct Hc as (_ & _ & _ & Hcache).
  unfold ratchet_process_synchronize_impl. munfold. cbv beta iota zeta. rewrite Hm, Hn. cbn [negb Z.eqb Pos.eqb].
  unfold already_applied_authenticated. rewrite Hcache. cbn [default]. cbv beta iota.
  replace (existsb _ _) with true; [done|]. symmetry. apply existsb_exists.
  exists {| digest := sync_digest data; applied_at := now_mono clk |}. split; [|apply Z.eqb_refl].
  apply list_elem_of_In. apply list_elem_of_filter. split; [|by apply keep_last_app].
  unfold elapsed, sat_sub. cbn [applied_at]. unfold APPLIED_SYNC_CACHE_TTL, secs in *. lia.
Qed.

(** The burst budget: a packet is applied only while fewer than three
    syncs of the peer are in the window, and then counts against it; every
    other outcome leaves the window as it was, and a refusal by the budget
    leaves the sessions as they were. *)
Theorem sync_budget clk peer data msg w :
  from_binary data = Ok msg -> len (msg_nonce msg) = 12 ->
  fst (already_applied_authenticated clk peer data w) = false ->
  let '(res, w') := ratchet_process_synchronize_impl clk peer data w in
  let recent := recent_syncs clk (default [] (last_sync_at w !! peer)) in
  match res with
  | Ok _ => len recent < SYNC_RATE_BURST /\ last_sync_at w' !! peer = Some (recent ++ [now_mono clk])
  | _ => last_sync_at w' !! peer = Some recent
         /\ (SYNC_RATE_BURST <= len recent -> res = Err rate_limit_error /\ reg w' = reg w)
  end.
Proof.
  intros Hm Hn Ha. destruct (ratchet_process_synchronize_impl clk peer data w) as [res w'] eqn:E.
  pose proof (process_sync_cases _ _ _ _ _ _ _ Hm Hn Ha E) as Hc. cbv zeta in *.
  destruct (SYNC_RATE_BURST <=? _) eqn:Er; zify_bool.
  - destruct Hc as (-> & Hr & Hl). auto.
  - destruct Hc as (Hres & _ & Hl). destruct res; simpl in Hl; [by destruct Hl|split; [done|lia]..].
Qed.

(** C18: a packet across a gap beyond the skip cap, or from a later generation,
    changes sessions only when it is accepted: an error leaves every session as
    it was, and no such packet makes the call panic.  When the call succeeds,
    the packet was a duplicate of one applied and nothing changed, or the peer's
    session alone changed, to what a resync to the packet's position (within the
    generation) and the packet's own decryption leave, and its payload was
    a Synchronize for its own position. *)
Theorem sync_trial_atomic clk peer data msg w s :
  from_binary data = Ok msg -> len (msg_nonce msg) = 12 ->
  live peer (reg w) = Some s ->
  (nonce_generation (msg_nonce msg) = ratchet_generation s
   /\ max_skip s < seq_gap (message_count (recv s)) (nonce_seq (msg_nonce msg)))
  \/ sat_add32 (ratchet_generation s) 1 <= nonce_generation (msg_nonce msg) ->
  let '(res, w') := ratchet_process_synchronize_impl clk peer data w in
  match res with
  | Ok n =>
      if fst (already_applied_authenticated clk peer data w) then n = 0 /\ reg w' = reg w
      else exists s', synchronized clk msg s n s'
                      /\ reg w' = (reg w) <| sessions ::= <[peer := {| state := s'; poisoned := false |}]> |>
  | Err _ => reg w' = reg w
  | Panic _ => False
  end.
Proof.
  intros Hm Hn Hl Hb. destruct (ratchet_process_synchronize_impl clk peer data w) as [res w'] eqn:E.
  destruct (fst (already_applied_authenticated clk peer data w)) eqn:Ha.
  - unfold ratchet_process_synchronize_impl in E. munfold. cbv beta iota zeta in E. rewrite Hm, Hn in E.
    cbn [negb Z.eqb Pos.eqb] in E. unfold already_applied_authenticated in *. cbn [fst] in Ha. rewrite Ha in E.
    injection E as <- <-. done.
  - pose proof (process_sync_cases _ _ _ _ _ _ _ Hm Hn Ha E) as Hc. cbv zeta in Hc.
    destruct (SYNC_RATE_BURST <=? _); [destruct Hc as (-> & Hr & _); done|].
    destruct Hc as (-> & Hr & _). rewrite Hr, (with_session_live peer _ _ s Hl).
    pose proof (apply_sync_trial clk msg s Hb) as Ht. cbv zeta in Ht.
    destruct (apply_sync clk msg _ _ s) as [res s'] eqn:Ea. cbn [fst snd]. destruct res; [by exists s'| |done].
    subst s'. by apply with_session_same.
Qed.

(** The duplicate check compares digests: any packet with the digest of an
    applied one is answered as a duplicate, authenticated or not. *)
Lemma duplicate_by_digest clk peer data msg w e :
  from_binary data = Ok msg -> len (msg_nonce msg) = 12 ->
  e ∈ default [] (applied_sync_cache w !! peer) -> elapsed clk (applied_at e) < APPLIED_SYNC_CACHE_TTL ->
  digest e = sync_digest data ->
  fst (ratchet_process_synchronize_impl clk peer data w) = Ok 0.
Proof.
  intros Hm Hn Hin Hage Hd. unfold ratchet_process_synchronize_impl. munfold. cbv beta iota zeta. rewrite Hm, Hn.
  cbn [negb Z.eqb Pos.eqb]. unfold already_applied_authenticated. cbv beta iota.
  replace (existsb _ _) with true; [done|]. symmetry. apply existsb_exists. exists e.
  split; [|by apply Z.eqb_eq]. apply list_elem_of_In, list_elem_of_filter. done.
Qed.

End Sync.

(** ** Witnesses *)

Import Scenario ToyCodec.

Definition world_of (peer : string) (s : DoubleRatchetState) : SyncWorld :=
  {| reg := {| sessions := {[ peer := {| state := s; poisoned := false |} ]}; map_poisoned := false |};
     last_sync_at := ∅; applied_sync_cache := ∅ |}.

(** A Synchronize packet of a session. *)
Definition sync_packet (s : DoubleRatchetState) : bytes :=
  match fst (ratchet_synchronize_packet_binary_impl clock (rekey_coins 1) "bob" (reg (world_of "bob" s))) with
  | Ok b => b
  | _ => []
  end.
Definition packet_message (data : bytes) : RatchetEncryptedMessage :=
  match from_binary data with Ok m => m | _ => message (Err nonce_error) end.

Definition bob_world : SyncWorld := world_of "alice" bob.
Definition after_sync : SyncWorld := snd (ratchet_process_synchronize_impl clock "alice" (sync_packet alice) bob_world).
Definition later : Clock := {| now_unix := 1060; now_mono := 5000 + secs 60 |}.

Lemma sync_idempotent_witness :
  fst (ratchet_process_synchronize_impl clock "alice" (sync_packet alice) bob_world) = Ok 0
  /\ let '(res, w'') := ratchet_process_synchronize_impl later "alice" (sync_packet alice) after_sync in
     res = Ok 0 /\ reg w'' = reg after_sync /\ last_sync_at w'' = last_sync_at after_sync.
Proof.
  split; [by vm_compute|].
  apply (sync_idempotent clock later "alice" (sync_packet alice) bob_world 0 after_sync).
  - unfold after_sync. apply run_ok. by vm_compute.
  - by vm_compute.
  - split; by vm_compute.
Defined.

Lemma sync_budget_witness :
  let '(res, w') := ratchet_process_synchronize_impl clock "alice" (sync_packet alice) bob_world in
  match res with
  | Ok _ => len (recent_syncs clock []) < SYNC_RATE_BURST
            /\ last_sync_at w' !! "alice" = Some (recent_syncs clock [] ++ [now_mono clock])
  | _ => last_sync_at w' !! "alice" = Some (recent_syncs clock [])
         /\ (SYNC_RATE_BURST <= len (recent_syncs clock []) -> res = Err rate_limit_error /\ reg w' = reg bob_world)
  end.
Proof.
  apply (sync_budget clock "alice" (sync_packet alice) (packet_message (sync_packet alice)) bob_world).
  - by vm_compute.
  - by vm_compute.
  - by vm_compute.
Defined.

(** A packet at position 150, and one sealed there under the wrong chain key. *)
Definition far_packet : bytes :=
  sync_packet (alice <| send := {| key := chain_at (initiator_chain secret) 150; message_count := 150 |} |>).
Definition stray_packet : bytes :=
  sync_packet (alice <| send := {| key := initiator_chain secret; message_count := 150 |} |>).

Lemma stray_refused : is_ok (fst (ratchet_process_synchronize_impl clock "alice" stray_packet bob_world)) = false.
Proof. by vm_compute. Qed.

Lemma sync_trial_atomic_witness :
  fst (ratchet_process_synchronize_impl clock "alice" far_packet bob_world) = Ok 150
  /\ let '(res, w') := ratchet_process_synchronize_impl clock "alice" far_packet bob_world in
     match res with
     | Ok n =>
         if fst (already_applied_authenticated clock "alice" far_packet bob_world) then n = 0 /\ reg w' = reg bob_world
         else exists s', synchronized clock (packet_message far_packet) bob n s'
                         /\ reg w' = (reg bob_world) <| sessions ::= <["alice" := {| state := s'; poisoned := false |}]> |>
     | Err _ => reg w' = reg bob_world
     | Panic _ => False
     end.
Proof.
  split; [by vm_compute|].
  apply (sync_trial_atomic clock "alice" far_packet (packet_message far_packet) bob_world bob).
  - by vm_compute.
  - by vm_compute.
  - reflexivity.
  - left. split; by vm_compute.
Defined.
