(* ===== verification/KemProps.v ===== *)
(** * KemProps: correctness of the hybrid key encapsulation *)

From S2P Require Import Prelude Error Primitives Kem Toy Scenario.

Section KemProps.
Context `{P : Primitives}.

(** Whoever holds the keypair that was encapsulated to recovers exactly the
    sender's combined secret. *)
Theorem kem_agreement `{!PrimitivesLaws, !LowOrderLaw} kc c res :
  let kp := generate_hybrid_keypair kc in
  encapsulate_hybrid (x25519_pk kp) (mlkem_pk kp) c = Ok res ->
  decapsulate_hybrid (ciphertext_bytes res) (x25519_sk kp) (mlkem_sk kp) = Ok (combined_shared_secret res).
Proof. apply decapsulate_encapsulate. Qed.

Lemma decapsulate_low_order ct sk msk :
  is_low_order_x25519_point (take 32 ct) = true -> exists m, decapsulate_hybrid ct sk msk = Err (DecapsulationFailed m).
Proof. intros H. unfold decapsulate_hybrid. rewrite H. repeat case_match; eauto. Qed.

Lemma low_order_either_sign pk b :
  pk !! 31%nat = Some b -> is_low_order_x25519_point pk = true ->
  is_low_order_x25519_point (<[31%nat := byte_of_Z (Z.lxor (Z_of_byte b) 0x80)]> pk) = true.
Proof. intros Hb. by rewrite is_low_order_sign_bit. Qed.

(** A low-order X25519 point never contributes a secret: encapsulation to
    it and decapsulation of a ciphertext that starts with it are refused, with
    the point's sign bit set or clear. *)
Theorem low_order_refused pk b :
  pk !! 31%nat = Some b -> is_low_order_x25519_point pk = true ->
  forall flipped pk' mpk c ct sk msk,
    pk' = (if flipped : bool then <[31%nat := byte_of_Z (Z.lxor (Z_of_byte b) 0x80)]> pk else pk) ->
    (exists m, encapsulate_hybrid pk' mpk c = Err (EncapsulationFailed m))
    /\ (length pk = 32%nat -> exists m, decapsulate_hybrid (pk' ++ ct) sk msk = Err (DecapsulationFailed m)).
Proof.
  intros Hb Hlow flipped pk' mpk c ct sk msk Hpk.
  assert (is_low_order_x25519_point pk' = true) as H by (subst pk'; destruct flipped; auto using low_order_either_sign).
  split; [eexists; by apply encapsulate_low_order|].
  intros Hl. apply decapsulate_low_order. rewrite take_app_length'; [done|].
  subst pk'. destruct flipped; [by rewrite length_insert|done].
Qed.

End KemProps.

Import Scenario.

Definition sent_secret : kres HybridKemResult := encapsulate_hybrid (x25519_pk pair_b) (mlkem_pk pair_b) (coins 7).
Definition sent_result : HybridKemResult :=
  match sent_secret with Ok r => r | _ => {| ciphertext_bytes := []; combined_shared_secret := [] |} end.

Lemma kem_agreement_witness :
  decapsulate_hybrid (ciphertext_bytes sent_result) (x25519_sk pair_b) (mlkem_sk pair_b)
  = Ok (combined_shared_secret sent_result).
Proof. apply (kem_agreement (coins 21) (coins 7) sent_result). by vm_compute. Defined.

Lemma low_order_refused_witness :
  (exists m, encapsulate_hybrid (<[31%nat := x80]> zeros32) (mlkem_pk pair_b) (coins 7) = Err (EncapsulationFailed m))
  /\ (length zeros32 = 32%nat ->
      exists m, decapsulate_hybrid (<[31%nat := x80]> zeros32 ++ []) [] [] = Err (DecapsulationFailed m)).
Proof.
  apply (low_order_refused zeros32 x00 ltac:(reflexivity) ltac:(by vm_compute) true
           (<[31%nat := x80]> zeros32) (mlkem_pk pair_b) (coins 7) [] [] []).
  reflexivity.
Defined.

(** The u-coordinate [p - 1] of small order: its encoding is not in the table. *)
Definition minus_one_point : bytes := [xec] ++ replicate 30 xff ++ [x7f].

Lemma minus_one_not_in_table : is_low_order_x25519_point minus_one_point = false.
Proof. by vm_compute. Qed.
