(* ===== verification/Sas.v ===== *)
(** * Sas: the short authentication string (core-crypto/src/crypto/sas.rs)

    Seven characters of a 32-letter alphabet, read as five-bit windows of the
    56 bits HKDF returns.  The shift register [accum] is a [u64], so its left
    shift drops what leaves the top. *)

From S2P Require Import Prelude Error Primitives Toy.

Definition charset : bytes := bstr "ABCDEFGHJKLMNPQRSTUVWXYZ23456789".
Definition CODE_LEN : nat := 7.

(** The registers of the loop. *)
Record Window := { accum : Z; bits_in_accum : Z; byte_idx : nat }.

(** One pass of [while bits_in_accum < 5]: the next byte, or eight zero bits. *)
Definition top_up (okm : bytes) (w : Window) : Window :=
  match okm !! byte_idx w with
  | Some b => {| accum := Z.lor (wrap64 (Z.shiftl (accum w) 8)) (Z_of_byte b);
                 bits_in_accum := bits_in_accum w + 8; byte_idx := S (byte_idx w) |}
  | None => {| accum := wrap64 (Z.shiftl (accum w) 8); bits_in_accum := bits_in_accum w + 8; byte_idx := byte_idx w |}
  end.

(** The inner loop, with fuel; [None] when the fuel runs out. *)
Fixpoint fill (fuel : nat) (okm : bytes) (w : Window) : option Window :=
  if bits_in_accum w <? 5 then
    match fuel with O => None | S f => fill f okm (top_up okm w) end
  else Some w.

(** One turn of the outer loop: a character, or a panic when the alphabet has no
    such place or the shift would be negative. *)
Definition next_char (okm : bytes) (w : Window) : kres (byte * Window) :=
  match fill 5 okm w with
  | None => Panic "loop"
  | Some w =>
      if bits_in_accum w <? 5 then Panic "attempt to subtract with overflow"
      else
        let shift := bits_in_accum w - 5 in
        let idx := Z.land (Z.shiftr (accum w) shift) 31 in
        c ← expect (charset !! Z.to_nat idx) "index out of bounds";
        Ok (c, {| accum := accum w; bits_in_accum := shift; byte_idx := byte_idx w |})
  end.

Fixpoint code_chars (n : nat) (okm : bytes) (w : Window) : kres bytes :=
  match n with
  | O => Ok []
  | S n' => '(c, w) ← next_char okm w; r ← code_chars n' okm w; Ok (c :: r)
  end.

Section Sas.
Context `{P : Primitives}.

Definition generate_sas_code (host_pk client_pk shared_secret : bytes) : kres bytes :=
  okm ← hkdf_expand (Some (bstr "kyberpipe-sas-v2-salt")) (host_pk ++ client_pk ++ shared_secret)
          (bstr "kyberpipe-sas-code-v2") 7;
  code_chars CODE_LEN okm {| accum := 0; bits_in_accum := 0; byte_idx := 0 |}.

End Sas.

(** ** The windows of the bit stream *)

Lemma fill_done n okm w : 5 <= bits_in_accum w -> fill n okm w = Some w.
Proof. intros H. destruct n; simpl; by rewrite (proj2 (Z.ltb_ge _ _)). Qed.

Lemma fill_once n okm w :
  bits_in_accum w < 5 -> 0 <= bits_in_accum w -> fill (S n) okm w = Some (top_up okm w).
Proof.
  intros H H0. cbn [fill]. rewrite (proj2 (Z.ltb_lt _ _) H). apply fill_done.
  unfold top_up. destruct (okm !! _); cbn; lia.
Qed.

(** The five bits at position [5 * i] of the stream, most significant first. *)
Definition window (okm : bytes) (i : nat) : Z :=
  (be_Z okm / 2 ^ (8 * len okm - 5 * (Z.of_nat i + 1))) mod 32.

(** The registers after [i] characters and [k] bytes of a stream of at most
    eight bytes. *)
Record aligned (okm : bytes) (i : nat) (w : Window) : Prop := {
  al_accum : accum w = be_Z (take (byte_idx w) okm);
  al_bits : bits_in_accum w = 8 * Z.of_nat (byte_idx w) - 5 * Z.of_nat i;
  al_range : 0 <= bits_in_accum w;
  al_idx : (byte_idx w <= length okm)%nat
}.

Lemma fill_aligned okm i w :
  (length okm <= 8)%nat -> 5 * (Z.of_nat i + 1) <= 8 * len okm -> aligned okm i w ->
  exists w', fill 5 okm w = Some w' /\ aligned okm i w' /\ 5 <= bits_in_accum w'.
Proof.
  intros Hl Hi H. destruct (Z.ltb_spec (bits_in_accum w) 5) as [Hb|Hb].
  - assert (byte_idx w < length okm)%nat as Hk.
    { pose proof (al_bits _ _ _ H). unfold len in Hi. lia. }
    destruct (lookup_lt_is_Some_2 okm _ Hk) as [b Eb].
    exists (top_up okm w). assert (5 <= bits_in_accum (top_up okm w)) as H5.
    { unfold top_up. rewrite Eb. cbn. pose proof (al_range _ _ _ H). lia. }
    split; [|split; [|done]].
    + apply fill_once; [done|apply H].
    + pose proof (be_Z_range (take (byte_idx w) okm)) as Hr.
      assert (len (take (byte_idx w) okm) = Z.of_nat (byte_idx w)) as Hlen by (unfold len; rewrite length_take; lia).
      assert (256 ^ (Z.of_nat (byte_idx w)) <= 256 ^ 7) by (apply Z.pow_le_mono_r; lia).
      unfold top_up. rewrite Eb. split; cbn.
      * rewrite (take_S_r okm _ b Eb), be_Z_app, (al_accum _ _ _ H).
        change (be_Z [b]) with (Z_of_byte b * 1 + 0). change (len [b]) with 1.
        rewrite Z.shiftl_mul_pow2 by lia. change (2 ^ 8) with 256. unfold wrap64.
        rewrite Z.mod_small by (rewrite Hlen in Hr; lia). rewrite lor_byte; [lia|lia|apply Z_of_byte_range].
      * pose proof (al_bits _ _ _ H). lia.
      * pose proof (al_range _ _ _ H). lia.
      * lia.
  - exists w. split; [by apply fill_done|done].
Qed.

(** A window of the register is the window of the stream. *)
Lemma window_prefix okm i w :
  aligned okm i w -> 5 <= bits_in_accum w ->
  Z.land (Z.shiftr (accum w) (bits_in_accum w - 5)) 31 = window okm i.
Proof.
  intros H Hb. change 31 with (Z.ones 5). rewrite Z.land_ones, Z.shiftr_div_pow2 by lia. unfold window.
  change (2 ^ 5) with 32. f_equal. rewrite (al_accum _ _ _ H). set (k := byte_idx w).
  assert (okm = take k okm ++ drop k okm) as E by (by rewrite take_drop).
  rewrite E at 2. rewrite be_Z_app. pose proof (be_Z_range (drop k okm)) as Hr.
  assert (len okm = Z.of_nat k + len (drop k okm)) as Hlen.
  { rewrite E at 1. rewrite len_app. unfold len at 1. rewrite length_take. pose proof (al_idx _ _ _ H). unfold k. lia. }
  assert (8 * len okm - 5 * (Z.of_nat i + 1) = 8 * len (drop k okm) + (bits_in_accum w - 5)) as ->.
  { rewrite (al_bits _ _ _ H). unfold k in *. lia. }
  pose proof (len_nonneg (drop k okm)). rewrite Z.pow_add_r by lia.
  replace (2 ^ (8 * len (drop k okm))) with (256 ^ len (drop k okm)) by (change 256 with (2 ^ 8); by rewrite <- Z.pow_mul_r by lia).
  rewrite <- Z.div_div by (try apply Z.pow_nonzero; try lia; apply Z.pow_pos_nonneg; lia).
  f_equal. rewrite Z.div_add_l by (apply Z.pow_nonzero; lia). rewrite (Z.div_small (be_Z (drop k okm))) by done. lia.
Qed.

Lemma charset_total z : 0 <= z < 32 -> is_Some (charset !! Z.to_nat z).
Proof. intros H. apply lookup_lt_is_Some_2. change (length charset) with 32%nat. lia. Qed.

(** The character of a window. *)
Definition sas_char (z : Z) : byte := default x00 (charset !! Z.to_nat z).

Lemma code_chars_windows okm n i w :
  (length okm <= 8)%nat -> 5 * (Z.of_nat i + Z.of_nat n) <= 8 * len okm -> aligned okm i w ->
  code_chars n okm w = Ok ((fun j => sas_char (window okm j)) <$> seq i n).
Proof.
  intros Hl. revert i w. induction n as [|n IH]; intros i w Hi H; [done|].
  destruct (fill_aligned okm i w Hl ltac:(lia) H) as (w' & Hf & H' & H5).
  assert (0 <= window okm i < 32) as Hw by (apply Z.mod_pos_bound; lia).
  destruct (charset_total _ Hw) as [c Hc].
  cbn [code_chars]. unfold next_char. rewrite Hf, (proj2 (Z.ltb_ge _ _)) by done.
  rewrite (window_prefix okm i w' H' H5), Hc. cbn [expect mbind result_bind].
  rewrite (IH (S i)); [|lia|].
  - cbn [mbind result_bind seq fmap list_fmap]. unfold sas_char at 2. by rewrite Hc.
  - split; cbn; [apply H'|pose proof (al_bits _ _ _ H'); lia|lia|apply H'].
Qed.

Section Properties.
Context `{P : Primitives} `{L : !PrimitivesLaws}.

Definition sas_okm (host_pk client_pk shared_secret : bytes) : bytes :=
  hkdf_okm (Some (bstr "kyberpipe-sas-v2-salt")) (host_pk ++ client_pk ++ shared_secret)
    (bstr "kyberpipe-sas-code-v2") 7.

Lemma generate_sas_windows h c s :
  generate_sas_code h c s = Ok ((fun j => sas_char (window (sas_okm h c s) j)) <$> seq 0 7).
Proof.
  unfold generate_sas_code. rewrite hkdf_expand_ok by done. cbn [mbind result_bind]. fold (sas_okm h c s).
  assert (length (sas_okm h c s) = 7%nat) as Hl by apply hkdf_okm_length.
  apply code_chars_windows; [lia|unfold len; rewrite Hl; by vm_compute|]. split; cbn; [done|done|done|lia].
Qed.

Lemma sas_char_inj a b : 0 <= a < 32 -> 0 <= b < 32 -> sas_char a = sas_char b -> a = b.
Proof.
  intros Ha Hb E. unfold sas_char in E. destruct (charset_total _ Ha) as [x Hx], (charset_total _ Hb) as [y Hy].
  rewrite Hx, Hy in E. cbn in E. subst y. assert (NoDup charset) as Hnd by (by apply (bool_decide_eq_true_1 (NoDup charset)); vm_compute).
  assert (Z.to_nat a = Z.to_nat b) by (by apply (NoDup_lookup charset _ _ x)). lia.
Qed.

(** Seven base-32 digits determine the 35 bits above the last 21. *)
Lemma digits_32 A B :
  0 <= A < 2 ^ 56 -> 0 <= B < 2 ^ 56 ->
  (A / 2 ^ 51) mod 32 = (B / 2 ^ 51) mod 32 -> (A / 2 ^ 46) mod 32 = (B / 2 ^ 46) mod 32 ->
  (A / 2 ^ 41) mod 32 = (B / 2 ^ 41) mod 32 -> (A / 2 ^ 36) mod 32 = (B / 2 ^ 36) mod 32 ->
  (A / 2 ^ 31) mod 32 = (B / 2 ^ 31) mod 32 -> (A / 2 ^ 26) mod 32 = (B / 2 ^ 26) mod 32 ->
  (A / 2 ^ 21) mod 32 = (B / 2 ^ 21) mod 32 -> A / 2 ^ 21 = B / 2 ^ 21.
Proof.
  intros HA HB E0 E1 E2 E3 E4 E5 E6.
  assert (forall x y n, 0 <= n -> x / 2 ^ (n + 5) = y / 2 ^ (n + 5) -> (x / 2 ^ n) mod 32 = (y / 2 ^ n) mod 32 ->
            x / 2 ^ n = y / 2 ^ n) as Hstep.
  { intros x y n Hn Hd Hm. rewrite Z.pow_add_r, <- !Z.div_div in Hd by (try apply Z.pow_nonzero; lia).
    rewrite (Z.div_mod (x / 2 ^ n) 32), (Z.div_mod (y / 2 ^ n) 32) by lia. change (2 ^ 5) with 32 in Hd. by rewrite Hd, Hm. }
  do 7 (apply Hstep; [lia| |assumption]; cbn [Z.add Pos.add Pos.succ Pos.add_carry]).
  by rewrite !Z.div_small.
Qed.

(** C35: The code is the first 35 bits of the derived stream: it always has
    seven characters, each the letter of one five-bit window, no loop or shift
    fails, and two derivations show the same code exactly when they agree on
    those bits. *)
Theorem sas_code_is_35_bits h c s h' c' s' :
  exists code code', generate_sas_code h c s = Ok code /\ generate_sas_code h' c' s' = Ok code'
    /\ length code = 7%nat /\ Forall (fun x => x ∈ charset) code
    /\ (code = code' <-> be_Z (sas_okm h c s) / 2 ^ 21 = be_Z (sas_okm h' c' s') / 2 ^ 21).
Proof.
  eexists _, _. rewrite !generate_sas_windows. split_and!; try reflexivity.
  - apply Forall_fmap, Forall_forall. intros j _. cbn. unfold sas_char.
    destruct (charset_total (window (sas_okm h c s) j)) as [x Hx]; [apply Z.mod_pos_bound; lia|].
    rewrite Hx. by eapply list_elem_of_lookup_2.
  - assert (forall a b d, len (sas_okm a b d) = 7) as Hlen by (intros; unfold len, sas_okm; by rewrite hkdf_okm_length).
    set (A := be_Z (sas_okm h c s)). set (B := be_Z (sas_okm h' c' s')).
    assert (forall i, 0 <= window (sas_okm h c s) i < 32) as RA by (intros; apply Z.mod_pos_bound; lia).
    assert (forall i, 0 <= window (sas_okm h' c' s') i < 32) as RB by (intros; apply Z.mod_pos_bound; lia).
    assert (0 <= A < 2 ^ 56) as HA by (pose proof (be_Z_range (sas_okm h c s)) as Hr; rewrite Hlen in Hr; exact Hr).
    assert (0 <= B < 2 ^ 56) as HB by (pose proof (be_Z_range (sas_okm h' c' s')) as Hr; rewrite Hlen in Hr; exact Hr).
    split.
    + cbn [seq fmap list_fmap]. intros E. injection E as E0 E1 E2 E3 E4 E5 E6.
      apply sas_char_inj in E0, E1, E2, E3, E4, E5, E6; try apply RA; try apply RB.
      unfold window in *. rewrite !Hlen in *. fold A B in E0, E1, E2, E3, E4, E5, E6.
      apply (digits_32 A B); [done|done|..]; assumption.
    + intros E. apply list_fmap_ext. intros i j Hj. apply lookup_seq in Hj as [-> Hj]. f_equal.
      unfold window. rewrite !Hlen. fold A B. f_equal.
      replace (8 * 7 - 5 * (Z.of_nat (0 + i) + 1)) with (21 + (30 - 5 * Z.of_nat i)) by lia.
      rewrite Z.pow_add_r, <- !Z.div_div by (try apply Z.pow_nonzero; try apply Z.pow_pos_nonneg; lia).
      by rewrite E.
Qed.

End Properties.

Import Toy.

Lemma sas_code_is_35_bits_witness : exists code code',
  generate_sas_code (bstr "host") (bstr "client") (bstr "secret") = Ok code
  /\ generate_sas_code (bstr "host") (bstr "client") (bstr "other") = Ok code'
  /\ length code = 7%nat /\ Forall (fun x => x ∈ charset) code
  /\ (code = code' <-> be_Z (sas_okm (bstr "host") (bstr "client") (bstr "secret")) / 2 ^ 21
                       = be_Z (sas_okm (bstr "host") (bstr "client") (bstr "other")) / 2 ^ 21).
Proof. exact (sas_code_is_35_bits (bstr "host") (bstr "client") (bstr "secret") (bstr "host") (bstr "client") (bstr "other")). Defined.
