(* ===== verification/Interpolation.v ===== *)
(** * Interpolation: polynomials over a field and Lagrange interpolation

    The mathematics Shamir sharing rests on, for any field with decidable
    equality: evaluation by Horner's rule, the factor theorem, a polynomial
    with more roots than its degree is zero, and Lagrange's formula recovers
    the value of a polynomial from as many points as it has coefficients. *)

From Stdlib Require Import Ring.
From S2P Require Import Prelude.

Section Field.
Context {F : Type} `{EqDecision F} (zero one : F) (add mul sub : F -> F -> F) (opp inv : F -> F).
Hypothesis F_ring : ring_theory zero one add mul sub opp (@eq F).
Hypothesis inv_r : forall a, a <> zero -> mul a (inv a) = one.
Hypothesis one_nonzero : one <> zero.
Add Ring F_ring : F_ring.

#[local] Infix "+" := add.
#[local] Infix "*" := mul.
#[local] Infix "-" := sub.

Lemma mul_eq_zero a b : a * b = zero -> a = zero \/ b = zero.
Proof.
  intros H. destruct (decide (a = zero)) as [|Ha]; [by left|right].
  transitivity ((a * inv a) * b); [rewrite inv_r by done; ring|].
  transitivity (inv a * (a * b)); [ring|]. rewrite H. ring.
Qed.

Lemma sub_eq_zero a b : a - b = zero -> a = b.
Proof. intros H. transitivity (a - b + b); [ring|]. rewrite H. ring. Qed.

(** Horner's rule, the constant coefficient first. *)
Fixpoint eval (coeffs : list F) (x : F) : F :=
  match coeffs with
  | [] => zero
  | c :: cs => eval cs x * x + c
  end.

(** A function that is a polynomial with [n] coefficients. *)
Definition poly (n : nat) (f : F -> F) : Prop :=
  exists cs, length cs = n /\ forall x, f x = eval cs x.

Lemma eval_replicate_zero n x : eval (replicate n zero) x = zero.
Proof. induction n as [|n IH]; simpl; [done|]. rewrite IH. ring. Qed.

Lemma poly_zero n : poly n (fun _ => zero).
Proof. exists (replicate n zero). split; [apply length_replicate|]. intros x. by rewrite eval_replicate_zero. Qed.

Lemma poly_add n f g : poly n f -> poly n g -> poly n (fun x => f x + g x).
Proof.
  intros (cs & Hc & Hf) (ds & Hd & Hg). exists (zip_with add cs ds).
  split; [rewrite length_zip_with; lia|]. intros x. rewrite Hf, Hg. clear Hf Hg. subst n.
  revert ds Hd. induction cs as [|c cs IH]; intros [|d ds] Hd; simpl in *; try lia; [ring|].
  rewrite <- IH by lia. ring.
Qed.

Lemma poly_scale n a f : poly n f -> poly n (fun x => a * f x).
Proof.
  intros (cs & Hc & Hf). exists (mul a <$> cs). split; [by rewrite length_fmap|].
  intros x. rewrite Hf. clear Hf Hc. induction cs as [|c cs IH]; [simpl; ring|]. rewrite fmap_cons. cbn [eval]. rewrite <- IH. ring.
Qed.

Lemma poly_shift n f : poly n f -> poly (S n) (fun x => f x * x).
Proof. intros (cs & Hc & Hf). exists (zero :: cs). split; [simpl; lia|]. intros x. simpl. rewrite Hf. ring. Qed.

Lemma poly_widen n f : poly n f -> poly (S n) f.
Proof.
  intros (cs & Hc & Hf). exists (cs ++ [zero]). split; [rewrite length_app; simpl; lia|].
  intros x. rewrite Hf. clear Hf Hc. induction cs as [|c cs IH]; simpl; [ring|]. by rewrite IH.
Qed.

Lemma poly_ext n f g : (forall x, f x = g x) -> poly n f -> poly n g.
Proof. intros He (cs & Hc & Hf). exists cs. split; [done|]. intros x. by rewrite <- He. Qed.

(** Multiplying by [x - a] adds a coefficient. *)
Lemma poly_linear n a f : poly n f -> poly (S n) (fun x => (x - a) * f x).
Proof.
  intros Hf. eapply poly_ext; [|apply poly_add; [apply poly_shift, Hf|apply poly_widen, (poly_scale _ (opp a)), Hf]].
  intros x. simpl. ring.
Qed.

(** The factor theorem. *)
Lemma poly_factor n f a : poly (S n) f -> exists g, poly n g /\ forall x, f x = (x - a) * g x + f a.
Proof.
  revert f. induction n as [|n IH]; intros f (cs & Hc & Hf).
  - destruct cs as [|c [|]]; simpl in Hc; try lia. exists (fun _ => zero). split; [apply poly_zero|].
    intros x. rewrite !Hf. simpl. ring.
  - destruct cs as [|c cs]; simpl in Hc; [lia|].
    destruct (IH (eval cs)) as (g & Hg & He); [exists cs; split; [lia|done]|].
    exists (fun x => g x * x + eval cs a). split.
    + apply poly_add; [by apply poly_shift|].
      apply (poly_ext _ (fun x => eval cs a * one)); [intros; ring|]. apply poly_scale.
      exists (one :: replicate n zero). split; [simpl; by rewrite length_replicate|].
      intros x. simpl. rewrite eval_replicate_zero. ring.
    + intros x. rewrite !Hf. simpl. rewrite (He x). ring.
Qed.

(** More distinct roots than the degree: the zero function. *)
Lemma poly_roots n f xs :
  poly n f -> NoDup xs -> (n <= length xs)%nat -> (forall x, x ∈ xs -> f x = zero) -> forall x, f x = zero.
Proof.
  revert f xs. induction n as [|n IH]; intros f xs Hf Hnd Hl Hr x.
  - destruct Hf as (cs & Hc & Hf). destruct cs; [|done]. by rewrite Hf.
  - destruct xs as [|a xs]; simpl in Hl; [lia|]. apply NoDup_cons in Hnd as [Ha Hnd].
    destruct (poly_factor _ _ a Hf) as (g & Hg & He).
    assert (f a = zero) as Hfa by (apply Hr; set_solver).
    rewrite He, Hfa, (IH g xs Hg Hnd); [ring|lia|]. intros y Hy.
    assert ((y - a) * g y = zero) as Hz by (rewrite <- (Hr y) by set_solver; rewrite (He y), Hfa; ring).
    apply mul_eq_zero in Hz as [Hz|]; [|done]. apply sub_eq_zero in Hz. subst. done.
Qed.

(** ** Lagrange's formula *)

(** The product of [x - a] over [xs]. *)
Fixpoint root_product (xs : list F) (x : F) : F :=
  match xs with
  | [] => one
  | a :: xs' => (x - a) * root_product xs' x
  end.

Lemma poly_root_product xs : poly (S (length xs)) (root_product xs).
Proof.
  induction xs as [|a xs IH]; simpl; [|by apply (poly_linear _ a) in IH].
  exists [one]. split; [done|]. intros x. simpl. ring.
Qed.

Lemma root_product_zero xs x : root_product xs x = zero <-> x ∈ xs.
Proof.
  induction xs as [|a xs IH]; simpl; [set_solver|]. rewrite elem_of_cons, <- IH. split.
  - intros [H|H]%mul_eq_zero; [left; by apply sub_eq_zero|by right].
  - intros [->|H]; [ring|]. rewrite H. ring.
Qed.

(** The term of point [i]: one at its own abscissa, zero at the others. *)
Definition basis (xs : list F) (i : nat) (xi x : F) : F :=
  root_product (delete i xs) x * inv (root_product (delete i xs) xi).

Definition lagrange_sum (points : list (F * F)) (x : F) : F :=
  foldr add zero (imap (fun i p => p.2 * basis points.*1 i p.1 x) points).

Lemma delete_in (xs : list F) i j xj : xs !! j = Some xj -> i <> j -> xj ∈ delete i xs.
Proof.
  intros Hj Hij. apply list_elem_of_lookup. destruct (decide (i < j)%nat).
  - exists (j - 1)%nat. rewrite list_lookup_delete_ge by lia. by replace (S (j - 1)) with j by lia.
  - exists j. rewrite list_lookup_delete_lt by lia. done.
Qed.

Lemma delete_not_in (xs : list F) i xi : NoDup xs -> xs !! i = Some xi -> xi ∉ delete i xs.
Proof.
  intros Hnd Hi Hin. apply list_elem_of_lookup in Hin as [j Hj].
  destruct (decide (j < i)%nat).
  - rewrite list_lookup_delete_lt in Hj by lia. pose proof (NoDup_lookup _ _ _ _ Hnd Hj Hi). lia.
  - rewrite list_lookup_delete_ge in Hj by lia. pose proof (NoDup_lookup _ _ _ _ Hnd Hj Hi). lia.
Qed.

Lemma basis_self xs i xi : NoDup xs -> xs !! i = Some xi -> basis xs i xi xi = one.
Proof.
  intros Hnd Hi. apply inv_r. rewrite root_product_zero. by apply delete_not_in.
Qed.

Lemma basis_other xs i j xi xj : xs !! j = Some xj -> i <> j -> basis xs i xi xj = zero.
Proof.
  intros Hj Hij. unfold basis. rewrite (proj2 (root_product_zero _ _)); [ring|]. by eapply delete_in.
Qed.

Lemma poly_basis xs i xi : (i < length xs)%nat -> poly (length xs) (basis xs i xi).
Proof.
  intros Hi. destruct (lookup_lt_is_Some_2 xs i Hi) as [a Ha].
  pose proof (length_delete xs i ltac:(eauto)) as Hl.
  apply (poly_ext _ (fun x => inv (root_product (delete i xs) xi) * root_product (delete i xs) x)).
  - intros x. unfold basis. ring.
  - apply poly_scale. replace (length xs) with (S (length (delete i xs))) by lia. apply poly_root_product.
Qed.

Lemma poly_sum n (fs : list (F -> F)) :
  Forall (poly n) fs -> poly n (fun x => foldr add zero ((fun f => f x) <$> fs)).
Proof. induction 1; simpl; [apply poly_zero|by apply poly_add]. Qed.

Lemma lagrange_poly points : poly (length points) (lagrange_sum points).
Proof.
  eapply poly_ext;
    [|apply (poly_sum _ (imap (fun i p => (fun x => p.2 * basis points.*1 i p.1 x)) points))].
  - intros x. unfold lagrange_sum. by rewrite fmap_imap.
  - apply Forall_lookup. intros i f. rewrite list_lookup_imap. intros (p & Hp & ->)%fmap_Some.
    apply poly_scale. rewrite <- (length_fmap fst points). apply poly_basis.
    rewrite length_fmap. by eapply lookup_lt_Some.
Qed.

(** A sum whose terms vanish except one. *)
Lemma sum_single (ts : list F) i t :
  ts !! i = Some t -> (forall j u, ts !! j = Some u -> j <> i -> u = zero) -> foldr add zero ts = t.
Proof.
  revert i. induction ts as [|u ts IH]; intros [|i] Hi Hz; simplify_eq/=.
  - assert (foldr add zero ts = zero) as ->; [|ring].
    clear IH. induction ts as [|v ts IH]; [done|]. simpl. rewrite (Hz 1%nat v) by done.
    rewrite IH; [ring|]. intros [|j] u Hu Hj; [done|]. apply (Hz (S (S j)) u); done.
  - rewrite (Hz 0%nat u) by done. rewrite (IH i); [ring|done|].
    intros j v Hv Hj. apply (Hz (S j) v); [done|lia].
Qed.

Lemma lagrange_hits points i xi yi :
  NoDup points.*1 -> points !! i = Some (xi, yi) -> lagrange_sum points xi = yi.
Proof.
  intros Hnd Hi. assert (points.*1 !! i = Some xi) as Hx by (by rewrite list_lookup_fmap, Hi).
  unfold lagrange_sum. rewrite (sum_single _ i (yi * basis points.*1 i xi xi)).
  - rewrite basis_self by done. ring.
  - by rewrite list_lookup_imap, Hi.
  - intros j u. rewrite list_lookup_imap. intros (p & Hp & ->)%fmap_Some Hj.
    rewrite (basis_other _ _ i) by done. ring.
Qed.

(** Lagrange's formula recovers a polynomial from as many distinct points as it
    has coefficients. *)
Lemma lagrange_recovers cs xs x :
  NoDup xs -> length cs = length xs -> lagrange_sum ((fun a => (a, eval cs a)) <$> xs) x = eval cs x.
Proof.
  intros Hnd Hl. set (points := (fun a => (a, eval cs a)) <$> xs).
  assert (points.*1 = xs) as Hx by (subst points; rewrite <- list_fmap_compose; apply list_fmap_id).
  assert (length points = length xs) as Hp by apply length_fmap.
  apply sub_eq_zero. revert x.
  apply (poly_roots (length xs) (fun x => lagrange_sum points x - eval cs x) xs); [|done|lia|].
  - eapply poly_ext;
      [|apply poly_add; [rewrite <- Hp; apply lagrange_poly|apply (poly_scale _ (opp one)); by exists cs]].
    intros x. simpl. ring.
  - intros a (i & Hi)%list_elem_of_lookup. rewrite (lagrange_hits points i a (eval cs a)); [ring|by rewrite Hx|].
    subst points. by rewrite list_lookup_fmap, Hi.
Qed.

End Field.
