(* ===== verification/Gf256.v ===== *)
(** * Gf256: the field GF(2^8) of the secret sharing
    (core-crypto/src/crypto/shamir.rs)

    Multiplication and inversion through the logarithm and exponential tables,
    polynomial evaluation and interpolation as the code computes them, and the
    proof that the tables make the bytes a field: the exponential table is the
    orbit of multiplication by the generator 3, which is linear over exclusive
    or, so multiplication distributes. *)

From Stdlib Require Import Ring.
From S2P Require Import Prelude Interpolation.

Definition GF256_LOG : list Z := [
  0x00; 0x00; 0x19; 0x01; 0x32; 0x02; 0x1a; 0xc6; 0x4b; 0xc7; 0x1b; 0x68; 0x33; 0xee; 0xdf; 0x03;
  0x64; 0x04; 0xe0; 0x0e; 0x34; 0x8d; 0x81; 0xef; 0x4c; 0x71; 0x08; 0xc8; 0xf8; 0x69; 0x1c; 0xc1;
  0x7d; 0xc2; 0x1d; 0xb5; 0xf9; 0xb9; 0x27; 0x6a; 0x4d; 0xe4; 0xa6; 0x72; 0x9a; 0xc9; 0x09; 0x78;
  0x65; 0x2f; 0x8a; 0x05; 0x21; 0x0f; 0xe1; 0x24; 0x12; 0xf0; 0x82; 0x45; 0x35; 0x93; 0xda; 0x8e;
  0x96; 0x8f; 0xdb; 0xbd; 0x36; 0xd0; 0xce; 0x94; 0x13; 0x5c; 0xd2; 0xf1; 0x40; 0x46; 0x83; 0x38;
  0x66; 0xdd; 0xfd; 0x30; 0xbf; 0x06; 0x8b; 0x62; 0xb3; 0x25; 0xe2; 0x98; 0x22; 0x88; 0x91; 0x10;
  0x7e; 0x6e; 0x48; 0xc3; 0xa3; 0xb6; 0x1e; 0x42; 0x3a; 0x6b; 0x28; 0x54; 0xfa; 0x85; 0x3d; 0xba;
  0x2b; 0x79; 0x0a; 0x15; 0x9b; 0x9f; 0x5e; 0xca; 0x4e; 0xd4; 0xac; 0xe5; 0xf3; 0x73; 0xa7; 0x57;
  0xaf; 0x58; 0xa8; 0x50; 0xf4; 0xea; 0xd6; 0x74; 0x4f; 0xae; 0xe9; 0xd5; 0xe7; 0xe6; 0xad; 0xe8;
  0x2c; 0xd7; 0x75; 0x7a; 0xeb; 0x16; 0x0b; 0xf5; 0x59; 0xcb; 0x5f; 0xb0; 0x9c; 0xa9; 0x51; 0xa0;
  0x7f; 0x0c; 0xf6; 0x6f; 0x17; 0xc4; 0x49; 0xec; 0xd8; 0x43; 0x1f; 0x2d; 0xa4; 0x76; 0x7b; 0xb7;
  0xcc; 0xbb; 0x3e; 0x5a; 0xfb; 0x60; 0xb1; 0x86; 0x3b; 0x52; 0xa1; 0x6c; 0xaa; 0x55; 0x29; 0x9d;
  0x97; 0xb2; 0x87; 0x90; 0x61; 0xbe; 0xdc; 0xfc; 0xbc; 0x95; 0xcf; 0xcd; 0x37; 0x3f; 0x5b; 0xd1;
  0x53; 0x39; 0x84; 0x3c; 0x41; 0xa2; 0x6d; 0x47; 0x14; 0x2a; 0x9e; 0x5d; 0x56; 0xf2; 0xd3; 0xab;
  0x44; 0x11; 0x92; 0xd9; 0x23; 0x20; 0x2e; 0x89; 0xb4; 0x7c; 0xb8; 0x26; 0x77; 0x99; 0xe3; 0xa5;
  0x67; 0x4a; 0xed; 0xde; 0xc5; 0x31; 0xfe; 0x18; 0x0d; 0x63; 0x8c; 0x80; 0xc0; 0xf7; 0x70; 0x07
].

Definition GF256_EXP : list Z := [
  0x01; 0x03; 0x05; 0x0f; 0x11; 0x33; 0x55; 0xff; 0x1a; 0x2e; 0x72; 0x96; 0xa1; 0xf8; 0x13; 0x35;
  0x5f; 0xe1; 0x38; 0x48; 0xd8; 0x73; 0x95; 0xa4; 0xf7; 0x02; 0x06; 0x0a; 0x1e; 0x22; 0x66; 0xaa;
  0xe5; 0x34; 0x5c; 0xe4; 0x37; 0x59; 0xeb; 0x26; 0x6a; 0xbe; 0xd9; 0x70; 0x90; 0xab; 0xe6; 0x31;
  0x53; 0xf5; 0x04; 0x0c; 0x14; 0x3c; 0x44; 0xcc; 0x4f; 0xd1; 0x68; 0xb8; 0xd3; 0x6e; 0xb2; 0xcd;
  0x4c; 0xd4; 0x67; 0xa9; 0xe0; 0x3b; 0x4d; 0xd7; 0x62; 0xa6; 0xf1; 0x08; 0x18; 0x28; 0x78; 0x88;
  0x83; 0x9e; 0xb9; 0xd0; 0x6b; 0xbd; 0xdc; 0x7f; 0x81; 0x98; 0xb3; 0xce; 0x49; 0xdb; 0x76; 0x9a;
  0xb5; 0xc4; 0x57; 0xf9; 0x10; 0x30; 0x50; 0xf0; 0x0b; 0x1d; 0x27; 0x69; 0xbb; 0xd6; 0x61; 0xa3;
  0xfe; 0x19; 0x2b; 0x7d; 0x87; 0x92; 0xad; 0xec; 0x2f; 0x71; 0x93; 0xae; 0xe9; 0x20; 0x60; 0xa0;
  0xfb; 0x16; 0x3a; 0x4e; 0xd2; 0x6d; 0xb7; 0xc2; 0x5d; 0xe7; 0x32; 0x56; 0xfa; 0x15; 0x3f; 0x41;
  0xc3; 0x5e; 0xe2; 0x3d; 0x47; 0xc9; 0x40; 0xc0; 0x5b; 0xed; 0x2c; 0x74; 0x9c; 0xbf; 0xda; 0x75;
  0x9f; 0xba; 0xd5; 0x64; 0xac; 0xef; 0x2a; 0x7e; 0x82; 0x9d; 0xbc; 0xdf; 0x7a; 0x8e; 0x89; 0x80;
  0x9b; 0xb6; 0xc1; 0x58; 0xe8; 0x23; 0x65; 0xaf; 0xea; 0x25; 0x6f; 0xb1; 0xc8; 0x43; 0xc5; 0x54;
  0xfc; 0x1f; 0x21; 0x63; 0xa5; 0xf4; 0x07; 0x09; 0x1b; 0x2d; 0x77; 0x99; 0xb0; 0xcb; 0x46; 0xca;
  0x45; 0xcf; 0x4a; 0xde; 0x79; 0x8b; 0x86; 0x91; 0xa8; 0xe3; 0x3e; 0x42; 0xc6; 0x51; 0xf3; 0x0e;
  0x12; 0x36; 0x5a; 0xee; 0x29; 0x7b; 0x8d; 0x8c; 0x8f; 0x8a; 0x85; 0x94; 0xa7; 0xf2; 0x0d; 0x17;
  0x39; 0x4b; 0xdd; 0x7c; 0x84; 0x97; 0xa2; 0xfd; 0x1c; 0x24; 0x6c; 0xb4; 0xc7; 0x52; 0xf6; 0x01
].

(** [table[i]]; every index below is proved to be in range ([table_index]). *)
Definition index_table (table : list Z) (i : Z) : Z := nth (Z.to_nat i) table 0.

(** [a ^ b]. *)
Definition gf_add (a b : byte) : byte := byte_of_Z (Z.lxor (Z_of_byte a) (Z_of_byte b)).

Definition gf_log (a : byte) : Z := index_table GF256_LOG (Z_of_byte a).
Definition gf_exp (i : Z) : byte := byte_of_Z (index_table GF256_EXP i).

(** [a == 0]. *)
Definition is_zero (a : byte) : bool := Z_of_byte a =? 0.

Definition gf_mul (a b : byte) : byte :=
  if is_zero a || is_zero b then x00
  else
    let sum := gf_log a + gf_log b in
    gf_exp (if 255 <=? sum then sum - 255 else sum).

Definition gf_inv (a : byte) : byte :=
  if is_zero a then x00 else gf_exp (255 - gf_log a).

(** Horner's method, over the reversed coefficients. *)
Definition gf256_eval (coeffs : bytes) (x : byte) : byte :=
  fold_left (fun result c => gf_add (gf_mul result x) c) (rev coeffs) x00.

(** The inner loop: numerator and denominator of the term of point [i]. *)
Definition lagrange_fraction (points : list (byte * byte)) (x xi : byte) (i : nat) : byte * byte :=
  fold_left (fun '(num, den) '(j, (xj, _)) =>
               if Nat.eqb i j then (num, den)
               else (gf_mul num (gf_add x xj), gf_mul den (gf_add xi xj)))
    (imap pair points) (x01, x01).

Definition gf256_lagrange_interpolate (points : list (byte * byte)) (x : byte) : byte :=
  fold_left (fun result '(i, (xi, yi)) =>
               let '(num, den) := lagrange_fraction points x xi i in
               gf_add result (gf_mul yi (gf_mul num (gf_inv den))))
    (imap pair points) x00.

(** ** The tables *)

Definition all_bytes : list byte := map (fun i => byte_of_Z (Z.of_nat i)) (seq 0 256).

Lemma all_bytes_in b : In b all_bytes.
Proof.
  apply in_map_iff. pose proof (Z_of_byte_range b). exists (Z.to_nat (Z_of_byte b)).
  rewrite Z2Nat.id, byte_of_Z_of_byte, in_seq by lia. split; [done|lia].
Qed.

(** A property of all bytes, and of the indices below 255, by enumeration. *)
Lemma all_bytes_check (f : byte -> bool) : forallb f all_bytes = true -> forall b, f b = true.
Proof. rewrite forallb_forall. intros H b. apply H, all_bytes_in. Qed.

Lemma below_255_check (f : Z -> bool) :
  forallb (fun i => f (Z.of_nat i)) (seq 0 255) = true -> forall i, 0 <= i < 255 -> f i = true.
Proof.
  rewrite forallb_forall. intros H i Hi. specialize (H (Z.to_nat i)). rewrite Z2Nat.id in H by lia.
  apply H, in_seq. lia.
Qed.

Lemma is_zero_spec a : is_zero a = bool_decide (a = x00).
Proof.
  unfold is_zero. destruct (Z.eqb_spec (Z_of_byte a) 0) as [H|H]; symmetry.
  - apply bool_decide_eq_true. by apply Z_of_byte_inj.
  - apply bool_decide_eq_false. by intros ->.
Qed.
Lemma is_zero_false a : a <> x00 -> is_zero a = false.
Proof. intros H. rewrite is_zero_spec. by apply bool_decide_eq_false. Qed.

Lemma gf_log_exp_all b : is_zero b || (0 <=? gf_log b) && (gf_log b <? 255) && (Z_of_byte (gf_exp (gf_log b)) =? Z_of_byte b) = true.
Proof. revert b. apply all_bytes_check. by vm_compute. Qed.

Lemma gf_exp_log_all i : 0 <= i < 255 -> (gf_log (gf_exp i) =? i) && negb (is_zero (gf_exp i)) = true.
Proof. revert i. apply (below_255_check (fun i => (gf_log (gf_exp i) =? i) && negb (is_zero (gf_exp i)))). by vm_compute. Qed.

Lemma gf_log_range b : b <> x00 -> 0 <= gf_log b < 255.
Proof. intros Hb. pose proof (gf_log_exp_all b) as H. rewrite is_zero_false in H by done. simpl in H. zify_bool. lia. Qed.

Lemma gf_exp_log b : b <> x00 -> gf_exp (gf_log b) = b.
Proof.
  intros Hb. pose proof (gf_log_exp_all b) as H. rewrite is_zero_false in H by done. simpl in H. zify_bool.
  by apply Z_of_byte_inj.
Qed.

Lemma gf_log_exp i : 0 <= i < 255 -> gf_log (gf_exp i) = i /\ gf_exp i <> x00.
Proof. intros Hi. pose proof (gf_exp_log_all i Hi) as H. zify_bool. split; [done|]. intros E. by rewrite E in H0. Qed.

(** Every table access of [gf_mul] and [gf_inv] is within the tables. *)
Lemma table_index a b :
  length GF256_LOG = 256%nat /\ length GF256_EXP = 256%nat
  /\ 0 <= Z_of_byte a < 256
  /\ (a <> x00 -> b <> x00 ->
      0 <= (if 255 <=? gf_log a + gf_log b then gf_log a + gf_log b - 255 else gf_log a + gf_log b) < 256
      /\ 0 <= 255 - gf_log a < 256).
Proof.
  split_and!; [done|done|apply Z_of_byte_range..|]. intros Ha Hb.
  pose proof (gf_log_range a Ha). pose proof (gf_log_range b Hb). destruct (Z.leb_spec 255 (gf_log a + gf_log b)); lia.
Qed.

(** ** Addition *)

Lemma gf_add_Z a b : Z_of_byte (gf_add a b) = Z.lxor (Z_of_byte a) (Z_of_byte b).
Proof.
  unfold gf_add. rewrite Z_of_byte_of_Z. apply Z.mod_small.
  pose proof (Z_of_byte_range a). pose proof (Z_of_byte_range b).
  assert (0 <= Z.lxor (Z_of_byte a) (Z_of_byte b)) by (apply Z.lxor_nonneg; lia). split; [done|].
  destruct (Z.eq_dec (Z.lxor (Z_of_byte a) (Z_of_byte b)) 0); [lia|].
  apply (Z.log2_lt_pow2 _ 8); [lia|]. eapply Z.le_lt_trans; [apply Z.log2_lxor; lia|].
  assert (forall z, 0 <= z < 256 -> Z.log2 z < 8) as Hl; [|apply Z.max_lub_lt; apply Hl; lia].
  intros z Hz. destruct (Z.eq_dec z 0) as [->|]; [done|]. apply Z.log2_lt_pow2; lia.
Qed.

Lemma gf_add_comm a b : gf_add a b = gf_add b a.
Proof. apply Z_of_byte_inj. rewrite !gf_add_Z. apply Z.lxor_comm. Qed.
Lemma gf_add_assoc a b c : gf_add a (gf_add b c) = gf_add (gf_add a b) c.
Proof. apply Z_of_byte_inj. rewrite !gf_add_Z. by rewrite Z.lxor_assoc. Qed.
Lemma gf_add_0_l a : gf_add x00 a = a.
Proof. apply Z_of_byte_inj. rewrite gf_add_Z. apply Z.lxor_0_l. Qed.
Lemma gf_add_self a : gf_add a a = x00.
Proof. apply Z_of_byte_inj. rewrite gf_add_Z. apply Z.lxor_nilpotent. Qed.

(** ** Multiplication *)

Lemma gf_mul_exp a b : a <> x00 -> b <> x00 -> gf_mul a b = gf_exp ((gf_log a + gf_log b) mod 255).
Proof.
  intros Ha Hb. unfold gf_mul. rewrite !is_zero_false by done. cbn [orb]. f_equal.
  pose proof (gf_log_range a Ha). pose proof (gf_log_range b Hb).
  destruct (Z.leb_spec 255 (gf_log a + gf_log b)); [|by rewrite Z.mod_small by lia].
  apply (Z.mod_unique _ _ 1); lia.
Qed.

Lemma gf_log_mul a b :
  a <> x00 -> b <> x00 -> gf_log (gf_mul a b) = (gf_log a + gf_log b) mod 255 /\ gf_mul a b <> x00.
Proof. intros Ha Hb. rewrite gf_mul_exp by done. apply gf_log_exp, Z.mod_pos_bound. lia. Qed.

Lemma gf_mul_0_l b : gf_mul x00 b = x00.
Proof. done. Qed.
Lemma gf_mul_comm a b : gf_mul a b = gf_mul b a.
Proof. unfold gf_mul. by rewrite orb_comm, Z.add_comm. Qed.
Lemma gf_mul_0_r b : gf_mul b x00 = x00.
Proof. by rewrite gf_mul_comm. Qed.

Lemma gf_mul_assoc a b c : gf_mul a (gf_mul b c) = gf_mul (gf_mul a b) c.
Proof.
  destruct (decide (a = x00)) as [->|Ha]; [done|]. destruct (decide (b = x00)) as [->|Hb].
  { change (gf_mul x00 c) with x00. by rewrite gf_mul_0_r. }
  destruct (decide (c = x00)) as [->|Hc]; [by rewrite !gf_mul_0_r|].
  destruct (gf_log_mul b c Hb Hc) as [L1 N1]. destruct (gf_log_mul a b Ha Hb) as [L2 N2].
  rewrite (gf_mul_exp a (gf_mul b c)), (gf_mul_exp (gf_mul a b) c) by done. rewrite L1, L2. f_equal.
  rewrite Zplus_mod_idemp_r, Zplus_mod_idemp_l. f_equal. lia.
Qed.

Lemma gf_mul_1_l b : gf_mul x01 b = b.
Proof.
  destruct (decide (b = x00)) as [->|Hb]; [done|]. rewrite gf_mul_exp by done.
  change (gf_log x01) with 0. rewrite Z.add_0_l, Z.mod_small by (by apply gf_log_range). by apply gf_exp_log.
Qed.

Lemma gf_mul_inv_r a : a <> x00 -> gf_mul a (gf_inv a) = x01.
Proof.
  intros Ha. pose proof (gf_log_range a Ha) as Hr.
  assert (gf_inv a = gf_exp ((255 - gf_log a) mod 255)) as ->.
  { unfold gf_inv. rewrite is_zero_false by done. destruct (Z.eq_dec (gf_log a) 0) as [->|]; [done|].
    by rewrite Z.mod_small by lia. }
  destruct (gf_log_exp ((255 - gf_log a) mod 255)) as [L N]; [apply Z.mod_pos_bound; lia|].
  rewrite gf_mul_exp, L, Zplus_mod_idemp_r by done. by replace (gf_log a + (255 - gf_log a)) with 255 by lia.
Qed.

(** Multiplication by the generator: [3 b = b + x b], the product by [x]
    reduced by the polynomial 0x11B. *)
Definition triple (z : Z) : Z :=
  Z.lxor z (Z.lxor (Z.land (Z.shiftl z 1) 255) (if Z.testbit z 7 then 27 else 0)).

Lemma triple_lxor a b : triple (Z.lxor a b) = Z.lxor (triple a) (triple b).
Proof.
  unfold triple. rewrite Z.lxor_spec. apply Z.bits_inj'. intros n Hn.
  rewrite !Z.lxor_spec, !Z.land_spec, !Z.shiftl_spec, !Z.lxor_spec by done.
  destruct (Z.testbit a 7), (Z.testbit b 7); cbn [xorb]; rewrite ?Z.bits_0;
    destruct (Z.testbit 255 n), (Z.testbit 27 n), (Z.testbit a n), (Z.testbit b n),
      (Z.testbit a (n - 1)), (Z.testbit b (n - 1)); done.
Qed.

(** The exponential table steps by the generator. *)
Lemma gf_exp_step i : 0 <= i < 255 -> Z_of_byte (gf_exp ((i + 1) mod 255)) = triple (Z_of_byte (gf_exp i)).
Proof.
  intros Hi. apply Z.eqb_eq. revert i Hi.
  apply (below_255_check (fun i => Z_of_byte (gf_exp ((i + 1) mod 255)) =? triple (Z_of_byte (gf_exp i)))).
  by vm_compute.
Qed.

Lemma gf_mul_step (n : Z) b :
  Z_of_byte (gf_mul (gf_exp ((n + 1) mod 255)) b) = triple (Z_of_byte (gf_mul (gf_exp (n mod 255)) b)).
Proof.
  destruct (decide (b = x00)) as [->|Hb]; [by rewrite !gf_mul_0_r|].
  pose proof (Z.mod_pos_bound n 255 ltac:(lia)). pose proof (Z.mod_pos_bound (n + 1) 255 ltac:(lia)).
  destruct (gf_log_exp (n mod 255)) as [L1 N1]; [lia|]. destruct (gf_log_exp ((n + 1) mod 255)) as [L2 N2]; [lia|].
  rewrite !gf_mul_exp by done. rewrite L1, L2, <- gf_exp_step by (apply Z.mod_pos_bound; lia). do 2 f_equal.
  rewrite !Zplus_mod_idemp_l, <- (Z.add_assoc (n mod 255)), Zplus_mod_idemp_l. f_equal. lia.
Qed.

Lemma gf_mul_exp_add (n : nat) b c :
  gf_mul (gf_exp (Z.of_nat n mod 255)) (gf_add b c)
  = gf_add (gf_mul (gf_exp (Z.of_nat n mod 255)) b) (gf_mul (gf_exp (Z.of_nat n mod 255)) c).
Proof.
  induction n as [|n IH]; [change (gf_exp (Z.of_nat 0 mod 255)) with x01; by rewrite !gf_mul_1_l|].
  apply Z_of_byte_inj. rewrite Nat2Z.inj_succ, <- Z.add_1_r, gf_add_Z, !gf_mul_step, IH, gf_add_Z. apply triple_lxor.
Qed.

Lemma gf_mul_add_r a b c : gf_mul a (gf_add b c) = gf_add (gf_mul a b) (gf_mul a c).
Proof.
  destruct (decide (a = x00)) as [->|Ha]; [done|]. pose proof (gf_log_range a Ha) as Hr.
  rewrite <- (gf_exp_log a Ha). rewrite <- (Z.mod_small (gf_log a) 255), <- (Z2Nat.id (gf_log a)) by lia.
  apply gf_mul_exp_add.
Qed.

(** The bytes form a field, in which subtraction is addition. *)
Lemma gf256_ring : ring_theory x00 x01 gf_add gf_mul gf_add (fun a => a) (@eq byte).
Proof.
  split; intros; auto using gf_add_0_l, gf_add_comm, gf_add_assoc, gf_mul_1_l, gf_mul_comm, gf_mul_assoc, gf_add_self.
  by rewrite (gf_mul_comm (gf_add x y)), gf_mul_add_r, !(gf_mul_comm z).
Qed.

(** ** Evaluation and interpolation *)

Lemma gf256_eval_spec coeffs x : gf256_eval coeffs x = eval x00 gf_add gf_mul coeffs x.
Proof.
  unfold gf256_eval. induction coeffs as [|c cs IH]; [done|]. cbn [rev eval].
  by rewrite fold_left_app, IH.
Qed.

(** The loop over a list with the indices starting at [k], skipping index [i]. *)
Lemma fraction_loop (points : list (byte * byte)) x xi i k num den :
  fold_left (fun '(num, den) '(j, (xj, _)) =>
               if Nat.eqb i j then (num, den)
               else (gf_mul num (gf_add x xj), gf_mul den (gf_add xi xj)))
    (imap (fun j p => (k + j, p)%nat) points) (num, den)
  = let rest := if decide (k <= i)%nat then delete (i - k)%nat points.*1 else points.*1 in
    (gf_mul num (root_product x01 gf_mul gf_add rest x), gf_mul den (root_product x01 gf_mul gf_add rest xi)).
Proof.
  revert k num den. induction points as [|[xj yj] points IH]; intros k num den; cbv zeta.
  { cbn. case_decide; cbn; by rewrite !(gf_mul_comm _ x01), !gf_mul_1_l. }
  rewrite imap_cons. cbn [fold_left]. rewrite Nat.add_0_r.
  assert (imap ((fun j p => ((k + j)%nat, p)) ∘ S) points = imap (fun j p => ((S k + j)%nat, p)) points) as ->
    by (apply imap_ext; intros; cbn; do 2 f_equal; lia).
  destruct (Nat.eqb_spec i k) as [->|Hik]; rewrite IH; cbv zeta.
  - rewrite decide_False, decide_True, Nat.sub_diag by lia. done.
  - destruct (decide (k <= i)%nat).
    + rewrite decide_True by lia. replace (i - k)%nat with (S (i - S k)) by lia. cbn.
      by rewrite !gf_mul_assoc.
    + rewrite decide_False by lia. cbn. by rewrite !gf_mul_assoc.
Qed.

Lemma lagrange_fraction_spec points x xi i :
  lagrange_fraction points x xi i
  = (root_product x01 gf_mul gf_add (delete i points.*1) x, root_product x01 gf_mul gf_add (delete i points.*1) xi).
Proof.
  unfold lagrange_fraction. change (imap pair points) with (imap (fun j p => (0 + j, p)%nat) points).
  rewrite fraction_loop. cbv zeta. rewrite decide_True, Nat.sub_0_r by lia. by rewrite !gf_mul_1_l.
Qed.

Lemma fold_left_same {A B} (f g : B -> A -> B) l acc :
  (forall r a, f r a = g r a) -> fold_left f l acc = fold_left g l acc.
Proof. intros H. revert acc. induction l as [|a l IH]; intros acc; [done|]. cbn. by rewrite H, IH. Qed.

Lemma fold_left_sum {A} (f : A -> byte) (l : list A) acc :
  fold_left (fun r a => gf_add r (f a)) l acc = gf_add acc (foldr gf_add x00 (f <$> l)).
Proof.
  revert acc. induction l as [|a l IH]; intros acc; cbn [fold_left].
  - cbn. by rewrite gf_add_comm, gf_add_0_l.
  - rewrite IH, fmap_cons. cbn [foldr]. by rewrite gf_add_assoc.
Qed.

(** The interpolation loop computes Lagrange's formula. *)
Lemma gf256_lagrange_spec points x :
  gf256_lagrange_interpolate points x = lagrange_sum x00 x01 gf_add gf_mul gf_add gf_inv points x.
Proof.
  unfold gf256_lagrange_interpolate, lagrange_sum.
  transitivity (gf_add x00 (foldr gf_add x00 ((fun '(i, (xi, yi)) =>
    gf_mul yi (basis x01 gf_mul gf_add gf_inv points.*1 i xi x)) <$> imap pair points))).
  - rewrite <- fold_left_sum. apply fold_left_same. intros r [i [xi yi]]. by rewrite lagrange_fraction_spec.
  - rewrite gf_add_0_l, fmap_imap. f_equal. apply imap_ext. by intros i [xi yi].
Qed.

(** Interpolating at zero the points of a polynomial gives its constant
    coefficient, from any distinct abscissae as many as coefficients. *)
Lemma interpolate_constant c cs xs :
  NoDup xs -> length xs = S (length cs) ->
  gf256_lagrange_interpolate ((fun a => (a, gf256_eval (c :: cs) a)) <$> xs) x00 = c.
Proof.
  intros Hnd Hl. rewrite gf256_lagrange_spec.
  rewrite (list_fmap_ext _ (fun a => (a, eval x00 gf_add gf_mul (c :: cs) a))) by
    (intros; by rewrite gf256_eval_spec).
  rewrite (lagrange_recovers x00 x01 gf_add gf_mul gf_add (fun a => a) gf_inv gf256_ring gf_mul_inv_r) by done.
  cbn [eval]. by rewrite gf_mul_0_r, gf_add_0_l.
Qed.
