(* ===== verification/Shamir.v ===== *)
(** * Shamir: sharing of the master secret
    (core-crypto/src/crypto/shamir.rs)

    Splitting into shares and reconstruction over GF(2^8), and the layer with
    metadata: a keyed tag per share and the hash of the secret as a reference.
    The random coefficients are an argument, indexed by the byte of the secret
    and the power.  An index out of range and a capacity overflow are panics;
    [usize] subtraction wraps, as in a release build. *)

From S2P Require Import Prelude Error Primitives Kem Toy Interpolation Gf256.

Record ShamirShare := {
  share_index : byte;
  threshold : byte;
  total : byte;
  timestamp : Z;
  share_data : bytes;
  share_mac : bytes;
  verify_key : bytes;
  secret_hash : bytes
}.

(** ** Splitting *)

(** The coefficients for byte [i] of the secret: the byte, then [k - 1] random
    ones. *)
Definition secret_coeffs (coins : nat -> nat -> byte) (k : Z) (i : nat) (b : byte) : bytes :=
  b :: map (coins i) (seq 1 (Z.to_nat k - 1)).

(** The x-coordinate of the share at position [idx]. *)
Definition share_x (idx : nat) : byte := byte_of_Z (Z.of_nat idx + 1).

(** One turn of the loop over the secret: a point is pushed on every share. *)
Definition push_points (coeffs : bytes) (shares : list bytes) : list bytes :=
  imap (fun idx share => share ++ [gf256_eval coeffs (share_x idx)]) shares.

Definition split_secret_shamir (coins : nat -> nat -> byte) (secret : bytes) (k n : Z) : kres (list bytes) :=
  if (k =? 0) || (n =? 0) || (n <? k) || (255 <? k) || (255 <? n)
  then Err (CryptoError "Invalid k-of-n threshold parameters (k,n must be 1..=255, k <= n)")
  else
    let shares := map (fun idx => [share_x idx; byte_of_Z k]) (seq 0 (Z.to_nat n)) in
    Ok (fold_left (fun shares '(i, b) => push_points (secret_coeffs coins k i b) shares) (imap pair secret) shares).

(** ** Reconstruction *)

(** [share[i]]. *)
Definition index_share (share : bytes) (i : nat) : kres byte :=
  match share !! i with Some b => Ok b | None => Panic "index out of bounds" end.

Definition byte_le (a b : byte) : Prop := Z_of_byte a <= Z_of_byte b.
#[export] Instance byte_le_dec : RelDecision byte_le.
Proof. intros a b. unfold byte_le. apply _. Defined.

(** Whether two neighbours of the sorted list are equal. *)
Fixpoint adjacent_equal (l : bytes) : bool :=
  match l with
  | x :: ((y :: _) as l') => (Z_of_byte x =? Z_of_byte y) || adjacent_equal l'
  | _ => false
  end.

(** The largest capacity of a vector of bytes. *)
Definition isize_max : Z := 2 ^ 63 - 1.

Definition reconstruct_byte (shares : list bytes) (byte_idx : nat) : kres byte :=
  points ← mapM (fun share => x ← index_share share 0; y ← index_share share (byte_idx + 2); Ok (x, y)) shares;
  Ok (gf256_lagrange_interpolate points x00).

Definition reconstruct_secret_shamir (shares : list bytes) (k : Z) : kres bytes :=
  match shares with
  | [] => Err (CryptoError "Insufficient shares to reconstruct secret")
  | first :: _ =>
      if len shares <? k then Err (CryptoError "Insufficient shares to reconstruct secret")
      else
        let secret_len := wrap64 (len first - 2) in
        if secret_len =? 0 then Err (CryptoError "Share data too short")
        else if existsb (fun share => negb (len share =? len first)) shares
        then Err (CryptoError "Share length mismatch — shares must be from the same split")
        else
          let subset := take (Z.to_nat k) shares in
          x_coords ← mapM (fun share => index_share share 0) subset;
          if adjacent_equal (merge_sort byte_le x_coords)
          then Err (CryptoError "Duplicate x coordinate in shares — share set is invalid")
          else if isize_max <? secret_len then Panic "capacity overflow"
          else mapM (reconstruct_byte subset) (seq 0 (Z.to_nat secret_len))
  end.

(** ** Shares with metadata *)

Section Meta.
Context `{P : Primitives}.

Definition compute_secret_hash (master_secret : bytes) : bytes := sha256 master_secret.

Definition derive_share_mac_key (vk : bytes) : bytes :=
  match hkdf_expand (Some (bstr "kyberpipe-shamir-hmac-v2")) vk (bstr "share-integrity") 32 with
  | Ok okm => okm
  | _ => zeros32
  end.

Definition mac_input (share : ShamirShare) : bytes :=
  [share_index share; threshold share; total share] ++ be_bytes 8 (timestamp share) ++ share_data share.

Definition compute_share_mac (vk : bytes) (share : ShamirShare) : bytes :=
  hmac_sha256 (derive_share_mac_key vk) (mac_input share).

Definition with_mac (share : ShamirShare) (m : bytes) : ShamirShare := {|
  share_index := share_index share; threshold := threshold share; total := total share;
  timestamp := timestamp share; share_data := share_data share; share_mac := m;
  verify_key := verify_key share; secret_hash := secret_hash share |}.

(** [now] and [vk]: the clock and the fresh verification key. *)
Definition make_share (now : Z) (vk hash : bytes) (k n : Z) (i : nat) (data : bytes) : ShamirShare :=
  let share := {|
    share_index := byte_of_Z (Z.of_nat i); threshold := byte_of_Z k; total := byte_of_Z n;
    timestamp := now; share_data := data; share_mac := zeros32; verify_key := vk; secret_hash := hash |} in
  with_mac share (compute_share_mac vk share).

Definition split_secret_shamir_with_meta (coins : nat -> nat -> byte) (now : Z) (vk secret : bytes) (k n : Z)
  : kres (list ShamirShare) :=
  shares ← split_secret_shamir coins secret k n;
  Ok (imap (make_share now vk (compute_secret_hash secret) k n) shares).

Definition verify_share_public (share : ShamirShare) : bool :=
  let x := Z_of_byte (default x00 (head (share_data share))) in
  if negb (x =? Z.min 255 (Z_of_byte (share_index share) + 1)) then false
  else if eqb_dec (secret_hash share) zeros32 || eqb_dec (verify_key share) zeros32 then false
  else eqb_dec (compute_share_mac (verify_key share) share) (share_mac share).

Definition verify_share_with_key (share : ShamirShare) (master_secret : bytes) : bool :=
  if negb (verify_share_public share) then false
  else eqb_dec (compute_secret_hash master_secret) (secret_hash share).

(** The checks on one share of the subset, against the first. *)
Definition check_share (first share : ShamirShare) : kres unit :=
  if negb (eqb_dec (secret_hash share) (secret_hash first)) || negb (eqb_dec (verify_key share) (verify_key first))
  then Err (CryptoError "Share set is inconsistent — shares come from different splits or were substituted")
  else if negb (Z_of_byte (threshold share) =? Z_of_byte (threshold first))
          || negb (Z_of_byte (total share) =? Z_of_byte (total first))
  then Err (CryptoError "Share metadata mismatch (threshold/total) — corrupted share")
  else if negb (verify_share_public share)
  then Err (CryptoError "Share {} failed integrity verification — corrupted or forged")
  else Ok tt.

Definition reconstruct_shamir_with_meta (shares : list ShamirShare) (k : Z) : kres bytes :=
  if (k =? 0) || (len shares <? k) then Err (CryptoError "Insufficient shares to reconstruct secret")
  else
    let subset := take (Z.to_nat k) shares in
    match subset with
    | [] => Panic "index out of bounds"
    | first :: _ =>
        _ ← mapM (check_share first) subset;
        recovered ← reconstruct_secret_shamir (share_data <$> subset) k;
        if negb (eqb_dec (compute_secret_hash recovered) (secret_hash first))
        then Err (CryptoError "Reconstructed secret failed hash verification — a share was corrupted or substituted")
        else Ok recovered
    end.

End Meta.

(** ** Lemmas *)

Lemma mapM_ok {A B} (f : A -> kres B) (g : A -> B) l :
  (forall a, a ∈ l -> f a = Ok (g a)) -> mapM f l = Ok (g <$> l).
Proof.
  induction l as [|a l IH]; intros H; [done|]. cbn [mapM]. rewrite (H a) by set_solver.
  cbn. rewrite IH by set_solver. done.
Qed.

(** The share at position [idx], in closed form. *)
Definition share_at (coins : nat -> nat -> byte) (k : Z) (secret : bytes) (idx : nat) : bytes :=
  share_x idx :: byte_of_Z k :: imap (fun i b => gf256_eval (secret_coeffs coins k i b) (share_x idx)) secret.

Lemma split_loop coins k (pairs : list (nat * byte)) (f : nat -> bytes) n :
  fold_left (fun shares '(i, b) => push_points (secret_coeffs coins k i b) shares) pairs (map f (seq 0 n))
  = map (fun idx => f idx ++ ((fun '(i, b) => gf256_eval (secret_coeffs coins k i b) (share_x idx)) <$> pairs)) (seq 0 n).
Proof.
  revert f. induction pairs as [|[i b] pairs IH]; intros f.
  - cbn. apply map_ext. intros. by rewrite app_nil_r.
  - cbn [fold_left].
    assert (push_points (secret_coeffs coins k i b) (map f (seq 0 n))
            = map (fun idx => f idx ++ [gf256_eval (secret_coeffs coins k i b) (share_x idx)]) (seq 0 n)) as ->.
    { unfold push_points. change (map f) with (fmap (M := list) f). rewrite imap_fmap.
      apply list_eq. intros j. rewrite list_lookup_imap.
      change (map (fun idx => f idx ++ ?x) (seq 0 n)) with ((fun idx => f idx ++ x) <$> seq 0 n).
      rewrite list_lookup_fmap. destruct (seq 0 n !! j) as [idx|] eqn:E; [|done]. cbn.
      apply lookup_seq in E as [-> _]. done. }
    rewrite IH. apply map_ext. intros idx. by rewrite fmap_cons, <- app_assoc.
Qed.

Lemma split_closed coins secret k n :
  1 <= k <= n -> n <= 255 ->
  split_secret_shamir coins secret k n = Ok (share_at coins k secret <$> seq 0 (Z.to_nat n)).
Proof.
  intros Hk Hn. unfold split_secret_shamir.
  rewrite !(proj2 (Z.eqb_neq _ _)), !(proj2 (Z.ltb_ge _ _)) by lia. cbn [orb]. f_equal.
  rewrite split_loop. apply list_fmap_ext. intros _ idx _. unfold share_at. cbn. do 2 f_equal. by rewrite fmap_imap.
Qed.

Lemma split_ok coins secret k n shares :
  0 <= k -> split_secret_shamir coins secret k n = Ok shares ->
  1 <= k <= n /\ n <= 255 /\ shares = share_at coins k secret <$> seq 0 (Z.to_nat n).
Proof.
  intros Hk E. assert (1 <= k <= n /\ n <= 255) as [H1 H2].
  { unfold split_secret_shamir in E. destruct (_ || _ || _ || _ || _) eqn:Eg; [done|]. zify_bool. lia. }
  rewrite split_closed in E by done. by injection E as <-.
Qed.

Lemma share_x_inj i j : (i < 255)%nat -> (j < 255)%nat -> share_x i = share_x j -> i = j.
Proof.
  unfold share_x. intros Hi Hj E. apply (f_equal Z_of_byte) in E.
  rewrite !Z_of_byte_of_Z, !Z.mod_small in E by lia. lia.
Qed.

Lemma share_at_inj coins k secret i j :
  (i < 255)%nat -> (j < 255)%nat -> share_at coins k secret i = share_at coins k secret j -> i = j.
Proof. intros Hi Hj E. injection E as E _. by apply share_x_inj. Qed.

Lemma len_share_at coins k secret idx : len (share_at coins k secret idx) = len secret + 2.
Proof. unfold share_at. rewrite !len_cons. unfold len. rewrite length_imap. lia. Qed.

Lemma share_at_lookup coins k secret idx i b :
  secret !! i = Some b ->
  share_at coins k secret idx !! (i + 2)%nat = Some (gf256_eval (secret_coeffs coins k i b) (share_x idx)).
Proof.
  intros Hb. replace (i + 2)%nat with (S (S i)) by lia. unfold share_at. rewrite !lookup_cons.
  by rewrite list_lookup_imap, Hb.
Qed.

(** A list drawn from the image of [l] is the image of a list drawn from [l]. *)
Lemma selection {A B} (f : A -> B) (l : list A) (sel : list B) :
  Forall (fun b => b ∈ f <$> l) sel -> exists l', sel = f <$> l' /\ Forall (fun a => a ∈ l) l'.
Proof.
  induction 1 as [|b sel Hb _ (l' & -> & Hl)]; [by exists []|].
  apply list_elem_of_fmap in Hb as (a & -> & Ha). exists (a :: l'). split; [done|by constructor].
Qed.

Lemma adjacent_equal_spec l : adjacent_equal l = true -> ~ NoDup l.
Proof.
  induction l as [|x [|y l] IH]; [done|done|]. cbn [adjacent_equal]. rewrite orb_true_iff, NoDup_cons.
  intros [H|H] [Hx Hnd]; [|by apply IH]. apply Z.eqb_eq, Z_of_byte_inj in H. subst. apply Hx. set_solver.
Qed.

Lemma distinct_accepted (l : bytes) : NoDup l -> adjacent_equal (merge_sort byte_le l) = false.
Proof.
  intros H. apply not_true_is_false. intros E%adjacent_equal_spec. apply E. by rewrite merge_sort_Permutation.
Qed.

(** One byte, from [k] distinct shares. *)
Lemma reconstruct_byte_ok coins k secret idxs i b :
  1 <= k -> NoDup (share_x <$> idxs) -> length idxs = Z.to_nat k -> secret !! i = Some b ->
  reconstruct_byte (share_at coins k secret <$> idxs) i = Ok b.
Proof.
  intros Hk Hnd Hl Hb. unfold reconstruct_byte.
  rewrite (mapM_ok _ (fun s => (default x00 (s !! 0%nat), default x00 (s !! (i + 2)%nat)))); cbn [mbind result_bind].
  - f_equal. rewrite <- list_fmap_compose.
    rewrite (list_fmap_ext _ ((fun a => (a, gf256_eval (secret_coeffs coins k i b) a)) ∘ share_x)).
    + rewrite list_fmap_compose. apply interpolate_constant; [done|].
      rewrite length_fmap, length_map, length_seq. lia.
    + intros _ idx _. cbv beta delta [compose]. by rewrite (share_at_lookup _ _ _ _ _ _ Hb).
  - intros s (idx & -> & _)%list_elem_of_fmap. unfold index_share.
    by rewrite (share_at_lookup _ _ _ _ _ _ Hb).
Qed.

Lemma reconstruct_selected coins k secret idxs :
  1 <= k -> (Z.to_nat k <= length idxs)%nat -> NoDup idxs -> Forall (fun i => i < 255)%nat idxs ->
  secret <> [] -> len secret <= isize_max ->
  reconstruct_secret_shamir (share_at coins k secret <$> idxs) k = Ok secret.
Proof.
  intros Hk Hl Hnd Hr Hs Hm.
  destruct idxs as [|i0 idxs0] eqn:Ei; [simpl in Hl; lia|]. rewrite <- Ei in *.
  assert (exists rest, share_at coins k secret <$> idxs = share_at coins k secret i0 :: rest) as [rest Er] by (subst; eauto).
  unfold reconstruct_secret_shamir. rewrite Er at 1. rewrite !len_share_at.
  assert (len (share_at coins k secret <$> idxs) = Z.of_nat (length idxs)) as -> by (unfold len; by rewrite length_fmap).
  rewrite (proj2 (Z.ltb_ge _ _)) by lia.
  assert (0 < len secret) by (unfold len; destruct secret; [done|simpl; lia]).
  replace (wrap64 (len secret + 2 - 2)) with (len secret)
    by (unfold wrap64, isize_max in *; rewrite Z.mod_small; lia).
  rewrite (proj2 (Z.eqb_neq _ _)) by lia.
  replace (existsb _ _) with false; cycle 1.
  { symmetry. apply not_true_is_false. intros (s & Hin & Hs')%existsb_exists.
    apply list_elem_of_In, list_elem_of_fmap in Hin as (idx & -> & _). rewrite len_share_at, Z.eqb_refl in Hs'. done. }
  rewrite <- fmap_take. set (sub := take (Z.to_nat k) idxs).
  assert (NoDup (share_x <$> sub)) as Hx.
  { apply NoDup_fmap_2_strong; [|eapply sublist_NoDup; [exact Hnd|apply sublist_take]].
    rewrite Forall_forall in Hr. intros a b Ha Hb. apply share_x_inj; apply Hr; eapply subseteq_take; done. }
  assert (length sub = Z.to_nat k) as Hsub by (subst sub; rewrite length_take; lia).
  rewrite (mapM_ok (fun share => index_share share 0) (fun s : bytes => default x00 (s !! 0%nat))); cbn [mbind result_bind];
    [|by intros s (idx & -> & _)%list_elem_of_fmap].
  rewrite <- list_fmap_compose. rewrite (list_fmap_ext _ share_x) by done.
  rewrite distinct_accepted, (proj2 (Z.ltb_ge _ _)) by done.
  rewrite (mapM_ok _ (fun i => default x00 (secret !! i))).
  - f_equal. apply list_eq. intros j. rewrite list_lookup_fmap. unfold len in *. rewrite Nat2Z.id.
    destruct (decide (j < length secret)%nat).
    + rewrite lookup_seq_lt by done. cbn. by destruct (lookup_lt_is_Some_2 secret j) as [b ->].
    + rewrite lookup_seq_ge, lookup_ge_None_2 by lia. done.
  - intros i [_ Hi]%elem_of_seq. unfold len in Hi. rewrite Nat2Z.id in Hi.
    destruct (lookup_lt_is_Some_2 secret i Hi) as [b Hb]. rewrite Hb. by apply reconstruct_byte_ok.
Qed.

(** ** Any secret fits fewer than [k] shares *)

Lemma list_choice {A B} (R : nat -> A -> B -> Prop) (l : list A) :
  (forall i a, l !! i = Some a -> exists b, R i a b) ->
  exists l' : list B, forall i a, l !! i = Some a -> exists b, l' !! i = Some b /\ R i a b.
Proof.
  revert R. induction l as [|a l IH]; intros R H; [by exists []|].
  destruct (H 0%nat a eq_refl) as [b Hb]. destruct (IH (fun i => R (S i))) as [l' Hl]; [intros i; apply (H (S i))|].
  exists (b :: l'). intros [|i] a' Ha; [|by apply Hl]. simplify_eq/=. eauto.
Qed.

(** A polynomial with [n] coefficients through at most [n] points. *)
Lemma poly_through (points : list (byte * byte)) (n : nat) :
  NoDup points.*1 -> (length points <= n)%nat ->
  exists cs, length cs = n /\ forall x y, (x, y) ∈ points -> gf256_eval cs x = y.
Proof.
  intros Hnd Hl. pose proof gf256_ring as Hr.
  assert (poly x00 gf_add gf_mul n (lagrange_sum x00 x01 gf_add gf_mul gf_add gf_inv points)) as (cs & Hc & He).
  { induction Hl as [|n Hl IH]; [by apply lagrange_poly with (opp := fun a => a)|by eapply poly_widen]. }
  exists cs. split; [done|]. intros x y (i & Hi)%list_elem_of_lookup.
  rewrite gf256_eval_spec, <- He. eapply lagrange_hits; [exact gf256_ring|exact gf_mul_inv_r|done|exact Hnd|exact Hi].
Qed.

Lemma share_x_nonzero i : (i < 255)%nat -> share_x i <> x00.
Proof.
  intros Hi E. apply (f_equal Z_of_byte) in E. unfold share_x in E. rewrite Z_of_byte_of_Z, Z.mod_small in E by lia.
  change (Z_of_byte x00) with 0 in E. lia.
Qed.

(** The coefficients that explain the points held by [sel] for another byte. *)
Lemma other_coeffs (k : Z) (sel : list nat) (f : byte -> byte) (b : byte) :
  1 <= k -> Z.of_nat (length sel) < k -> NoDup sel -> Forall (fun i => i < 255)%nat sel ->
  exists cs, length cs = (Z.to_nat k - 1)%nat
             /\ forall idx, idx ∈ sel -> gf256_eval (b :: cs) (share_x idx) = f (share_x idx).
Proof.
  intros Hk Hl Hnd Hr. rewrite Forall_forall in Hr.
  set (points := (x00, b) :: ((fun idx => (share_x idx, f (share_x idx))) <$> sel)).
  destruct (poly_through points (Z.to_nat k)) as (cs & Hc & He).
  - subst points. rewrite fmap_cons, <- list_fmap_compose. cbn [fst]. apply NoDup_cons. split.
    + intros (i & Hi & Hin)%list_elem_of_fmap. by eapply share_x_nonzero; [apply Hr|].
    + apply NoDup_fmap_2_strong; [|done]. intros i j Hi Hj. apply share_x_inj; by apply Hr.
  - subst points. cbn [length]. rewrite length_fmap. lia.
  - destruct cs as [|c cs]; [simpl in Hc; lia|]. assert (c = b) as ->.
    { specialize (He x00 b ltac:(subst points; set_solver)). rewrite gf256_eval_spec in He. cbn [eval] in He.
      by rewrite gf_mul_0_r, gf_add_0_l in He. }
    exists cs. split; [simpl in Hc; lia|]. intros idx Hi. apply He. subst points. apply list_elem_of_further.
    apply list_elem_of_fmap. eauto.
Qed.

(** Coins that produce given coefficient lists. *)
Definition coins_of (css : list bytes) (i j : nat) : byte := nth (j - 1) (default [] (css !! i)) x00.

Lemma coins_of_coeffs css k i b cs :
  css !! i = Some cs -> length cs = (Z.to_nat k - 1)%nat -> secret_coeffs (coins_of css) k i b = b :: cs.
Proof.
  intros Hi Hc. unfold secret_coeffs. f_equal. apply list_eq. intros j.
  change (map ?f (seq ?a ?m)) with (f <$> seq a m). rewrite list_lookup_fmap. unfold coins_of.
  destruct (decide (j < length cs)%nat) as [Hj|Hj].
  - rewrite lookup_seq_lt by lia. cbn. rewrite Hi, Nat.sub_0_r. cbn.
    destruct (lookup_lt_is_Some_2 cs j Hj) as [c Hcj]. rewrite Hcj. f_equal. by apply nth_lookup_Some.
  - rewrite lookup_seq_ge, (lookup_ge_None_2 cs) by lia. done.
Qed.

(** C32: fewer than [k] shares say nothing about the secret: for every other
    secret of the same length there are coefficients for which the split is
    defined and gives the same holders exactly the same shares. *)
Theorem shamir_secrecy coins secret secret' k n shares sel :
  0 <= k -> split_secret_shamir coins secret k n = Ok shares -> length secret' = length secret ->
  NoDup sel -> Forall (fun i => Z.of_nat i < n) sel -> Z.of_nat (length sel) < k ->
  exists coins' shares',
    split_secret_shamir coins' secret' k n = Ok shares' /\ Forall (fun i => shares' !! i = shares !! i) sel.
Proof.
  intros Hk E Hlen Hnd Hr Hl. destruct (split_ok _ _ _ _ _ Hk E) as (Hkn & Hn & ->).
  destruct (list_choice (fun i b' cs => length cs = (Z.to_nat k - 1)%nat /\ forall b, secret !! i = Some b ->
     forall idx, idx ∈ sel ->
       gf256_eval (b' :: cs) (share_x idx) = gf256_eval (secret_coeffs coins k i b) (share_x idx)) secret') as [css Hcss].
  { intros i b' Hb'. destruct (lookup_lt_is_Some_2 secret i) as [b Hb]; [rewrite <- Hlen; by eapply lookup_lt_Some|].
    destruct (other_coeffs k sel (gf256_eval (secret_coeffs coins k i b)) b') as (cs & Hc & He);
      [lia|done|done|eapply Forall_impl; [done|]; cbn; lia|].
    exists cs. split; [done|]. intros b0 Hb0 idx Hi. simplify_eq. by apply He. }
  exists (coins_of css), (share_at (coins_of css) k secret' <$> seq 0 (Z.to_nat n)).
  split; [by apply split_closed|]. apply Forall_forall. intros idx Hi.
  rewrite Forall_forall in Hr. specialize (Hr idx Hi).
  rewrite !list_lookup_fmap, lookup_seq_lt by lia. cbn [fmap option_fmap option_map]. f_equal.
  unfold share_at. do 2 f_equal. apply list_eq. intros i. rewrite !list_lookup_imap.
  destruct (secret' !! i) as [b'|] eqn:Hb'.
  - destruct (lookup_lt_is_Some_2 secret i) as [b Hb]; [rewrite <- Hlen; by eapply lookup_lt_Some|].
    destruct (Hcss i b' Hb') as (cs & Hi' & Hc & He). rewrite Hb. cbn [fmap option_fmap option_map]. f_equal.
    rewrite (coins_of_coeffs css k i b' cs) by done. by apply He.
  - apply lookup_ge_None in Hb'. by rewrite (lookup_ge_None_2 secret) by lia.
Qed.

(** ** Shares with metadata *)

Section MetaProps.
Context `{P : Primitives}.

Definition meta_at (coins : nat -> nat -> byte) (now : Z) (vk secret : bytes) (k n : Z) (idx : nat) : ShamirShare :=
  make_share now vk (compute_secret_hash secret) k n idx (share_at coins k secret idx).

Lemma split_meta_ok coins now vk secret k n shares :
  0 <= k -> split_secret_shamir_with_meta coins now vk secret k n = Ok shares ->
  1 <= k <= n /\ n <= 255 /\ shares = meta_at coins now vk secret k n <$> seq 0 (Z.to_nat n).
Proof.
  unfold split_secret_shamir_with_meta. intros Hk.
  destruct (split_secret_shamir coins secret k n) as [raw| |] eqn:E; cbn; [|done..]. intros [= <-].
  destruct (split_ok _ _ _ _ _ Hk E) as (Hkn & Hn & ->). split_and!; try lia.
  rewrite imap_fmap. apply list_eq. intros j. rewrite list_lookup_imap, list_lookup_fmap.
  destruct (seq 0 (Z.to_nat n) !! j) as [idx|] eqn:Ej; [|done]. by apply lookup_seq in Ej as [-> _].
Qed.

(** A share tagged with the key it carries verifies. *)
Lemma tagged_verifies share :
  Z_of_byte (default x00 (head (share_data share))) = Z.min 255 (Z_of_byte (share_index share) + 1) ->
  secret_hash share <> zeros32 -> verify_key share <> zeros32 ->
  verify_share_public (with_mac share (compute_share_mac (verify_key share) share)) = true.
Proof.
  intros Hx Hs Hv. unfold verify_share_public, eqb_dec.
  change (share_data (with_mac share ?m)) with (share_data share).
  change (share_index (with_mac share ?m)) with (share_index share).
  change (secret_hash (with_mac share ?m)) with (secret_hash share).
  change (verify_key (with_mac share ?m)) with (verify_key share).
  rewrite Hx, Z.eqb_refl. cbn [negb]. rewrite !(bool_decide_false (_ = zeros32)) by done. cbn [orb].
  by apply bool_decide_true.
Qed.

Lemma meta_verifies coins now vk secret k n idx :
  (idx < 255)%nat -> vk <> zeros32 -> sha256 secret <> zeros32 ->
  verify_share_public (meta_at coins now vk secret k n idx) = true.
Proof.
  intros Hi Hv Hs. apply tagged_verifies; [|done..]. change (Z_of_byte (share_x idx) = Z.min 255 (Z_of_byte (byte_of_Z (Z.of_nat idx)) + 1)).
  unfold share_x. rewrite !Z_of_byte_of_Z, !Z.mod_small by lia. lia.
Qed.

Lemma mapM_unit {A} (f : A -> kres unit) l : (forall a, a ∈ l -> f a = Ok tt) -> exists us, mapM f l = Ok us.
Proof. intros H. eexists. by apply (mapM_ok f (fun _ => tt)). Qed.

(** Any [k] distinct shares of a split, in any order and with any others
    after them, reconstruct the secret. *)
Theorem shamir_recovers coins now vk secret k n shares sel :
  0 <= k -> split_secret_shamir_with_meta coins now vk secret k n = Ok shares ->
  vk <> zeros32 -> sha256 secret <> zeros32 -> 0 < len secret <= isize_max ->
  NoDup sel -> Forall (fun s => s ∈ shares) sel -> k <= len sel ->
  reconstruct_shamir_with_meta sel k = Ok secret.
Proof.
  intros Hk E Hv Hs Hm Hnd Hsel Hl. destruct (split_meta_ok _ _ _ _ _ _ _ Hk E) as (Hkn & Hn & ->).
  destruct (selection _ _ _ Hsel) as (idxs & -> & Hidx). apply NoDup_fmap_1 in Hnd.
  assert (Forall (fun i => i < 255)%nat idxs) as Hr
    by (eapply Forall_impl; [exact Hidx|]; cbn; intros i [_ Hi]%elem_of_seq; lia).
  unfold len in Hl. rewrite length_fmap in Hl.
  unfold reconstruct_shamir_with_meta. rewrite (proj2 (Z.eqb_neq _ _)) by lia.
  unfold len. rewrite length_fmap, (proj2 (Z.ltb_ge _ _)) by lia. cbn [orb]. rewrite <- fmap_take.
  set (sub := take (Z.to_nat k) idxs).
  assert (Forall (fun i => i < 255)%nat sub) as Hrs by (by apply Forall_take).
  assert (length sub = Z.to_nat k) as Hsub by (subst sub; rewrite length_take; lia).
  assert (NoDup sub) by (eapply sublist_NoDup; [exact Hnd|apply sublist_take]).
  destruct sub as [|i0 sub0] eqn:Es; [simpl in Hsub; lia|]. rewrite <- Es in *. rewrite Es at 1. cbn [fmap list_fmap].
  destruct (mapM_unit (check_share (meta_at coins now vk secret k n i0)) (meta_at coins now vk secret k n <$> sub))
    as [us Hus].
  { intros s (idx & -> & Hin)%list_elem_of_fmap. rewrite Forall_forall in Hrs. unfold check_share.
    rewrite meta_verifies by auto. cbn. unfold eqb_dec. rewrite !bool_decide_true, !Z.eqb_refl by done. done. }
  rewrite Hus. cbn [mbind result_bind]. rewrite <- list_fmap_compose.
  change (share_data ∘ meta_at coins now vk secret k n) with (share_at coins k secret).
  rewrite reconstruct_selected; cbn [mbind result_bind]; try done; try lia.
  - unfold eqb_dec. by rewrite bool_decide_true.
  - intros ->. unfold len in Hm. simpl in Hm. lia.
Qed.

Lemma mapM_check first l us s :
  mapM (check_share first) l = Ok us -> s ∈ l ->
  secret_hash s = secret_hash first /\ verify_key s = verify_key first /\ verify_share_public s = true.
Proof.
  revert us. induction l as [|a l IH]; intros us E; [set_solver|]. cbn [mapM] in E.
  destruct (check_share first a) as [[]| |] eqn:Ea; cbn in E; [|done..].
  destruct (mapM (check_share first) l) as [us'| |] eqn:El; cbn in E; [|done..].
  intros [->|Hin]%elem_of_cons; [|by eapply IH]. clear IH El E. unfold check_share, eqb_dec in Ea.
  repeat case_match; zify_bool; try done. rewrite !bool_decide_eq_true in *. done.
Qed.

(** A reconstruction that succeeds is authentic: each of the [k] shares it
    used verifies, all carry the same reference, and the secret returned hashes
    to it. *)
Theorem shamir_tamper_evident shares k secret :
  reconstruct_shamir_with_meta shares k = Ok secret ->
  k <= len shares /\
  Forall (fun s => verify_share_public s = true /\ secret_hash s = compute_secret_hash secret)
         (take (Z.to_nat k) shares).
Proof.
  unfold reconstruct_shamir_with_meta. destruct (_ || _) eqn:Eg; [done|]. zify_bool.
  destruct (take (Z.to_nat k) shares) as [|first rest] eqn:Et; [done|].
  destruct (mapM (check_share first) (first :: rest)) as [us| |] eqn:Em; cbn [mbind result_bind]; [|done..].
  destruct (reconstruct_secret_shamir _ k) as [s| |]; cbn [mbind result_bind]; [|done..].
  destruct (negb _) eqn:Eh; [done|]. intros [= ->]. split; [lia|]. zify_bool. unfold eqb_dec in Eh.
  apply bool_decide_eq_true in Eh. apply Forall_forall. intros s Hs.
  destruct (mapM_check _ _ _ _ Em Hs) as (H1 & _ & H2). split; [done|]. congruence.
Qed.

(** A share with no point, its tag made with the public key it carries. *)
Definition pointless_share (i : byte) (vk hash : bytes) : ShamirShare :=
  let share := {|
    share_index := i; threshold := x01; total := x01; timestamp := 0;
    share_data := [byte_of_Z (Z_of_byte i + 1)]; share_mac := zeros32; verify_key := vk; secret_hash := hash |} in
  with_mac share (compute_share_mac vk share).

(** A share whose data is the x-coordinate alone passes the public verifier
    (its tag needs no secret) and makes the reconstruction panic. *)
Theorem pointless_share_panics i vk hash :
  Z_of_byte i < 255 -> vk <> zeros32 -> hash <> zeros32 ->
  verify_share_public (pointless_share i vk hash) = true
  /\ reconstruct_shamir_with_meta [pointless_share i vk hash] 1 = Panic "capacity overflow".
Proof.
  intros Hi Hv Hh. pose proof (Z_of_byte_range i).
  assert (verify_share_public (pointless_share i vk hash) = true) as Hp.
  { apply tagged_verifies; [|done..]. change (Z_of_byte (byte_of_Z (Z_of_byte i + 1)) = Z.min 255 (Z_of_byte i + 1)).
    rewrite Z_of_byte_of_Z, Z.mod_small by lia. lia. }
  split; [done|]. unfold reconstruct_shamir_with_meta.
  change (take (Z.to_nat 1) [?s]) with [s].
  assert (check_share (pointless_share i vk hash) (pointless_share i vk hash) = Ok tt) as Hc.
  { unfold check_share. rewrite Hp, !Z.eqb_refl. unfold eqb_dec. by rewrite !bool_decide_true. }
  cbn [mapM]. rewrite Hc. reflexivity.
Qed.

End MetaProps.

(** ** Witnesses *)

Import Toy.

#[export] Instance ShamirShare_eq_dec : EqDecision ShamirShare.
Proof. solve_decision. Defined.

Definition demo_secret : bytes := bstr "key".
Definition demo_coins (i j : nat) : byte := byte_of_Z (Z.of_nat i * 7 + Z.of_nat j * 13 + 1).
Definition demo_key : bytes := replicate 32 x01.
Definition demo_shares : list ShamirShare :=
  match split_secret_shamir_with_meta demo_coins 1000 demo_key demo_secret 2 3 with Ok l => l | _ => [] end.
Definition demo_raw : list bytes :=
  match split_secret_shamir demo_coins demo_secret 2 3 with Ok l => l | _ => [] end.
(** The third share, then the first. *)
Definition demo_pick : list ShamirShare := drop 2 demo_shares ++ take 1 demo_shares.

Lemma shamir_recovers_witness : reconstruct_shamir_with_meta demo_pick 2 = Ok demo_secret.
Proof.
  apply (shamir_recovers demo_coins 1000 demo_key demo_secret 2 3 demo_shares demo_pick).
  - lia.
  - by vm_compute.
  - by apply (bool_decide_eq_true_1 (demo_key <> zeros32)); vm_compute.
  - by apply (bool_decide_eq_true_1 (sha256 demo_secret <> zeros32)); vm_compute.
  - by vm_compute.
  - by apply (bool_decide_eq_true_1 (NoDup demo_pick)); vm_compute.
  - by apply (bool_decide_eq_true_1 (Forall (fun s => s ∈ demo_shares) demo_pick)); vm_compute.
  - by vm_compute.
Defined.

Lemma shamir_tamper_evident_witness :
  Forall (fun s => verify_share_public s = true /\ secret_hash s = compute_secret_hash demo_secret) demo_pick.
Proof. apply (shamir_tamper_evident demo_pick 2 demo_secret). by vm_compute. Defined.

Lemma shamir_secrecy_witness :
  exists coins' shares',
    split_secret_shamir coins' (bstr "fob") 2 3 = Ok shares'
    /\ Forall (fun i => shares' !! i = demo_raw !! i) [1%nat].
Proof.
  apply (shamir_secrecy demo_coins demo_secret (bstr "fob") 2 3 demo_raw [1%nat]).
  - lia.
  - by vm_compute.
  - reflexivity.
  - apply NoDup_singleton.
  - repeat constructor.
  - reflexivity.
Defined.

Lemma pointless_share_panics_witness :
  reconstruct_shamir_with_meta [pointless_share x00 demo_key demo_key] 1 = Panic "capacity overflow".
Proof.
  apply (pointless_share_panics x00 demo_key demo_key); [reflexivity| |];
    by apply (bool_decide_eq_true_1 (demo_key <> zeros32)); vm_compute.
Defined.
