(* ===== verification/SessionHandle.v ===== *)
(** * SessionHandle: opaque handles to session keys
    (core-crypto/src/session_handle.rs, and [check_generation] of destruct.rs)

    The registry behind one mutex: keys and fingerprints by handle, the order
    of use, the pinned handles, with the handle counter and the self-destruct
    generation beside it.  Every operation is one critical section.  The nonce
    of an encryption is an argument (the bytes the generator returned). *)

From S2P Require Import Prelude Error Primitives Aead Kem Toy.

Definition MAX_SESSION_KEYS : Z := 256.

Record SessionRegistry := {
  keys : gmap Z bytes;
  fingerprints : gmap Z bytes;
  lru : list Z;
  pinned : gset Z;
  next_handle : Z;
  destruct_generation : Z
}.

Definition eta_handles (r : SessionRegistry) : SessionRegistry := {|
  keys := keys r; fingerprints := fingerprints r; lru := lru r; pinned := pinned r;
  next_handle := next_handle r; destruct_generation := destruct_generation r |}.
#[export] Instance upd_keys : Update keys. Proof. solve_update eta_handles keys. Defined.
#[export] Instance upd_fingerprints : Update fingerprints. Proof. solve_update eta_handles fingerprints. Defined.
#[export] Instance upd_lru : Update lru. Proof. solve_update eta_handles lru. Defined.
#[export] Instance upd_pinned : Update pinned. Proof. solve_update eta_handles pinned. Defined.
#[export] Instance upd_next_handle : Update next_handle. Proof. solve_update eta_handles next_handle. Defined.
#[export] Instance upd_generation : Update destruct_generation.
Proof. solve_update eta_handles destruct_generation. Defined.

Abbreviation handles := (Comp KyberError SessionRegistry).

(** [SessionRegistry::new], with the two counters at their start. *)
Definition new_registry : SessionRegistry := {|
  keys := ∅; fingerprints := ∅; lru := []; pinned := ∅; next_handle := 1; destruct_generation := 0 |}.

Definition is_pinned (r : SessionRegistry) (h : Z) : bool := bool_decide (h ∈ pinned r).

(** The loop of [evict_lru]: pop handles until an unpinned one. *)
Fixpoint pop_unpinned (r : SessionRegistry) (l : list Z) : option Z * list Z :=
  match l with
  | [] => (None, [])
  | oldest :: l' => if is_pinned r oldest then pop_unpinned r l' else (Some oldest, l')
  end.

Definition evict_lru (r : SessionRegistry) : SessionRegistry :=
  let '(victim, rest) := pop_unpinned r (lru r) in
  let r := r <| lru := rest |> in
  match victim with
  | Some oldest => r <| keys ::= delete oldest |> <| fingerprints ::= delete oldest |>
  | None => r
  end.

(** Remove the first occurrence of a handle, [position] then [remove]. *)
Fixpoint remove_first (h : Z) (l : list Z) : list Z :=
  match l with
  | [] => []
  | x :: l' => if x =? h then l' else x :: remove_first h l'
  end.

Definition touch (h : Z) (r : SessionRegistry) : SessionRegistry :=
  if existsb (Z.eqb h) (lru r) then r <| lru := remove_first h (lru r) ++ [h] |> else r.

Definition session_key_get (h : Z) (r : SessionRegistry) : option bytes * SessionRegistry :=
  let result := keys r !! h in
  (result, match result with Some _ => touch h r | None => r end).

Definition session_key_destroy (h : Z) (r : SessionRegistry) : SessionRegistry :=
  r <| keys ::= delete h |> <| fingerprints ::= delete h |> <| pinned ::= fun p => p ∖ {[h]} |>
    <| lru := remove_first h (lru r) |>.

Definition session_key_pin (h : Z) (r : SessionRegistry) : bool * SessionRegistry :=
  match keys r !! h with
  | Some _ => (true, r <| pinned ::= union {[h]} |>)
  | None => (false, r)
  end.

Definition session_key_unpin (h : Z) (r : SessionRegistry) : SessionRegistry :=
  r <| pinned ::= fun p => p ∖ {[h]} |>.

Definition session_key_destroy_all (r : SessionRegistry) : SessionRegistry :=
  r <| keys := ∅ |> <| fingerprints := ∅ |> <| lru := [] |> <| pinned := ∅ |>.

Definition check_generation (r : SessionRegistry) : bool := destruct_generation r =? 0.
Definition increment_destruct_generation (r : SessionRegistry) : SessionRegistry :=
  r <| destruct_generation ::= fun g => wrap64 (g + 1) |>.

Definition all_pinned_error : KyberError :=
  CryptoError "Session key registry full and every handle is pinned — destroy an unused handle first (audit finding #23)".
Definition duplicate_key_error : KyberError :=
  CryptoError "A session key handle for identical key bytes already exists".
Definition invalid_handle : KyberError := CryptoError "Invalid session key handle {handle}".
Definition destroyed_error : KyberError := CryptoError "Session invalidated by self-destruct".

(** The cap: evict one handle when the registry is full. *)
Definition make_room : handles unit :=
  fun r =>
    if MAX_SESSION_KEYS <=? Z.of_nat (size (keys r)) then
      if negb (existsb (fun h => negb (is_pinned r h)) (lru r)) then (Err all_pinned_error, r)
      else (Ok tt, evict_lru r)
    else (Ok tt, r).

Section Handles.
Context `{P : Primitives}.

Definition key_fingerprint (key : bytes) : bytes := take 16 (sha256 key).

Definition session_key_create (key_bytes : bytes) : handles Z :=
  _ ← lift (guard_err (negb (len key_bytes =? 32)) (InvalidKeyLength 32 (len key_bytes)));
  let fp := key_fingerprint key_bytes in
  _ ← make_room;
  r ← get;
  _ ← lift (guard_err (existsb (fun p => eqb_dec (snd p) fp) (map_to_list (fingerprints r))) duplicate_key_error);
  let id := next_handle r in
  _ ← modify (fun r => r <| next_handle := wrap64 (id + 1) |> <| keys ::= <[id := key_bytes]> |>
                         <| fingerprints ::= <[id := fp]> |> <| lru ::= fun l => l ++ [id] |>);
  mret id.

(** The guards and the lookup that encryption and decryption share. *)
Definition checked_key (h : Z) : handles bytes :=
  r ← get;
  _ ← lift (guard_err (negb (check_generation r)) destroyed_error);
  key ← (fun r => let '(k, r') := session_key_get h r in (Ok k, r'));
  lift (ok_or key invalid_handle).

Definition session_key_encrypt (h : Z) (nonce data : bytes) : handles (bytes * bytes) :=
  key ← checked_key h;
  ciphertext ← lift (encrypt_chacha20 key nonce data []);
  mret (nonce, ciphertext).

Definition session_key_decrypt (h : Z) (nonce ciphertext : bytes) : handles bytes :=
  key ← checked_key h;
  _ ← lift (guard_err (negb (len nonce =? 12)) (DecryptionFailed "Nonce must be 12 bytes"));
  lift (decrypt_chacha20 key nonce ciphertext []).

(** [hex::encode] of the hex crate is a parameter. *)
Definition session_key_hash (hex_encode : bytes -> string) (h : Z) : handles string :=
  key ← (fun r => let '(k, r') := session_key_get h r in (Ok k, r'));
  k ← lift (ok_or key invalid_handle);
  mret (hex_encode (take 8 (hmac_sha256 (bstr "kyberpipe-session-id") k))).

End Handles.

(** ** The invariant *)

Section Invariant.
Context `{P : Primitives}.

Record wf_handles (r : SessionRegistry) : Prop := {
  wf_fingerprint h : fingerprints r !! h = key_fingerprint <$> keys r !! h;
  wf_distinct h h' k k' :
    keys r !! h = Some k -> keys r !! h' = Some k' -> key_fingerprint k = key_fingerprint k' -> h = h';
  wf_key_length h k : keys r !! h = Some k -> len k = 32;
  wf_cap : Z.of_nat (size (keys r)) <= MAX_SESSION_KEYS;
  wf_lru_nodup : NoDup (lru r);
  wf_lru_live h : h ∈ lru r -> is_Some (keys r !! h);
  wf_pinned_live h : h ∈ pinned r -> is_Some (keys r !! h);
  wf_handle h : is_Some (keys r !! h) -> 0 < h < next_handle r;
  wf_next : 0 < next_handle r
}.

Lemma wf_new : wf_handles new_registry.
Proof.
  split; cbn; intros; rewrite ?lookup_empty in *; try done; try (by apply NoDup_nil); try set_solver.
Qed.

Lemma pop_unpinned_spec r l v rest :
  pop_unpinned r l = (v, rest) ->
  exists pre, l = pre ++ option_list v ++ rest /\ Forall (fun h => h ∈ pinned r) pre
    /\ (forall h, v = Some h -> h ∉ pinned r) /\ (v = None -> Forall (fun h => h ∈ pinned r) l).
Proof.
  revert v rest. induction l as [|x l IH]; intros v rest; cbn [pop_unpinned].
  - intros [= <- <-]. exists []. split_and!; done.
  - unfold is_pinned. case_bool_decide as Hx.
    + intros (pre & -> & Hp & Hv & Hn)%IH. exists (x :: pre).
      split_and!; [done|by constructor|done|intros ?; constructor; auto].
    + intros [= <- <-]. exists []. split_and!; [done|done| |done]. by intros h [= ->].
Qed.

(** Dropping one handle from every component, or only from the order of use. *)
Lemma wf_drop r h p l :
  wf_handles r -> NoDup l -> (forall x, x ∈ l -> x ∈ lru r /\ x <> h) ->
  (forall x, x ∈ p -> x ∈ pinned r /\ x <> h) ->
  wf_handles (r <| keys ::= delete h |> <| fingerprints ::= delete h |> <| pinned := p |> <| lru := l |>).
Proof.
  intros H Hnd Hl Hp. split; destruct r; cbn in *.
  - intros x. destruct (decide (x = h)) as [->|Hx]; [by rewrite !lookup_delete_eq|].
    rewrite !lookup_delete_ne by done. apply (wf_fingerprint _ H).
  - intros x x' k k' [_ Hx]%lookup_delete_Some [_ Hx']%lookup_delete_Some. by apply (wf_distinct _ H).
  - intros x k [_ Hx]%lookup_delete_Some. by apply (wf_key_length _ H x).
  - pose proof (wf_cap _ H) as Hc. cbn in Hc. rewrite map_size_delete. case_match; unfold id; lia.
  - done.
  - intros x [Hx Hne]%Hl. rewrite lookup_delete_ne by done. by apply (wf_lru_live _ H).
  - intros x [Hx Hne]%Hp. rewrite lookup_delete_ne by done. by apply (wf_pinned_live _ H).
  - intros x [k [_ Hx]%lookup_delete_Some]. by apply (wf_handle _ H).
  - apply (wf_next _ H).
Qed.

Lemma wf_lru_any r l : wf_handles r -> NoDup l -> (forall x, x ∈ l -> x ∈ lru r) -> wf_handles (r <| lru := l |>).
Proof. intros H Hnd Hl. destruct H. split; destruct r; cbn in *; auto. Qed.

Lemma wf_pinned_any r p :
  wf_handles r -> (forall x, x ∈ p -> is_Some (keys r !! x)) -> wf_handles (r <| pinned := p |>).
Proof. intros H Hp. destruct H. split; destruct r; cbn in *; auto. Qed.

Lemma remove_first_in h l x : NoDup l -> x ∈ remove_first h l <-> x ∈ l /\ x <> h.
Proof.
  induction l as [|y l IH]; intros Hnd; [set_solver|]. apply NoDup_cons in Hnd as [Hy Hnd]. cbn.
  destruct (Z.eqb_spec y h); [subst; set_solver|]. rewrite !elem_of_cons, IH by done. naive_solver.
Qed.

Lemma remove_first_nodup h l : NoDup l -> NoDup (remove_first h l).
Proof.
  induction 1 as [|y l Hy Hnd IH]; [constructor|]. cbn. case_match; [done|]. constructor; [|done].
  rewrite remove_first_in by done. tauto.
Qed.

Lemma wf_touch h r : wf_handles r -> wf_handles (touch h r).
Proof.
  intros H. pose proof (wf_lru_nodup _ H) as Hnd. unfold touch. destruct (existsb _ _) eqn:E; [|done].
  apply existsb_exists in E as (x & Hin & ->%Z.eqb_eq). apply list_elem_of_In in Hin. apply wf_lru_any; [done| |].
  - apply NoDup_app. split_and!; [by apply remove_first_nodup| |apply NoDup_singleton].
    intros y Hy%remove_first_in; [|done]. rewrite list_elem_of_singleton. tauto.
  - intros y. rewrite elem_of_app, remove_first_in, list_elem_of_singleton by done. intros [[? _]| ->]; done.
Qed.

Lemma wf_evict_lru r : wf_handles r -> wf_handles (evict_lru r).
Proof.
  intros H. pose proof (wf_lru_nodup _ H) as Hnd. unfold evict_lru.
  destruct (pop_unpinned r (lru r)) as [v rest] eqn:E.
  apply pop_unpinned_spec in E as (pre & El & Hp & Hv & _). rewrite El in Hnd.
  destruct v as [h|]; cbn [option_list] in *.
  - apply NoDup_app in Hnd as (_ & _ & Hnd). apply NoDup_cons in Hnd as [Hh Hnd].
    pose proof (wf_drop r h (pinned r) rest H Hnd) as Hw. destruct r; cbn in *. apply Hw.
    + intros x Hx. rewrite El. set_solver.
    + intros x Hx. split; [done|]. intros ->. by apply (Hv h).
  - apply NoDup_app in Hnd as (_ & _ & Hnd). apply wf_lru_any; [done|done|]. rewrite El. set_solver.
Qed.

(** A successful [make_room] leaves a free place and drops no pinned key. *)
Lemma make_room_ok r r' u :
  wf_handles r -> make_room r = (Ok u, r') ->
  wf_handles r' /\ Z.of_nat (size (keys r')) < MAX_SESSION_KEYS /\ next_handle r' = next_handle r
  /\ pinned r' = pinned r /\ forall h, h ∈ pinned r -> keys r' !! h = keys r !! h.
Proof.
  intros H. unfold make_room. destruct (Z.leb_spec MAX_SESSION_KEYS (Z.of_nat (size (keys r)))) as [Hf|Hf].
  - destruct (existsb _ (lru r)) eqn:Ee; cbn [negb]; [|done]. intros [= _ <-].
    split; [by apply wf_evict_lru|]. unfold evict_lru. destruct (pop_unpinned r (lru r)) as [v rest] eqn:E.
    apply pop_unpinned_spec in E as (pre & El & Hp & Hv & Hn). destruct v as [h|]; cycle 1.
    { apply existsb_exists in Ee as (x & Hin%list_elem_of_In & Hx%negb_true_iff).
      specialize (Hn eq_refl). rewrite Forall_forall in Hn. apply bool_decide_eq_false in Hx. by destruct Hx; apply Hn. }
    pose proof (wf_cap _ H). assert (is_Some (keys r !! h)) as [k Hk] by (apply (wf_lru_live _ H); rewrite El; set_solver).
    destruct r; cbn in *. split_and!; try done.
    + rewrite map_size_delete, Hk. unfold MAX_SESSION_KEYS in *. lia.
    + intros x Hx. apply lookup_delete_ne. intros ->. by apply (Hv x).
  - intros [= _ <-]. split_and!; done.
Qed.

Lemma make_room_err r r' e : make_room r = (Err e, r') -> r' = r.
Proof. unfold make_room. repeat case_match; intros; simplify_eq; done. Qed.

(** The registry with a new key under the next handle. *)
Definition with_key (key : bytes) (r : SessionRegistry) : SessionRegistry :=
  r <| next_handle := wrap64 (next_handle r + 1) |> <| keys ::= <[next_handle r := key]> |>
    <| fingerprints ::= <[next_handle r := key_fingerprint key]> |> <| lru ::= fun l => l ++ [next_handle r] |>.

Definition key_known (key : bytes) (r : SessionRegistry) : bool :=
  existsb (fun p => eqb_dec (snd p) (key_fingerprint key)) (map_to_list (fingerprints r)).

Lemma create_cases key r res r' :
  session_key_create key r = (res, r') ->
  (exists e, res = Err e /\ r' = r)
  \/ (len key = 32 /\ exists r1, make_room r = (Ok tt, r1) /\
        if key_known key r1 then res = Err duplicate_key_error /\ r' = r1
        else res = Ok (next_handle r1) /\ r' = with_key key r1).
Proof.
  unfold session_key_create. munfold. cbv beta iota zeta. destruct (Z.eqb_spec (len key) 32); cbn [negb].
  - destruct (make_room r) as [[[]| |] r1] eqn:E.
    + fold (key_known key r1). destruct (key_known key r1) eqn:Ek; intros [= <- <-]; right; split; try done;
        exists r1; rewrite Ek; done.
    + intros [= <- <-]. apply make_room_err in E. left. eauto.
    + unfold make_room in E. repeat case_match; done.
  - intros [= <- <-]. left. eauto.
Qed.

Lemma key_known_spec key r h k :
  wf_handles r -> key_known key r = false -> keys r !! h = Some k -> key_fingerprint k <> key_fingerprint key.
Proof.
  intros H Hk Hh E. apply not_true_iff_false in Hk. apply Hk. apply existsb_exists.
  exists (h, key_fingerprint k). split; [|cbn; by apply bool_decide_eq_true].
  apply list_elem_of_In, elem_of_map_to_list. by rewrite (wf_fingerprint _ H), Hh.
Qed.

Lemma wf_with_key key r :
  wf_handles r -> Z.of_nat (size (keys r)) < MAX_SESSION_KEYS -> len key = 32 -> key_known key r = false ->
  next_handle r < u64_max -> wf_handles (with_key key r).
Proof.
  intros H Hs Hl Hk Hn. pose proof (wf_next _ H). pose proof (wf_handle _ H) as Hh.
  assert (keys r !! next_handle r = None) as Hnone.
  { apply eq_None_not_Some. intros Hx%Hh. lia. }
  assert (wrap64 (next_handle r + 1) = next_handle r + 1) as Hw
    by (unfold wrap64, u64_max in *; rewrite Z.mod_small; lia).
  pose proof (fun h k => key_known_spec key r h k H Hk) as Hd.
  unfold with_key. rewrite Hw. split; destruct r; cbn in *.
  - intros x. destruct (decide (x = next_handle0)) as [->|Hx]; [by rewrite !lookup_insert_eq|].
    rewrite !lookup_insert_ne by done. apply (wf_fingerprint _ H).
  - intros x x' k k'. rewrite !lookup_insert_Some. intros [[<- <-]|[? Hx]] [[<- <-]|[? Hx']] Hf; try done.
    + by destruct (Hd x' k' Hx').
    + by destruct (Hd x k Hx).
    + by apply (wf_distinct _ H x x' k k').
  - intros x k. rewrite lookup_insert_Some. intros [[<- <-]|[_ Hx]]; [done|]. by apply (wf_key_length _ H x).
  - rewrite map_size_insert_None by done. lia.
  - apply NoDup_app. split_and!; [apply (wf_lru_nodup _ H)| |apply NoDup_singleton].
    intros x Hx%(wf_lru_live _ H)%Hh. rewrite list_elem_of_singleton. lia.
  - intros x. rewrite elem_of_app, list_elem_of_singleton, lookup_insert_is_Some.
    intros [Hx%(wf_lru_live _ H)| ->]; [|by left]. destruct (decide (next_handle0 = x)); [by left|by right].
  - intros x Hx%(wf_pinned_live _ H). rewrite lookup_insert_is_Some.
    destruct (decide (next_handle0 = x)); [by left|by right].
  - intros x. rewrite lookup_insert_is_Some. intros [<-|[_ Hx%Hh]]; lia.
  - lia.
Qed.

Lemma wf_get h r : wf_handles r -> wf_handles (snd (session_key_get h r)).
Proof. intros H. unfold session_key_get. cbn. case_match; auto using wf_touch. Qed.

Lemma wf_destroy h r : wf_handles r -> wf_handles (session_key_destroy h r).
Proof.
  intros H. pose proof (wf_lru_nodup _ H). apply (wf_drop r h (pinned r ∖ {[h]}) (remove_first h (lru r)));
    [done|by apply remove_first_nodup| |set_solver]. intros x. by apply remove_first_in.
Qed.

Lemma wf_destroy_all r : wf_handles r -> wf_handles (session_key_destroy_all r).
Proof.
  intros H. pose proof (wf_next _ H). split; destruct r; cbn in *; intros; rewrite ?lookup_empty in *; try done;
    try (by apply NoDup_nil); try set_solver.
Qed.

(** ** Runs *)

Inductive HandleOp :=
| Create (key : bytes)
| Get (h : Z)
| Destroy (h : Z)
| Pin (h : Z)
| Unpin (h : Z)
| DestroyAll
| EncryptWith (h : Z) (nonce data : bytes)
| DecryptWith (h : Z) (nonce ciphertext : bytes)
| SelfDestruct.

Definition exec_handle (o : HandleOp) (r : SessionRegistry) : SessionRegistry :=
  match o with
  | Create key => snd (session_key_create key r)
  | Get h => snd (session_key_get h r)
  | Destroy h => session_key_destroy h r
  | Pin h => snd (session_key_pin h r)
  | Unpin h => session_key_unpin h r
  | DestroyAll => session_key_destroy_all r
  | EncryptWith h nonce data => snd (session_key_encrypt h nonce data r)
  | DecryptWith h nonce ct => snd (session_key_decrypt h nonce ct r)
  | SelfDestruct => increment_destruct_generation r
  end.

Definition run_handles (ops : list HandleOp) (r : SessionRegistry) : SessionRegistry :=
  fold_left (fun r o => exec_handle o r) ops r.

(** Encryption and decryption touch the order of use at most. *)
Lemma checked_key_state h r : snd (checked_key h r) = r \/ snd (checked_key h r) = snd (session_key_get h r).
Proof.
  unfold checked_key, session_key_get. munfold. cbv beta iota zeta.
  destruct (check_generation r); cbn; [|by left]. right. by destruct (keys r !! h).
Qed.

Lemma encrypt_state h nonce data r : snd (session_key_encrypt h nonce data r) = snd (checked_key h r).
Proof.
  unfold session_key_encrypt. munfold. destruct (checked_key h r) as [[k| |] r']; [|done..].
  cbv beta iota. by destruct (encrypt_chacha20 k nonce data []).
Qed.
Lemma decrypt_state h nonce ct r : snd (session_key_decrypt h nonce ct r) = snd (checked_key h r).
Proof.
  unfold session_key_decrypt. munfold. destruct (checked_key h r) as [[k| |] r']; [|done..].
  cbv beta iota. destruct (negb _); [done|]. by destruct (decrypt_chacha20 k nonce ct []).
Qed.

Lemma wf_checked_key h r : wf_handles r -> wf_handles (snd (checked_key h r)).
Proof. intros H. destruct (checked_key_state h r) as [->| ->]; auto using wf_get. Qed.

(** One operation: the invariant, the handle counter, and the pinned keys. *)
Lemma wf_exec_handle o r :
  wf_handles r -> next_handle r < u64_max ->
  wf_handles (exec_handle o r) /\ next_handle r <= next_handle (exec_handle o r) <= next_handle r + 1.
Proof.
  intros H Hn. destruct o; cbn [exec_handle].
  - destruct (session_key_create key r) as [res r'] eqn:E. cbn [snd].
    apply create_cases in E as [(e & _ & ->)|(Hl & r1 & Hr & E)]; [split; [done|lia]|].
    apply make_room_ok in Hr as (Hw & Hs & Hnx & _); [|done].
    destruct (key_known key r1) eqn:Ek; destruct E as [_ ->]; [split; [done|lia]|].
    split; [apply wf_with_key; try done; lia|]. pose proof (wf_next _ H).
    change (next_handle (with_key key r1)) with (wrap64 (next_handle r1 + 1)). rewrite Hnx.
    unfold wrap64, u64_max in *. rewrite Z.mod_small; lia.
  - split; [by apply wf_get|]. unfold session_key_get, touch. cbn. repeat case_match; destruct r; cbn; lia.
  - split; [by apply wf_destroy|]. destruct r; cbn; lia.
  - unfold session_key_pin. destruct (keys r !! h) eqn:Eh; cbn [snd]; [|split; [done|lia]].
    split; [|destruct r; cbn; lia]. apply wf_pinned_any; [done|]. intros x [->%elem_of_singleton|Hx]%elem_of_union;
      [by rewrite Eh|by apply (wf_pinned_live _ H)].
  - split; [|destruct r; cbn; lia]. apply wf_pinned_any; [done|].
    intros x [Hx _]%elem_of_difference. by apply (wf_pinned_live _ H).
  - split; [by apply wf_destroy_all|]. destruct r; cbn; lia.
  - rewrite encrypt_state. split; [by apply wf_checked_key|]. destruct (checked_key_state h r) as [->| ->]; [lia|].
    unfold session_key_get, touch. cbn. repeat case_match; destruct r; cbn; lia.
  - rewrite decrypt_state. split; [by apply wf_checked_key|]. destruct (checked_key_state h r) as [->| ->]; [lia|].
    unfold session_key_get, touch. cbn. repeat case_match; destruct r; cbn; lia.
  - split; [|destruct r; cbn; lia]. destruct H. split; destruct r; cbn in *; auto.
Qed.

Lemma run_handles_wf ops r :
  wf_handles r -> next_handle r + len ops <= u64_max -> wf_handles (run_handles ops r).
Proof.
  revert r. induction ops as [|o ops IH]; intros r H Hn; [done|]. rewrite len_cons in Hn. pose proof (len_nonneg ops).
  destruct (wf_exec_handle o r H) as [Hw Hx]; [lia|]. apply (IH (exec_handle o r)); [done|lia].
Qed.

(** Over every run of fewer than 2^64 - 1 operations from the empty
    registry: at most 256 keys are live, no two live handles hold keys with the
    same fingerprint, every key has 32 bytes, and the order of use lists live
    handles once each. *)
Theorem handle_invariant ops :
  len ops < u64_max -> wf_handles (run_handles ops new_registry).
Proof. intros H. apply run_handles_wf; [apply wf_new|cbn; lia]. Qed.

(** The operations that may end the life of a pinned handle. *)
Definition releases (h : Z) (o : HandleOp) : bool :=
  match o with
  | Destroy h' | Unpin h' => h =? h'
  | DestroyAll => true
  | _ => false
  end.

Lemma get_keeps h r : keys (snd (session_key_get h r)) = keys r /\ pinned (snd (session_key_get h r)) = pinned r.
Proof. unfold session_key_get, touch. cbn. repeat case_match; by destruct r. Qed.

Lemma checked_keeps h r : keys (snd (checked_key h r)) = keys r /\ pinned (snd (checked_key h r)) = pinned r.
Proof. destruct (checked_key_state h r) as [->| ->]; [done|apply get_keeps]. Qed.

Lemma exec_keeps_pinned o r h :
  wf_handles r -> releases h o = false -> h ∈ pinned r ->
  keys (exec_handle o r) !! h = keys r !! h /\ h ∈ pinned (exec_handle o r).
Proof.
  intros H Ho Hp. destruct o; cbn [exec_handle releases] in *.
  - destruct (session_key_create key r) as [res r'] eqn:E. cbn [snd].
    apply create_cases in E as [(e & _ & ->)|(Hl & r1 & Hr & E)]; [done|].
    apply make_room_ok in Hr as (Hw & _ & _ & Hpin & Hk); [|done].
    destruct (key_known key r1); destruct E as [_ ->]; [by rewrite Hk, Hpin|].
    change (keys (with_key key r1)) with (<[next_handle r1 := key]> (keys r1)).
    change (pinned (with_key key r1)) with (pinned r1). rewrite Hpin. split; [|done].
    rewrite <- Hk by done. apply lookup_insert_ne. intros Hn.
    assert (is_Some (keys r1 !! h)) as Hs by (apply (wf_pinned_live _ Hw); by rewrite Hpin).
    apply (wf_handle _ Hw) in Hs. lia.
  - by destruct (get_keeps h0 r) as [-> ->].
  - apply Z.eqb_neq in Ho. destruct r; cbn in *. rewrite lookup_delete_ne by done. set_solver.
  - unfold session_key_pin. destruct (keys r !! h0); cbn [snd]; [|done]. destruct r; cbn in *. set_solver.
  - apply Z.eqb_neq in Ho. destruct r; cbn in *. set_solver.
  - done.
  - rewrite encrypt_state. by destruct (checked_keeps h0 r) as [-> ->].
  - rewrite decrypt_state. by destruct (checked_keeps h0 r) as [-> ->].
  - by destruct r.
Qed.

(** A pinned handle keeps its key through every run of operations that
    neither unpins nor destroys it, however many keys are created meanwhile. *)
Theorem pinned_key_survives ops r h :
  wf_handles r -> next_handle r + len ops <= u64_max -> h ∈ pinned r ->
  Forall (fun o => releases h o = false) ops -> keys (run_handles ops r) !! h = keys r !! h.
Proof.
  revert r. induction ops as [|o ops IH]; intros r H Hn Hp Ho; [done|]. rewrite len_cons in Hn.
  pose proof (len_nonneg ops). apply Forall_cons in Ho as [Ho Hos].
  destruct (wf_exec_handle o r H) as [Hw Hx]; [lia|]. destruct (exec_keeps_pinned o r h H Ho Hp) as [Hk Hp'].
  change (run_handles (o :: ops) r) with (run_handles ops (exec_handle o r)). rewrite <- Hk. apply IH; try done. lia.
Qed.

(** What is encrypted under a handle decrypts under it, while the key
    lives. *)
Theorem handle_roundtrip `{!PrimitivesLaws} h nonce data r out r1 r2 :
  length nonce = 12%nat -> session_key_encrypt h nonce data r = (Ok out, r1) ->
  keys r2 !! h = keys r !! h -> destruct_generation r2 = 0 ->
  fst (session_key_decrypt h (fst out) (snd out) r2) = Ok data.
Proof.
  intros Hn E Hk Hg. unfold session_key_encrypt, session_key_decrypt, checked_key, session_key_get, check_generation in *.
  munfold. cbv beta iota zeta in *. rewrite Hg, Hk. cbn [Z.eqb negb] in *. destruct (negb (destruct_generation r =? 0)); [done|].
  destruct (keys r !! h) as [k|]; [|done]. destruct (encrypt_chacha20 k nonce data []) as [ct| |] eqn:Ec; [|done..].
  injection E as <- _. cbn [fst snd]. unfold len. rewrite Hn. cbn [negb Z.of_nat Z.eqb Pos.of_succ_nat Pos.succ Pos.eqb].
  by erewrite decrypt_encrypt_chacha20.
Qed.

(** ** Pinned handles and the order of use *)

Lemma pop_past_pinned r pre h :
  Forall (fun p => p ∈ pinned r) pre -> h ∉ pinned r -> pop_unpinned r (pre ++ [h]) = (Some h, []).
Proof.
  intros Hp Hh. induction Hp as [|x pre Hx _ IH]; cbn [app pop_unpinned]; unfold is_pinned in *.
  - by rewrite bool_decide_false by done.
  - by rewrite bool_decide_true by done.
Qed.

Lemma unpin_all pre r :
  let r' := foldr session_key_unpin r pre in
  keys r' = keys r /\ lru r' = lru r /\ forall x, x ∈ pinned r' <-> x ∈ pinned r /\ x ∉ pre.
Proof.
  induction pre as [|p pre IH]; [cbn; set_solver|]. cbv zeta in *. cbn [foldr].
  generalize dependent (foldr session_key_unpin r pre). intros r' (Hk & Hl & Hp). destruct r'; cbn in *.
  split_and!; [done|done|]. set_solver.
Qed.

Lemma full_refuses key r :
  len key = 32 -> MAX_SESSION_KEYS <= Z.of_nat (size (keys r)) -> Forall (fun h => h ∈ pinned r) (lru r) ->
  fst (session_key_create key r) = Err all_pinned_error.
Proof.
  intros Hl Hs Hp. unfold session_key_create, make_room. munfold. rewrite Hl. cbn [negb Z.eqb Pos.eqb]. cbv beta iota zeta.
  rewrite (proj2 (Z.leb_le _ _)) by done. replace (existsb _ (lru r)) with false; [done|].
  symmetry. apply not_true_is_false. intros (x & Hin%list_elem_of_In & Hx%negb_true_iff)%existsb_exists.
  rewrite Forall_forall in Hp. apply bool_decide_eq_false in Hx. by apply Hx, Hp.
Qed.

(** The sweep drops the pinned handles it skips from the order of use, and
    unpinning does not put them back.  A full registry whose pinned handles
    were skipped once refuses a new key as "every handle is pinned" although
    they were all unpinned since and are live. *)
Theorem skipped_pins_never_evicted r pre h key key' id r1 :
  Z.of_nat (size (keys r)) = MAX_SESSION_KEYS -> lru r = pre ++ [h] -> h ∉ pre ->
  Forall (fun p => p ∈ pinned r /\ is_Some (keys r !! p)) pre -> h ∉ pinned r -> is_Some (keys r !! h) ->
  keys r !! next_handle r = None -> session_key_create key r = (Ok id, r1) -> len key' = 32 ->
  let r2 := snd (session_key_pin id (foldr session_key_unpin r1 pre)) in
  fst (session_key_create key' r2) = Err all_pinned_error
  /\ Forall (fun p => p ∉ pinned r2 /\ is_Some (keys r2 !! p)) pre.
Proof.
  intros Hs Hl Hh Hpre Hhp Hlive Hid E Hlen.
  assert (make_room r = (Ok tt, r <| lru := [] |> <| keys ::= delete h |> <| fingerprints ::= delete h |>)) as Hroom.
  { unfold make_room. rewrite Hs, Z.leb_refl, Hl, existsb_app. cbn [existsb]. unfold is_pinned at 2.
    rewrite bool_decide_false, orb_true_r by done. cbn [negb orb]. unfold evict_lru.
    rewrite Hl, pop_past_pinned; [done| |done]. eapply Forall_impl; [exact Hpre|]. cbn. tauto. }
  apply create_cases in E as [(e & ? & _)|(_ & r0 & Hr0 & E)]; [done|]. rewrite Hroom in Hr0. injection Hr0 as <-.
  destruct (key_known key _); destruct E as [E ->]; [done|]. injection E as ->.
  set (r1 := with_key key _) in *. intros r2.
  destruct (unpin_all pre r1) as (Hk & Hlru & Hpin). set (r1' := foldr session_key_unpin r1 pre) in *.
  assert (keys r1 = <[next_handle r := key]> (delete h (keys r))) as Hk1 by (subst r1; by destruct r).
  assert (lru r1 = [next_handle r]) as Hl1 by (subst r1; by destruct r).
  change (next_handle (r <| lru := [] |> <| keys ::= delete h |> <| fingerprints ::= delete h |>)) with (next_handle r) in *.
  assert (r2 = r1' <| pinned ::= union {[next_handle r]} |>) as ->.
  { subst r2. unfold session_key_pin. by rewrite Hk, Hk1, lookup_insert_eq. }
  split.
  - apply full_refuses; [done| |].
    + change (keys (r1' <| pinned ::= _ |>)) with (keys r1'). rewrite Hk, Hk1, map_size_insert_None, map_size_delete.
      * destruct Hlive as [kh ->]. assert (size (keys r) <> 0%nat) by (intros Hz; rewrite Hz in Hs; done). lia.
      * rewrite lookup_delete_ne; [done|]. intros ->. rewrite Hid in Hlive. by destruct Hlive.
    + change (lru (r1' <| pinned ::= _ |>)) with (lru r1'). rewrite Hlru, Hl1. constructor; [|done].
      change (pinned (r1' <| pinned ::= _ |>)) with ({[next_handle r]} ∪ pinned r1'). set_solver.
  - rewrite Forall_forall in Hpre |- *. intros p Hp. destruct (Hpre p Hp) as [_ Hlp].
    assert (p <> next_handle r) by (intros ->; by rewrite Hid in Hlp; destruct Hlp).
    assert (p <> h) by (by intros ->). specialize (Hpin p).
    change (keys (r1' <| pinned ::= _ |>)) with (keys r1').
    change (pinned (r1' <| pinned ::= _ |>)) with ({[next_handle r]} ∪ pinned r1').
    rewrite Hk, Hk1, lookup_insert_ne, lookup_delete_ne by done. set_solver.
Qed.
End Invariant.

(** ** Witnesses *)

Import Toy.

Definition key_of (i : nat) : bytes := be_bytes 32 (Z.of_nat i).
Definition busy_ops : list HandleOp := [Create (key_of 1); Pin 1; Create (key_of 2); Create (key_of 2); Get 1; Destroy 2].
Definition pinned_registry : SessionRegistry := run_handles [Create (key_of 1); Pin 1] new_registry.

Lemma handle_invariant_witness : wf_handles (run_handles busy_ops new_registry).
Proof. apply (handle_invariant busy_ops). reflexivity. Defined.

Lemma pinned_key_survives_witness :
  keys (run_handles [Create (key_of 2); Destroy 2; Get 1] pinned_registry) !! 1 = Some (key_of 1).
Proof.
  rewrite (pinned_key_survives [Create (key_of 2); Destroy 2; Get 1] pinned_registry 1).
  - by vm_compute.
  - apply run_handles_wf; [apply wf_new|by vm_compute].
  - by vm_compute.
  - by apply (bool_decide_eq_true_1 (1 ∈ pinned pinned_registry)); vm_compute.
  - repeat constructor.
Defined.

Definition sealed_data : kres (bytes * bytes) :=
  fst (session_key_encrypt 1 (replicate 12 x07) (bstr "data") pinned_registry).

Lemma handle_roundtrip_witness :
  exists out, sealed_data = Ok out
              /\ fst (session_key_decrypt 1 (fst out) (snd out) pinned_registry) = Ok (bstr "data").
Proof.
  destruct (session_key_encrypt 1 (replicate 12 x07) (bstr "data") pinned_registry) as [res r1] eqn:E.
  assert (exists out, res = Ok out) as [out ->].
  { apply (f_equal fst) in E. vm_compute in E. eexists. symmetry. exact E. }
  exists out. unfold sealed_data. rewrite E. split; [done|].
  apply (handle_roundtrip 1 (replicate 12 x07) (bstr "data") pinned_registry out r1 pinned_registry); try done.
Defined.

(** 256 keys; the last handle is the only one not pinned. *)
Definition full_registry : SessionRegistry := {|
  keys := list_to_map (map (fun i => (Z.of_nat i, key_of i)) (seq 1 256));
  fingerprints := list_to_map (map (fun i => (Z.of_nat i, key_fingerprint (key_of i))) (seq 1 256));
  lru := map Z.of_nat (seq 1 256);
  pinned := list_to_set (map Z.of_nat (seq 1 255));
  next_handle := 257; destruct_generation := 0 |}.
Definition skipped : list Z := map Z.of_nat (seq 1 255).

Lemma skipped_pins_never_evicted_witness :
  exists r1, session_key_create (key_of 300) full_registry = (Ok 257, r1) /\
  let r2 := snd (session_key_pin 257 (foldr session_key_unpin r1 skipped)) in
  fst (session_key_create (key_of 301) r2) = Err all_pinned_error
  /\ Forall (fun p => p ∉ pinned r2 /\ is_Some (keys r2 !! p)) skipped.
Proof.
  destruct (session_key_create (key_of 300) full_registry) as [res r1] eqn:E.
  assert (res = Ok 257) as -> by (apply (f_equal fst) in E; vm_compute in E; by rewrite E).
  exists r1. split; [done|].
  apply (skipped_pins_never_evicted full_registry skipped 256 (key_of 300) (key_of 301) 257 r1).
  - by apply (bool_decide_eq_true_1 (Z.of_nat (size (keys full_registry)) = MAX_SESSION_KEYS)); vm_compute.
  - by apply (bool_decide_eq_true_1 (lru full_registry = skipped ++ [256])); vm_compute.
  - by apply (bool_decide_eq_true_1 (256 ∉ skipped)); vm_compute.
  - by apply (bool_decide_eq_true_1 (Forall (fun p => p ∈ pinned full_registry /\ is_Some (keys full_registry !! p)) skipped)); vm_compute.
  - by apply (bool_decide_eq_true_1 (256 ∉ pinned full_registry)); vm_compute.
  - by apply (bool_decide_eq_true_1 (is_Some (keys full_registry !! 256))); vm_compute.
  - by apply (bool_decide_eq_true_1 (keys full_registry !! 257 = None)); vm_compute.
  - exact E.
  - by vm_compute.
Defined.
