(* ===== verification/KemHandle.v ===== *)
(** * KemHandle: opaque handles to keypairs and KEM secrets
    (core-crypto/src/kem_handle.rs)

    The two handle registries with their counters.  At the cap the code removes
    the first key the hash map yields, an arbitrary one: that key is an
    argument.  The coins of key generation and encapsulation are arguments. *)

From S2P Require Import Prelude Error Primitives Aead Kem Toy Sas Json.
From S2P Require Import RatchetState RatchetEncrypt Scenario RatchetRekey Registry SessionHandle.

Definition MAX_KEYPAIR_HANDLES : Z := 64.
Definition MAX_KEM_HANDLES : Z := 256.
Definition SESSION_KEY_DERIVATION_SALT : bytes := bstr "kyberpipe-sync-v1".

Record KemHandles := {
  keypair_handles : gmap Z HybridKeyPair;
  next_keypair_handle : Z;
  kem_secrets : gmap Z bytes;
  next_kem_handle : Z
}.
Definition eta_kem (k : KemHandles) : KemHandles := {|
  keypair_handles := keypair_handles k; next_keypair_handle := next_keypair_handle k;
  kem_secrets := kem_secrets k; next_kem_handle := next_kem_handle k |}.
#[export] Instance upd_keypair_handles : Update keypair_handles. Proof. solve_update eta_kem keypair_handles. Defined.
#[export] Instance upd_next_keypair : Update next_keypair_handle. Proof. solve_update eta_kem next_keypair_handle. Defined.
#[export] Instance upd_kem_secrets : Update kem_secrets. Proof. solve_update eta_kem kem_secrets. Defined.
#[export] Instance upd_next_kem : Update next_kem_handle. Proof. solve_update eta_kem next_kem_handle. Defined.

Definition new_kem_handles : KemHandles :=
  {| keypair_handles := ∅; next_keypair_handle := 1; kem_secrets := ∅; next_kem_handle := 1 |}.

Abbreviation kem := (Comp KyberError KemHandles).

Definition invalid_keypair_handle : KyberError := CryptoError "Invalid keypair handle {handle}".
Definition invalid_kem_handle : KyberError := CryptoError "Invalid KEM secret handle {kem_handle}".

(** Make room for one more entry: [victim] is the first key of the iteration. *)
Definition drop_one {A} (cap victim : Z) (m : gmap Z A) : gmap Z A :=
  if cap <=? Z.of_nat (size m) then delete victim m else m.

(** Insert a secret under the next handle. *)
Definition keep_secret (victim : Z) (secret : bytes) : kem Z :=
  fun k =>
    let handle := next_kem_handle k in
    (Ok handle,
     k <| kem_secrets ::= fun m => <[handle := secret]> (drop_one MAX_KEM_HANDLES victim m) |>
       <| next_kem_handle := wrap64 (handle + 1) |>).

Definition kem_secret (h : Z) : kem bytes := k ← get; lift (ok_or (kem_secrets k !! h) invalid_kem_handle).
Definition keypair_secret (h : Z) : kem HybridKeyPair := k ← get; lift (ok_or (keypair_handles k !! h) invalid_keypair_handle).

Definition destroy_pq_keypair_handle_impl (h : Z) (k : KemHandles) : bool * KemHandles :=
  (is_some (keypair_handles k !! h), k <| keypair_handles ::= delete h |>).
Definition destroy_all_pq_keypair_handles_impl (k : KemHandles) : KemHandles := k <| keypair_handles := ∅ |>.
Definition destroy_kem_handle_impl (h : Z) (k : KemHandles) : bool * KemHandles :=
  (is_some (kem_secrets k !! h), k <| kem_secrets ::= delete h |>).
Definition destroy_all_kem_handles_impl (k : KemHandles) : KemHandles := k <| kem_secrets := ∅ |>.

(** A caller that runs on the handles and on another store. *)
Definition on_handles {S A} (c : kem A) : Comp KyberError (KemHandles * S) A :=
  fun '(k, s) => let '(r, k') := c k in (r, (k', s)).
Definition on_store {S A} (c : Comp KyberError S A) : Comp KyberError (KemHandles * S) A :=
  fun '(k, s) => let '(r, s') := c s in (r, (k, s')).

Section KemHandle.
Context `{P : Primitives} `{X : Hex}.

Definition generate_pq_keypair_handle_impl (victim : Z) (coins : KemCoins) : kem Z :=
  fun k =>
    let pair := generate_hybrid_keypair coins in
    let handle := next_keypair_handle k in
    (Ok handle,
     k <| keypair_handles ::= fun m => <[handle := pair]> (drop_one MAX_KEYPAIR_HANDLES victim m) |>
       <| next_keypair_handle := wrap64 (handle + 1) |>).

(** The public halves in hexadecimal: X25519, ML-KEM. *)
Definition get_pq_keypair_public_impl (h : Z) : kem (string * string) :=
  pair ← keypair_secret h; mret (hex_encode (x25519_pk pair), hex_encode (mlkem_pk pair)).

Definition encapsulate_pq_secret_handle_impl (victim : Z) (coins : KemCoins) (peer_xpk peer_mpk : bytes)
  : kem (Z * bytes) :=
  _ ← lift (guard_err (negb (len peer_xpk =? 32)) (InvalidKeyLength 32 (len peer_xpk)));
  _ ← lift (guard_err (negb (len peer_mpk =? kyber768_public_key_bytes))
              (InvalidKeyLength kyber768_public_key_bytes (len peer_mpk)));
  res ← lift (encapsulate_hybrid peer_xpk peer_mpk coins);
  handle ← keep_secret victim (combined_shared_secret res);
  mret (handle, ciphertext_bytes res).

(** [copy_from_slice] panics on another length. *)
Definition decapsulate_pq_secret_handle_impl (victim : Z) (ciphertext : bytes) (keypair_handle : Z) : kem Z :=
  pair ← keypair_secret keypair_handle;
  _ ← lift (if len (x25519_sk pair) =? 32 then Ok tt else Panic "source slice length does not match destination");
  secret ← lift (decapsulate_hybrid ciphertext (x25519_sk pair) (mlkem_sk pair));
  keep_secret victim secret.

Definition generate_sas_code_with_kem_handle_impl (host_pk client_mlkem_pk : bytes) (h : Z) : kem bytes :=
  secret ← kem_secret h;
  lift (generate_sas_code host_pk client_mlkem_pk secret).

Definition derive_session_key_handle_impl (h : Z) : Comp KyberError (KemHandles * SessionRegistry) Z :=
  secret ← on_handles (kem_secret h);
  derived ← lift (derive_session_key secret SESSION_KEY_DERIVATION_SALT (bstr "kyberpipe-hybrid-session"));
  on_store (session_key_create derived).

Definition ratchet_init_session_with_keypair_handle_impl (peer : string) (mss : bytes) (ini : bool) (h : Z)
  (coins : KemCoins) (peer_xpk peer_mpk : option bytes) : Comp KyberError (KemHandles * Registry) unit :=
  pair ← on_handles (keypair_secret h);
  on_store (ratchet_init_session_with_keypair_impl peer mss ini
              (Some (x25519_pk pair, x25519_sk pair, mlkem_pk pair, mlkem_sk pair)) coins peer_xpk peer_mpk).

Definition ratchet_init_session_from_kem_handle_impl (peer : string) (ini : bool) (h kem_h : Z)
  (coins : KemCoins) (peer_xpk peer_mpk : option bytes) : Comp KyberError (KemHandles * Registry) unit :=
  secret ← on_handles (kem_secret kem_h);
  ratchet_init_session_with_keypair_handle_impl peer secret ini h coins peer_xpk peer_mpk.

End KemHandle.

(** ** The invariant: bounded registries, handles never reused *)

Record wf_kem (k : KemHandles) : Prop := {
  wk_pairs_cap : Z.of_nat (size (keypair_handles k)) <= MAX_KEYPAIR_HANDLES;
  wk_pairs_next h : is_Some (keypair_handles k !! h) -> h < next_keypair_handle k;
  wk_secrets_cap : Z.of_nat (size (kem_secrets k)) <= MAX_KEM_HANDLES;
  wk_secrets_next h : is_Some (kem_secrets k !! h) -> h < next_kem_handle k
}.

(** Inserting at a fresh key after making room keeps the cap, when the victim
    is a key of the full map. *)
Lemma drop_one_cap {A} cap victim (m : gmap Z A) h x :
  0 < cap -> Z.of_nat (size m) <= cap -> (cap <= Z.of_nat (size m) -> is_Some (m !! victim)) -> m !! h = None ->
  Z.of_nat (size (<[h := x]> (drop_one cap victim m))) <= cap.
Proof.
  intros Hc Hs Hv Hh. unfold drop_one. destruct (Z.leb_spec cap (Z.of_nat (size m))) as [Hf|Hf].
  - destruct (Hv Hf) as [y Hy]. rewrite map_size_insert_None by (rewrite lookup_delete_None; auto).
    rewrite map_size_delete, Hy. lia.
  - rewrite map_size_insert_None by done. lia.
Qed.

Lemma drop_one_sub {A} cap victim (m : gmap Z A) h : is_Some (drop_one cap victim m !! h) -> is_Some (m !! h).
Proof. unfold drop_one. destruct (_ <=? _); [|done]. intros [x [_ Hx]%lookup_delete_Some]. eauto. Qed.

(** The victim exists when the registry is full. *)
Definition yields {A} (cap victim : Z) (m : gmap Z A) : Prop := cap <= Z.of_nat (size m) -> is_Some (m !! victim).

Lemma wf_keep_secret victim secret k :
  wf_kem k -> yields MAX_KEM_HANDLES victim (kem_secrets k) -> next_kem_handle k < u64_max ->
  0 <= next_kem_handle k -> wf_kem (snd (keep_secret victim secret k)).
Proof.
  intros H Hv Hn H0. assert (kem_secrets k !! next_kem_handle k = None) as Hnone.
  { apply eq_None_not_Some. intros Hx%(wk_secrets_next _ H). lia. }
  assert (wrap64 (next_kem_handle k + 1) = next_kem_handle k + 1) as Hw
    by (unfold wrap64, u64_max in *; rewrite Z.mod_small; lia).
  split; cbn -[drop_one].
  - apply H.
  - apply H.
  - by apply drop_one_cap; [|apply H|..].
  - intros h Hh. rewrite Hw. apply lookup_insert_is_Some in Hh as [<-|[_ Hh]]; [lia|].
    apply drop_one_sub, (wk_secrets_next _ H) in Hh. lia.
Qed.

Section Agreement.
Context `{P : Primitives} `{L : !PrimitivesLaws} `{LO : !LowOrderLaw}.

(** One side's process: its handles, its sessions, its session keys. *)

Lemma keep_secret_get victim secret k h k' :
  keep_secret victim secret k = (Ok h, k') -> kem_secrets k' !! h = Some secret /\ keypair_handles k' = keypair_handles k.
Proof. unfold keep_secret. intros [= <- <-]. cbn. by rewrite lookup_insert_eq. Qed.

Lemma init_from_handles peer ini h kem_h coins xpk mpk k r kp secret :
  keypair_handles k !! h = Some kp -> kem_secrets k !! kem_h = Some secret ->
  len (x25519_pk kp) = 32 -> len (x25519_sk kp) = 32 -> len xpk = 32 -> len mpk = 1184 ->
  map_poisoned r = false -> sessions r !! peer = None ->
  ratchet_init_session_from_kem_handle_impl peer ini h kem_h coins (Some xpk) (Some mpk) (k, r)
  = (Ok tt, (k, put_session peer (fresh_session secret ini kp (Some xpk) (Some mpk)) r)).
Proof.
  intros Hk Hs H1 H2 H3 H4 Hm Hp.
  unfold ratchet_init_session_from_kem_handle_impl, ratchet_init_session_with_keypair_handle_impl,
    ratchet_init_session_with_keypair_impl, on_handles, on_store, kem_secret, keypair_secret, check_len, adopt_keypair.
  munfold. cbv beta iota zeta. rewrite Hs, Hk, H3, H4, H1, H2. cbn [Z.eqb Pos.eqb negb orb].
  rewrite (new_with_keypair_ok secret ini). cbv beta iota. rewrite Hm, Hp. cbn [is_some]. by destruct kp.
Qed.

Lemma keypair_lengths c :
  let kp := generate_hybrid_keypair c in
  len (x25519_pk kp) = 32 /\ x25519_sk kp = coins_x25519 c /\ len (mlkem_pk kp) = 1184
  /\ len (mlkem_sk kp) = kyber768_secret_key_bytes.
Proof.
  cbv zeta. unfold generate_hybrid_keypair. destruct (kyber768_keypair _) as [m s] eqn:E. cbn.
  destruct (kyber768_keypair_length _ _ _ E). split_and!; [|done|done|done]. unfold len. by rewrite x25519_public_length.
Qed.

(** Pairing by handles: one side generates a keypair behind a handle, the
    other encapsulates to its public halves, the first decapsulates; both then
    hold the same secret behind their handles, read the same SAS for the same
    public keys, and the two sessions they start from it are in step. *)
Theorem pairing_by_handles ca cb ce va vb vc ka kb ra rb ha kb1 hb kem_a ct ka2 kem_b kb2 ka1 cc :
  generate_pq_keypair_handle_impl va ca ka = (Ok ha, ka1) ->
  generate_pq_keypair_handle_impl vb cb kb = (Ok hb, kb1) ->
  len (coins_x25519 ca) = 32 -> len (coins_x25519 cb) = 32 ->
  let pa := generate_hybrid_keypair ca in
  let pb := generate_hybrid_keypair cb in
  encapsulate_pq_secret_handle_impl vc ce (x25519_pk pb) (mlkem_pk pb) ka1 = (Ok (kem_a, ct), ka2) ->
  decapsulate_pq_secret_handle_impl vc ct hb kb1 = (Ok kem_b, kb2) ->
  map_poisoned ra = false -> map_poisoned rb = false -> sessions ra !! "b" = None -> sessions rb !! "a" = None ->
  (exists secret, kem_secret kem_a ka2 = (Ok secret, ka2) /\ kem_secret kem_b kb2 = (Ok secret, kb2))
  /\ (exists code, generate_sas_code_with_kem_handle_impl (mlkem_pk pb) (mlkem_pk pa) kem_a ka2 = (Ok code, ka2)
     /\ generate_sas_code_with_kem_handle_impl (mlkem_pk pb) (mlkem_pk pa) kem_b kb2 = (Ok code, kb2))
  /\ exists sa sb,
     ratchet_init_session_from_kem_handle_impl "b" true ha kem_a cc (Some (x25519_pk pb)) (Some (mlkem_pk pb)) (ka2, ra)
       = (Ok tt, (ka2, put_session "b" sa ra))
     /\ ratchet_init_session_from_kem_handle_impl "a" false hb kem_b cc (Some (x25519_pk pa)) (Some (mlkem_pk pa)) (kb2, rb)
       = (Ok tt, (kb2, put_session "a" sb rb))
     /\ Paired sa sb.
Proof.
  intros Ga Gb Lca Lcb pa pb En De Ma Mb Sa Sb.
  destruct (keypair_lengths ca) as (A1 & A2 & A3 & _), (keypair_lengths cb) as (B1 & B2 & B3 & _). fold pa in A1, A2, A3. fold pb in B1, B2, B3.
  injection Ga as <- <-. injection Gb as <- <-.
  revert En. unfold encapsulate_pq_secret_handle_impl. munfold. cbv beta iota. rewrite B1, B3. cbn [Z.eqb Pos.eqb negb].
  destruct (encapsulate_hybrid (x25519_pk pb) (mlkem_pk pb) ce) as [res| |] eqn:Ee; [|done|done].
  destruct (keep_secret vc (combined_shared_secret res) _) as [[h| |] k2] eqn:Ek; try done. intros [= <- <- <-].
  apply keep_secret_get in Ek as [Ka Kp].
  revert De. unfold decapsulate_pq_secret_handle_impl, keypair_secret. munfold. cbv beta iota.
  cbn [keypair_handles update upd_keypair_handles upd_next_keypair]. rewrite lookup_insert_eq. cbv beta iota.
  fold pb. assert (len (x25519_sk pb) = 32) as B4 by (by rewrite B2). rewrite B4. cbn [Z.eqb Pos.eqb].
  pose proof (decapsulate_encapsulate cb ce res Ee) as D. cbv zeta in D. fold pb in D. rewrite D.
  intros Eb. apply keep_secret_get in Eb as [Kb Kbp]. split; [|split].
  - unfold kem_secret. munfold. cbv beta iota. rewrite Ka, Kb. eauto.
  - unfold generate_sas_code_with_kem_handle_impl, kem_secret. munfold. cbv beta iota. rewrite Ka, Kb.
    rewrite generate_sas_windows. eauto.
  - eexists _, _. split; [|split].
    + apply (init_from_handles "b" true _ _ cc (x25519_pk pb) (mlkem_pk pb) _ ra pa (combined_shared_secret res));
        [rewrite Kp; cbn; apply lookup_insert_eq|done|done|by rewrite A2|done..].
    + apply (init_from_handles "a" false _ _ cc (x25519_pk pa) (mlkem_pk pa) _ rb pb (combined_shared_secret res));
        [rewrite Kbp; cbn; apply lookup_insert_eq|done..].
    + by split.
Qed.

End Agreement.

(** ** Every operation keeps the invariant *)

Inductive KemOp :=
| OpGenerate (victim : Z) (coins : KemCoins)
| OpEncapsulate (victim : Z) (coins : KemCoins) (xpk mpk : bytes)
| OpDecapsulate (victim : Z) (ct : bytes) (h : Z)
| OpDestroyKeypair (h : Z)
| OpDestroyAllKeypairs
| OpDestroyKem (h : Z)
| OpDestroyAllKem.

Section Operations.
Context `{P : Primitives}.

(** The registries after an operation, whatever its result. *)
Definition run_kem (op : KemOp) (k : KemHandles) : KemHandles :=
  match op with
  | OpGenerate v c => snd (generate_pq_keypair_handle_impl v c k)
  | OpEncapsulate v c x m => snd (encapsulate_pq_secret_handle_impl v c x m k)
  | OpDecapsulate v ct h => snd (decapsulate_pq_secret_handle_impl v ct h k)
  | OpDestroyKeypair h => snd (destroy_pq_keypair_handle_impl h k)
  | OpDestroyAllKeypairs => destroy_all_pq_keypair_handles_impl k
  | OpDestroyKem h => snd (destroy_kem_handle_impl h k)
  | OpDestroyAllKem => destroy_all_kem_handles_impl k
  end.

(** The hash map yields one of its keys, and no counter is at its end. *)
Definition regular (op : KemOp) (k : KemHandles) : Prop :=
  0 <= next_keypair_handle k < u64_max /\ 0 <= next_kem_handle k < u64_max /\
  match op with
  | OpGenerate v _ => yields MAX_KEYPAIR_HANDLES v (keypair_handles k)
  | OpEncapsulate v _ _ _ | OpDecapsulate v _ _ => yields MAX_KEM_HANDLES v (kem_secrets k)
  | _ => True
  end.

Lemma wf_generate v c k :
  wf_kem k -> yields MAX_KEYPAIR_HANDLES v (keypair_handles k) -> 0 <= next_keypair_handle k < u64_max ->
  wf_kem (snd (generate_pq_keypair_handle_impl v c k)).
Proof.
  intros H Hv Hn. assert (keypair_handles k !! next_keypair_handle k = None) as Hnone.
  { apply eq_None_not_Some. intros Hx%(wk_pairs_next _ H). lia. }
  assert (wrap64 (next_keypair_handle k + 1) = next_keypair_handle k + 1) as Hw
    by (unfold wrap64, u64_max in *; rewrite Z.mod_small; lia).
  split; cbn -[drop_one generate_hybrid_keypair].
  - by apply drop_one_cap; [|apply H|..].
  - intros h Hh. rewrite Hw. apply lookup_insert_is_Some in Hh as [<-|[_ Hh]]; [lia|].
    apply drop_one_sub, (wk_pairs_next _ H) in Hh. lia.
  - apply H.
  - apply H.
Qed.

(** The two registries stay within their caps and a handle given out is never
    one in use, over every operation and on every branch, errors included. *)
Theorem kem_handles_bounded op k : wf_kem k -> regular op k -> wf_kem (run_kem op k).
Proof.
  intros H (Hp & Hs & Hv). destruct op as [v c|v c x m|v ct h|h| |h|]; cbn [run_kem].
  - by apply wf_generate.
  - unfold encapsulate_pq_secret_handle_impl. munfold. cbv beta iota.
    destruct (negb _); [done|]. destruct (negb _); [done|]. destruct (encapsulate_hybrid x m c) as [res| |]; [|done|done].
    pose proof (wf_keep_secret v (combined_shared_secret res) k H Hv ltac:(lia) ltac:(lia)) as W.
    by destruct (keep_secret v (combined_shared_secret res) k) as [[]].
  - unfold decapsulate_pq_secret_handle_impl, keypair_secret. munfold. cbv beta iota.
    destruct (keypair_handles k !! h) as [kp|]; [|done]. destruct (_ =? _); [|done].
    destruct (decapsulate_hybrid _ _ _) as [secret| |]; [|done|done]. apply wf_keep_secret; [done|done|lia|lia].
  - split; cbn; try apply H.
    + rewrite map_size_delete. pose proof (wk_pairs_cap _ H). destruct (keypair_handles k !! h); unfold id; lia.
    + intros x [y [_ Hx]%lookup_delete_Some]. apply (wk_pairs_next _ H). eauto.
  - split; cbn; try apply H; [by rewrite map_size_empty|]. intros x [y Hx]. by rewrite lookup_empty in Hx.
  - split; cbn; try apply H.
    + rewrite map_size_delete. pose proof (wk_secrets_cap _ H). destruct (kem_secrets k !! h); unfold id; lia.
    + intros x [y [_ Hx]%lookup_delete_Some]. apply (wk_secrets_next _ H). eauto.
  - split; cbn; try apply H; [by rewrite map_size_empty|]. intros x [y Hx]. by rewrite lookup_empty in Hx.
Qed.

End Operations.

(** ** Witnesses *)

Import Scenario.

Lemma wf_new_kem : wf_kem new_kem_handles.
Proof. split; cbn; try (by rewrite map_size_empty); intros h [x Hx]; by rewrite lookup_empty in Hx. Qed.

Lemma kem_handles_bounded_witness : wf_kem (run_kem (OpGenerate 0 (coins 11)) new_kem_handles).
Proof.
  apply (kem_handles_bounded (OpGenerate 0 (coins 11)) new_kem_handles wf_new_kem). split_and!; try by vm_compute.
Defined.

Definition toy_a : KemHandles := snd (generate_pq_keypair_handle_impl 0 (coins 11) new_kem_handles).
Definition toy_b : KemHandles := snd (generate_pq_keypair_handle_impl 0 (coins 21) new_kem_handles).
Definition toy_enc : kres (Z * bytes) * KemHandles :=
  encapsulate_pq_secret_handle_impl 0 (coins 31) (x25519_pk pair_b) (mlkem_pk pair_b) toy_a.
Definition toy_ct : bytes := match fst toy_enc with Ok (_, ct) => ct | _ => [] end.
Definition toy_dec : kres Z * KemHandles := decapsulate_pq_secret_handle_impl 0 toy_ct 1 toy_b.
Definition empty_registry : Registry := {| sessions := ∅; map_poisoned := false |}.

Lemma pairing_by_handles_witness :
  exists sa sb,
    ratchet_init_session_from_kem_handle_impl "b" true 1 1 (coins 1) (Some (x25519_pk pair_b)) (Some (mlkem_pk pair_b)) (snd toy_enc, empty_registry)
      = (Ok tt, (snd toy_enc, put_session "b" sa empty_registry))
    /\ ratchet_init_session_from_kem_handle_impl "a" false 1 1 (coins 1) (Some (x25519_pk pair_a)) (Some (mlkem_pk pair_a)) (snd toy_dec, empty_registry)
      = (Ok tt, (snd toy_dec, put_session "a" sb empty_registry))
    /\ Paired sa sb.
Proof.
  apply (pairing_by_handles (coins 11) (coins 21) (coins 31) 0 0 0 new_kem_handles new_kem_handles empty_registry empty_registry
           1 toy_b 1 1 toy_ct (snd toy_enc) 1 (snd toy_dec) toy_a (coins 1)); try reflexivity.
Defined.
