(* ===== verification/CryptoApi.v ===== *)
(** * CryptoApi: the library's key interface (core-crypto/src/crypto_api.rs)

    The exported entry points that are more than a call of the handle
    registries: the raw KEM and AEAD functions the desktop calls in its own
    process, the entry to a ratchet session by handles, and the wipe.  A phone
    works with handles and the desktop with raw keys; both sides are put together
    here. *)

From S2P Require Import Prelude Error Primitives Aead Kem Toy Sas Json.
From S2P Require Import RatchetState RatchetEncrypt Scenario RatchetRekey Registry SessionHandle KemHandle.

Definition kem_sizes : list Z := [kyber768_public_key_bytes; kyber768_secret_key_bytes; kyber768_ciphertext_bytes].

Section Api.
Context `{P : Primitives} `{X : Hex}.

Definition generate_pq_keypair (coins : KemCoins) : kres HybridKeyPair := Ok (generate_hybrid_keypair coins).

(** The ciphertext and the shared secret. *)
Definition encapsulate_pq_secret (coins : KemCoins) (peer_x25519_pk peer_mlkem_pk : bytes) : kres (bytes * bytes) :=
  _ ← guard_err (negb (len peer_x25519_pk =? 32)) (InvalidKeyLength 32 (len peer_x25519_pk));
  _ ← guard_err (negb (len peer_mlkem_pk =? kyber768_public_key_bytes))
        (InvalidKeyLength kyber768_public_key_bytes (len peer_mlkem_pk));
  res ← encapsulate_hybrid peer_x25519_pk peer_mlkem_pk coins;
  Ok (ciphertext_bytes res, combined_shared_secret res).

Definition decapsulate_pq_secret (ciphertext my_x25519_sk my_mlkem_sk : bytes) : kres bytes :=
  _ ← guard_err (negb (len my_x25519_sk =? 32)) (InvalidKeyLength 32 (len my_x25519_sk));
  _ ← guard_err (negb (len my_mlkem_sk =? kyber768_secret_key_bytes))
        (InvalidKeyLength kyber768_secret_key_bytes (len my_mlkem_sk));
  decapsulate_hybrid ciphertext my_x25519_sk my_mlkem_sk.

Definition derive_session_key_raw (shared_secret salt : bytes) : kres bytes :=
  derive_session_key shared_secret salt (bstr "kyberpipe-hybrid-session").

Definition session_derivation_salt : bytes := SESSION_KEY_DERIVATION_SALT.

(** [nonce]: the random bytes drawn. *)
Definition encrypt_with_raw_key_32 (nonce session_key data : bytes) : kres (bytes * bytes) :=
  _ ← guard_err (negb (len session_key =? 32)) (InvalidKeyLength 32 (len session_key));
  ciphertext ← encrypt_chacha20 session_key nonce data [];
  Ok (nonce, ciphertext).

Definition decrypt_with_raw_key_32 (session_key nonce ciphertext : bytes) : kres bytes :=
  _ ← guard_err (negb (len session_key =? 32)) (InvalidKeyLength 32 (len session_key));
  _ ← guard_err (negb (len nonce =? 12)) (DecryptionFailed "Nonce must be 12 bytes");
  decrypt_chacha20 session_key nonce ciphertext [].

Definition is_duplicate_clipboard (content_hash : string) (recent_hashes : list string) : bool :=
  existsb (fun h => eqb_dec h content_hash) recent_hashes.

Definition compute_sha256 (data : bytes) : string := hex_encode (sha256 data).

(** An empty key stands for none. *)
Definition given (key : bytes) : option bytes := if bool_decide (key = []) then None else Some key.
Definition ratchet_init_session_from_kem_handle (peer : string) (ini : bool) (h kem_h : Z) (coins : KemCoins) (xpk mpk : bytes)
  : Comp KyberError (KemHandles * Registry) string :=
  _ ← ratchet_init_session_from_kem_handle_impl peer ini h kem_h coins (given xpk) (given mpk);
  mret "Session initialized".

(** ** The wipe *)

(** What the library keeps in a process. *)
Record Process := { api_kem : KemHandles; api_keys : SessionRegistry; api_ratchets : Registry }.

Definition trigger_panic_hardware_wipe (p : Process) : Process :=
  {| api_ratchets := ratchet_clear_all_sessions_impl (api_ratchets p);
     api_keys := increment_destruct_generation (session_key_destroy_all (api_keys p));
     api_kem := api_kem p |}.

(** An operation on the handles leaves the generation, or counts a destruction. *)
Lemma exec_handle_generation o r :
  destruct_generation (exec_handle o r) = destruct_generation r
  \/ destruct_generation (exec_handle o r) = wrap64 (destruct_generation r + 1).
Proof.
  assert (forall h, destruct_generation (snd (session_key_get h r)) = destruct_generation r) as Hget.
  { intros h. unfold session_key_get, touch. cbn [snd]. destruct (keys r !! h); [|done]. by destruct (existsb _ _). }
  assert (forall h, destruct_generation (snd (checked_key h r)) = destruct_generation r) as Hck
    by (intros h; destruct (checked_key_state h r) as [->| ->]; [done|apply Hget]).
  destruct o as [key|h|h|h|h| |h nonce data|h nonce ct|]; cbn [exec_handle]; [left| left|by left|left|by left|by left|left|left|by right].
  - destruct (session_key_create key r) as [res r'] eqn:E. unfold session_key_create, make_room in E. munfold.
    destruct (negb (len key =? 32)); [by injection E as _ <-|].
    assert (destruct_generation (evict_lru r) = destruct_generation r) as Hev
      by (unfold evict_lru; by destruct (pop_unpinned r (lru r)) as [[]]).
    destruct (MAX_SESSION_KEYS <=? _); [destruct (negb (existsb _ _)); [by injection E as _ <-|]|];
      match type of E with context [existsb _ (map_to_list ?m)] => destruct (existsb _ (map_to_list m)) end; by injection E as _ <-.
  - apply Hget.
  - unfold session_key_pin. by destruct (keys r !! h).
  - by rewrite encrypt_state, Hck.
  - by rewrite decrypt_state, Hck.
Qed.

Lemma run_handles_destroyed ops r :
  0 < destruct_generation r -> destruct_generation r + len ops <= u64_max -> check_generation (run_handles ops r) = false.
Proof.
  revert r. induction ops as [|o ops IH]; intros r H0 H1; cbn [run_handles fold_left].
  - unfold check_generation. apply Z.eqb_neq. lia.
  - unfold len in *. cbn [length] in H1. apply IH; destruct (exec_handle_generation o r) as [->| ->]; try lia;
      unfold wrap64, u64_max in *; rewrite Z.mod_small; lia.
Qed.

Lemma destroyed_key h r : check_generation r = false -> checked_key h r = (Err destroyed_error, r).
Proof. intros H. unfold checked_key. munfold. by rewrite H. Qed.

(** After the wipe there is no session and no session key, and none will work
    again in this process: whatever is done with the handles, keys created
    included, every encryption and decryption is refused. *)
Theorem wipe_is_final p ops h nonce data ct :
  0 <= destruct_generation (api_keys p) -> destruct_generation (api_keys p) + 1 + len ops <= u64_max ->
  let p' := trigger_panic_hardware_wipe p in
  let r := run_handles ops (api_keys p') in
  sessions (api_ratchets p') = ∅ /\ keys (api_keys p') = ∅
  /\ session_key_encrypt h nonce data r = (Err destroyed_error, r) /\ session_key_decrypt h nonce ct r = (Err destroyed_error, r).
Proof.
  intros H0 H1 p' r. split; [done|]. split; [done|].
  assert (check_generation r = false) as Hr.
  { assert (destruct_generation (api_keys p') = destruct_generation (api_keys p) + 1) as Eg.
    { cbn. unfold wrap64, u64_max, len in *. rewrite Z.mod_small; lia. }
    apply run_handles_destroyed; rewrite Eg; [lia|done]. }
  unfold session_key_encrypt, session_key_decrypt. munfold. by rewrite (destroyed_key h r Hr).
Qed.

(** The wipe does not reach the keypairs and secrets behind KEM handles. *)
Lemma wipe_leaves_kem p h secret :
  kem_secrets (api_kem p) !! h = Some secret ->
  fst (kem_secret h (api_kem (trigger_panic_hardware_wipe p))) = Ok secret.
Proof. intros H. unfold kem_secret. munfold. cbn [api_kem trigger_panic_hardware_wipe]. by rewrite H. Qed.

(** ** The two sides *)

Context {L : PrimitivesLaws} {LO : LowOrderLaw}.

Lemma derived_key_len secret salt key : derive_session_key_raw secret salt = Ok key -> len key = 32.
Proof.
  unfold derive_session_key_raw, derive_session_key. rewrite hkdf_expand_ok by done. intros [= <-].
  unfold len. by rewrite hkdf_okm_length.
Qed.

(** The handle of a derived key holds it. *)
Lemma derive_handle_holds k r kem_h secret hs k' r' :
  kem_secrets k !! kem_h = Some secret -> derive_session_key_handle_impl kem_h (k, r) = (Ok hs, (k', r')) ->
  exists key, derive_session_key_raw secret session_derivation_salt = Ok key /\ keys r' !! hs = Some key.
Proof.
  intros Hk. unfold derive_session_key_handle_impl, on_handles, on_store, kem_secret. munfold. rewrite Hk. cbv beta iota.
  unfold derive_session_key_raw, session_derivation_salt.
  destruct (derive_session_key secret SESSION_KEY_DERIVATION_SALT (bstr "kyberpipe-hybrid-session")) as [key| |]; [|done|done].
  destruct (session_key_create key r) as [res r1] eqn:E. intros [= -> <- <-]. exists key. split; [done|].
  apply create_cases in E as [(e & [=] & _)|(_ & r0 & _ & E)]. destruct (key_known key r0); destruct E as [[= ->] ->].
  cbn. apply lookup_insert_eq.
Qed.

(** C8: A phone that works with handles and a desktop that works with raw keys: the
    phone encapsulates to the desktop's public keys and derives its session key
    behind a handle; the desktop decapsulates and derives.  Both read the same
    SAS, and what either encrypts the other decrypts, as long as neither key was
    destroyed. *)
Theorem phone_and_desktop_agree cd ce v k kem_h ct k1 r hs k2 r1 r2 host_pk client_pk nonce nonce' data data' sealed sealed' :
  len (coins_x25519 cd) = 32 ->
  let desk := generate_hybrid_keypair cd in
  encapsulate_pq_secret_handle_impl v ce (x25519_pk desk) (mlkem_pk desk) k = (Ok (kem_h, ct), k1) ->
  derive_session_key_handle_impl kem_h (k1, r) = (Ok hs, (k2, r1)) ->
  keys r2 !! hs = keys r1 !! hs -> destruct_generation r2 = 0 -> len nonce = 12 -> len nonce' = 12 ->
  exists secret key,
    decapsulate_pq_secret ct (x25519_sk desk) (mlkem_sk desk) = Ok secret
    /\ fst (generate_sas_code_with_kem_handle_impl host_pk client_pk kem_h k1) = generate_sas_code host_pk client_pk secret
    /\ derive_session_key_raw secret session_derivation_salt = Ok key
    /\ (fst (session_key_encrypt hs nonce data r2) = Ok sealed -> decrypt_with_raw_key_32 key (fst sealed) (snd sealed) = Ok data)
    /\ (encrypt_with_raw_key_32 nonce' key data' = Ok sealed' ->
        fst (session_key_decrypt hs (fst sealed') (snd sealed') r2) = Ok data').
Proof.
  intros Hc desk En De Hkeys Hgen Hn Hn'.
  destruct (keypair_lengths cd) as (B1 & B2 & B3 & B5). fold desk in B1, B2, B3, B5.
  revert En. unfold encapsulate_pq_secret_handle_impl. munfold. rewrite B1, B3. cbn [Z.eqb Pos.eqb negb].
  destruct (encapsulate_hybrid (x25519_pk desk) (mlkem_pk desk) ce) as [res| |] eqn:Ee; [|done|done].
  destruct (keep_secret v (combined_shared_secret res) k) as [[h| |] k3] eqn:Ek; [|done|done]. intros [= -> <- ->].
  apply keep_secret_get in Ek as [Ks _]. destruct (derive_handle_holds _ _ _ _ _ _ _ Ks De) as (key & Hkey & Hh).
  pose proof (derived_key_len _ _ _ Hkey) as Hl. rewrite Hh in Hkeys.
  pose proof (decapsulate_encapsulate cd ce res Ee) as D. cbv zeta in D. fold desk in D.
  exists (combined_shared_secret res), key. split; [|split; [|split; [done|split]]].
  - unfold decapsulate_pq_secret. assert (len (x25519_sk desk) = 32) as -> by (by rewrite B2). rewrite B5.
    change (kyber768_secret_key_bytes =? kyber768_secret_key_bytes) with true. exact D.
  - unfold generate_sas_code_with_kem_handle_impl, kem_secret. munfold. by rewrite Ks.
  - unfold session_key_encrypt, checked_key, session_key_get, check_generation, decrypt_with_raw_key_32. munfold.
    rewrite Hgen, Hkeys. cbn [Z.eqb negb fst ok_or]. destruct (encrypt_chacha20 key nonce data []) as [c| |] eqn:Ec; [|done|done].
    intros [= <-]. cbn [fst snd]. rewrite Hl, Hn. by apply decrypt_encrypt_chacha20 in Ec.
  - unfold session_key_decrypt, checked_key, session_key_get, check_generation, encrypt_with_raw_key_32. munfold.
    rewrite Hl. cbn [Z.eqb Pos.eqb negb guard_err]. destruct (encrypt_chacha20 key nonce' data' []) as [c| |] eqn:Ec; [|done|done].
    intros [= <-]. cbn [fst snd]. rewrite Hgen, Hkeys. cbn [Z.eqb negb ok_or]. rewrite Hn'. by apply decrypt_encrypt_chacha20 in Ec.
Qed.

End Api.

(** ** A desktop and a phone *)

Module TwoSides.
Import Scenario.

Definition phone_enc : kres (Z * bytes) * KemHandles :=
  encapsulate_pq_secret_handle_impl 0 (coins 31) (x25519_pk pair_b) (mlkem_pk pair_b) new_kem_handles.
Definition phone_ct : bytes := match fst phone_enc with Ok (_, ct) => ct | _ => [] end.
Definition phone_key : kres Z * (KemHandles * SessionRegistry) := derive_session_key_handle_impl 1 (snd phone_enc, new_registry).
Definition phone_keys : SessionRegistry := snd (snd phone_key).
Definition nonce7 : bytes := replicate 12 x07.
Definition hello : kres (bytes * bytes) := fst (session_key_encrypt 1 nonce7 (bstr "hello") phone_keys).
Definition sealed_hello : bytes * bytes := match hello with Ok s => s | _ => ([], []) end.

Lemma phone_and_desktop_agree_witness :
  exists secret key,
    decapsulate_pq_secret phone_ct (x25519_sk pair_b) (mlkem_sk pair_b) = Ok secret
    /\ derive_session_key_raw secret session_derivation_salt = Ok key
    /\ decrypt_with_raw_key_32 key (fst sealed_hello) (snd sealed_hello) = Ok (bstr "hello").
Proof.
  destruct (phone_and_desktop_agree (coins 21) (coins 31) 0 new_kem_handles 1 phone_ct (snd phone_enc) new_registry 1
              (fst (snd phone_key)) phone_keys phone_keys [] [] nonce7 nonce7 (bstr "hello") (bstr "hello") sealed_hello sealed_hello)
    as (secret & key & H1 & _ & H2 & H3 & _); [reflexivity..|].
  exists secret, key. split; [exact H1|]. split; [exact H2|]. apply H3. reflexivity.
Defined.

Definition wiped : Process :=
  trigger_panic_hardware_wipe {| api_kem := snd phone_enc; api_keys := phone_keys; api_ratchets := empty_registry |}.
Lemma wipe_is_final_witness :
  fst (session_key_encrypt 2 nonce7 (bstr "hello") (run_handles [SessionHandle.Create (key_of 1)] (api_keys wiped))) = Err destroyed_error.
Proof.
  destruct (wipe_is_final {| api_kem := snd phone_enc; api_keys := phone_keys; api_ratchets := empty_registry |}
    [SessionHandle.Create (key_of 1)] 2 nonce7 (bstr "hello") []) as (_ & _ & H & _); [by vm_compute|by vm_compute|].
  unfold wiped. by rewrite H.
Defined.

End TwoSides.
