(* ===== verification/Crdt.v ===== *)
(** * Crdt: the last-write-wins register
    (core-crypto/src/crypto/crdt.rs)

    A register is overwritten by an incoming one with a later time stamp, or the
    same stamp and a larger node id; a stamp further than a minute from the
    local clock is ignored.  Node ids are byte strings, compared as Rust
    compares strings. *)

From S2P Require Import Prelude.

Section Crdt.
Context {T : Type}.

Record LwwRegisterCRDT := { value : T; lww_timestamp : Z; node_id : bytes }.

Definition MAX_CLOCK_DRIFT_MS : Z := 60000.

Definition new_register (v : T) (node : bytes) (ts : Z) : LwwRegisterCRDT :=
  {| value := v; lww_timestamp := ts; node_id := node |}.

(** [u64::abs_diff]. *)
Definition abs_diff (a b : Z) : Z := Z.abs (a - b).

(** Whether [incoming] replaces [self]. *)
Definition supersedes (incoming self : LwwRegisterCRDT) : bool :=
  (lww_timestamp self <? lww_timestamp incoming)
  || (lww_timestamp incoming =? lww_timestamp self)
     && match bytes_cmp (node_id incoming) (node_id self) with Gt => true | _ => false end.

Definition merge (now_ms : Z) (incoming self : LwwRegisterCRDT) : bool * LwwRegisterCRDT :=
  if lww_timestamp incoming =? u64_max then (false, self)
  else if MAX_CLOCK_DRIFT_MS <? abs_diff (lww_timestamp incoming) now_ms then (false, self)
  else if supersedes incoming self
  then (true, {| value := value incoming; lww_timestamp := lww_timestamp incoming; node_id := node_id incoming |})
  else (false, self).

(** A replica that receives updates, each at a local time. *)
Definition receive (arrivals : list (Z * LwwRegisterCRDT)) (self : LwwRegisterCRDT) : LwwRegisterCRDT :=
  fold_left (fun s '(now, u) => snd (merge now u s)) arrivals self.

(** ** Lemmas *)

(** The order of registers: by time stamp, then node id. *)
Definition no_later (a b : LwwRegisterCRDT) : Prop := supersedes a b = false.

Definition in_window (now : Z) (u : LwwRegisterCRDT) : Prop :=
  lww_timestamp u <> u64_max /\ abs_diff (lww_timestamp u) now <= MAX_CLOCK_DRIFT_MS.

Lemma merge_in_window now u s : in_window now u -> snd (merge now u s) = if supersedes u s then u else s.
Proof.
  intros [Hm Hd]. unfold merge. rewrite (proj2 (Z.eqb_neq _ _)), (proj2 (Z.ltb_ge _ _)) by done.
  destruct (supersedes u s); [|done]. by destruct u.
Qed.

Lemma bytes_cmp_trans a b c : bytes_cmp a b <> Gt -> bytes_cmp b c <> Gt -> bytes_cmp a c <> Gt.
Proof.
  revert b c. induction a as [|x a IH]; intros [|y b] [|z c]; try done. cbn.
  destruct (Z.compare_spec (Z_of_byte x) (Z_of_byte y)) as [E1|L1|G1];
    destruct (Z.compare_spec (Z_of_byte y) (Z_of_byte z)) as [E2|L2|G2];
    destruct (Z.compare_spec (Z_of_byte x) (Z_of_byte z)); try done; try lia. apply IH.
Qed.

Lemma no_later_spec a b :
  no_later a b <-> lww_timestamp a < lww_timestamp b
                   \/ lww_timestamp a = lww_timestamp b /\ bytes_cmp (node_id a) (node_id b) <> Gt.
Proof.
  unfold no_later, supersedes.
  destruct (Z.ltb_spec (lww_timestamp b) (lww_timestamp a)), (Z.eqb_spec (lww_timestamp a) (lww_timestamp b)),
    (bytes_cmp (node_id a) (node_id b)); cbn; split; intros Hs; try done; try (left; lia); try (right; done);
    destruct Hs as [?|[? ?]]; done || lia.
Qed.

Lemma no_later_refl a : no_later a a.
Proof. apply no_later_spec. right. split; [done|]. by rewrite bytes_cmp_refl. Qed.

Lemma no_later_trans a b c : no_later a b -> no_later b c -> no_later a c.
Proof.
  rewrite !no_later_spec. intros [?|[? Hab]] [?|[? Hbc]]; [left; lia..|right].
  split; [congruence|]. by eapply bytes_cmp_trans.
Qed.

Lemma no_later_keeps a b : supersedes a b = true -> no_later b a.
Proof.
  unfold supersedes. rewrite orb_true_iff, andb_true_iff, Z.ltb_lt, Z.eqb_eq, no_later_spec.
  intros [?|[? Hc]]; [by left|right]. split; [done|]. rewrite bytes_cmp_antisym.
  by destruct (bytes_cmp (node_id a) (node_id b)).
Qed.

Lemma no_later_antisym a b :
  no_later a b -> no_later b a -> lww_timestamp a = lww_timestamp b /\ node_id a = node_id b.
Proof.
  rewrite !no_later_spec. rewrite (bytes_cmp_antisym (node_id a)).
  intros [?|[? Hab]] [?|[? Hba]]; try lia. split; [done|].
  apply bytes_cmp_eq. by destruct (bytes_cmp (node_id a) (node_id b)).
Qed.

(** The register kept is one of those seen, and the latest. *)
Lemma receive_latest arrivals s :
  Forall (fun '(now, u) => in_window now u) arrivals ->
  receive arrivals s ∈ s :: arrivals.*2 /\ Forall (fun u => no_later u (receive arrivals s)) (s :: arrivals.*2).
Proof.
  revert s. induction arrivals as [|[now u] arrivals IH]; intros s H.
  { split; [set_solver|]. repeat constructor. apply no_later_refl. }
  apply Forall_cons in H as [Hw H]. change (receive ((now, u) :: arrivals) s) with (receive arrivals (snd (merge now u s))).
  rewrite merge_in_window by done. rewrite fmap_cons. cbn [snd].
  destruct (supersedes u s) eqn:E; [destruct (IH u H) as [Hin Hall]|destruct (IH s H) as [Hin Hall]]; clear IH; apply Forall_cons in Hall as [Hx Hall].
  - split; [set_solver|]. repeat constructor; try done. eapply no_later_trans; [by apply no_later_keeps|done].
  - split; [set_solver|]. repeat constructor; try done. by eapply no_later_trans.
Qed.

(** Replicas converge: two replicas with the same register that receive the
    same updates, in any order and at any times within the drift bound, end
    with the same register, provided a stamp and a node name one value. *)
Theorem crdt_converges (s : LwwRegisterCRDT) arrivals arrivals' :
  arrivals.*2 ≡ₚ arrivals'.*2 ->
  Forall (fun '(now, u) => in_window now u) arrivals -> Forall (fun '(now, u) => in_window now u) arrivals' ->
  (forall a b, a ∈ s :: arrivals.*2 -> b ∈ s :: arrivals.*2 ->
     lww_timestamp a = lww_timestamp b -> node_id a = node_id b -> a = b) ->
  receive arrivals s = receive arrivals' s.
Proof.
  intros Hp H1 H2 Hu. destruct (receive_latest _ s H1) as [I1 L1], (receive_latest _ s H2) as [I2 L2].
  rewrite <- Hp in I2. rewrite <- Hp in L2. rewrite Forall_forall in L1, L2.
  destruct (no_later_antisym (receive arrivals s) (receive arrivals' s)) as [Ht Hn]; [by apply L2|by apply L1|].
  by apply Hu.
Qed.
End Crdt.

(** ** Witnesses *)

Definition reg_a : LwwRegisterCRDT := new_register 1 (bstr "a") 1000.
Definition reg_b : LwwRegisterCRDT := new_register 2 (bstr "b") 1000.
Definition reg_c : LwwRegisterCRDT := new_register 3 (bstr "c") 900.

Lemma crdt_converges_witness :
  receive [(1000, reg_b); (1200, reg_a)] reg_c = receive [(1100, reg_a); (1500, reg_b)] reg_c.
Proof.
  apply (crdt_converges reg_c [(1000, reg_b); (1200, reg_a)] [(1100, reg_a); (1500, reg_b)]).
  - apply Permutation_swap.
  - repeat constructor; discriminate.
  - repeat constructor; discriminate.
  - intros x y Hx Hy. cbn in Hx, Hy. rewrite !elem_of_cons, elem_of_nil in Hx, Hy.
    destruct Hx as [->|[->|[->|[]]]], Hy as [->|[->|[->|[]]]]; done.
Defined.

(** An update that reaches one replica more than a minute late is dropped there
    for good: the replicas differ. *)
Lemma late_update_diverges :
  receive [(1000, reg_a)] reg_c = reg_a /\ receive [(61001, reg_a)] reg_c = reg_c.
Proof. by vm_compute. Qed.
