(* ===== verification/RatchetStore.v ===== *)
(** * RatchetStore: the desktop's encrypted session store
    (desktop-app/src-tauri/src/ratchet_store.rs)

    The host is the OS keyring and the files of the data directory.  A keyring
    or file operation can fail: whether it does is an argument of the
    operation (a boolean, [true] for success), and a failed write may leave a
    torn text behind.  A file that cannot be read as UTF-8 counts as a failed
    read.  The fresh nonces are an argument. *)

From Stdlib.Strings Require Import Ascii.
From S2P Require Import Prelude Error Primitives Aead Kem Json.
From S2P Require Import RatchetState RatchetSnapshot Registry.

Record Host := {
  keyring : gmap (string * string) string;
  files : gmap string string
}.
Definition eta_host (h : Host) : Host := {| keyring := keyring h; files := files h |}.
#[export] Instance upd_keyring : Update keyring. Proof. solve_update eta_host keyring. Defined.
#[export] Instance upd_files : Update files. Proof. solve_update eta_host files. Defined.

(** ** Names *)
Definition KEYRING_SESSION_KEY : string := "session_key".
Definition KEYRING_PAIRING_KEYPAIR : string := "pairing_keypair".
Definition KEYRING_RATCHET_WATERMARK : string := "ratchet_watermark".
Definition KEYRING_SNAPSHOT_KEY : string := "snapshot_key".
Definition store_path : string := "ratchet_sessions.json".
Definition store_tmp_path : string := "ratchet_sessions.json.tmp".
Definition store_bak_path : string := "ratchet_sessions.json.bak".
Definition watermark_path : string := "ratchet_watermarks.json".

(** ** The keyring and the file system *)
Definition entry (name : string) : string * string := ("kyberpipe", name).
Definition get_password (ok : bool) (e : string * string) (h : Host) : option string :=
  if ok then keyring h !! e else None.
Definition set_password (ok : bool) (e : string * string) (v : string) (h : Host) : Host :=
  if ok then h <| keyring ::= <[e := v]> |> else h.
Definition delete_password (ok : bool) (e : string * string) (h : Host) : Host :=
  if ok then h <| keyring ::= delete e |> else h.

Definition fs_read (ok : bool) (path : string) (h : Host) : option string :=
  if ok then files h !! path else None.
(** A failed write leaves what it had written, if anything. *)
Definition fs_write (ok : bool) (torn : option string) (path content : string) (h : Host) : Host :=
  if ok then h <| files ::= <[path := content]> |>
  else match torn with Some t => h <| files ::= <[path := t]> |> | None => h end.
(** Whether the rename took place, and the host after it. *)
Definition fs_rename (ok : bool) (from to : string) (h : Host) : bool * Host :=
  match files h !! from with
  | Some c => if ok then (true, h <| files ::= fun m => <[to := c]> (delete from m) |>) else (false, h)
  | None => (false, h)
  end.
Definition fs_remove (ok : bool) (path : string) (h : Host) : Host :=
  if ok then h <| files ::= delete path |> else h.

(** ** Keys *)

Definition store_session_key_to_keyring (ok : bool) (session_key_hex : string) : Host -> Host :=
  set_password ok (entry KEYRING_SESSION_KEY) session_key_hex.

Definition nonempty (s : option string) : option string :=
  match s with Some t => if decide (t = "") then None else Some t | None => None end.

Definition session_key_from_keyring (ok : bool) (h : Host) : option string :=
  nonempty (get_password ok (entry KEYRING_SESSION_KEY) h).

(** The entries the wipe deletes, in order. *)
Definition wiped_entries : list (string * string) :=
  (entry <$> ["master_identity_key"; KEYRING_SESSION_KEY; KEYRING_SNAPSHOT_KEY; KEYRING_PAIRING_KEYPAIR;
              "beacon_signing_sk"; "beacon_signing_pk"; "tor_onion_key"; "server_tls_key";
              KEYRING_RATCHET_WATERMARK])
  ++ [("kyberpipe-tofu", "server_cert_hash")].

Definition remove_legacy_beacon_key_files (ok : bool) (h : Host) : Host :=
  fs_remove ok "device_mldsa_sk.bin" (fs_remove ok "device_mldsa_pk.bin" h).

Definition clear_pairing_keypair_from_keyring (ok : bool) : Host -> Host :=
  delete_password ok (entry KEYRING_PAIRING_KEYPAIR).

(** [oks]: for each entry whether its deletion succeeds. *)
Definition wipe_keyring_entries (oks : string * string -> bool) (files_ok : bool) (h : Host) : Host :=
  let h := foldl (fun h e => delete_password (oks e) e h) h wiped_entries in
  let h := remove_legacy_beacon_key_files files_ok h in
  clear_pairing_keypair_from_keyring (oks (entry KEYRING_PAIRING_KEYPAIR)) h.

(** ** Watermarks: epoch, generation, send count, receive count *)
Abbreviation Watermark := (Z * Z * Z * Z)%type.
Abbreviation Marks := (gmap string Watermark).
Definition zero_mark : Watermark := (0, 0, 0, 0).

Definition merge_watermark (high fresh : Watermark) : Watermark :=
  let '(he, hg, hs, hr) := high in
  let '(fe, fg, fs, fr) := fresh in
  if he <? fe then fresh
  else if fe <? he then high
  else (he, Z.max hg fg, Z.max hs fs, Z.max hr fr).

Definition is_rollback (snap high : Watermark) : bool :=
  let '(se, sg, ss, sr) := snap in
  let '(he, hg, hs, hr) := high in
  if se <? he then true
  else if he <? se then false
  else (sg <? hg) || (ss <? hs) || (sr <? hr).

Definition advances (high fresh : Watermark) : bool :=
  let '(he, hg, hs, hr) := high in
  let '(fe, fg, fs, fr) := fresh in
  if he <? fe then true
  else if fe <? he then false
  else (hg <? fg) || (hs <? fs) || (hr <? fr).

(** One entry of the persisted map: four numbers, or the legacy three. *)
Definition parse_watermark (v : Value) : option Watermark :=
  match as_array v with
  | Some [e; g; s; r] => e ← as_u64 e; g ← as_u64 g; s ← as_u64 s; r ← as_u64 r; Some (e, wrap32 g, s, r)
  | Some [g; s; r] => g ← as_u64 g; s ← as_u64 s; r ← as_u64 r; Some (0, wrap32 g, s, r)
  | _ => None
  end.

Definition parse_watermark_map (v : Value) : Marks :=
  match as_object v with Some obj => omap parse_watermark obj | None => ∅ end.

(** [out.entry(peer).or_insert((0,0,0,0))], then the merge. *)
Definition merge_mark (peer : string) (wm : Watermark) (out : Marks) : Marks :=
  <[peer := merge_watermark (default zero_mark (out !! peer)) wm]> out.

Definition watermark_value (wms : Marks) : Value :=
  Object ((fun '(e, g, s, r) => Array [Number e; Number g; Number s; Number r]) <$> wms).

Definition key_fields (nonce_hex ciphertext_hex : string) : Value :=
  Object (<["nonce_hex" := Str nonce_hex]> {[ "ciphertext_hex" := Str ciphertext_hex ]}).

(** The outcomes of the I/O of one persist: the two reads of the marks, the
    temporary file, the two renames, the rename back, the marks, the removal. *)
Record PersistIo := {
  io_marks : bool * bool;
  io_tmp_write : bool; io_tmp_torn : option string; io_tmp_sync : bool;
  io_rotate : bool; io_rename : bool; io_back : bool;
  io_marks_again : bool * bool;
  io_keyring_set : bool; io_marks_write : bool; io_marks_torn : option string;
  io_tmp_remove : bool
}.
Definition all_ok : PersistIo := {|
  io_marks := (true, true); io_tmp_write := true; io_tmp_torn := None; io_tmp_sync := true;
  io_rotate := true; io_rename := true; io_back := true; io_marks_again := (true, true);
  io_keyring_set := true; io_marks_write := true; io_marks_torn := None; io_tmp_remove := true |}.

Section Store.
Context `{P : Primitives} `{J : SnapshotCodec} `{T : JsonText} `{X : Hex}.

Definition wrap_key (snapshot_key_hex : string) : option bytes :=
  b ← hex_decode snapshot_key_hex;
  match derive_session_key b (bstr "kyberpipe-ratchet-persist-salt") (bstr "kyberpipe-ratchet-snapshot-v1") with
  | Ok k => Some k | _ => None end.

Definition notif_wrap_key (snapshot_key_hex : string) : option bytes :=
  b ← hex_decode snapshot_key_hex;
  match derive_session_key b (bstr "kyberpipe-notif-persist-salt") (bstr "kyberpipe-notif-store-v1") with
  | Ok k => Some k | _ => None end.

(** The stored key, or a fresh one ([fresh] is what the generator returned). *)
Definition snapshot_key_from_keyring (get_ok set_ok : bool) (fresh : bytes) (h : Host) : option string * Host :=
  match nonempty (get_password get_ok (entry KEYRING_SNAPSHOT_KEY) h) with
  | Some key => (Some key, h)
  | None => let hex_key := hex_encode fresh in
            (Some hex_key, set_password set_ok (entry KEYRING_SNAPSHOT_KEY) hex_key h)
  end.

Definition encrypt_notifications_data (snapshot_key_hex : string) (nonce data : bytes) : option string :=
  wk ← notif_wrap_key snapshot_key_hex;
  match encrypt_chacha20 wk nonce data [] with
  | Ok ct => Some (hex_encode nonce +:+ String ":"%char (hex_encode ct))
  | _ => None
  end.

Definition decrypt_notifications_data (snapshot_key_hex blob : string) : option bytes :=
  '(nonce_hex, ct_hex) ← split_once ":"%char blob;
  nonce ← hex_decode nonce_hex;
  ct ← hex_decode ct_hex;
  if negb (len nonce =? 12) then None
  else wk ← notif_wrap_key snapshot_key_hex;
       match decrypt_chacha20 wk nonce ct [] with Ok d => Some d | _ => None end.

(** ** The pairing keypair *)

Definition keypair_value (pair : HybridKeyPair) : Value :=
  Object (<["x25519_pk" := Str (hex_encode (x25519_pk pair))]>
         (<["x25519_sk" := Str (hex_encode (x25519_sk pair))]>
         (<["mlkem_pk" := Str (hex_encode (mlkem_pk pair))]>
         {[ "mlkem_sk" := Str (hex_encode (mlkem_sk pair)) ]}))).

Definition store_pairing_keypair_to_keyring (ok : bool) (pair : HybridKeyPair) (h : Host) : Host :=
  match json_to_string (keypair_value pair) with
  | Some json => set_password ok (entry KEYRING_PAIRING_KEYPAIR) json h
  | None => h
  end.

Definition hex_field (k : string) (v : Value) : option bytes :=
  f ← get_field k v; s ← as_str f; hex_decode s.

Definition load_pairing_keypair_from_keyring (ok : bool) (h : Host) : option HybridKeyPair :=
  stored ← get_password ok (entry KEYRING_PAIRING_KEYPAIR) h;
  v ← json_from_str stored;
  pk ← hex_field "x25519_pk" v;
  sk ← hex_field "x25519_sk" v;
  mpk ← hex_field "mlkem_pk" v;
  msk ← hex_field "mlkem_sk" v;
  if (len pk =? 0) || (len sk =? 0) || (len mpk =? 0) || (len msk =? 0) then None
  else Some {| x25519_pk := pk; x25519_sk := sk; mlkem_pk := mpk; mlkem_sk := msk |}.

(** ** Reading and writing the marks *)

Definition snapshot_watermark (snap : bytes) : option Watermark :=
  match ratchet_snapshot_watermark_impl snap with
  | Ok (Some wm) => Some (wm_pairing_epoch wm, wm_ratchet_generation wm,
                          wm_send_message_count wm, wm_recv_message_count wm)
  | _ => None
  end.

(** The marks of one tier, merged into [out]. *)
Definition merge_tier (text : option string) (out : Marks) : Marks :=
  match text ≫= json_from_str with
  | Some v => map_fold merge_mark out (parse_watermark_map v)
  | None => out
  end.

Definition load_watermarks (ok : bool * bool) (h : Host) : Marks :=
  merge_tier (fs_read (snd ok) watermark_path h)
    (merge_tier (get_password (fst ok) (entry KEYRING_RATCHET_WATERMARK) h) ∅).

Definition save_watermarks (io : PersistIo) (wms : Marks) (h : Host) : Host :=
  if bool_decide (wms = ∅) then h
  else
    let current := load_watermarks (io_marks_again io) h in
    if forallb (fun '(peer, wm) => match current !! peer with Some c => negb (advances c wm) | None => false end)
         (map_to_list wms)
    then h
    else match json_to_string (watermark_value wms) with
         | Some json =>
             fs_write (io_marks_write io) (io_marks_torn io) watermark_path json
               (set_password (io_keyring_set io) (entry KEYRING_RATCHET_WATERMARK) json h)
         | None => h
         end.

(** ** Persist *)

(** The loop body: one peer's snapshot, sealed, and its mark. *)
Definition persist_peer (wk : bytes) (nonces : string -> bytes) (r : Registry)
  (acc : gmap string Value * Marks) (peer : string) : gmap string Value * Marks :=
  let '(entries, marks) := acc in
  match ratchet_export_session_impl peer r with
  | Ok (Some snap) =>
      let marks := match snapshot_watermark snap with Some wm => merge_mark peer wm marks | None => marks end in
      match encrypt_chacha20 wk (nonces peer) snap [] with
      | Ok ct => (<[peer := key_fields (hex_encode (nonces peer)) (hex_encode ct)]> entries, marks)
      | _ => (entries, marks)
      end
  | _ => acc
  end.

(** Rotate the store to the backup, then the temporary file to the store. *)
Definition rotate_store (rotate : bool) (h : Host) : Host :=
  if is_some (files h !! store_path) then snd (fs_rename rotate store_path store_bak_path h) else h.

(** File operations one after the other: the hosts a crash may leave so far, and
    the host now. *)
Abbreviation Run := (list Host * Host)%type.
Definition does (f : Host -> Host) (r : Run) : Run := (fst r ++ [snd r], f (snd r)).

(** The atomic write of [json]; [commit] runs when the new store is in place.  A
    rename is atomic; a write that is under way has left [partly]. *)
Definition write_run (partly : string) (io : PersistIo) (json : string) (commit : Host -> Host) (h : Host) : Run :=
  let r := does (fs_write false (Some partly) store_tmp_path json) ([], h) in
  let r := does (fun _ => fs_write (io_tmp_write io) (io_tmp_torn io) store_tmp_path json h) r in
  let r :=
    if io_tmp_write io && io_tmp_sync io then
      let r := does (rotate_store (io_rotate io)) r in
      let '(renamed, h') := fs_rename (io_rename io) store_tmp_path store_path (snd r) in
      let r := does (fun _ => h') r in
      if renamed : bool then does commit r
      else does (fun h => snd (fs_rename (io_back io) store_bak_path store_path h)) r
    else r in
  does (fs_remove (io_tmp_remove io) store_tmp_path) r.

Definition write_store (io : PersistIo) (json : string) (commit : Host -> Host) (h : Host) : Host :=
  snd (write_run "" io json commit h).
(** Every host a crash during the write may leave, its end included. *)
Definition crash_points (partly : string) (io : PersistIo) (json : string) (commit : Host -> Host) (h : Host) : list Host :=
  let r := write_run partly io json commit h in fst r ++ [snd r].

Lemma write_run_end partly io json commit h :
  snd (write_run partly io json commit h)
  = fs_remove (io_tmp_remove io) store_tmp_path
      (let h1 := fs_write (io_tmp_write io) (io_tmp_torn io) store_tmp_path json h in
       if io_tmp_write io && io_tmp_sync io then
         let '(renamed, h2) := fs_rename (io_rename io) store_tmp_path store_path (rotate_store (io_rotate io) h1) in
         if renamed : bool then commit h2 else snd (fs_rename (io_back io) store_bak_path store_path h2)
       else h1).
Proof.
  unfold write_run, does. cbn [fst snd]. destruct (_ && _); [|done]. by destruct (fs_rename _ _ _ _) as [[] h2].
Qed.
Lemma write_store_eq io json commit h :
  write_store io json commit h
  = fs_remove (io_tmp_remove io) store_tmp_path
      (let h1 := fs_write (io_tmp_write io) (io_tmp_torn io) store_tmp_path json h in
       if io_tmp_write io && io_tmp_sync io then
         let '(renamed, h2) := fs_rename (io_rename io) store_tmp_path store_path (rotate_store (io_rotate io) h1) in
         if renamed : bool then commit h2 else snd (fs_rename (io_back io) store_bak_path store_path h2)
       else h1).
Proof. apply write_run_end. Qed.

Definition persist_all_ratchet_sessions (io : PersistIo) (nonces : string -> bytes) (snapshot_key_hex : string)
  (r : Registry) (h : Host) : Host :=
  match wrap_key snapshot_key_hex with
  | None => h
  | Some wk =>
      let peers := ratchet_peer_ids_impl r in
      if bool_decide (peers = []) then h
      else
        let '(entries, fresh) := foldl (persist_peer wk nonces r) (∅, load_watermarks (io_marks io) h) peers in
        if bool_decide (entries = ∅) then h
        else match json_to_string (Object entries) with
             | Some json => write_store io json (save_watermarks io fresh) h
             | None => h
             end
  end.

(** ** Removal *)

Definition clear_ratchet_store (oks : string -> bool) (keyring_ok : bool) (h : Host) : Host :=
  let h := foldl (fun h p => fs_remove (oks p) p h) h
             [store_path; watermark_path; store_tmp_path; store_bak_path] in
  delete_password keyring_ok (entry KEYRING_RATCHET_WATERMARK) h.

(** A tier's text with one peer's mark dropped: [None] when the text stays as
    it is, [Some None] when the tier is to be deleted. *)
Definition drop_mark (peer : string) (text : option string) : option (option string) :=
  data ← text;
  v ← json_from_str data;
  obj ← as_object v;
  _ ← (obj !! peer : option Value);
  let obj' := delete peer obj in
  if bool_decide (obj' = ∅) then Some None
  else json ← json_to_string (Object obj'); Some (Some json).

Definition remove_ratchet_session_for_peer (io : PersistIo) (read_ok : bool) (peer : string) (h : Host) : Host :=
  if decide (peer = "") then h
  else
    let h :=
      match (data ← fs_read read_ok store_path h; v ← json_from_str data; as_object v) with
      | Some map =>
          match map !! peer with
          | Some _ =>
              match json_to_string (Object (delete peer map)) with
              | Some json => write_store io json id h
              | None => h
              end
          | None => h
          end
      | None => h
      end in
    let h :=
      match drop_mark peer (get_password (fst (io_marks io)) (entry KEYRING_RATCHET_WATERMARK) h) with
      | Some None => delete_password (io_keyring_set io) (entry KEYRING_RATCHET_WATERMARK) h
      | Some (Some json) => set_password (io_keyring_set io) (entry KEYRING_RATCHET_WATERMARK) json h
      | None => h
      end in
    match drop_mark peer (fs_read (snd (io_marks io)) watermark_path h) with
    | Some None => fs_remove (io_marks_write io) watermark_path h
    | Some (Some json) => fs_write (io_marks_write io) (io_marks_torn io) watermark_path json h
    | None => h
    end.

(** ** Restore *)

(** The loop body: open one entry, check its mark, import it; 1 when the import
    succeeds, 0 when the entry is skipped. *)
Definition restore_entry (clk : Clock) (wk : bytes) (marks : Marks) (e : string * Value) : registry nat :=
  fun r =>
  let '(peer, v) := e in
  match hex_field "nonce_hex" v, hex_field "ciphertext_hex" v with
  | Some nonce, Some ct =>
      if negb (len nonce =? 12) then (Ok 0%nat, r)
      else match decrypt_chacha20 wk nonce ct [] with
           | Ok snap =>
               let refused :=
                 match snapshot_watermark snap, marks !! peer with
                 | Some wm, Some high => is_rollback wm high
                 | _, _ => false
                 end in
               if refused : bool then (Ok 0%nat, r)
               else match ratchet_import_session_impl clk peer snap r with
                    | (Ok _, r') => (Ok 1%nat, r')
                    | (Err _, r') => (Ok 0%nat, r')
                    | (Panic m, r') => (Panic m, r')
                    end
           | _ => (Ok 0%nat, r)
           end
  | _, _ => (Ok 0%nat, r)
  end.

Fixpoint restore_entries (clk : Clock) (wk : bytes) (marks : Marks) (restored : nat)
  (l : list (string * Value)) : registry nat :=
  match l with
  | [] => mret restored
  | e :: l' => n ← restore_entry clk wk marks e; restore_entries clk wk marks (restored + n)%nat l'
  end.

(** The persisted entries: the store, or the backup when the store does not
    parse.  A store that cannot be read at all ends the restore. *)
Definition restorable (read_ok bak_ok : bool) (h : Host) : option (gmap string Value) :=
  data ← fs_read read_ok store_path h;
  match json_from_str data ≫= as_object with
  | Some m => Some m
  | None => bak ← fs_read bak_ok store_bak_path h; v ← json_from_str bak; as_object v
  end.

Definition restore_all_ratchet_sessions (clk : Clock) (read_ok bak_ok : bool) (marks_ok : bool * bool)
  (snapshot_key_hex : string) (h : Host) : registry nat :=
  match wrap_key snapshot_key_hex with
  | None => mret 0%nat
  | Some wk =>
      match restorable read_ok bak_ok h with
      | None => mret 0%nat
      | Some map => restore_entries clk wk (load_watermarks marks_ok h) 0%nat (map_to_list map)
      end
  end.

End Store.

(** ** The order of watermarks *)

(** A newer epoch outranks an older one; within an epoch every component. *)
Definition mark_le (a b : Watermark) : Prop :=
  let '(ae, ag, as_, ar) := a in
  let '(be, bg, bs, br) := b in
  ae < be \/ (ae = be /\ ag <= bg /\ as_ <= bs /\ ar <= br).

Ltac solve_mark :=
  repeat match goal with x : Watermark |- _ => destruct x as [[[? ?] ?] ?] end;
  unfold merge_watermark, is_rollback, advances, mark_le in *; cbn [fst snd] in *;
  repeat match goal with
  | |- context [?a <? ?b] => destruct (Z.ltb_spec a b)
  | H : context [?a <? ?b] |- _ => destruct (Z.ltb_spec a b)
  end; cbn [orb negb] in *.

Lemma mark_le_refl a : mark_le a a.
Proof. solve_mark. lia. Qed.
Lemma mark_le_trans a b c : mark_le a b -> mark_le b c -> mark_le a c.
Proof. solve_mark. lia. Qed.
Lemma mark_le_antisym a b : mark_le a b -> mark_le b a -> a = b.
Proof. solve_mark. intros. repeat f_equal; lia. Qed.
#[export] Instance mark_le_preorder : PreOrder mark_le.
Proof. split; [exact mark_le_refl|exact mark_le_trans]. Qed.

Lemma is_rollback_le s h : is_rollback s h = false <-> mark_le h s.
Proof. solve_mark; split; intros; try done; lia. Qed.
Lemma advances_le h f : advances h f = false <-> mark_le f h.
Proof. solve_mark; split; intros; try done; lia. Qed.
Lemma merge_le_l h f : mark_le h (merge_watermark h f).
Proof. solve_mark; lia. Qed.
Lemma merge_le_r h f : mark_le f (merge_watermark h f).
Proof. solve_mark; lia. Qed.
Lemma merge_least h f u : mark_le h u -> mark_le f u -> mark_le (merge_watermark h f) u.
Proof. solve_mark; lia. Qed.
#[export] Hint Resolve mark_le_refl merge_le_l merge_le_r merge_least : kyber.

Lemma merge_absorb h f : mark_le h f -> merge_watermark h f = f.
Proof. intros. apply mark_le_antisym; auto with kyber. Qed.
Lemma merge_idle h f : mark_le f h -> merge_watermark h f = h.
Proof. intros. apply mark_le_antisym; auto with kyber. Qed.
Lemma merge_le_iff h f : mark_le (merge_watermark h f) f <-> mark_le h f.
Proof. split; [intros; transitivity (merge_watermark h f)|]; auto with kyber. Qed.

(** Merging is the least upper bound of the order; a snapshot is a
    rollback exactly when the mark is not below it; a mark advances exactly
    when merging moves it. *)
Theorem watermark_order (a b c : Watermark) :
  mark_le a (merge_watermark a b) /\ mark_le b (merge_watermark a b)
  /\ (mark_le a c -> mark_le b c -> mark_le (merge_watermark a b) c)
  /\ (is_rollback a b = false <-> mark_le b a)
  /\ (advances a b = false <-> merge_watermark a b = a).
Proof.
  split_and!; auto using is_rollback_le with kyber. rewrite advances_le. split; [apply merge_idle|].
  intros <-. apply merge_le_r.
Qed.
