(* ===== verification/StoreProps.v ===== *)
(** * StoreProps: correctness of the desktop's session store

    The marks only move forward; what is persisted is restored exactly when it
    is not behind the mark recorded before; the replacement of the store keeps
    a good copy on disk at every instant. *)

From S2P Require Import Prelude Error Primitives Aead Kem Toy Json.
From S2P Require Import RatchetState RatchetSnapshot RatchetInvariant RatchetEncrypt Scenario RatchetRekey Registry RatchetStore.

(** ** Maps of marks *)

Definition mark_range (wm : Watermark) : Prop :=
  let '(e, g, s, r) := wm in u64_range e /\ u32_range g /\ u64_range s /\ u64_range r.
Definition marks_range (m : Marks) : Prop := forall p wm, m !! p = Some wm -> mark_range wm.
Definition marks_le (m1 m2 : Marks) : Prop :=
  forall p a, m1 !! p = Some a -> exists b, m2 !! p = Some b /\ mark_le a b.

#[export] Instance marks_le_preorder : PreOrder marks_le.
Proof.
  split.
  - intros m p a Ha. eauto with kyber.
  - intros m1 m2 m3 H1 H2 p a Ha. destruct (H1 p a Ha) as (b & Hb & Hab).
    destruct (H2 p b Hb) as (c & Hc & Hbc). exists c. split; [done|]. by transitivity b.
Qed.

Lemma zero_range : mark_range zero_mark.
Proof. by repeat split. Qed.

Lemma zero_le wm : mark_range wm -> mark_le zero_mark wm.
Proof. destruct wm as [[[e g] s] r]. unfold mark_range, mark_le, zero_mark, u64_range, u32_range. lia. Qed.

Lemma merge_range a b : mark_range a -> mark_range b -> mark_range (merge_watermark a b).
Proof.
  destruct a as [[[? ?] ?] ?], b as [[[? ?] ?] ?]. unfold merge_watermark, mark_range, u64_range, u32_range.
  intros Ha Hb. destruct (_ <? _); [done|]. destruct (_ <? _); [done|]. lia.
Qed.

Lemma default_range (m : Marks) p : marks_range m -> mark_range (default zero_mark (m !! p)).
Proof. intros H. destruct (m !! p) eqn:E; [by apply (H p)|apply zero_range]. Qed.

Lemma merge_mark_range p wm m : mark_range wm -> marks_range m -> marks_range (merge_mark p wm m).
Proof.
  intros Hw Hm q a. unfold merge_mark. rewrite lookup_insert. case_decide; [intros [= <-]|apply Hm].
  apply merge_range; [by apply default_range|done].
Qed.

Lemma merge_mark_le p wm m : marks_le m (merge_mark p wm m).
Proof.
  intros q a Hq. unfold merge_mark. destruct (decide (p = q)) as [->|].
  - rewrite lookup_insert_eq, Hq. eauto with kyber.
  - rewrite lookup_insert_ne by done. eauto with kyber.
Qed.

(** The effect of one tier on every peer. *)
Lemma lookup_merge_tier_fold (m out : Marks) p :
  map_fold merge_mark out m !! p
  = match m !! p with Some wm => Some (merge_watermark (default zero_mark (out !! p)) wm) | None => out !! p end.
Proof.
  apply (map_fold_weak_ind (fun (r : Marks) (m : Marks) =>
    r !! p = match m !! p with Some wm => Some (merge_watermark (default zero_mark (out !! p)) wm) | None => out !! p end)).
  - by rewrite lookup_empty.
  - intros q wm m' r Hq IH. unfold merge_mark. destruct (decide (q = p)) as [->|].
    + rewrite !lookup_insert_eq. rewrite Hq in IH. by rewrite IH.
    + by rewrite !lookup_insert_ne.
Qed.

Lemma parse_watermark_range v wm : parse_watermark v = Some wm -> mark_range wm.
Proof.
  assert (forall z, u32_range (wrap32 z)) as Hw.
  { intros z. unfold u32_range, u32_max, wrap32. pose proof (Z.mod_pos_bound z (2 ^ 32)). lia. }
  unfold parse_watermark. destruct (as_array v) as [l|]; [|done].
  destruct l as [|a [|b [|c [|d [|? ?]]]]]; try done; intros H;
    repeat match type of H with
           | context [as_u64 ?x] => let E := fresh "E" in destruct (as_u64 x) eqn:E; cbn [mbind option_bind] in H; [apply as_u64_range in E|done]
           end; injection H as <-; (split_and!; first [done | apply Hw | by split]).
Qed.

Lemma parse_map_range v : marks_range (parse_watermark_map v).
Proof.
  unfold parse_watermark_map. destruct (as_object v) as [obj|]; intros p wm.
  - rewrite lookup_omap. destruct (obj !! p) as [x|]; [apply parse_watermark_range|done].
  - by rewrite lookup_empty.
Qed.

(** The marks written are read back. *)
Lemma parse_watermark_value m : marks_range m -> parse_watermark_map (watermark_value m) = m.
Proof.
  intros Hm. apply map_eq. intros p. unfold watermark_value, parse_watermark_map. cbn [as_object].
  rewrite lookup_omap, lookup_fmap. destruct (m !! p) as [[[[e g] s] r]|] eqn:E; [|done].
  destruct (Hm _ _ E) as (He & Hg & Hs & Hr). cbn [fmap option_fmap option_map mbind option_bind].
  unfold parse_watermark. cbn [as_array].
  rewrite !as_u64_number by (try done; unfold u32_range, u64_range, u32_max, u64_max in *; lia).
  cbn. unfold wrap32. rewrite Z.mod_small; [done|]. unfold u32_range, u32_max in Hg. lia.
Qed.

Lemma repr_watermark_value m : marks_range m -> representable (watermark_value m).
Proof.
  intros Hm. constructor. intros p v. rewrite lookup_fmap. destruct (m !! p) as [[[[e g] s] r]|] eqn:E; [|done].
  cbn. intros [= <-]. destruct (Hm _ _ E) as (He & Hg & Hs & Hr). apply repr_array.
  rewrite !Forall_cons, Forall_nil. split_and!; try apply repr_u64; try done.
  unfold u32_range, u64_range, u32_max, u64_max in *. lia.
Qed.

(** ** The two tiers *)

(** What a tier's text says. *)
Definition tier_marks `{JsonText} (text : option string) : Marks :=
  match text ≫= json_from_str with Some v => parse_watermark_map v | None => ∅ end.

Section Tiers.
Context `{T : JsonText}.

Lemma tier_marks_range text : marks_range (tier_marks text).
Proof. unfold tier_marks. destruct (text ≫= json_from_str); [apply parse_map_range|]. intros p wm. by rewrite lookup_empty. Qed.

Lemma lookup_merge_tier text out p :
  merge_tier text out !! p
  = match tier_marks text !! p with
    | Some wm => Some (merge_watermark (default zero_mark (out !! p)) wm)
    | None => out !! p
    end.
Proof.
  unfold merge_tier, tier_marks. destruct (text ≫= json_from_str); [apply lookup_merge_tier_fold|by rewrite lookup_empty].
Qed.

Lemma merge_tier_range text out : marks_range out -> marks_range (merge_tier text out).
Proof.
  intros Ho p wm. rewrite lookup_merge_tier. destruct (tier_marks text !! p) eqn:E; [intros [= <-]|apply Ho].
  apply merge_range; [by apply default_range|by apply (tier_marks_range text p)].
Qed.

Lemma merge_tier_out text out : marks_le out (merge_tier text out).
Proof. intros p a Ha. rewrite lookup_merge_tier, Ha. destruct (tier_marks text !! p); eauto with kyber. Qed.

Lemma merge_tier_text text out : marks_le (tier_marks text) (merge_tier text out).
Proof. intros p a Ha. rewrite lookup_merge_tier, Ha. eauto with kyber. Qed.

Lemma merge_tier_least text out m :
  marks_range m -> marks_le (tier_marks text) m -> marks_le out m -> marks_le (merge_tier text out) m.
Proof.
  intros Hm Ht Ho p a. rewrite lookup_merge_tier. destruct (tier_marks text !! p) as [wm|] eqn:E; [|apply Ho].
  intros [= <-]. destruct (Ht _ _ E) as (b & Hb & Hle). exists b. split; [done|]. apply merge_least; [|done].
  destruct (out !! p) as [o|] eqn:Eo; [|by apply zero_le, (Hm p)].
  destruct (Ho _ _ Eo) as (b' & Hb' & Hle'). by simplify_eq.
Qed.

Lemma load_range ok h : marks_range (load_watermarks ok h).
Proof. apply merge_tier_range, merge_tier_range. intros p wm. by rewrite lookup_empty. Qed.

(** The two texts the marks are read from. *)
Definition keyring_text (h : Host) : option string := keyring h !! entry KEYRING_RATCHET_WATERMARK.
Definition file_text (h : Host) : option string := files h !! watermark_path.

Lemma load_ok h :
  load_watermarks (true, true) h = merge_tier (file_text h) (merge_tier (keyring_text h) ∅).
Proof. done. Qed.

Lemma load_same h h' :
  keyring_text h' = keyring_text h -> file_text h' = file_text h ->
  load_watermarks (true, true) h' = load_watermarks (true, true) h.
Proof. intros Hk Hf. by rewrite !load_ok, Hk, Hf. Qed.

Lemma load_above h m :
  marks_le m (tier_marks (keyring_text h)) \/ marks_le m (tier_marks (file_text h)) ->
  marks_le m (load_watermarks (true, true) h).
Proof.
  rewrite load_ok. intros [H|H]; (etransitivity; [exact H|]).
  - etransitivity; [apply merge_tier_text|apply merge_tier_out].
  - apply merge_tier_text.
Qed.

End Tiers.

(** ** Writing the store leaves the marks alone *)

Definition same_tiers (h h' : Host) : Prop := keyring_text h' = keyring_text h /\ file_text h' = file_text h.

#[export] Instance same_tiers_preorder : PreOrder same_tiers.
Proof. split; [by split|]. intros a b c [H1 H2] [H3 H4]. split; congruence. Qed.

Lemma tiers_write ok torn path c h : path <> watermark_path -> same_tiers h (fs_write ok torn path c h).
Proof.
  intros Hp. unfold fs_write. destruct ok; [|destruct torn]; try done;
    (split; [done|]); unfold file_text; cbn; by rewrite lookup_insert_ne.
Qed.
Lemma tiers_remove ok path h : path <> watermark_path -> same_tiers h (fs_remove ok path h).
Proof. intros Hp. unfold fs_remove. destruct ok; [|done]. split; [done|]. unfold file_text. cbn. by rewrite lookup_delete_ne. Qed.
Lemma tiers_rename ok a b h :
  a <> watermark_path -> b <> watermark_path -> same_tiers h (snd (fs_rename ok a b h)).
Proof.
  intros Ha Hb. unfold fs_rename. destruct (files h !! a); [|done]. destruct ok; [|done].
  split; [done|]. unfold file_text. cbn. by rewrite lookup_insert_ne, lookup_delete_ne.
Qed.
Lemma tiers_rotate ok h : same_tiers h (rotate_store ok h).
Proof. unfold rotate_store. destruct (is_some _); [by apply tiers_rename|done]. Qed.

Lemma write_store_tiers io json commit h :
  let h' := write_store io json commit h in
  same_tiers h h' \/ exists h0, same_tiers h h0 /\ same_tiers (commit h0) h'.
Proof.
  cbv zeta. rewrite write_store_eq. cbv zeta. set (h1 := fs_write _ _ _ _ h).
  assert (same_tiers h h1) as H1 by by apply tiers_write.
  destruct (_ && _); [|left; etransitivity; [exact H1|by apply tiers_remove]].
  pose proof (tiers_rotate (io_rotate io) h1) as H2. set (h2 := rotate_store _ h1) in *.
  pose proof (tiers_rename (io_rename io) store_tmp_path store_path h2 ltac:(done) ltac:(done)) as H3.
  destruct (fs_rename _ _ _ h2) as [[] h3]; cbn [snd] in H3.
  - right. exists h3. split; [by transitivity h1; [|transitivity h2]|by apply tiers_remove].
  - left. transitivity h1; [done|]. transitivity h2; [done|]. transitivity h3; [done|].
    etransitivity; [|by apply tiers_remove]. by apply tiers_rename.
Qed.

(** ** Saving the marks *)

Section Save.
Context `{T : JsonText} `{L : !JsonTextLaws}.

Lemma save_cases io m h :
  marks_range m ->
  let h' := save_watermarks io m h in
  h' = h \/
  exists json, tier_marks (Some json) = m
    /\ h' = fs_write (io_marks_write io) (io_marks_torn io) watermark_path json
              (set_password (io_keyring_set io) (entry KEYRING_RATCHET_WATERMARK) json h).
Proof.
  intros Hm. unfold save_watermarks. case_bool_decide; [by left|]. destruct (forallb _ _); [by left|].
  destruct (json_roundtrip _ (repr_watermark_value _ Hm)) as (t & -> & Hr).
  right. exists t. split; [|done]. unfold tier_marks. cbn [mbind option_bind]. rewrite Hr. by apply parse_watermark_value.
Qed.

Lemma keyring_text_written json h :
  keyring_text (h <| keyring ::= <[entry KEYRING_RATCHET_WATERMARK := json]> |>) = Some json.
Proof. unfold keyring_text. cbn. by rewrite lookup_insert_eq. Qed.
Lemma file_text_written json h : file_text (h <| files ::= <[watermark_path := json]> |>) = Some json.
Proof. unfold file_text. cbn. by rewrite lookup_insert_eq. Qed.

(** When one of the two tiers takes the write, the marks stay at or above
    both what they were and what was written. *)
Lemma save_monotone io m h :
  marks_range m -> marks_le (load_watermarks (true, true) h) m ->
  io_keyring_set io || io_marks_write io = true ->
  marks_le (load_watermarks (true, true) h) (load_watermarks (true, true) (save_watermarks io m h)).
Proof.
  intros Hm Hle Hio. destruct (save_cases io m h Hm) as [->|(json & Hj & ->)]; [reflexivity|].
  apply load_above. unfold set_password, fs_write. destruct (io_keyring_set io).
  - left. destruct (io_marks_write io); [|destruct (io_marks_torn io)];
      (match goal with |- context [keyring_text ?a] => change (keyring_text a) with
         (keyring_text (h <| keyring ::= <[entry KEYRING_RATCHET_WATERMARK := json]> |>)) end);
      by rewrite keyring_text_written, Hj.
  - right. destruct (io_marks_write io); [|done]. by rewrite file_text_written, Hj.
Qed.

(** With every operation succeeding, the marks read back are those saved. *)
Lemma save_exact m h :
  marks_range m -> marks_le (load_watermarks (true, true) h) m ->
  load_watermarks (true, true) (save_watermarks all_ok m h) = m.
Proof.
  intros Hm Hle. apply map_eq. intros p. unfold save_watermarks. case_bool_decide as Ee.
  - subst m. rewrite lookup_empty. destruct (load_watermarks _ h !! p) eqn:E; [|done].
    destruct (Hle _ _ E) as (b & Hb & _). by rewrite lookup_empty in Hb.
  - destruct (forallb _ _) eqn:Ef.
    + rewrite forallb_forall in Ef. destruct (m !! p) as [wm|] eqn:Ep.
      * specialize (Ef (p, wm)). cbn in Ef.
        destruct (load_watermarks (true, true) h !! p) as [c|] eqn:Ec.
        -- assert (mark_le wm c) by (apply advances_le, negb_true_iff, Ef, list_elem_of_In, elem_of_map_to_list, Ep).
           destruct (Hle _ _ Ec) as (b & Hb & ?). f_equal. simplify_eq. by apply mark_le_antisym.
        -- discriminate Ef. by apply list_elem_of_In, elem_of_map_to_list.
      * destruct (load_watermarks _ h !! p) eqn:E; [|done]. destruct (Hle _ _ E) as (b & Hb & _). congruence.
    + destruct (json_roundtrip _ (repr_watermark_value _ Hm)) as (t & -> & Hr).
      set (h' := fs_write _ _ _ _ _).
      assert (tier_marks (Some t) = m) as Ht.
      { unfold tier_marks. cbn [mbind option_bind]. rewrite Hr. by apply parse_watermark_value. }
      rewrite load_ok. replace (keyring_text h') with (Some t) by (symmetry; apply keyring_text_written).
      replace (file_text h') with (Some t) by (symmetry; apply file_text_written).
      rewrite !lookup_merge_tier, Ht, lookup_empty. destruct (m !! p) as [wm|] eqn:Ep; [|done]. cbn [default].
      pose proof (zero_le _ (Hm _ _ Ep)). rewrite (merge_absorb zero_mark wm) by done.
      by rewrite merge_absorb by reflexivity.
Qed.

End Save.

(** ** Persisting *)

Section Persist.
Context `{P : Primitives} `{J : SnapshotCodec} `{T : JsonText} `{X : Hex}.
Context `{LP : !PrimitivesLaws} `{LJ : !SnapshotCodecLaws} `{LT : !JsonTextLaws} `{LX : !HexLaws}.

Lemma snapshot_watermark_range snap wm : snapshot_watermark snap = Some wm -> mark_range wm.
Proof.
  unfold snapshot_watermark, ratchet_snapshot_watermark_impl.
  destruct (serde_value_u64 snap) as [v|] eqn:Ev; cbn [ok_or mbind result_bind]; [|done].
  pose proof (fun name n => snapshot_value_range snap v name n Ev) as Hr.
  destruct (v "ratchet_generation"), (v "send_message_count") eqn:E2, (v "recv_message_count") eqn:E3; try done.
  intros [= <-]. cbn. split_and!.
  - destruct (v "pairing_epoch") eqn:E4; [by eapply Hr|by split].
  - unfold u32_range, u32_max, wrap32. pose proof (Z.mod_pos_bound z (2 ^ 32)). lia.
  - by eapply Hr.
  - by eapply Hr.
Qed.

Lemma persist_peer_marks wk nonces r e m peer e' m' :
  persist_peer wk nonces r (e, m) peer = (e', m') -> marks_range m -> marks_range m' /\ marks_le m m'.
Proof.
  unfold persist_peer. intros H Hm.
  destruct (ratchet_export_session_impl peer r) as [[snap|]| |]; try (by injection H as <- <-).
  assert (forall m1, m1 = match snapshot_watermark snap with Some wm => merge_mark peer wm m | None => m end ->
                     marks_range m1 /\ marks_le m m1) as Hs.
  { intros m1 ->. destruct (snapshot_watermark snap) eqn:E; [|done].
    split; [apply merge_mark_range; [by eapply snapshot_watermark_range|done]|apply merge_mark_le]. }
  destruct (encrypt_chacha20 _ _ _ _); injection H as _ H; by apply Hs.
Qed.

Lemma persist_loop_marks wk nonces r peers e m :
  marks_range m ->
  let m' := (foldl (persist_peer wk nonces r) (e, m) peers).2 in marks_range m' /\ marks_le m m'.
Proof.
  revert e m. induction peers as [|p peers IH]; intros e m Hm; [done|]. cbn [foldl].
  destruct (persist_peer wk nonces r (e, m) p) as [e1 m1] eqn:E.
  destruct (persist_peer_marks _ _ _ _ _ _ _ _ E Hm) as [Hr Hle]. destruct (IH e1 m1 Hr) as [? ?].
  split; [done|]. by transitivity m1.
Qed.

(** The recorded marks never go back: whatever the registry holds and
    whatever fails of the rest, when the marks could be read and one of the
    two tiers takes the write, every peer's mark after a persist is at or above
    its mark before. *)
Theorem marks_never_regress io nonces key r h :
  io_marks io = (true, true) -> io_keyring_set io || io_marks_write io = true ->
  marks_le (load_watermarks (true, true) h)
           (load_watermarks (true, true) (persist_all_ratchet_sessions io nonces key r h)).
Proof.
  intros Hread Hio. unfold persist_all_ratchet_sessions. rewrite Hread.
  destruct (wrap_key key) as [wk|]; [|reflexivity]. case_bool_decide; [reflexivity|].
  pose proof (persist_loop_marks wk nonces r (ratchet_peer_ids_impl r) ∅ _ (load_range (true, true) h)) as Hloop.
  destruct (foldl _ _ _) as [entries m]. cbn [snd] in Hloop. destruct Hloop as [Hm Hle].
  case_bool_decide; [reflexivity|]. destruct (json_to_string _) as [json|]; [|reflexivity].
  destruct (write_store_tiers io json (save_watermarks io m) h) as [[Hk Hf]|(h0 & [Hk0 Hf0] & [Hk Hf])].
  - by rewrite (load_same _ _ Hk Hf).
  - pose proof (load_same _ _ Hk0 Hf0) as E0. rewrite (load_same _ _ Hk Hf), <- E0.
    apply save_monotone; [done| |done]. by rewrite E0.
Qed.

(** ** Restoring what was persisted *)

Definition live_mark (s : DoubleRatchetState) : Watermark :=
  (pairing_epoch s, ratchet_generation s, message_count (send s), message_count (recv s)).

(** A session the store can write: exported without an error, sealed. *)
Definition saved (wk nonce : bytes) (sess : Session) (v : Value) : Prop :=
  exists data ct, serde_snapshot_to_writer (to_snapshot (state sess)) = Some data
    /\ encrypt_chacha20 wk nonce data [] = Ok ct /\ v = key_fields (hex_encode nonce) (hex_encode ct).

Definition storable (wk : bytes) (nonces : string -> bytes) (r : Registry) : Prop :=
  forall p sess, sessions r !! p = Some sess ->
    poisoned sess = false /\ wf_state (state sess) /\ u64_range (pairing_epoch (state sess))
    /\ len (nonces p) = 12 /\ exists v, saved wk (nonces p) sess v.

(** Whether a session is behind the mark recorded for its peer. *)
Definition behind (marks : Marks) (p : string) (sess : Session) : bool :=
  match marks !! p with Some high => is_rollback (live_mark (state sess)) high | None => false end.

Lemma snapshot_watermark_live s data :
  wf_state s -> serde_snapshot_to_writer (to_snapshot s) = Some data -> snapshot_watermark data = Some (live_mark s).
Proof.
  intros Hwf Hd. destruct (snapshot_json_value _ _ Hd) as (v & Hv & Hg & Hs & Hr & He).
  unfold snapshot_watermark, ratchet_snapshot_watermark_impl. rewrite Hv. cbn [ok_or mbind result_bind].
  rewrite Hg, Hs, Hr, He. cbn. unfold live_mark, wrap32. rewrite Z.mod_small; [done|].
  pose proof (wf_gen _ Hwf) as Hgen. unfold u32_range, u32_max in Hgen. lia.
Qed.

Lemma live_mark_range s : wf_state s -> u64_range (pairing_epoch s) -> mark_range (live_mark s).
Proof. intros H He. repeat split; try apply He; apply H. Qed.

(** One peer of the loop. *)
Lemma persist_peer_saved wk nonces r e m p sess :
  storable wk nonces r -> sessions r !! p = Some sess ->
  exists v, saved wk (nonces p) sess v
    /\ persist_peer wk nonces r (e, m) p = (<[p := v]> e, merge_mark p (live_mark (state sess)) m).
Proof.
  intros Hst Hp. destruct (Hst _ _ Hp) as (Hpo & Hwf & _ & _ & v & data & ct & Hd & Hc & ->).
  eexists. split; [by exists data, ct|]. unfold persist_peer, ratchet_export_session_impl.
  rewrite Hp, Hpo, Hd. cbn [ok_or mbind result_bind]. by rewrite (snapshot_watermark_live _ _ Hwf Hd), Hc.
Qed.

Lemma persist_loop_exact wk nonces r peers e m :
  storable wk nonces r -> NoDup peers -> (forall p, p ∈ peers -> is_Some (sessions r !! p)) ->
  let '(e', m') := foldl (persist_peer wk nonces r) (e, m) peers in
  forall p,
    if decide (p ∈ peers) then
      exists sess v, sessions r !! p = Some sess /\ saved wk (nonces p) sess v /\ e' !! p = Some v
        /\ m' !! p = Some (merge_watermark (default zero_mark (m !! p)) (live_mark (state sess)))
    else e' !! p = e !! p /\ m' !! p = m !! p.
Proof.
  intros Hst. revert e m. induction peers as [|q peers IH]; intros e m Hnd Hin; [done|].
  apply NoDup_cons in Hnd as [Hq Hnd]. destruct (Hin q ltac:(left)) as [sess Hs].
  cbn [foldl]. destruct (persist_peer_saved _ _ _ e m _ _ Hst Hs) as (v & Hv & ->).
  specialize (IH (<[q := v]> e) (merge_mark q (live_mark (state sess)) m) Hnd ltac:(set_solver)).
  destruct (foldl _ _ _) as [e' m']. intros p. specialize (IH p).
  destruct (decide (p = q)) as [->|Hpq].
  - rewrite decide_False in IH by done. destruct IH as [He Hm]. rewrite decide_True by set_solver.
    unfold merge_mark in *. rewrite lookup_insert_eq in He. rewrite lookup_insert_eq in Hm. eauto 10.
  - unfold merge_mark in IH. rewrite !lookup_insert_ne in IH by done.
    destruct (decide (p ∈ peers)); [rewrite decide_True by set_solver|rewrite decide_False by set_solver]; done.
Qed.

Lemma saved_repr wk nonce sess v : saved wk nonce sess v -> representable v.
Proof.
  intros (data & ct & _ & _ & ->). constructor. intros k v.
  rewrite lookup_insert_Some, lookup_singleton_Some. intros [[_ <-]|[_ [_ <-]]]; constructor.
Qed.

Lemma save_store_file io m h : files (save_watermarks io m h) !! store_path = files h !! store_path.
Proof.
  unfold save_watermarks, set_password, fs_write. case_bool_decide; [done|]. destruct (forallb _ _); [done|].
  destruct (json_to_string _); [|done].
  destruct (io_marks_write io), (io_keyring_set io); try destruct (io_marks_torn io); cbn; by rewrite ?lookup_insert_ne.
Qed.

(** With every operation succeeding the new text is the store, the old one the
    backup. *)
Lemma write_store_ok json commit h :
  exists h0, same_tiers h h0
    /\ files h0 !! store_path = Some json
    /\ write_store all_ok json commit h = fs_remove true store_tmp_path (commit h0).
Proof.
  rewrite write_store_eq. cbn [io_tmp_write io_tmp_torn io_tmp_sync io_rotate io_rename io_back io_tmp_remove all_ok andb]. cbv zeta.
  set (h1 := fs_write true None store_tmp_path json h).
  assert (files (rotate_store true h1) !! store_tmp_path = Some json) as Ht.
  { unfold rotate_store, fs_rename. assert (files h1 !! store_tmp_path = Some json) as H1 by (cbn; by rewrite lookup_insert_eq).
    destruct (files h1 !! store_path); [|done]. cbn [is_some]. cbn -[h1]. by rewrite lookup_insert_ne, lookup_delete_ne. }
  pose proof (tiers_rotate true h1) as H2. unfold fs_rename at 1. rewrite Ht.
  eexists. split; [|split; [|reflexivity]].
  - transitivity h1; [by apply tiers_write|]. transitivity (rotate_store true h1); [done|].
    split; [done|]. unfold file_text. cbn -[rotate_store]. by rewrite lookup_insert_ne, lookup_delete_ne.
  - cbn -[rotate_store]. by rewrite lookup_insert_eq.
Qed.

Lemma peer_ids_spec r p : p ∈ ratchet_peer_ids_impl r <-> is_Some (sessions r !! p).
Proof.
  unfold ratchet_peer_ids_impl. rewrite list_elem_of_fmap. split.
  - intros [[q sess] [-> H%elem_of_map_to_list]]. eauto.
  - intros [sess H]. exists (p, sess). split; [done|]. by apply elem_of_map_to_list.
Qed.

Lemma load_remove_tmp h : load_watermarks (true, true) (fs_remove true store_tmp_path h) = load_watermarks (true, true) h.
Proof. destruct (tiers_remove true store_tmp_path h ltac:(done)). by apply load_same. Qed.

(** What the disk holds after a persist: an entry for every session, and marks
    that include it. *)
Lemma persist_exact nonces key wk r h :
  wrap_key key = Some wk -> storable wk nonces r -> sessions r <> ∅ ->
  let h' := persist_all_ratchet_sessions all_ok nonces key r h in
  exists json entries, files h' !! store_path = Some json /\ json_from_str json = Some (Object entries)
    /\ (forall p v, entries !! p = Some v -> exists sess, sessions r !! p = Some sess /\ saved wk (nonces p) sess v)
    /\ (forall p sess, sessions r !! p = Some sess -> is_Some (entries !! p)
         /\ load_watermarks (true, true) h' !! p
            = Some (merge_watermark (default zero_mark (load_watermarks (true, true) h !! p)) (live_mark (state sess)))).
Proof.
  intros Hk Hst Hne. unfold persist_all_ratchet_sessions. rewrite Hk. cbn [io_marks all_ok].
  destruct (map_choose _ Hne) as (p0 & sess0 & Hp0). assert (p0 ∈ ratchet_peer_ids_impl r) as Hin0 by (apply peer_ids_spec; eauto).
  rewrite bool_decide_false by (intros E; rewrite E in Hin0; set_solver).
  pose proof (persist_loop_marks wk nonces r (ratchet_peer_ids_impl r) ∅ _ (load_range (true, true) h)) as [Hrange Hle].
  pose proof (persist_loop_exact wk nonces r (ratchet_peer_ids_impl r) ∅ (load_watermarks (true, true) h) Hst
                (NoDup_fst_map_to_list _) (fun p => proj1 (peer_ids_spec r p))) as Hx.
  destruct (foldl _ _ _) as [entries m]. cbn [snd] in Hrange, Hle.
  assert (forall p v, entries !! p = Some v -> exists sess, sessions r !! p = Some sess /\ saved wk (nonces p) sess v) as Hback.
  { intros p v Hv. specialize (Hx p). destruct (decide _); [|destruct Hx as [Hx _]; rewrite lookup_empty in Hx; congruence].
    destruct Hx as (sess & v' & Hs & Hsv & Hv' & _). simplify_eq. eauto. }
  rewrite bool_decide_false.
  2: { intros ->. specialize (Hx p0). rewrite decide_True in Hx by done. destruct Hx as (? & ? & _ & _ & Hx & _).
       by rewrite lookup_empty in Hx. }
  destruct (json_roundtrip (Object entries)) as (json & -> & Hj).
  { constructor. intros p v Hv. destruct (Hback _ _ Hv) as (sess & _ & Hsv). by eapply saved_repr. }
  destruct (write_store_ok json (save_watermarks all_ok m) h) as (h0 & [Hk0 Hf0] & Hs0 & ->).
  pose proof (load_same _ _ Hk0 Hf0) as E0. exists json, entries. split_and!; [|done|done|].
  - cbn -[save_watermarks]. by rewrite lookup_delete_ne, save_store_file.
  - intros p sess Hp. rewrite load_remove_tmp, save_exact by (try done; by rewrite E0).
    specialize (Hx p). rewrite decide_True in Hx by (apply peer_ids_spec; eauto).
    destruct Hx as (sess' & v & Hs & _ & Hv & Hm). simplify_eq. eauto.
Qed.

(** One entry of the restore. *)
Lemma restore_saved clk wk nonce marks p sess v r0 :
  saved wk nonce sess v -> len nonce = 12 -> wf_state (state sess) -> sessions r0 !! p = None ->
  restore_entry clk wk marks (p, v) r0
  = if behind marks p sess then (Ok 0%nat, r0) else (Ok 1%nat, put_session p (restart clk (state sess)) r0).
Proof.
  intros (data & ct & Hd & Hc & ->) Hn Hwf Hp. unfold restore_entry, hex_field, get_field, key_fields, behind.
  cbn [as_object mbind option_bind]. rewrite lookup_insert_eq, lookup_insert_ne, lookup_singleton_eq by done.
  cbn [as_str mbind option_bind]. rewrite !hex_roundtrip, Hn. cbn [negb Z.eqb Pos.eqb].
  rewrite (decrypt_encrypt_chacha20 _ _ _ _ _ Hc), (snapshot_watermark_live _ _ Hwf Hd).
  assert (ratchet_import_session_impl clk p data r0 = (Ok tt, put_session p (restart clk (state sess)) r0)) as ->.
  { apply import_ok with (to_snapshot (state sess));
      [by apply snapshot_json_roundtrip|by apply from_to_snapshot|by apply guard_none]. }
  by destruct (marks !! p).
Qed.

(** The sessions a restore brings back. *)
Definition survivors (clk : Clock) (marks : Marks) (r : Registry) : gmap string Session :=
  map_imap (fun p sess => if behind marks p sess then None
                          else Some {| state := restart clk (state sess); poisoned := false |}) (sessions r).

Lemma restore_loop clk wk nonces marks r l n r0 :
  storable wk nonces r -> NoDup l.*1 ->
  (forall p v, (p, v) ∈ l -> sessions r0 !! p = None
     /\ exists sess, sessions r !! p = Some sess /\ saved wk (nonces p) sess v) ->
  exists n' r', restore_entries clk wk marks n l r0 = (Ok n', r')
    /\ map_poisoned r' = map_poisoned r0 /\ (n' + size (sessions r0) = n + size (sessions r'))%nat
    /\ forall p, sessions r' !! p = if decide (p ∈ l.*1) then survivors clk marks r !! p else sessions r0 !! p.
Proof.
  intros Hst. revert n r0. induction l as [|[q v] l IH]; intros n r0 Hnd Hin.
  { exists n, r0. split_and!; done. }
  apply NoDup_cons in Hnd as [Hq Hnd]. destruct (Hin q v ltac:(left)) as (Hq0 & sess & Hs & Hv).
  destruct (Hst _ _ Hs) as (_ & Hwf & _ & Hlen & _).
  assert (survivors clk marks r !! q = if behind marks q sess then None
            else Some {| state := restart clk (state sess); poisoned := false |}) as Hsq
    by (unfold survivors; by rewrite map_lookup_imap, Hs).
  cbn [restore_entries]. unfold mbind, comp_mbind, comp_bind.
  rewrite (restore_saved _ _ _ marks _ _ _ _ Hv Hlen Hwf Hq0).
  set (r1 := if behind marks q sess then r0 else put_session q (restart clk (state sess)) r0).
  destruct (IH (n + if behind marks q sess then 0 else 1)%nat r1) as (n' & r' & Hrun & Hpo & Hsz & Hl); [done|..].
  { intros p v' Hp. destruct (Hin p v' ltac:(by right)) as (Hp0 & ?). split; [|done].
    assert (p <> q) by (intros ->; apply Hq; by apply (list_elem_of_fmap_2 fst _ (q, v'))).
    unfold r1. destruct (behind _ _ _); [done|by rewrite put_other]. }
  exists n', r'. split_and!.
  - unfold r1 in *. by destruct (behind marks q sess).
  - rewrite Hpo. unfold r1. by destruct (behind marks q sess).
  - unfold r1 in Hsz. destruct (behind marks q sess); [lia|]. cbn in Hsz.
    rewrite (map_size_insert_None _ _ _ Hq0) in Hsz. lia.
  - intros p. rewrite Hl. cbn [fmap list_fmap fst]. destruct (decide (p = q)) as [->|Hpq].
    + rewrite decide_False by done. rewrite decide_True by set_solver. rewrite Hsq. unfold r1.
      destruct (behind _ _ _); [done|]. cbn. by rewrite lookup_insert_eq.
    + destruct (decide (p ∈ l.*1)); [by rewrite decide_True by set_solver|]. rewrite decide_False by set_solver.
      unfold r1. destruct (behind _ _ _); [done|by rewrite put_other].
Qed.

Definition no_sessions : Registry := {| sessions := ∅; map_poisoned := false |}.

Lemma restore_after_persist clk nonces key wk r h bak_ok :
  wrap_key key = Some wk -> storable wk nonces r -> sessions r <> ∅ ->
  let back := survivors clk (load_watermarks (true, true) h) r in
  restore_all_ratchet_sessions clk true bak_ok (true, true) key
    (persist_all_ratchet_sessions all_ok nonces key r h) no_sessions
  = (Ok (size back), {| sessions := back; map_poisoned := false |}).
Proof.
  intros Hk Hst Hne. destruct (persist_exact nonces key wk r h Hk Hst Hne) as (json & entries & Hf & Hj & Hback & Hfwd).
  set (h' := persist_all_ratchet_sessions all_ok nonces key r h) in *.
  unfold restore_all_ratchet_sessions, restorable, fs_read. rewrite Hk, Hf. cbn [mbind option_bind].
  rewrite Hj. cbn [mbind option_bind as_object].
  destruct (restore_loop clk wk nonces (load_watermarks (true, true) h') r (map_to_list entries) 0 no_sessions Hst
              (NoDup_fst_map_to_list _)) as (n' & r' & -> & Hpo & Hsz & Hl).
  { intros p v Hp%elem_of_map_to_list. split; [done|by apply Hback]. }
  assert (sessions r' = survivors clk (load_watermarks (true, true) h) r) as Hs.
  { apply map_eq. intros p. rewrite Hl. cbn [sessions no_sessions]. rewrite lookup_empty.
    unfold survivors. rewrite !map_lookup_imap. destruct (sessions r !! p) as [sess|] eqn:Ep; cbn [mbind option_bind].
    - destruct (Hfwd _ _ Ep) as [[v Hv] Hm]. rewrite decide_True.
      2: by apply (list_elem_of_fmap_2 fst _ (p, v)), elem_of_map_to_list.
      unfold behind. rewrite Hm. set (lm := live_mark _).
      assert (is_rollback lm (merge_watermark (default zero_mark (load_watermarks (true, true) h !! p)) lm)
              = match load_watermarks (true, true) h !! p with Some high => is_rollback lm high | None => false end) as ->; [|done].
      apply eq_true_iff_eq. rewrite <- !not_false_iff_true, is_rollback_le, merge_le_iff.
      destruct (load_watermarks (true, true) h !! p); cbn [default]; [by rewrite is_rollback_le|].
      split; [|done]. intros H. exfalso. apply H, zero_le, live_mark_range; by apply (Hst _ _ Ep).
    - by destruct (decide _). }
  destruct r' as [ss po]. cbn in *. subst. f_equal. f_equal. cbn in Hsz. rewrite map_size_empty in Hsz. lia.
Qed.


Lemma commit_outgoing_marks s :
  is_Some (out_root_key (outgoing_proposal s)) -> is_Some (out_sending_chain_key (outgoing_proposal s)) ->
  is_Some (out_receiving_chain_key (outgoing_proposal s)) ->
  pairing_epoch (commit_outgoing_rekey s) = pairing_epoch s
  /\ message_count (send (commit_outgoing_rekey s)) = 0.
Proof.
  intros [? H1] [? H2] [? H3]. unfold commit_outgoing_rekey. rewrite H1, H2, H3. by destruct (out_hybrid_pair _).
Qed.

Lemma behind_lower marks p sess high :
  marks !! p = Some high -> ~ mark_le high (live_mark (state sess)) -> behind marks p sess = true.
Proof. unfold behind. intros -> H. apply not_false_iff_true. by rewrite is_rollback_le. Qed.

(** A committed rekey loses the session at the next restart: the commit
    starts the counters again at zero within the same pairing epoch, so after
    a persist before it and a persist after it the restore judges the current
    snapshot a rollback and refuses it. *)
Theorem rekey_loses_session clk nonces nonces' key wk r h bak_ok p s :
  wrap_key key = Some wk -> live p r = Some s -> storable wk nonces r ->
  is_Some (out_root_key (outgoing_proposal s)) -> is_Some (out_sending_chain_key (outgoing_proposal s)) ->
  is_Some (out_receiving_chain_key (outgoing_proposal s)) ->
  0 < message_count (send s) ->
  let r' := put_session p (commit_outgoing_rekey s) r in
  storable wk nonces' r' ->
  let before := persist_all_ratchet_sessions all_ok nonces key r h in
  let after := persist_all_ratchet_sessions all_ok nonces' key r' before in
  exists n r'', restore_all_ratchet_sessions clk true bak_ok (true, true) key after no_sessions = (Ok n, r'')
    /\ sessions r'' !! p = None.
Proof.
  intros Hk Hl Hst H1 H2 H3 Hpos r' Hst' before after.
  assert (exists sess, sessions r !! p = Some sess /\ state sess = s) as (sess & Hp & Hs).
  { unfold live in Hl. destruct (sessions r !! p) as [sess|]; [|done]. destruct (poisoned sess); [done|].
    injection Hl as <-. eauto. }
  assert (sessions r' !! p = Some {| state := commit_outgoing_rekey s; poisoned := false |}) as Hp'
    by apply lookup_insert_eq.
  destruct (persist_exact nonces key wk r h Hk Hst) as (json & entries & _ & _ & _ & Hfwd); [intros E; by rewrite E, lookup_empty in Hp|].
  destruct (Hfwd _ _ Hp) as [_ Hm]. fold before in Hm.
  destruct (commit_outgoing_marks s H1 H2 H3) as [He Hc].
  eexists _, _. split; [apply (restore_after_persist clk nonces' key wk r' before bak_ok Hk Hst')|].
  { intros E. by rewrite E, lookup_empty in Hp'. }
  cbn [sessions]. unfold survivors. rewrite map_lookup_imap, Hp'. cbn [mbind option_bind].
  rewrite (behind_lower _ _ _ _ Hm); [done|]. cbn [state]. intros Hle.
  assert (mark_le (live_mark s) (live_mark (commit_outgoing_rekey s))) as Hbad.
  { etransitivity; [|exact Hle]. rewrite Hs. apply merge_le_r. }
  unfold live_mark, mark_le in Hbad. rewrite He, Hc in Hbad. lia.
Qed.

(** ** Crashes during the replacement of the store *)

Lemma rotated json h old :
  files h !! store_path = Some old ->
  files (rotate_store true (fs_write true None store_tmp_path json h))
  = <[store_bak_path := old]> (delete store_path (<[store_tmp_path := json]> (files h))).
Proof.
  intros Ho. unfold rotate_store, fs_rename.
  assert (files (fs_write true None store_tmp_path json h) !! store_path = Some old) as ->
    by (cbn; by rewrite lookup_insert_ne).
  done.
Qed.

(** The uninterrupted write: the new text is the store, the old one the backup. *)
Lemma write_store_rotates json h old :
  files h !! store_path = Some old ->
  let h' := write_store all_ok json id h in
  files h' !! store_path = Some json /\ files h' !! store_bak_path = Some old.
Proof.
  intros Ho. pose proof (rotated json h old Ho) as Hr. cbv zeta. rewrite write_store_eq. cbv zeta.
  cbn [io_tmp_write io_tmp_torn io_tmp_sync io_rotate io_rename io_back io_tmp_remove all_ok andb].
  unfold fs_rename. rewrite Hr, lookup_insert_ne, lookup_delete_ne, lookup_insert_eq by done. cbn -[rotate_store fs_write].
  rewrite Hr, !lookup_delete_ne, lookup_insert_eq by done. split; [done|].
  by rewrite lookup_insert_ne, lookup_delete_ne, lookup_insert_eq.
Qed.

(** What a crash finds: the store with the old text or with the new one, or no
    store and then the old text as the backup and the whole new one beside it. *)
Definition copy_kept (old json : string) (h : Host) : Prop :=
  files h !! store_path = Some old \/ files h !! store_path = Some json
  \/ (files h !! store_path = None /\ files h !! store_bak_path = Some old /\ files h !! store_tmp_path = Some json).

(** The renames and what follows, from the temporary file complete. *)
Lemma rename_keeps io json commit h1 old :
  files h1 !! store_path = Some old -> files h1 !! store_tmp_path = Some json ->
  (forall h, files (commit h) !! store_path = files h !! store_path) ->
  io_rename io = true \/ (io_rotate io = true /\ io_back io = true) ->
  let h2 := rotate_store (io_rotate io) h1 in
  let '(renamed, h3) := fs_rename (io_rename io) store_tmp_path store_path h2 in
  let h4 := if renamed then commit h3 else snd (fs_rename (io_back io) store_bak_path store_path h3) in
  Forall (copy_kept old json) [h2; h3; h4; fs_remove (io_tmp_remove io) store_tmp_path h4].
Proof.
  intros Ho Hj Hc Hio h2. assert (files h2 !! store_tmp_path = Some json) as Ht.
  { unfold h2, rotate_store, fs_rename. rewrite Ho. cbn [is_some]. destruct (io_rotate io); [|done].
    cbn. by rewrite lookup_insert_ne, lookup_delete_ne. }
  assert (copy_kept old json h2) as H2.
  { unfold h2, rotate_store, fs_rename in *. rewrite Ho in *. cbn [is_some] in *. destruct (io_rotate io); [|by left].
    right; right. cbn in *. rewrite lookup_insert_ne, lookup_delete_eq, lookup_insert_eq by done. done. }
  assert (forall ok h t, files h !! store_path = Some t -> files (fs_remove ok store_tmp_path h) !! store_path = Some t) as Hr.
  { intros ok h t Hh. unfold fs_remove. destruct ok; [|done]. cbn. by rewrite lookup_delete_ne. }
  unfold fs_rename at 1. rewrite Ht. destruct (io_rename io) eqn:Er; cbn [snd].
  - set (h3 := h2 <| files ::= _ |>). assert (files h3 !! store_path = Some json) as H3 by (cbn; by rewrite lookup_insert_eq).
    assert (files (commit h3) !! store_path = Some json) as H4 by (by rewrite Hc).
    rewrite !Forall_cons, Forall_nil. split_and!; [done|right; by left|right; by left|right; left; by apply Hr|done].
  - destruct Hio as [|[Hro Hba]]; [done|].
    assert (files (snd (fs_rename (io_back io) store_bak_path store_path h2)) !! store_path = Some old) as H4.
    { unfold fs_rename, h2, rotate_store. rewrite Hro, Hba, Ho. cbn [is_some]. unfold fs_rename. rewrite Ho. cbn [snd].
      cbn. rewrite lookup_insert_eq. cbn. by rewrite lookup_insert_eq. }
    rewrite !Forall_cons, Forall_nil. split_and!; [done|done|by left|left; by apply Hr|done].
Qed.

(** C28: a crash at any point of the replacement of the store - the write of the
    temporary file, the rotation, the rename, the commit, the clean-up, and what
    is done when one of them fails - leaves the store with the old text or the
    new one, or no store but the old text as the backup and the complete new
    one in the temporary file; provided the final rename does not fail, or
    neither the rotation before it nor the one back does, and the commit leaves
    the store's file alone, as the update of the marks does ([save_store_file]). *)
Theorem crash_keeps_a_copy partly io json commit h old c :
  files h !! store_path = Some old ->
  (forall h, files (commit h) !! store_path = files h !! store_path) ->
  io_rename io = true \/ (io_rotate io = true /\ io_back io = true) ->
  c ∈ crash_points partly io json commit h -> copy_kept old json c.
Proof.
  intros Ho Hc Hio. assert (forall ok torn, files (fs_write ok torn store_tmp_path json h) !! store_path = Some old) as Hw.
  { intros ok torn. unfold fs_write. destruct ok; [|destruct torn; [|done]]; cbn; by rewrite lookup_insert_ne. }
  unfold crash_points, write_run, does. cbn [fst snd app].
  destruct (io_tmp_write io && io_tmp_sync io) eqn:Ew; cycle 1.
  - cbn [fst snd app]. rewrite !elem_of_cons, elem_of_nil. intros [->|[->|[->|[->|[]]]]]; left; [done|apply Hw|apply Hw|].
    unfold fs_remove. destruct (io_tmp_remove io); [|apply Hw]. cbn -[fs_write]. rewrite lookup_delete_ne by done. apply Hw.
  - apply andb_true_iff in Ew as [Ew _]. rewrite Ew.
    pose proof (rename_keeps io json commit (fs_write true (io_tmp_torn io) store_tmp_path json h) old (Hw _ _)
                  (lookup_insert_eq _ _ _) Hc Hio) as Hk. cbv zeta in Hk.
    destruct (fs_rename (io_rename io) _ _ _) as [[] h3]; cbn [fst snd app];
      rewrite !Forall_cons in Hk; destruct Hk as (K1 & K2 & K3 & K4 & _);
      rewrite !elem_of_cons, elem_of_nil; intros [->|[->|[->|[->|[->|[->|[->|[]]]]]]]];
      try done; left; first [done|apply Hw].
Qed.

(** Otherwise an older copy takes the store's place: the rotation fails, the
    rename fails, and the older backup is renamed over the store. *)
Lemma stale_backup_restored partly io json commit h old older :
  files h !! store_path = Some old -> files h !! store_bak_path = Some older ->
  io_tmp_write io = true -> io_tmp_sync io = true ->
  io_rotate io = false -> io_rename io = false -> io_back io = true ->
  files (snd (write_run partly io json commit h)) !! store_path = Some older.
Proof.
  intros Ho Hb Hw Hs Hr Hn Hk. rewrite write_run_end, Hw, Hs, Hr, Hn, Hk. cbn [andb]. cbv zeta.
  set (h1 := fs_write true (io_tmp_torn io) store_tmp_path json h).
  assert (files h1 !! store_path = Some old) as H1 by (cbn; by rewrite lookup_insert_ne).
  assert (files h1 !! store_bak_path = Some older) as H2 by (cbn; by rewrite lookup_insert_ne).
  assert (files h1 !! store_tmp_path = Some json) as H3 by (cbn; by rewrite lookup_insert_eq). clearbody h1.
  unfold rotate_store, fs_rename. rewrite H1. cbn [is_some snd]. rewrite H3. cbv beta iota. rewrite H2. cbn [snd].
  unfold fs_remove. destruct (io_tmp_remove io); cbn; [rewrite lookup_delete_ne by done|]; by rewrite lookup_insert_eq.
Qed.

(** A crash between the two renames: the backup holds every session of the old
    store, but the restore, which consults the backup only when the store does
    not parse, finds no store and restores nothing. *)
Theorem crash_between_renames clk json h old r key read_ok bak_ok marks_ok :
  files h !! store_path = Some old ->
  let c := rotate_store true (fs_write true None store_tmp_path json h) in
  files c !! store_bak_path = Some old
  /\ restore_all_ratchet_sessions clk read_ok bak_ok marks_ok key c r = (Ok 0%nat, r).
Proof.
  intros Ho c. pose proof (rotated json h old Ho) as Hr. fold c in Hr. split; [by rewrite Hr, lookup_insert_eq|].
  unfold restore_all_ratchet_sessions, restorable, fs_read.
  rewrite Hr, (lookup_insert_ne _ store_bak_path store_path), lookup_delete_eq by done.
  destruct (wrap_key key); [|done]. by destruct read_ok.
Qed.

End Persist.

(** ** Witnesses *)

Import Scenario ToyJson.

(** A codec for a table of snapshots: a snapshot is its position. *)
Definition snapshot_fields (s : RatchetSnapshot) (name : string) : option Z :=
  if decide (name = "ratchet_generation") then Some (snap_ratchet_generation s)
  else if decide (name = "send_message_count") then Some (snap_send_message_count s)
  else if decide (name = "recv_message_count") then Some (snap_recv_message_count s)
  else if decide (name = "pairing_epoch") then Some (snap_pairing_epoch s)
  else None.
Definition table_codec (table : list RatchetSnapshot) : SnapshotCodec := {|
  serde_snapshot_to_writer s := (fun '(i, _) => replicate i x00) <$> list_find (eq s) table;
  serde_snapshot_from_slice d := table !! length d;
  serde_value_u64 d := snapshot_fields <$> table !! length d |}.

Definition in_u64 (s : RatchetSnapshot) : Prop :=
  u64_range (snap_ratchet_generation s) /\ u64_range (snap_send_message_count s)
  /\ u64_range (snap_recv_message_count s) /\ u64_range (snap_pairing_epoch s).

Lemma table_codec_laws table : Forall in_u64 table -> SnapshotCodecLaws (J := table_codec table).
Proof.
  intros Ht.
  assert (forall s d, serde_snapshot_to_writer (SnapshotCodec := table_codec table) s = Some d -> table !! length d = Some s) as Hw.
  { cbn. intros s d. destruct (list_find (eq s) table) as [[i x]|] eqn:E; [|done].
    intros [= <-]. apply list_find_Some in E as (Hi & -> & _). by rewrite length_replicate. }
  split.
  - exact Hw.
  - intros s d Hd%Hw. cbn. rewrite Hd. eexists. split; [reflexivity|]. by split_and!.
  - cbn. intros d v name n. destruct (table !! length d) as [s|] eqn:E; [|done]. intros [= <-].
    apply (Forall_lookup_1 _ _ _ _ Ht) in E as (H1 & H2 & H3 & H4). unfold snapshot_fields.
    repeat case_decide; intros ?; by simplify_eq.
Qed.

Definition alice_committed : DoubleRatchetState := commit_outgoing_rekey alice101.
Definition table : list RatchetSnapshot := [to_snapshot alice101; to_snapshot alice_committed].
Definition codec2 : SnapshotCodec := table_codec table.
Lemma codec2_laws : SnapshotCodecLaws (J := codec2).
Proof. apply table_codec_laws. by apply (bool_decide_eq_true_1 (Forall in_u64 table)); vm_compute. Qed.

Lemma wf_alice101 : wf_state alice101.
Proof. apply wf_encrypt, wf_set_send; [by split|apply wf_fresh]. Qed.

Definition with_alice (s : DoubleRatchetState) : Registry :=
  {| sessions := {[ "bob" := {| state := s; poisoned := false |} ]}; map_poisoned := false |}.
Definition empty_host : Host := {| keyring := ∅; files := ∅ |}.
Definition zero_nonce (p : string) : bytes := replicate 12 x00.
Definition toy_key : bytes := default [] (wrap_key "00").

Lemma storable_alice s data ct :
  wf_state s -> pairing_epoch s = 0 ->
  serde_snapshot_to_writer (SnapshotCodec := codec2) (to_snapshot s) = Some data ->
  encrypt_chacha20 toy_key (replicate 12 x00) data [] = Ok ct ->
  storable (J := codec2) toy_key zero_nonce (with_alice s).
Proof.
  intros Hwf He Hd Hc p sess. cbn [with_alice sessions]. intros [<- <-]%lookup_singleton_Some. cbn [poisoned state]. split_and!; try done.
  - by rewrite He.
  - eexists _, data, ct. by split_and!.
Qed.

Lemma storable_101 : storable (J := codec2) toy_key zero_nonce (with_alice alice101).
Proof. eapply storable_alice; [apply wf_alice101|by vm_compute..]. Qed.
Lemma storable_committed : storable (J := codec2) toy_key zero_nonce (with_alice alice_committed).
Proof. eapply storable_alice; [apply wf_commit_outgoing, wf_alice101|by vm_compute..]. Qed.

Lemma marks_never_regress_witness :
  marks_le (load_watermarks (true, true) empty_host)
    (load_watermarks (true, true)
       (persist_all_ratchet_sessions (J := codec2) all_ok zero_nonce "00" (with_alice alice101) empty_host)).
Proof. by apply (marks_never_regress (J := codec2) (LJ := codec2_laws) all_ok zero_nonce "00" (with_alice alice101) empty_host). Defined.


Lemma rekey_loses_session_witness :
  exists n r'',
    restore_all_ratchet_sessions (J := codec2) clock true true (true, true) "00"
      (persist_all_ratchet_sessions (J := codec2) all_ok zero_nonce "00" (with_alice alice_committed)
        (persist_all_ratchet_sessions (J := codec2) all_ok zero_nonce "00" (with_alice alice101) empty_host)) no_sessions
    = (Ok n, r'') /\ sessions r'' !! "bob" = None.
Proof.
  apply (rekey_loses_session (J := codec2) (LJ := codec2_laws) clock zero_nonce zero_nonce "00" toy_key
           (with_alice alice101) empty_host true "bob" alice101).
  - by vm_compute.
  - by vm_compute.
  - apply storable_101.
  - by apply (bool_decide_eq_true_1 (is_Some _)); vm_compute.
  - by apply (bool_decide_eq_true_1 (is_Some _)); vm_compute.
  - by apply (bool_decide_eq_true_1 (is_Some _)); vm_compute.
  - by vm_compute.
  - apply storable_committed.
Defined.

Definition old_host : Host := {| keyring := ∅; files := {[ store_path := "old" ]} |}.

Lemma crash_keeps_a_copy_witness :
  length (crash_points "n" all_ok "new" (save_watermarks all_ok ∅) old_host) = 7%nat
  /\ Forall (copy_kept "old" "new") (crash_points "n" all_ok "new" (save_watermarks all_ok ∅) old_host).
Proof.
  split; [reflexivity|]. apply Forall_forall. intros c Hc.
  apply (crash_keeps_a_copy "n" all_ok "new" (save_watermarks all_ok ∅) old_host "old" c); [done|done|by left|exact Hc].
Defined.

Lemma crash_between_renames_witness :
  let c := rotate_store true (fs_write true None store_tmp_path "new" old_host) in
  files c !! store_bak_path = Some "old"
  /\ restore_all_ratchet_sessions (J := codec2) clock true true (true, true) "00" c no_sessions = (Ok 0%nat, no_sessions).
Proof. by apply (crash_between_renames (J := codec2) clock "new" old_host "old" no_sessions "00" true true (true, true)). Defined.
