(* ===== verification/StoreRemoval.v ===== *)
(** * StoreRemoval: un-pairing one device, the wipe, and the keys at rest

    Removing one peer from the desktop's session store drops its snapshot and
    its marks and nothing else (but the backup keeps the snapshot); the wipe
    leaves no entry behind; the pairing keypair and the notification history
    come back as they were written. *)

From Stdlib.Strings Require Import Ascii.
From S2P Require Import Prelude Error Primitives Aead Kem Toy Json.
From S2P Require Import RatchetState RatchetSnapshot RatchetInvariant RatchetEncrypt Registry RatchetStore StoreProps RatchetRekey Scenario.

Section Removal.
Context `{P : Primitives} `{J : SnapshotCodec} `{T : JsonText} `{X : Hex}.
Context `{LP : !PrimitivesLaws} `{LT : !JsonTextLaws} `{LX : !HexLaws}.

(** ** One peer *)

(** A text whose value serde_json represents exactly. *)
Definition exact_text (text : option string) : Prop :=
  forall t v, text = Some t -> json_from_str t = Some v -> representable v.

Lemma repr_delete p m : representable (Object m) -> representable (Object (delete p m)).
Proof. intros H. inversion H as [| | | | |m0 Hm]; subst. constructor. intros k v [_ Hk]%lookup_delete_Some. eauto. Qed.

(** Dropping a mark from a tier's text drops it from the tier's marks. *)
Lemma drop_mark_text peer text :
  exact_text text ->
  match drop_mark peer text with
  | None => tier_marks text !! peer = None
  | Some text' => tier_marks text' = delete peer (tier_marks text)
  end.
Proof.
  intros Hx. unfold drop_mark, tier_marks. destruct text as [t|]; cbn [mbind option_bind]; [|done].
  destruct (json_from_str t) as [v|] eqn:Ev; cbn [mbind option_bind]; [|done].
  unfold parse_watermark_map. destruct (as_object v) as [obj|] eqn:Eo; cbn [mbind option_bind]; [|done].
  destruct (obj !! peer) as [x|] eqn:Ep; cbn [mbind option_bind]; [|by rewrite lookup_omap, Ep].
  case_bool_decide as Ee.
  - cbn [mbind option_bind]. by rewrite <- omap_delete, Ee, omap_empty.
  - destruct v; try done. injection Eo as ->.
    destruct (json_roundtrip (Object (delete peer obj))) as (t' & -> & Ht'); [by apply repr_delete, (Hx t)|].
    cbn [mbind option_bind]. rewrite Ht'. cbn [as_object]. by rewrite omap_delete.
Qed.

Lemma merge_tiers_delete kt ft kt' ft' peer :
  tier_marks kt' = delete peer (tier_marks kt) -> tier_marks ft' = delete peer (tier_marks ft) ->
  merge_tier ft' (merge_tier kt' ∅) = delete peer (merge_tier ft (merge_tier kt ∅)).
Proof.
  intros Hk Hf. apply map_eq. intros q. rewrite lookup_delete, !lookup_merge_tier, Hk, Hf.
  destruct (decide (peer = q)) as [->|].
  - by rewrite !lookup_delete_eq, lookup_empty.
  - by rewrite !lookup_delete_ne by done.
Qed.

(** The second part of the removal, on the two tiers. *)
Definition drop_marks (peer : string) (h : Host) : Host :=
  let h := match drop_mark peer (keyring_text h) with
           | Some None => delete_password true (entry KEYRING_RATCHET_WATERMARK) h
           | Some (Some json) => set_password true (entry KEYRING_RATCHET_WATERMARK) json h
           | None => h
           end in
  match drop_mark peer (file_text h) with
  | Some None => fs_remove true watermark_path h
  | Some (Some json) => fs_write true None watermark_path json h
  | None => h
  end.

Lemma drop_marks_tiers peer h :
  exact_text (keyring_text h) -> exact_text (file_text h) ->
  load_watermarks (true, true) (drop_marks peer h) = delete peer (load_watermarks (true, true) h)
  /\ forall path, path <> watermark_path -> files (drop_marks peer h) !! path = files h !! path.
Proof.
  intros Hk Hf. pose proof (drop_mark_text peer _ Hk) as Dk. pose proof (drop_mark_text peer _ Hf) as Df.
  set (h1 := match drop_mark peer (keyring_text h) with
             | Some None => delete_password true (entry KEYRING_RATCHET_WATERMARK) h
             | Some (Some json) => set_password true (entry KEYRING_RATCHET_WATERMARK) json h
             | None => h end).
  assert (tier_marks (keyring_text h1) = delete peer (tier_marks (keyring_text h)) /\ files h1 = files h) as [K1 F1].
  { unfold h1. destruct (drop_mark peer (keyring_text h)) as [[json|]|]; (split; [|done]).
    - rewrite <- Dk. f_equal. apply keyring_text_written.
    - rewrite <- Dk. f_equal. unfold keyring_text. cbn. by rewrite lookup_delete_eq.
    - by rewrite delete_id. }
  assert (file_text h1 = file_text h) as FT by (unfold file_text; by rewrite F1).
  assert (drop_marks peer h = match drop_mark peer (file_text h) with
    | Some None => fs_remove true watermark_path h1
    | Some (Some json) => fs_write true None watermark_path json h1
    | None => h1 end) as -> by (unfold drop_marks; fold h1; by rewrite FT).
  destruct (drop_mark peer (file_text h)) as [[json|]|]; (split; [rewrite !load_ok; apply merge_tiers_delete; [exact K1|]|]).
  - rewrite <- Df. f_equal. apply file_text_written.
  - intros path Hp. cbn -[h1]. by rewrite lookup_insert_ne, F1.
  - rewrite <- Df. f_equal. unfold file_text. cbn -[h1]. by rewrite lookup_delete_eq.
  - intros path Hp. cbn -[h1]. by rewrite lookup_delete_ne, F1.
  - by rewrite FT, delete_id.
  - intros path _. by rewrite F1.
Qed.

(** Un-pairing one device, with every operation succeeding: the store
    loses that peer's entry, its mark is gone from both tiers, the entries and
    marks of the other peers are kept; the previous store, with the removed
    peer's sealed snapshot, stays as the backup. *)
Theorem remove_peer_keeps_others peer h old map v :
  peer <> "" -> files h !! store_path = Some old -> json_from_str old = Some (Object map) ->
  representable (Object map) -> map !! peer = Some v ->
  exact_text (keyring_text h) -> exact_text (file_text h) ->
  let h' := remove_ratchet_session_for_peer all_ok true peer h in
  (exists text, files h' !! store_path = Some text /\ json_from_str text = Some (Object (delete peer map)))
  /\ load_watermarks (true, true) h' = delete peer (load_watermarks (true, true) h)
  /\ files h' !! store_bak_path = Some old.
Proof.
  intros Hne Hs Hj Hr Hp Hk Hf h'. subst h'. unfold remove_ratchet_session_for_peer.
  rewrite decide_False by done. cbn [fs_read]. rewrite Hs. cbn [mbind option_bind]. rewrite Hj. cbn [mbind option_bind as_object].
  rewrite Hp. destruct (json_roundtrip (Object (delete peer map))) as (json & -> & Hj'); [by apply repr_delete|].
  set (h1 := write_store all_ok json id h).
  assert (same_tiers h h1) as [K1 F1].
  { destruct (write_store_tiers all_ok json id h) as [?|(h0 & ? & ?)]; [done|by transitivity h0]. }
  assert (files h1 !! store_path = Some json /\ files h1 !! store_bak_path = Some old) as [Hs1 Hb1].
  { unfold h1. by apply write_store_rotates. }
  assert (exact_text (keyring_text h1) /\ exact_text (file_text h1)) as [Hk1 Hf1] by (by rewrite K1, F1).
  destruct (drop_marks_tiers peer h1 Hk1 Hf1) as [Hl Hother].
  change ((exists text, files (drop_marks peer h1) !! store_path = Some text /\ json_from_str text = Some (Object (delete peer map)))
    /\ load_watermarks (true, true) (drop_marks peer h1) = delete peer (load_watermarks (true, true) h)
    /\ files (drop_marks peer h1) !! store_bak_path = Some old).
  rewrite Hl, !Hother, (load_same _ _ K1 F1) by done. eauto.
Qed.

(** ** The keys and the history at rest *)

Lemma keypair_repr pair : representable (keypair_value pair).
Proof.
  constructor. intros k v Hk. unfold keypair_value in Hk.
  rewrite !lookup_insert_Some, lookup_singleton_Some in Hk.
  destruct Hk as [[_ <-]|[_ [[_ <-]|[_ [[_ <-]|[_ [_ <-]]]]]]]; constructor.
Qed.

Lemma keypair_fields pair :
  hex_field "x25519_pk" (keypair_value pair) = Some (x25519_pk pair)
  /\ hex_field "x25519_sk" (keypair_value pair) = Some (x25519_sk pair)
  /\ hex_field "mlkem_pk" (keypair_value pair) = Some (mlkem_pk pair)
  /\ hex_field "mlkem_sk" (keypair_value pair) = Some (mlkem_sk pair).
Proof.
  unfold hex_field, get_field, keypair_value. cbn [as_object mbind option_bind].
  rewrite !lookup_insert, lookup_singleton. split_and!; repeat (case_decide; [|done]);
    cbn [mbind option_bind as_str]; apply hex_roundtrip.
Qed.

Lemma notifications_roundtrip key nonce data blob :
  len nonce = 12 -> encrypt_notifications_data key nonce data = Some blob -> decrypt_notifications_data key blob = Some data.
Proof.
  intros Hn He. unfold encrypt_notifications_data, decrypt_notifications_data in *.
  destruct (notif_wrap_key key) as [wk|]; cbn [mbind option_bind] in *; [|done].
  destruct (encrypt_chacha20 wk nonce data []) as [ct| |] eqn:Ee; try done. injection He as <-.
  rewrite split_once_app by apply hex_no_colon. cbn [mbind option_bind]. rewrite !hex_roundtrip. cbn [mbind option_bind].
  rewrite Hn. cbn [negb Z.eqb Pos.eqb]. by rewrite (decrypt_encrypt_chacha20 _ _ _ _ _ Ee).
Qed.

(** What the desktop keeps at rest comes back: the pairing keypair, unless one
    of its parts is empty, and the notification history, under the same
    snapshot key. *)
Theorem at_rest_roundtrip pair h key nonce data blob :
  load_pairing_keypair_from_keyring true (store_pairing_keypair_to_keyring true pair h)
  = (if (len (x25519_pk pair) =? 0) || (len (x25519_sk pair) =? 0)
        || (len (mlkem_pk pair) =? 0) || (len (mlkem_sk pair) =? 0) then None else Some pair)
  /\ (len nonce = 12 -> encrypt_notifications_data key nonce data = Some blob ->
      decrypt_notifications_data key blob = Some data).
Proof.
  split.
  - unfold store_pairing_keypair_to_keyring. destruct (json_roundtrip _ (keypair_repr pair)) as (t & -> & Ht).
    unfold load_pairing_keypair_from_keyring, get_password, set_password. cbn [keyring update upd_keyring].
    rewrite lookup_insert_eq. cbn [mbind option_bind]. rewrite Ht. cbn [mbind option_bind].
    destruct (keypair_fields pair) as (-> & -> & -> & ->). by destruct pair.
  - apply notifications_roundtrip.
Qed.

Lemma delete_all (l : list (string * string)) h e :
  keyring (foldl (fun h e => delete_password true e h) h l) !! e
  = if decide (e ∈ l) then None else keyring h !! e.
Proof.
  revert h. induction l as [|x l IH]; intros h; [done|]. cbn [foldl]. rewrite IH. cbn [keyring update upd_keyring delete_password].
  destruct (decide (e ∈ l)); [by rewrite decide_True by set_solver|].
  destruct (decide (x = e)) as [->|].
  - rewrite decide_True by set_solver. cbn. by rewrite lookup_delete_eq.
  - rewrite decide_False by set_solver. cbn. by rewrite lookup_delete_ne.
Qed.

Lemma delete_all_files (l : list (string * string)) h :
  files (foldl (fun h e => delete_password true e h) h l) = files h.
Proof. revert h. induction l as [|x l IH]; intros h; [done|]. cbn [foldl]. by rewrite IH. Qed.

(** The wipe, with every deletion succeeding, removes the listed keyring
    entries and the plaintext signing keys and touches nothing else; no session
    key and no pairing keypair is found afterwards. *)
Theorem wipe_leaves_nothing h e path :
  let h' := wipe_keyring_entries (fun _ => true) true h in
  keyring h' !! e = (if decide (e ∈ wiped_entries) then None else keyring h !! e)
  /\ files h' !! path = (if decide (path ∈ ["device_mldsa_pk.bin"; "device_mldsa_sk.bin"]) then None else files h !! path)
  /\ session_key_from_keyring true h' = None
  /\ load_pairing_keypair_from_keyring true h' = None.
Proof.
  intros h'.
  assert (forall e, keyring h' !! e = if decide (e ∈ wiped_entries) then None else keyring h !! e) as Hk.
  { intros x. unfold h', wipe_keyring_entries. cbn -[wiped_entries]. rewrite lookup_delete. destruct (decide _) as [<-|].
    - by rewrite decide_True by (by apply (bool_decide_eq_true_1 (_ ∈ wiped_entries)); vm_compute).
    - apply delete_all. }
  split; [done|]. split.
  - unfold h', wipe_keyring_entries, remove_legacy_beacon_key_files. cbn -[wiped_entries].
    rewrite !lookup_delete, delete_all_files. destruct (decide (_ = path)) as [<-|H1]; [done|].
    destruct (decide (_ = path)) as [<-|H2]; [done|]. rewrite decide_False by set_solver. done.
  - unfold session_key_from_keyring, load_pairing_keypair_from_keyring, get_password. rewrite !Hk.
    rewrite !decide_True by (by apply (bool_decide_eq_true_1 (_ ∈ wiped_entries)); vm_compute). done.
Qed.

End Removal.

(** ** Witnesses *)

Import Scenario ToyJson.

Definition two_entries : gmap string Value := {[ "bob" := Null; "carol" := Bool true ]}.
Definition old_text : string := default "" (json_to_string (Object two_entries)).
Definition two_peers : Host := {| keyring := ∅; files := {[ store_path := old_text ]} |}.

Lemma remove_peer_keeps_others_witness :
  let h' := remove_ratchet_session_for_peer all_ok true "bob" two_peers in
  (exists text, files h' !! store_path = Some text /\ json_from_str text = Some (Object (delete "bob" two_entries)))
  /\ load_watermarks (true, true) h' = delete "bob" (load_watermarks (true, true) two_peers)
  /\ files h' !! store_bak_path = Some old_text.
Proof.
  apply (remove_peer_keeps_others "bob" two_peers old_text two_entries Null); try done.
  constructor. intros k v. unfold two_entries. rewrite lookup_insert_Some, lookup_singleton_Some.
  intros [[_ <-]|[_ [_ <-]]]; constructor.
Defined.

Definition toy_blob : string := default "" (encrypt_notifications_data "00" (replicate 12 x00) (bstr "hi")).

Lemma at_rest_roundtrip_witness :
  load_pairing_keypair_from_keyring true (store_pairing_keypair_to_keyring true pair_a empty_host) = Some pair_a
  /\ decrypt_notifications_data "00" toy_blob = Some (bstr "hi").
Proof.
  destruct (at_rest_roundtrip pair_a empty_host "00" (replicate 12 x00) (bstr "hi") toy_blob) as [H1 H2].
  split; [rewrite H1; by vm_compute|]. apply H2; by vm_compute.
Defined.
