(* ===== verification/PairingPolicy.v ===== *)
(** * PairingPolicy: the rate limit on pairing requests
    (desktop-app/src-tauri/src/handlers/pairing_policy.rs)

    The limiter's state behind its mutex, and one request as a function of the
    instant it reads.  Instants are nanoseconds; an address is its text. *)

From S2P Require Import Prelude Error Primitives Kem RatchetState.

Definition PAIRING_PER_IP_MAX : Z := 10.
Definition PAIRING_WINDOW_SECS : Z := 60.
Definition PAIRING_GLOBAL_MAX : Z := 200.

Record RateEntry := { last_attempt : Z; attempts : Z; window_start : Z }.

Record RateLimiter := {
  floor_at : Z;
  entries : gmap string RateEntry;
  budget_used : Z;
  window_at : Z
}.

(** The limiter as first used at instant [now]. *)
Definition new_limiter (now : Z) : RateLimiter :=
  {| floor_at := now - secs 5; entries := ∅; budget_used := 0; window_at := now |}.

Definition since (now then_ : Z) : Z := sat_sub now then_.
Definition as_millis (d : Z) : Z := d / 1000000.
Definition fresh_entry (now : Z) : RateEntry := {| last_attempt := now; attempts := 0; window_start := now |}.

(** The per-address part: whether the request passes, and its entry. *)
Definition check_entry (now : Z) (is_new : bool) (e : RateEntry) : bool * RateEntry :=
  let e := if PAIRING_WINDOW_SECS <=? as_secs (since now (window_start e))
           then {| last_attempt := last_attempt e; attempts := 0; window_start := now |} else e in
  if negb is_new && (as_secs (since now (last_attempt e)) <? 2) then (false, e)
  else if PAIRING_PER_IP_MAX <=? attempts e then (false, e)
  else (true, {| last_attempt := now; attempts := attempts e + 1; window_start := window_start e |}).

(** What follows the floor and the reset of the window. *)
Definition admit_request (now : Z) (peer_ip : option string) (st : RateLimiter) : bool * RateLimiter :=
  if PAIRING_GLOBAL_MAX <=? budget_used st then (false, st)
  else
    let st := {| floor_at := floor_at st; entries := entries st; budget_used := budget_used st + 1; window_at := window_at st |} in
    match peer_ip with
    | None => (true, st)
    | Some ip =>
        let es := if 1000 <? Z.of_nat (size (entries st))
                  then filter (fun kv => as_secs (since now (last_attempt (snd kv))) < PAIRING_WINDOW_SECS) (entries st)
                  else entries st in
        let is_new := negb (is_some (es !! ip)) in
        let '(ok, e) := check_entry now is_new (default (fresh_entry now) (es !! ip)) in
        (ok, {| floor_at := floor_at st; entries := <[ip := e]> es; budget_used := budget_used st; window_at := window_at st |})
    end.

Definition reset_window (now : Z) (st : RateLimiter) : RateLimiter :=
  if PAIRING_WINDOW_SECS <=? as_secs (since now (window_at st))
  then {| floor_at := floor_at st; entries := ∅; budget_used := 0; window_at := now |} else st.

Definition check_pairing_rate_limit (now : Z) (peer_ip : option string) (st : RateLimiter) : bool * RateLimiter :=
  if as_millis (since now (floor_at st)) <? 200 then (false, st)
  else
    let st := {| floor_at := now; entries := entries st; budget_used := budget_used st; window_at := window_at st |} in
    admit_request now peer_ip (reset_window now st).

(** A sequence of requests, and the requests it lets through. *)
Abbreviation Request := (Z * option string)%type.
Fixpoint run_requests (reqs : list Request) (st : RateLimiter) : list Request * RateLimiter :=
  match reqs with
  | [] => ([], st)
  | (now, ip) :: rest =>
      let '(ok, st1) := check_pairing_rate_limit now ip st in
      let '(passed, st2) := run_requests rest st1 in
      ((if ok : bool then [(now, ip)] else []) ++ passed, st2)
  end.

(** ** The invariant *)

Definition minute : Z := secs 60.
Definition floor_ns : Z := 200000000.

(** The entry of an address lies within the global window. *)
Definition wf_entry (w : Z) (e : RateEntry) : Prop :=
  w <= window_start e <= last_attempt e /\ 0 <= attempts e <= PAIRING_PER_IP_MAX.
Record wf_limiter (st : RateLimiter) : Prop := {
  wf_budget : 0 <= budget_used st <= PAIRING_GLOBAL_MAX;
  wf_entries ip e : entries st !! ip = Some e -> wf_entry (window_at st) e
}.

(** Attempts an address has used up in the window. *)
Definition used (ip : string) (st : RateLimiter) : Z :=
  match entries st !! ip with Some e => attempts e | None => 0 end.
Definition of_ip (ip : string) (r : Request) : Prop := snd r = Some ip.
#[export] Instance of_ip_dec ip r : Decision (of_ip ip r). Proof. unfold of_ip. apply _. Defined.
Definition spent (ip : string) (r : Request) : Z := if decide (of_ip ip r) then 1 else 0.

Lemma used_range ip st : wf_limiter st -> 0 <= used ip st <= PAIRING_PER_IP_MAX.
Proof. intros H. unfold used. destruct (entries st !! ip) eqn:E; [apply (wf_entries _ H ip _ E)|by split]. Qed.

Lemma secs_lt now x k : 0 < k -> (as_secs (since now x) <? k) = (now - x <? secs k).
Proof.
  intros Hk. unfold as_secs, since, sat_sub, secs.
  destruct (Z.ltb_spec (now - x) (k * 1000000000)).
  - destruct (decide (now - x < 0)); [|apply Z.ltb_lt, Z.div_lt_upper_bound; lia].
    rewrite Z.max_l by lia. apply Z.ltb_lt. rewrite Z.div_0_l; lia.
  - apply Z.ltb_ge, Z.div_le_lower_bound; lia.
Qed.
Lemma secs_le now x k : 0 < k -> (k <=? as_secs (since now x)) = (secs k <=? now - x).
Proof. intros Hk. rewrite !Z.leb_antisym. f_equal. by apply secs_lt. Qed.

(** One address within the window: the entry stays well formed and a request
    let through uses an attempt. *)
Lemma check_entry_spec now w is_new e ok e' :
  wf_entry w e -> last_attempt e <= now < w + minute -> check_entry now is_new e = (ok, e') ->
  wf_entry w e' /\ last_attempt e' <= now /\ attempts e + (if ok then 1 else 0) <= attempts e'.
Proof.
  unfold wf_entry, check_entry, minute. intros [Hw Ha] Hn.
  rewrite secs_le by done. destruct (Z.leb_spec (secs PAIRING_WINDOW_SECS) (now - window_start e)) as [Hr|Hr].
  { unfold PAIRING_WINDOW_SECS in Hr. lia. }
  destruct (_ && _); [intros [= <- <-]; lia|].
  destruct (Z.leb_spec PAIRING_PER_IP_MAX (attempts e)); intros [= <- <-]; cbn; lia.
Qed.

Definition recent (now : Z) (st : RateLimiter) : Prop :=
  forall ip e, entries st !! ip = Some e -> last_attempt e <= now.

(** No entry is dropped while the window lasts. *)
Lemma retain_id now st :
  wf_limiter st -> recent now st -> now < window_at st + minute ->
  (if 1000 <? Z.of_nat (size (entries st))
   then filter (fun kv => as_secs (since now (last_attempt (snd kv))) < PAIRING_WINDOW_SECS) (entries st)
   else entries st) = entries st.
Proof.
  intros H Hr Hn. destruct (_ <? _); [|done]. apply map_filter_id. intros ip e He. cbn.
  apply Z.ltb_lt. rewrite secs_lt by done. apply Z.ltb_lt.
  destruct (wf_entries _ H ip e He) as [? _]. specialize (Hr ip e He). unfold minute in Hn. unfold PAIRING_WINDOW_SECS. lia.
Qed.

Record step_ok (now : Z) (ip : option string) (ok : bool) (st st' : RateLimiter) : Prop := {
  so_wf : wf_limiter st';
  so_recent : recent now st';
  so_window : window_at st' = window_at st;
  so_floor : floor_at st' = floor_at st;
  so_budget : budget_used st + (if ok then 1 else 0) <= budget_used st';
  so_used i : used i st + (if ok then spent i (now, ip) else 0) <= used i st'
}.

Lemma admit_spec now ip st ok st' :
  wf_limiter st -> recent now st -> window_at st <= now < window_at st + minute ->
  admit_request now ip st = (ok, st') -> step_ok now ip ok st st'.
Proof.
  intros H Hr Hn. unfold admit_request. pose proof (wf_budget _ H) as Hb.
  destruct (Z.leb_spec PAIRING_GLOBAL_MAX (budget_used st)) as [Hg|Hg]; [intros [= <- <-]; split; try done; intros; lia|].
  destruct ip as [ip|].
  2: { intros [= <- <-]. split; cbn [floor_at entries budget_used window_at]; try done; [split; [cbn [budget_used]; lia|apply H]|]. intros i.
       unfold spent, of_ip. cbn. rewrite decide_False by done. unfold used. cbn. lia. }
  cbn [entries]. rewrite (retain_id now st H Hr) by lia.
  set (e0 := default (fresh_entry now) (entries st !! ip)).
  assert (wf_entry (window_at st) e0 /\ last_attempt e0 <= now /\ attempts e0 = used ip st) as (He & Hl & Hu).
  { unfold e0, used. destruct (entries st !! ip) as [e|] eqn:E; cbn.
    - split; [by apply (wf_entries _ H ip)|split; [by apply (Hr ip)|done]].
    - unfold wf_entry. cbn. unfold PAIRING_PER_IP_MAX. lia. }
  destruct (check_entry now _ e0) as [ok1 e1] eqn:Ec. intros [= <- <-].
  destruct (check_entry_spec now (window_at st) _ e0 ok1 e1 He ltac:(lia) Ec) as (He1 & Hl1 & Ha1).
  split; cbn [floor_at entries budget_used window_at]; try done.
  - split; cbn [entries budget_used window_at]; [lia|]. intros i e. rewrite lookup_insert_Some. intros [[<- <-]|[_ Hi]]; [done|by apply (wf_entries _ H i)].
  - intros i e. cbn. rewrite lookup_insert_Some. intros [[<- <-]|[_ Hi]]; [done|by apply (Hr i)].
  - destruct ok1; lia.
  - intros i. unfold spent, of_ip, used. cbn [snd entries]. destruct (decide (Some ip = Some i)) as [[= ->]|Hne].
    + rewrite lookup_insert_eq. fold (used i st). destruct ok1; lia.
    + rewrite lookup_insert_ne by congruence. destruct ok1; lia.
Qed.

(** ** Runs of requests *)

(** The instants do not go back, from [from] on, and stay before [until]. *)
Fixpoint paced (from until : Z) (reqs : list Request) : Prop :=
  match reqs with
  | [] => True
  | (now, _) :: rest => from <= now < until /\ paced now until rest
  end.

Definition count_ip (ip : string) (l : list Request) : Z := len (filter (of_ip ip) l).

Lemma count_cons ip r l : count_ip ip (r :: l) = spent ip r + count_ip ip l.
Proof. unfold count_ip, spent. rewrite filter_cons. destruct (decide (of_ip ip r)); [rewrite len_cons|]; lia. Qed.

Definition set_floor (now : Z) (st : RateLimiter) : RateLimiter :=
  {| floor_at := now; entries := entries st; budget_used := budget_used st; window_at := window_at st |}.

Lemma check_cases now ip st ok st' :
  check_pairing_rate_limit now ip st = (ok, st') ->
  (ok = false /\ st' = st)
  \/ (floor_at st + floor_ns <= now /\ admit_request now ip (reset_window now (set_floor now st)) = (ok, st')).
Proof.
  unfold check_pairing_rate_limit. destruct (Z.ltb_spec (as_millis (since now (floor_at st))) 200) as [Hf|Hf].
  - intros [= <- <-]. by left.
  - intros H. right. split; [|exact H]. unfold as_millis, since, sat_sub, floor_ns in *.
    assert (200 * 1000000 <= Z.max 0 (now - floor_at st)); [|lia].
    etransitivity; [apply Z.mul_le_mono_nonneg_r; [lia|exact Hf]|]. rewrite Z.mul_comm. apply Z.mul_div_le. lia.
Qed.

Lemma reset_cases now st :
  window_at st <= now ->
  (now < window_at st + minute /\ reset_window now st = st)
  \/ (window_at st + minute <= now /\
      reset_window now st = {| floor_at := floor_at st; entries := ∅; budget_used := 0; window_at := now |}).
Proof.
  intros Hw. unfold reset_window. rewrite secs_le by done. unfold PAIRING_WINDOW_SECS, minute.
  destruct (Z.leb_spec (secs 60) (now - window_at st)); [right|left]; split; try done; lia.
Qed.

Lemma wf_reset now f : wf_limiter {| floor_at := f; entries := ∅; budget_used := 0; window_at := now |}.
Proof. split; cbn; [by split|]. intros ip e. by rewrite lookup_empty. Qed.

Lemma recent_mono now now' st : now <= now' -> recent now st -> recent now' st.
Proof. intros H Hr ip e He. specialize (Hr ip e He). lia. Qed.

Definition passed (reqs : list Request) (st : RateLimiter) : list Request := fst (run_requests reqs st).

Lemma passed_cons now ip rest st ok st1 :
  check_pairing_rate_limit now ip st = (ok, st1) ->
  passed ((now, ip) :: rest) st = (if ok then [(now, ip)] else []) ++ passed rest st1.
Proof. unfold passed. cbn [run_requests]. intros ->. by destruct (run_requests rest st1). Qed.

Lemma count_passed i (ok : bool) r l : count_ip i ((if ok then [r] else []) ++ l) = (if ok then spent i r else 0) + count_ip i l.
Proof. destruct ok; [apply count_cons|done]. Qed.

Lemma paced_until from until until' reqs : until <= until' -> paced from until reqs -> paced from until' reqs.
Proof. intros Hu. revert from. induction reqs as [|[n ip] l IH]; [done|]. intros from [Hn Hp]. split; [lia|by apply IH]. Qed.

(** While one window lasts: the budget and the addresses' attempts. *)
Lemma one_window reqs st from :
  wf_limiter st -> recent from st -> window_at st <= from -> paced from (window_at st + minute) reqs ->
  len (passed reqs st) <= PAIRING_GLOBAL_MAX - budget_used st
  /\ forall i, count_ip i (passed reqs st) <= PAIRING_PER_IP_MAX - used i st.
Proof.
  revert st from. induction reqs as [|[now ip] rest IH]; intros st from H Hr Hw Hp.
  - pose proof (wf_budget _ H). split; [change (len (passed [] st)) with 0; lia|].
    intros i. change (count_ip i (passed [] st)) with 0. pose proof (used_range i _ H). lia.
  - destruct Hp as [Hn Hp]. destruct (check_pairing_rate_limit now ip st) as [ok st1] eqn:Ec.
    rewrite (passed_cons _ _ _ _ _ _ Ec). apply check_cases in Ec as [[-> ->]|[_ Ea]].
    { apply (IH st now); try done; [by apply (recent_mono from); [lia|]|lia]. }
    destruct (reset_cases now (set_floor now st) ltac:(cbn [window_at set_floor]; lia)) as [[_ E]|[Hbad _]]; [|cbn [window_at set_floor] in Hbad; lia]. rewrite E in Ea.
    assert (wf_limiter (set_floor now st)) as H' by (split; apply H).
    destruct (admit_spec now ip (set_floor now st) ok st1 H' (recent_mono from now st ltac:(lia) Hr) ltac:(cbn [window_at set_floor]; lia) Ea) as [W R Wi _ B U].
    cbn [window_at set_floor budget_used] in Wi, B.
    destruct (IH st1 now W R ltac:(lia)) as [I1 I2]; [by rewrite Wi|]. split.
    + rewrite len_app. destruct ok; [change (len [(now, ip)]) with 1|change (len (@nil Request)) with 0]; lia.
    + intros i. rewrite count_passed. specialize (I2 i). specialize (U i). change (used i (set_floor now st)) with (used i st) in U. lia.
Qed.

(** Any minute meets at most two windows. *)
Lemma one_minute reqs st t from i :
  wf_limiter st -> recent from st -> window_at st <= from -> t <= from -> paced from (t + minute) reqs ->
  count_ip i (passed reqs st) <= 2 * PAIRING_PER_IP_MAX - used i st.
Proof.
  revert st from. induction reqs as [|[now ip] rest IH]; intros st from H Hr Hw Ht Hp.
  - change (count_ip i (passed [] st)) with 0. pose proof (used_range i _ H). unfold PAIRING_PER_IP_MAX in *. lia.
  - destruct Hp as [Hn Hp]. destruct (check_pairing_rate_limit now ip st) as [ok st1] eqn:Ec.
    rewrite (passed_cons _ _ _ _ _ _ Ec). apply check_cases in Ec as [[-> ->]|[_ Ea]].
    { apply (IH st now); try done; [by apply (recent_mono from); [lia|]|lia|lia]. }
    assert (wf_limiter (set_floor now st)) as H' by (split; apply H). rewrite count_passed.
    destruct (reset_cases now (set_floor now st) ltac:(cbn [window_at set_floor]; lia)) as [[Hin E]|[_ E]]; rewrite E in Ea.
    + destruct (admit_spec now ip (set_floor now st) ok st1 H' (recent_mono from now st ltac:(lia) Hr) ltac:(cbn [window_at set_floor] in *; lia) Ea) as [W R Wi _ _ U].
      cbn [window_at set_floor] in Wi. specialize (IH st1 now W R ltac:(lia) ltac:(lia) Hp). specialize (U i).
      change (used i (set_floor now st)) with (used i st) in U. lia.
    + destruct (admit_spec now ip {| floor_at := now; entries := ∅; budget_used := 0; window_at := now |} ok st1 (wf_reset now now) ltac:(intros x e; cbn; by rewrite lookup_empty) ltac:(cbn [window_at]; unfold minute, secs; lia) Ea)
        as [W R Wi _ _ U]. cbn [window_at] in Wi.
      destruct (one_window rest st1 now W R ltac:(lia)) as [_ I2].
      { rewrite Wi. apply (paced_until _ (t + minute)); [lia|done]. }
      specialize (I2 i). specialize (U i). unfold used at 1 in U. cbn in U. rewrite lookup_empty in U.
      pose proof (used_range i _ H). lia.
Qed.

Lemma check_wf now ip st ok st' :
  wf_limiter st -> recent now st -> window_at st <= now -> check_pairing_rate_limit now ip st = (ok, st') ->
  wf_limiter st' /\ recent now st' /\ window_at st' <= now /\ (st' = st \/ floor_at st' = now).
Proof.
  intros H Hr Hw Hc. apply check_cases in Hc as [[-> ->]|[_ Ea]]; [by split_and!; try left|].
  assert (wf_limiter (set_floor now st)) as H' by (split; apply H).
  destruct (reset_cases now (set_floor now st) Hw) as [[Hin E]|[_ E]]; rewrite E in Ea.
  - destruct (admit_spec now ip (set_floor now st) ok st' H' Hr ltac:(cbn [window_at set_floor] in *; lia) Ea) as [W R Wi F _ _].
    cbn [window_at floor_at set_floor] in *. split_and!; try done; [lia|by right].
  - destruct (admit_spec now ip {| floor_at := now; entries := ∅; budget_used := 0; window_at := now |} ok st' (wf_reset now now)
      ltac:(intros x e; cbn; by rewrite lookup_empty) ltac:(cbn [window_at]; unfold minute, secs; lia) Ea) as [W R Wi F _ _].
    cbn [window_at floor_at] in *. split_and!; try done; [lia|by right].
Qed.

Lemma run_wf reqs st from until :
  wf_limiter st -> recent from st -> window_at st <= from -> from < until -> paced from until reqs ->
  let st' := snd (run_requests reqs st) in
  wf_limiter st' /\ recent (until - 1) st' /\ window_at st' <= until - 1.
Proof.
  revert st from. induction reqs as [|[now ip] rest IH]; intros st from H Hr Hw Hu Hp.
  { cbn. split_and!; [done|by apply (recent_mono from); [lia|]|lia]. }
  destruct Hp as [Hn Hp]. cbn [run_requests]. destruct (check_pairing_rate_limit now ip st) as [ok st1] eqn:Ec.
  destruct (check_wf now ip st ok st1 H (recent_mono from now st ltac:(lia) Hr) ltac:(lia) Ec) as (W & R & Wi & _).
  specialize (IH st1 now W R Wi ltac:(lia) Hp). by destruct (run_requests rest st1).
Qed.

(** Requests let through are two hundred milliseconds apart. *)
Lemma floor_bound reqs st t from :
  t <= from -> paced from (t + minute) reqs ->
  floor_ns * len (passed reqs st) <= Z.max 0 (t + minute - 1 - Z.max (floor_at st) (t - floor_ns)).
Proof.
  revert st from. induction reqs as [|[now ip] rest IH]; intros st from Ht Hp.
  { change (len (passed [] st)) with 0. lia. }
  destruct Hp as [Hn Hp]. destruct (check_pairing_rate_limit now ip st) as [ok st1] eqn:Ec.
  rewrite (passed_cons _ _ _ _ _ _ Ec), len_app. pose proof (IH st1 now ltac:(lia) Hp) as I.
  assert (len (if ok then [(now, ip)] else []) = if ok then 1 else 0) as -> by (by destruct ok).
  apply check_cases in Ec as [[-> ->]|[Hf Ea]]; [lia|].
  assert (floor_at st1 = now) as F.
  { assert (forall s, floor_at (reset_window now (set_floor now s)) = now) as Hrf
      by (intros s; unfold reset_window; by destruct (_ <=? _)).
    revert Ea. unfold admit_request. destruct (_ <=? _); [intros [= _ <-]; apply Hrf|].
    destruct ip; [|intros [= _ <-]; apply Hrf]. destruct (check_entry _ _ _). intros [= _ <-]. apply Hrf. }
  rewrite F in I. unfold floor_ns, minute, secs in *. destruct ok; lia.
Qed.

(** In any minute, after any earlier requests, the limiter lets through at
    most three hundred pairing requests, and at most twenty from one address
    (two of its own windows); within one of its windows at most two hundred,
    and at most ten from one address. *)
Theorem pairing_rate_bound start pre reqs t ip :
  start <= t -> paced start (t + 1) pre -> paced t (t + minute) reqs ->
  let st := snd (run_requests pre (new_limiter start)) in
  len (passed reqs st) <= 300 /\ count_ip ip (passed reqs st) <= 20
  /\ (paced t (window_at st + minute) reqs ->
      len (passed reqs st) <= 200 /\ count_ip ip (passed reqs st) <= 10).
Proof.
  intros Hs Hpre Hp st.
  destruct (run_wf pre (new_limiter start) start (t + 1) (wf_reset _ _)
              ltac:(intros x e; cbn; by rewrite lookup_empty) ltac:(done) ltac:(lia) Hpre) as (W & R & Wi). fold st in W, R, Wi.
  replace (t + 1 - 1) with t in * by lia.
  pose proof (floor_bound reqs st t t ltac:(lia) Hp) as F.
  pose proof (one_minute reqs st t t ip W R Wi ltac:(lia) Hp) as O. pose proof (used_range ip st W).
  split; [unfold floor_ns, minute, secs in F; lia|]. split; [unfold PAIRING_PER_IP_MAX in *; lia|].
  intros Hw. destruct (one_window reqs st t W R Wi Hw) as [G I]. specialize (I ip).
  pose proof (wf_budget _ W). unfold PAIRING_GLOBAL_MAX, PAIRING_PER_IP_MAX in *. lia.
Qed.

(** ** One address can spend the budget of all *)

(** A request every 200 ms from one address. *)
Definition hammer (ip : string) (from : Z) (n : nat) : list Request :=
  (fun i => (from + floor_ns * Z.of_nat i, Some ip)) <$> seq 1 n.

(** Refused requests spend the global budget: two hundred requests of one
    address within forty seconds, of which ten pass, leave nothing for any other
    address until the window ends. *)
Theorem one_address_spends_the_budget :
  let st := snd (run_requests (hammer "attacker" 0 200) (new_limiter 0)) in
  len (passed (hammer "attacker" 0 200) (new_limiter 0)) = 10
  /\ fst (check_pairing_rate_limit (secs 45) (Some "victim") st) = false
  /\ fst (check_pairing_rate_limit (secs 59) (Some "victim") st) = false.
Proof. by vm_compute. Qed.

Lemma pairing_rate_bound_witness :
  let st := snd (run_requests [] (new_limiter 0)) in
  len (passed [(1, Some "a"); (floor_ns + 1, Some "a")] st) <= 300.
Proof.
  apply (pairing_rate_bound 0 [] [(1, Some "a"); (floor_ns + 1, Some "a")] 0 "a"); by vm_compute.
Defined.
