(* ===== verification/PairingWire.v ===== *)
(** * PairingWire: the binary pairing frame
    (desktop-app/src-tauri/src/handlers/pairing_wire.rs)

    Four length-prefixed fields, then an optional nonce and an optional SAS
    echo.  [Err tt] is the decoder's [None]; a slice out of range is a panic.
    A [String] is its UTF-8 bytes. *)

From S2P Require Import Prelude Error Frame Packets.

Record PairingFrame := {
  pf_ciphertext : bytes;
  pf_client_pk : bytes;
  pf_client_x25519_pk : bytes;
  pf_cert_hash : bytes;
  pf_nonce_hex : bytes;
  pf_sas_hex : bytes
}.

Abbreviation decoded := (result unit).

(** [&payload[a..b]]. *)
Definition slice (p : bytes) (a b : Z) : decoded bytes :=
  if (0 <=? a) && (a <=? b) && (b <=? len p) then Ok (take (Z.to_nat (b - a)) (drop (Z.to_nat a) p))
  else Panic "range end index out of range for slice".

(** A big-endian length at [cursor], as [usize]. *)
Definition read_len (p : bytes) (cursor : Z) : decoded Z :=
  b ← slice p cursor (cursor + 4); Ok (be_Z b).

(** A length-prefixed field that must be followed by at least [more] bytes. *)
Definition read_field (p : bytes) (cursor more : Z) : decoded (bytes * Z) :=
  n ← read_len p cursor;
  let cursor := cursor + 4 in
  _ ← guard_err (len p <? cursor + n + more) tt;
  d ← slice p cursor (cursor + n);
  Ok (d, cursor + n).

Definition from_utf8 (b : bytes) : decoded bytes := if utf8_valid b then Ok b else Err tt.

(** An optional trailing string: empty when fewer than four bytes are left. *)
Definition read_optional (p : bytes) (cursor : Z) : decoded (bytes * Z) :=
  if cursor + 4 <=? len p then
    '(d, cursor) ← read_field p cursor 0; s ← from_utf8 d; Ok (s, cursor)
  else Ok ([], cursor).

Definition decode_binary_pairing_frame (p : bytes) : decoded PairingFrame :=
  _ ← guard_err (len p <? 4) tt;
  '(ct, cursor) ← read_field p 0 4;
  '(pk, cursor) ← read_field p cursor 4;
  '(x25519_pk, cursor) ← read_field p cursor 4;
  '(ch, cursor) ← read_field p cursor 0;
  cert_hash ← from_utf8 ch;
  '(nonce_hex, cursor) ← read_optional p cursor;
  '(sas_hex, _) ← read_optional p cursor;
  Ok {| pf_ciphertext := ct; pf_client_pk := pk; pf_client_x25519_pk := x25519_pk;
        pf_cert_hash := cert_hash; pf_nonce_hex := nonce_hex; pf_sas_hex := sas_hex |}.

(** ** The layout the decoder reads *)

Definition field (d : bytes) : bytes := be_bytes 4 (len d) ++ d.
Definition base_layout (f : PairingFrame) : bytes :=
  field (pf_ciphertext f) ++ field (pf_client_pk f) ++ field (pf_client_x25519_pk f) ++ field (pf_cert_hash f).

Lemma slice_at (p a b c : bytes) :
  p = a ++ b ++ c -> slice p (len a) (len a + len b) = Ok b.
Proof.
  intros ->. unfold slice. rewrite !len_app. pose proof (len_nonneg a). pose proof (len_nonneg b). pose proof (len_nonneg c).
  rewrite !(proj2 (Z.leb_le _ _)) by lia. cbn [andb]. f_equal.
  replace (Z.to_nat (len a)) with (length a) by (unfold len; lia).
  replace (Z.to_nat (len a + len b - len a)) with (length b) by (unfold len; lia).
  by rewrite drop_app_length, take_app_length.
Qed.

Lemma read_field_at p a d c more :
  p = a ++ field d ++ c -> len d < 2 ^ 32 -> more <= len c ->
  read_field p (len a) more = Ok (d, len a + 4 + len d).
Proof.
  intros -> Hd Hc. unfold read_field, read_len, field. munfold. rewrite <- app_assoc.
  replace (len a + 4) with (len a + len (be_bytes 4 (len d))) by (by rewrite len_be_bytes).
  rewrite (slice_at _ a (be_bytes 4 (len d)) (d ++ c)) by done.
  pose proof (len_nonneg d). rewrite be_Z_be_bytes_small by (change (256 ^ Z.of_nat 4) with (2 ^ 32); lia).
  rewrite (proj2 (Z.ltb_ge _ _)) by (rewrite !len_app, len_be_bytes; lia).
  replace (len a + len (be_bytes 4 (len d))) with (len (a ++ be_bytes 4 (len d))) by apply len_app.
  rewrite (slice_at _ (a ++ be_bytes 4 (len d)) d c) by (by rewrite <- app_assoc). done.
Qed.

Lemma split_fields {A} (p : list A) a n m :
  p = take a p ++ take n (drop a p) ++ take m (drop (a + n) p) ++ drop (a + n + m) p.
Proof.
  rewrite <- (take_drop a p) at 1. f_equal. rewrite <- (take_drop n (drop a p)) at 1. f_equal.
  rewrite drop_drop, <- (take_drop m (drop (a + n) p)) at 1. by rewrite drop_drop.
Qed.

(** Conversely, a field read is a field of the payload. *)
Lemma read_field_inv p cursor more d cursor' :
  0 <= cursor -> cursor + 4 <= len p -> 0 <= more -> read_field p cursor more = Ok (d, cursor') ->
  exists a c, p = a ++ field d ++ c /\ len a = cursor /\ cursor' = cursor + 4 + len d /\ more <= len c /\ len d < 2 ^ 32.
Proof.
  intros Hc Hp Hm. unfold read_field, read_len, slice. munfold.
  rewrite !(proj2 (Z.leb_le _ _)) by lia. cbn [andb].
  set (lb := take (Z.to_nat (cursor + 4 - cursor)) (drop (Z.to_nat cursor) p)).
  assert (len lb = 4) as Hlb by (unfold lb, len; rewrite length_take, length_drop; unfold len in Hp; lia).
  pose proof (be_Z_range lb) as Hr. rewrite Hlb in Hr.
  destruct (Z.ltb_spec (len p) (cursor + 4 + be_Z lb + more)) as [|Hl]; [done|].
  rewrite !(proj2 (Z.leb_le _ _)) by lia. cbn [andb]. intros [= <- <-].
  set (d := take _ _).
  assert (len d = be_Z lb) as Hd by (unfold d, len; rewrite length_take, length_drop; unfold len in Hl; lia).
  exists (take (Z.to_nat cursor) p), (drop (Z.to_nat (cursor + 4 + be_Z lb)) p). split_and!.
  - unfold field. rewrite Hd. replace (be_bytes 4 (be_Z lb)) with lb.
    + rewrite <- app_assoc, (split_fields p (Z.to_nat cursor) 4 (Z.to_nat (be_Z lb))) at 1.
      assert (lb = take 4 (drop (Z.to_nat cursor) p)) as Elb by (unfold lb; f_equal; lia).
      rewrite <- Elb. unfold d. replace (Z.to_nat cursor + 4)%nat with (Z.to_nat (cursor + 4)) by lia.
      repeat f_equal; lia.
    + rewrite <- (be_bytes_be_Z lb) at 1. f_equal. unfold len in Hlb. lia.
  - unfold len. rewrite length_take. unfold len in Hp. lia.
  - lia.
  - unfold len in *. rewrite length_drop. lia.
  - change (2 ^ 32) with (256 ^ 4). lia.
Qed.

Lemma read_field_no_panic p cursor more m :
  0 <= cursor -> cursor + 4 <= len p -> 0 <= more -> read_field p cursor more <> Panic m.
Proof.
  intros Hc Hp Hm. unfold read_field, read_len, slice. munfold. rewrite !(proj2 (Z.leb_le _ _)) by lia. cbn [andb].
  set (n := be_Z _). assert (0 <= n) by apply be_Z_range.
  destruct (Z.ltb_spec (len p) (cursor + 4 + n + more)) as [|Hl]; [done|]. by rewrite !(proj2 (Z.leb_le _ _)) by lia.
Qed.

(** A frame whose fields fit their length prefix and whose strings are UTF-8. *)
Definition encodable (f : PairingFrame) : Prop :=
  Forall (fun d => len d < 2 ^ 32)
    [pf_ciphertext f; pf_client_pk f; pf_client_x25519_pk f; pf_cert_hash f; pf_nonce_hex f; pf_sas_hex f]
  /\ utf8_valid (pf_cert_hash f) = true /\ utf8_valid (pf_nonce_hex f) = true /\ utf8_valid (pf_sas_hex f) = true.

(** The trailing part of a payload and what it says. *)
Definition trailing (f : PairingFrame) (tail : bytes) : Prop :=
  (len tail < 4 /\ pf_nonce_hex f = [] /\ pf_sas_hex f = [])
  \/ exists tail2, tail = field (pf_nonce_hex f) ++ tail2
       /\ ((len tail2 < 4 /\ pf_sas_hex f = []) \/ exists rest, tail2 = field (pf_sas_hex f) ++ rest).

Lemma len_field d : len (field d) = 4 + len d.
Proof. unfold field. by rewrite len_app, len_be_bytes. Qed.

Lemma read_optional_at p a d c :
  p = a ++ field d ++ c -> len d < 2 ^ 32 -> utf8_valid d = true ->
  read_optional p (len a) = Ok (d, len (a ++ field d)).
Proof.
  intros Hp Hd Hu. unfold read_optional. pose proof (len_nonneg c). pose proof (len_nonneg d).
  rewrite (proj2 (Z.leb_le _ _)) by (rewrite Hp, !len_app, len_field; lia).
  rewrite (read_field_at p a d c 0 Hp Hd ltac:(lia)). cbn [mbind result_bind]. unfold from_utf8. rewrite Hu.
  cbn [mbind result_bind]. do 2 f_equal. rewrite len_app, len_field. lia.
Qed.

(** Reading one field and standing after it. *)
Lemma field_step p a d c more :
  p = a ++ field d ++ c -> len d < 2 ^ 32 -> more <= len c ->
  read_field p (len a) more = Ok (d, len (a ++ field d)) /\ p = (a ++ field d) ++ c.
Proof.
  intros Hp Hd Hm. rewrite (read_field_at p a d c more Hp Hd Hm). split; [|by rewrite <- app_assoc].
  do 2 f_equal. rewrite len_app, len_field. lia.
Qed.

Lemma four_in_field d c : 4 <= len (field d ++ c).
Proof. rewrite len_app, len_field. pose proof (len_nonneg d). pose proof (len_nonneg c). lia. Qed.

(** The two optional strings. *)
Lemma read_trailing p a f tail :
  p = a ++ tail -> trailing f tail -> len (pf_nonce_hex f) < 2 ^ 32 -> len (pf_sas_hex f) < 2 ^ 32 ->
  utf8_valid (pf_nonce_hex f) = true -> utf8_valid (pf_sas_hex f) = true ->
  exists c1 c2, read_optional p (len a) = Ok (pf_nonce_hex f, c1) /\ read_optional p c1 = Ok (pf_sas_hex f, c2).
Proof.
  intros Hp Ht H1 H2 U1 U2. destruct Ht as [(Hl & -> & ->)|(tail2 & -> & Ht2)].
  - assert (read_optional p (len a) = Ok ([], len a)) as E.
    { unfold read_optional. by rewrite (proj2 (Z.leb_gt _ _)) by (rewrite Hp, len_app; lia). }
    eauto.
  - exists (len (a ++ field (pf_nonce_hex f))). rewrite (read_optional_at p a (pf_nonce_hex f) tail2) by done.
    assert (p = (a ++ field (pf_nonce_hex f)) ++ tail2) as P5 by (by rewrite <- app_assoc).
    destruct Ht2 as [(Hl & ->)|(rest & ->)].
    + eexists. split; [done|]. unfold read_optional. by rewrite (proj2 (Z.leb_gt _ _)) by (rewrite P5, len_app; lia).
    + eexists. split; [done|]. by apply (read_optional_at p _ (pf_sas_hex f) rest).
Qed.

(** Every encodable frame decodes from its layout, whatever trailing part
    carries its optional fields (a legacy frame has none). *)
Theorem pairing_frame_roundtrip f tail :
  encodable f -> trailing f tail -> decode_binary_pairing_frame (base_layout f ++ tail) = Ok f.
Proof.
  intros [Hs (U1 & U2 & U3)] Ht. rewrite !Forall_cons in Hs. destruct Hs as (H1 & H2 & H3 & H4 & H5 & H6 & _).
  set (p := base_layout f ++ tail).
  assert (p = [] ++ field (pf_ciphertext f) ++ field (pf_client_pk f) ++ field (pf_client_x25519_pk f)
                ++ field (pf_cert_hash f) ++ tail) as P0 by (unfold p, base_layout; by rewrite <- !app_assoc).
  assert (4 <= len p) as Hlen by (rewrite P0; apply four_in_field).
  destruct (field_step p _ _ _ 4 P0 H1 (four_in_field _ _)) as [F1 P1].
  destruct (field_step p _ _ _ 4 P1 H2 (four_in_field _ _)) as [F2 P2].
  destruct (field_step p _ _ _ 4 P2 H3 (four_in_field _ _)) as [F3 P3].
  destruct (field_step p _ _ _ 0 P3 H4 (len_nonneg _)) as [F4 P4].
  destruct (read_trailing p _ f tail P4 Ht H5 H6 U2 U3) as (c1 & c2 & F5 & F6).
  unfold decode_binary_pairing_frame. munfold. rewrite (proj2 (Z.ltb_ge _ _)) by done.
  change (len (@nil byte)) with 0 in F1. rewrite F1, F2, F3, F4. unfold from_utf8. rewrite U1, F5, F6. by destruct f.
Qed.

(** What one read finds after a prefix already read. *)
Lemma field_cases p a c more :
  p = a ++ c -> 4 <= len c -> 0 <= more ->
  match read_field p (len a) more with
  | Ok (d, cursor) => exists rest, c = field d ++ rest /\ cursor = len (a ++ field d)
                        /\ p = (a ++ field d) ++ rest /\ more <= len rest
  | Err _ => True
  | Panic _ => False
  end.
Proof.
  intros Hp Hc Hm. pose proof (len_nonneg a).
  assert (len a + 4 <= len p) by (rewrite Hp, len_app; lia).
  destruct (read_field p (len a) more) as [[d cur]| |m] eqn:E; [|done|].
  - destruct (read_field_inv p (len a) more d cur ltac:(lia) ltac:(lia) Hm E) as (a' & rest & Hp' & Ha & -> & Hr & _).
    rewrite Hp in Hp'. apply app_inj_1 in Hp' as [-> ->]; [|unfold len in Ha; lia].
    exists rest. split_and!; [done| |by rewrite <- app_assoc|done]. rewrite len_app, len_field. lia.
  - by apply (read_field_no_panic p (len a) more m) in E; try lia.
Qed.

Lemma optional_cases p a c :
  p = a ++ c ->
  match read_optional p (len a) with
  | Ok (d, cursor) => (len c < 4 /\ d = [] /\ cursor = len a)
                      \/ exists rest, c = field d ++ rest /\ cursor = len (a ++ field d) /\ p = (a ++ field d) ++ rest
  | Err _ => True
  | Panic _ => False
  end.
Proof.
  intros Hp. unfold read_optional. destruct (Z.leb_spec (len a + 4) (len p)) as [Hl|Hl].
  - pose proof (field_cases p a c 0 Hp ltac:(rewrite Hp, len_app in Hl; lia) ltac:(done)) as F.
    destruct (read_field p (len a) 0) as [[d cur]| |m]; cbn [mbind result_bind]; [|done|done].
    unfold from_utf8. destruct (utf8_valid d); [|done]. cbn [mbind result_bind].
    destruct F as (rest & ? & ? & ? & _). right. eauto.
  - left. rewrite Hp, len_app in Hl. split_and!; [lia|done|done].
Qed.

(** The decoder never panics, and what it accepts is the layout of the
    frame it returns followed by the trailing part the frame describes. *)
Theorem pairing_frame_sound p :
  match decode_binary_pairing_frame p with
  | Ok f => exists tail, p = base_layout f ++ tail /\ trailing f tail
  | Err _ => True
  | Panic _ => False
  end.
Proof.
  unfold decode_binary_pairing_frame. munfold. destruct (Z.ltb_spec (len p) 4) as [|Hl]; [done|].
  pose proof (field_cases p [] p 4 eq_refl Hl ltac:(done)) as F1. change (len (@nil byte)) with 0 in F1.
  destruct (read_field p 0 4) as [[ct c1]| |]; try done. destruct F1 as (r1 & R1 & -> & P1 & L1).
  pose proof (field_cases p _ r1 4 P1 L1 ltac:(done)) as F2.
  destruct (read_field p _ 4) as [[pk c2]| |]; try done. destruct F2 as (r2 & R2 & -> & P2 & L2).
  pose proof (field_cases p _ r2 4 P2 L2 ltac:(done)) as F3.
  destruct (read_field p _ 4) as [[x c3]| |]; try done. destruct F3 as (r3 & R3 & -> & P3 & L3).
  pose proof (field_cases p _ r3 0 P3 L3 ltac:(done)) as F4.
  destruct (read_field p _ 0) as [[ch c4]| |]; try done. destruct F4 as (r4 & R4 & -> & P4 & _).
  unfold from_utf8. destruct (utf8_valid ch); [|done].
  pose proof (optional_cases p _ r4 P4) as F5. destruct (read_optional p _) as [[n c5]| |]; try done.
  destruct F5 as [(Hn & -> & ->)|(r5 & R5 & -> & P5)].
  - pose proof (optional_cases p _ r4 P4) as F6. destruct (read_optional p _) as [[sas c6]| |]; try done.
    exists r4. split; [unfold base_layout; cbn; rewrite R1, R2, R3, R4, <- !app_assoc; done|].
    destruct F6 as [(_ & -> & _)|(r6 & R6 & _)]; [by left|]. pose proof (four_in_field sas r6). rewrite <- R6 in *. lia.
  - pose proof (optional_cases p _ r5 P5) as F6. destruct (read_optional p _) as [[sas c6]| |]; try done.
    exists r4. split; [unfold base_layout; cbn; rewrite R1, R2, R3, R4, <- !app_assoc; done|].
    right. exists r5. cbn. split; [done|]. destruct F6 as [(? & -> & _)|(r6 & R6 & _)]; [by left|right; eauto].
Qed.

Definition small_frame : PairingFrame := {|
  pf_ciphertext := [x01]; pf_client_pk := [x02]; pf_client_x25519_pk := [x03]; pf_cert_hash := bstr "ab";
  pf_nonce_hex := bstr "cd"; pf_sas_hex := bstr "SAS" |}.

Lemma pairing_frame_roundtrip_witness :
  decode_binary_pairing_frame (base_layout small_frame ++ field (bstr "cd") ++ field (bstr "SAS")) = Ok small_frame.
Proof.
  apply (pairing_frame_roundtrip small_frame (field (bstr "cd") ++ field (bstr "SAS"))).
  - by split; [repeat constructor|].
  - right. exists (field (bstr "SAS")). split; [done|]. right. exists []. by rewrite app_nil_r.
Defined.
