(* ===== verification/PairingState.v ===== *)
(** * PairingState: the desktop's pairing state and phase machine
    (desktop-app/src-tauri/src/state/services/pairing.rs, state/types.rs,
    state/mod.rs, quic_app's certificate allowlist)

    Each method is one critical section under the service's mutex, so a
    function of the state.  [AppState] gathers the services and the
    process-global registries a pairing touches. *)

From Stdlib.Strings Require Import Ascii.
From S2P Require Import Prelude Error Primitives Kem Json RatchetState Registry SessionHandle KemHandle RatchetStore PairingPolicy.

Inductive PairingPhase := Idle | PendingKem | SasPending | Confirmed | TimedOut | Failed.
#[export] Instance PairingPhase_eq_dec : EqDecision PairingPhase. Proof. solve_decision. Defined.

Record PairingState := {
  phase : PairingPhase;
  sas_code : string;
  pending_session_key : string;
  pending_shared_secret : string;
  initiator_pk : string;
  initiator_x25519_pk : string;
  attempt_count : Z;
  pending_client_cert_hash : string;
  pending_pairing_nonce : string;
  paired_client_cert_hash : string;
  paired_peer_ip : string;
  attempt_generation : Z;
  peer_by_cert_hash : gmap string string
}.
Definition eta_pairing (p : PairingState) : PairingState := {|
  phase := phase p; sas_code := sas_code p; pending_session_key := pending_session_key p;
  pending_shared_secret := pending_shared_secret p; initiator_pk := initiator_pk p;
  initiator_x25519_pk := initiator_x25519_pk p; attempt_count := attempt_count p;
  pending_client_cert_hash := pending_client_cert_hash p; pending_pairing_nonce := pending_pairing_nonce p;
  paired_client_cert_hash := paired_client_cert_hash p; paired_peer_ip := paired_peer_ip p;
  attempt_generation := attempt_generation p; peer_by_cert_hash := peer_by_cert_hash p |}.
#[export] Instance upd_phase : Update phase. Proof. solve_update eta_pairing phase. Defined.
#[export] Instance upd_sas_code : Update sas_code. Proof. solve_update eta_pairing sas_code. Defined.
#[export] Instance upd_pending_session_key : Update pending_session_key. Proof. solve_update eta_pairing pending_session_key. Defined.
#[export] Instance upd_pending_shared_secret : Update pending_shared_secret. Proof. solve_update eta_pairing pending_shared_secret. Defined.
#[export] Instance upd_initiator_pk : Update initiator_pk. Proof. solve_update eta_pairing initiator_pk. Defined.
#[export] Instance upd_initiator_x25519_pk : Update initiator_x25519_pk. Proof. solve_update eta_pairing initiator_x25519_pk. Defined.
#[export] Instance upd_attempt_count : Update attempt_count. Proof. solve_update eta_pairing attempt_count. Defined.
#[export] Instance upd_pending_cert : Update pending_client_cert_hash. Proof. solve_update eta_pairing pending_client_cert_hash. Defined.
#[export] Instance upd_pending_nonce : Update pending_pairing_nonce. Proof. solve_update eta_pairing pending_pairing_nonce. Defined.
#[export] Instance upd_paired_cert : Update paired_client_cert_hash. Proof. solve_update eta_pairing paired_client_cert_hash. Defined.
#[export] Instance upd_paired_ip : Update paired_peer_ip. Proof. solve_update eta_pairing paired_peer_ip. Defined.
#[export] Instance upd_attempt_generation : Update attempt_generation. Proof. solve_update eta_pairing attempt_generation. Defined.
#[export] Instance upd_peer_by_cert : Update peer_by_cert_hash. Proof. solve_update eta_pairing peer_by_cert_hash. Defined.

(** [PairingState::default()]. *)
Definition default_pairing : PairingState := {|
  phase := Idle; sas_code := ""; pending_session_key := ""; pending_shared_secret := ""; initiator_pk := "";
  initiator_x25519_pk := ""; attempt_count := 0; pending_client_cert_hash := ""; pending_pairing_nonce := "";
  paired_client_cert_hash := ""; paired_peer_ip := ""; attempt_generation := 0; peer_by_cert_hash := ∅ |}.

Definition is_empty (s : string) : bool := bool_decide (s = "").

(** ** Transitions *)

Definition begin_pairing_attempt (p : PairingState) : PairingState :=
  p <| phase := PendingKem |>
    <| attempt_generation ::= fun g => wrap64 (g + 1) |>
    <| sas_code := "" |> <| pending_session_key := "" |> <| pending_shared_secret := "" |>
    <| initiator_pk := "" |> <| initiator_x25519_pk := "" |> <| attempt_count := 0 |>
    <| pending_client_cert_hash := "" |>.

Definition promote_to_sas_pending (p : PairingState) : PairingState :=
  if decide (phase p = PendingKem) then p <| phase := SasPending |> else p.

Definition confirm_pairing (p : PairingState) : PairingState :=
  p <| phase := Confirmed |> <| sas_code := "" |> <| pending_session_key := "" |>
    <| pending_shared_secret := "" |> <| attempt_count := 0 |> <| pending_client_cert_hash := "" |>.

Definition timeout_pairing (p : PairingState) : PairingState :=
  if decide (phase p = SasPending)
  then p <| phase := TimedOut |> <| sas_code := "" |> <| pending_session_key := "" |>
         <| pending_shared_secret := "" |> <| pending_client_cert_hash := "" |>
  else p.

Definition fail_pairing (p : PairingState) : PairingState :=
  p <| phase := Failed |> <| sas_code := "" |> <| pending_session_key := "" |>
    <| pending_shared_secret := "" |> <| pending_client_cert_hash := "" |>.

Definition clear_all_pairing (p : PairingState) : PairingState :=
  p <| phase := Idle |> <| sas_code := "" |> <| pending_session_key := "" |> <| pending_shared_secret := "" |>
    <| initiator_pk := "" |> <| attempt_count := 0 |> <| pending_client_cert_hash := "" |>
    <| paired_client_cert_hash := "" |> <| paired_peer_ip := "" |> <| pending_pairing_nonce := "" |>
    <| peer_by_cert_hash := ∅ |>.

Definition is_pairing_pending (p : PairingState) : bool :=
  negb (is_empty (sas_code p)) && negb (is_empty (pending_session_key p)).

(** The nonce is single use. *)
Definition consume_pairing_nonce (p : PairingState) : PairingState := p <| pending_pairing_nonce := "" |>.

Definition is_authorized_peer_cert (cert_hash : string) (p : PairingState) : bool :=
  if is_empty cert_hash then false
  else bool_decide (paired_client_cert_hash p = cert_hash) || is_some (peer_by_cert_hash p !! cert_hash).

Definition register_peer_cert_mapping (peer_id cert_hash : string) (p : PairingState) : PairingState :=
  if is_empty peer_id || is_empty cert_hash then p
  else p <| peer_by_cert_hash ::= <[cert_hash := peer_id]> |>.

Definition remove_peer_cert_mapping (cert_hash : string) (p : PairingState) : PairingState :=
  if is_empty cert_hash then p else p <| peer_by_cert_hash ::= delete cert_hash |>.

Definition resolve_peer_for_cert_hash (cert_hash : string) (p : PairingState) : string :=
  if is_empty cert_hash then initiator_pk p else default (initiator_pk p) (peer_by_cert_hash p !! cert_hash).

Definition Identity : Type := string * string * string * gmap string string.
Definition identity_snapshot (p : PairingState) : Identity :=
  (paired_client_cert_hash p, initiator_pk p, initiator_x25519_pk p, peer_by_cert_hash p).

Definition restore_identity (i : Identity) (p : PairingState) : PairingState :=
  let '(cert, pk, xpk, m) := i in
  let p := if is_empty cert then p else p <| paired_client_cert_hash := cert |> in
  let p := if is_empty pk then p else p <| initiator_pk := pk |> in
  let p := if is_empty xpk then p else p <| initiator_x25519_pk := xpk |> in
  p <| peer_by_cert_hash := m |>.

(** ** The application state *)

(** The settings a pairing reads and writes; the others are left as they are. *)
Record AppSettings := {
  is_paired : bool;
  paired_device_name : option string;
  paired_device_picture : option string;
  set_identity : Identity
}.
Definition eta_settings (s : AppSettings) : AppSettings := {|
  is_paired := is_paired s; paired_device_name := paired_device_name s;
  paired_device_picture := paired_device_picture s; set_identity := set_identity s |}.
#[export] Instance upd_is_paired : Update is_paired. Proof. solve_update eta_settings is_paired. Defined.
#[export] Instance upd_device_name : Update paired_device_name. Proof. solve_update eta_settings paired_device_name. Defined.
#[export] Instance upd_device_picture : Update paired_device_picture. Proof. solve_update eta_settings paired_device_picture. Defined.
#[export] Instance upd_identity : Update set_identity. Proof. solve_update eta_settings set_identity. Defined.
Definition default_settings : AppSettings :=
  {| is_paired := false; paired_device_name := None; paired_device_picture := None; set_identity := ("", "", "", ∅) |}.

Record ConnectionState := { status : string; method : string; color : string }.

Record AppState := {
  pairing : PairingState;
  settings : AppSettings;
  (** What the settings file holds (the last text handed to the writer). *)
  saved_settings : AppSettings;
  keypair : option HybridKeyPair;
  session_key : string;
  connection : ConnectionState;
  tor_running : bool;
  is_session_key_authenticated : bool;
  desktop_session_key_handle : Z;
  limiter : RateLimiter;
  ratchets : Registry;
  session_keys : SessionRegistry;
  kem_registry : KemHandles;
  pairing_keypair : option HybridKeyPair;
  pinned_client_cert : option string;
  allowed_client_certs : gset string;
  host : Host;
  (** The generations of the attempts whose timeout task has not fired. *)
  timers : list Z
}.
Definition eta_app (a : AppState) : AppState := {|
  pairing := pairing a; settings := settings a; saved_settings := saved_settings a; keypair := keypair a;
  session_key := session_key a; connection := connection a; tor_running := tor_running a;
  is_session_key_authenticated := is_session_key_authenticated a;
  desktop_session_key_handle := desktop_session_key_handle a; limiter := limiter a; ratchets := ratchets a;
  session_keys := session_keys a; kem_registry := kem_registry a; pairing_keypair := pairing_keypair a;
  pinned_client_cert := pinned_client_cert a; allowed_client_certs := allowed_client_certs a; host := host a;
  timers := timers a |}.
#[export] Instance upd_pairing : Update pairing. Proof. solve_update eta_app pairing. Defined.
#[export] Instance upd_settings : Update settings. Proof. solve_update eta_app settings. Defined.
#[export] Instance upd_saved_settings : Update saved_settings. Proof. solve_update eta_app saved_settings. Defined.
#[export] Instance upd_keypair : Update keypair. Proof. solve_update eta_app keypair. Defined.
#[export] Instance upd_session_key : Update session_key. Proof. solve_update eta_app session_key. Defined.
#[export] Instance upd_connection : Update connection. Proof. solve_update eta_app connection. Defined.
#[export] Instance upd_tor : Update tor_running. Proof. solve_update eta_app tor_running. Defined.
#[export] Instance upd_authenticated : Update is_session_key_authenticated. Proof. solve_update eta_app is_session_key_authenticated. Defined.
#[export] Instance upd_desktop_handle : Update desktop_session_key_handle. Proof. solve_update eta_app desktop_session_key_handle. Defined.
#[export] Instance upd_limiter : Update limiter. Proof. solve_update eta_app limiter. Defined.
#[export] Instance upd_ratchets : Update ratchets. Proof. solve_update eta_app ratchets. Defined.
#[export] Instance upd_session_keys : Update session_keys. Proof. solve_update eta_app session_keys. Defined.
#[export] Instance upd_kem_registry : Update kem_registry. Proof. solve_update eta_app kem_registry. Defined.
#[export] Instance upd_pairing_keypair : Update pairing_keypair. Proof. solve_update eta_app pairing_keypair. Defined.
#[export] Instance upd_pinned_cert : Update pinned_client_cert. Proof. solve_update eta_app pinned_client_cert. Defined.
#[export] Instance upd_allowed_certs : Update allowed_client_certs. Proof. solve_update eta_app allowed_client_certs. Defined.
#[export] Instance upd_host : Update host. Proof. solve_update eta_app host. Defined.
#[export] Instance upd_timers : Update timers. Proof. solve_update eta_app timers. Defined.

Definition save_settings (a : AppState) : AppState := a <| saved_settings := settings a |>.
Definition set_connection (st me co : string) (a : AppState) : AppState :=
  a <| connection := {| status := st; method := me; color := co |} |>.
Definition stop_tor (a : AppState) : AppState := a <| tor_running := false |>.

Definition persist_pairing_identity (a : AppState) : AppState :=
  save_settings (a <| settings ::= fun s => s <| set_identity := identity_snapshot (pairing a) |> |>).
Definition clear_persisted_pairing_identity (a : AppState) : AppState :=
  a <| settings ::= fun s => s <| set_identity := ("", "", "", ∅) |> |>.

Section Certs.
Context `{X : Hex}.

Definition valid_cert_hash (hash : string) : bool :=
  negb (is_empty hash || negb (String.length hash =? 64)%nat || negb (is_some (hex_decode hash))).

Definition register_allowed_client_cert (hash : string) (a : AppState) : AppState :=
  if valid_cert_hash hash then a <| allowed_client_certs ::= union {[hash]} |> else a.

Definition set_pinned_client_cert (hash : string) (a : AppState) : AppState :=
  if valid_cert_hash hash
  then register_allowed_client_cert hash (a <| pinned_client_cert := Some hash |>)
  else a.

(** At startup, from the settings loaded. *)
Definition restore_pairing_identity (a : AppState) : AppState :=
  let '(cert, pk, xpk, m) := set_identity (settings a) in
  if is_empty cert then a
  else
    let a := a <| pairing ::= restore_identity (cert, pk, xpk, m) |> in
    let a := foldl (fun a '(c, pid) => a <| pairing ::= register_peer_cert_mapping pid c |>) a (map_to_list m) in
    let a := set_pinned_client_cert cert a in
    let a := register_allowed_client_cert cert a in
    foldl (fun a c => register_allowed_client_cert c a) a (map_to_list m).*1.

End Certs.

(** ** Destruction (core-crypto/src/destruct.rs) *)

(** [zeroize_process_key_registry]: every ratchet session, session key, keypair
    and KEM secret the process holds. *)
Definition zeroize_process_key_registry (a : AppState) : AppState :=
  a <| pairing_keypair := None |>
    <| ratchets ::= ratchet_clear_all_sessions_impl |>
    <| session_keys ::= session_key_destroy_all |>
    <| kem_registry ::= fun k => destroy_all_kem_handles_impl (destroy_all_pq_keypair_handles_impl k) |>.

Definition clear_pq_pairing_registry (a : AppState) : AppState :=
  (zeroize_process_key_registry a)
    <| kem_registry ::= fun k => destroy_all_kem_handles_impl (destroy_all_pq_keypair_handles_impl k) |>.
