(* ===== verification/Pairing.v ===== *)
(** * Pairing: the pairing handler, the SAS confirmation and the unpairing
    (desktop-app/src-tauri/src/handlers/pairing.rs, commands/pairing.rs,
    handlers/unpair.rs)

    The handler suspends once, while the key decapsulation runs on the blocking
    pool: it is two steps, [pairing_begin] up to that point and
    [pairing_finish] after it, so that what happens in between can be
    interleaved.  The timeout task of an attempt is a step of its own.  The
    body's JSON form (serde's derived parser) is a parameter.  Logs and window
    events are left out. *)

From Stdlib.Strings Require Import Ascii.
From S2P Require Import Prelude Error Primitives Aead Kem Json Sas RatchetState Registry SessionHandle KemHandle CryptoApi.
From S2P Require Import RatchetStore PairingPolicy PairingWire PairingState.

(** The JSON request; a missing field is empty. *)
Record PairingRequest := {
  ciphertext_hex : string;
  client_pk_hex : string;
  client_x25519_pk_hex : string;
  client_cert_hash_hex : string;
  cert_hash_hex_alias : string;
  req_ciphertext_bytes : bytes;
  client_pk_bytes : bytes;
  client_x25519_pk_bytes : bytes;
  pairing_nonce_hex : string;
  req_sas_hex : string
}.

Inductive Response := RespError (reason : string) | RespPendingSas.

(** The fields both body formats end up with. *)
Record Parsed := {
  ciphertext : bytes;
  client_pk : bytes;
  client_x25519_pk : bytes;
  claimed_cert_hash : string;
  supplied_nonce : string;
  supplied_sas_hex : string
}.

(** An attempt whose decapsulation is running. *)
Record InFlight := {
  fl_parsed : Parsed;
  fl_cert_hash : string;
  fl_keypair : option HybridKeyPair;
  fl_generation : Z
}.

Definition text (b : bytes) : string := String.string_of_list_byte b.

(** Byte-wise comparison without an early exit. *)
Definition constant_time_str_eq (a b : string) : bool :=
  let ab := bstr a in
  let bb := bstr b in
  if negb (length ab =? length bb)%nat then false
  else fold_left (fun acc '(x, y) => Z.lor acc (Z.lxor (Z_of_byte x) (Z_of_byte y))) (zip ab bb) 0 =? 0.

Definition on_pairing (f : PairingState -> PairingState) (a : AppState) : AppState := a <| pairing ::= f |>.
Definition refuse (reason : string) (a : AppState) : Response * AppState :=
  (RespError reason, on_pairing fail_pairing a).

(** A command of the desktop's interface: its error is a message. *)
Abbreviation command := (Comp string AppState).

Section Pairing.
Context `{P : Primitives} `{J : SnapshotCodec} `{T : JsonText} `{X : Hex}.
Context (parse_request : bytes -> option PairingRequest).

(** ** The handler *)

Definition is_binary_body (body : bytes) : bool :=
  (3 <? len body) && bool_decide (take 3 body = [x4b; x50; x00]).

(** Bytes when given, else the decoded hexadecimal, else nothing. *)
Definition bytes_or_hex (b : bytes) (h : string) : bytes :=
  match b with [] => default [] (hex_decode h) | _ => b end.

Definition parse_body (body : bytes) : result string Parsed :=
  if is_binary_body body then
    match decode_binary_pairing_frame (drop 3 body) with
    | Ok f => Ok {| ciphertext := pf_ciphertext f; client_pk := pf_client_pk f;
                    client_x25519_pk := pf_client_x25519_pk f; claimed_cert_hash := text (pf_cert_hash f);
                    supplied_nonce := text (pf_nonce_hex f); supplied_sas_hex := text (pf_sas_hex f) |}
    | Err _ => Err "Invalid binary frame payload"
    | Panic m => Panic m
    end
  else
    match parse_request body with
    | None => Err "Invalid JSON"
    | Some r => Ok {|
        ciphertext := bytes_or_hex (req_ciphertext_bytes r) (ciphertext_hex r);
        client_pk := bytes_or_hex (client_pk_bytes r) (client_pk_hex r);
        client_x25519_pk := bytes_or_hex (client_x25519_pk_bytes r) (client_x25519_pk_hex r);
        claimed_cert_hash := if is_empty (cert_hash_hex_alias r) then client_cert_hash_hex r else cert_hash_hex_alias r;
        supplied_nonce := pairing_nonce_hex r;
        supplied_sas_hex := req_sas_hex r |}
    end.

(** The work on the blocking pool: session key, shared secret (both in
    hexadecimal) and SAS code, empty when there is none. *)
Definition kem_outcome (pair : option HybridKeyPair) (p : Parsed) : option (string * string * string) :=
  kp ← pair;
  match decapsulate_pq_secret (ciphertext p) (x25519_sk kp) (mlkem_sk kp) with
  | Ok ss =>
      match derive_session_key_raw ss session_derivation_salt with
      | Ok sk =>
          let sas := match client_pk p with
                     | [] => ""
                     | _ => match generate_sas_code (mlkem_pk kp) (client_pk p) ss with Ok c => text c | _ => "" end
                     end in
          Some (hex_encode sk, hex_encode ss, sas)
      | _ => None
      end
  | _ => None
  end.

(** Up to the suspension: an answer, or an attempt in flight. *)
Definition pairing_begin (now : Z) (body : bytes) (peer_ip : option string) (peer_cert_hash : string) (a : AppState)
  : (Response + InFlight) * AppState :=
  let answer (r : Response * AppState) : (Response + InFlight) * AppState := (inl (fst r), snd r) in
  if is_empty peer_cert_hash then answer (refuse "Client certificate required for pairing" a)
  else
    let '(allowed, lim) := check_pairing_rate_limit now peer_ip (limiter a) in
    let a := a <| limiter := lim |> in
    if negb allowed then answer (RespError "Rate limited", a)
    else if is_paired (settings a) then answer (refuse "Already paired" a)
    else if bool_decide (phase (pairing a) ∈ [PendingKem; SasPending; Confirmed])
    then answer (refuse "Pairing already in progress" a)
    else if is_pairing_pending (pairing a) then answer (refuse "Pairing already in progress" a)
    else
      let a := on_pairing begin_pairing_attempt a in
      let generation := attempt_generation (pairing a) in
      let a := a <| timers ::= cons generation |> in
      let a := on_pairing (fun p => p <| pending_client_cert_hash := peer_cert_hash |>) a in
      let a := match peer_ip with Some ip => on_pairing (fun p => p <| paired_peer_ip := ip |>) a | None => a end in
      let expected := pending_pairing_nonce (pairing a) in
      if is_empty expected then answer (refuse "No pairing nonce issued" a)
      else
        match parse_body body with
        | Err reason => answer (refuse reason a)
        | Panic m => answer (refuse m a)
        | Ok p =>
            if is_empty (supplied_nonce p) || negb (bool_decide (supplied_nonce p = expected))
            then answer (refuse "Pairing nonce mismatch" a)
            else match ciphertext p with
                 | [] => answer (refuse "Decapsulation failed" a)
                 | _ => (inr {| fl_parsed := p; fl_cert_hash := peer_cert_hash; fl_keypair := keypair a;
                                fl_generation := generation |}, a)
                 end
        end.

(** After the suspension. *)
Definition pairing_finish (f : InFlight) (a : AppState) : Response * AppState :=
  let p := fl_parsed f in
  match kem_outcome (fl_keypair f) p with
  | None => refuse "Decapsulation failed" a
  | Some (sk_hex, ss_hex, sas) =>
      let a := on_pairing (fun q => q <| pending_session_key := sk_hex |> <| pending_shared_secret := ss_hex |>) a in
      let with_pk := negb (len (client_pk p) =? 0) in
      if with_pk && negb (is_empty sas)
         && (is_empty (supplied_sas_hex p) || negb (bool_decide (supplied_sas_hex p = sas)))
      then refuse "SAS echo mismatch" a
      else if negb (is_empty (claimed_cert_hash p)) && negb (is_empty (fl_cert_hash f))
              && negb (bool_decide (claimed_cert_hash p = fl_cert_hash f))
      then refuse "Certificate hash mismatch" a
      else
        let a := if with_pk then on_pairing (fun q => q <| initiator_pk := hex_encode (client_pk p) |>) a else a in
        let a := if negb (len (client_x25519_pk p) =? 0)
                 then on_pairing (fun q => q <| initiator_x25519_pk := hex_encode (client_x25519_pk p) |>) a else a in
        if with_pk && negb (is_empty sas) then
          let a := on_pairing (fun q => consume_pairing_nonce (promote_to_sas_pending (q <| sas_code := sas |>))) a in
          (RespPendingSas, set_connection "PAIRING_PENDING_SAS" "QUIC mTLS" "yellow" a)
        else refuse "Decapsulation failed" a
  end.

(** The handler when nothing interleaves. *)
Definition handle_pairing (now : Z) (body : bytes) (peer_ip : option string) (peer_cert_hash : string) (a : AppState)
  : Response * AppState :=
  match pairing_begin now body peer_ip peer_cert_hash a with
  | (inl r, a) => (r, a)
  | (inr f, a) => pairing_finish f a
  end.

(** The task of the attempt of generation [g], 180 seconds after its start. *)
Definition timeout_task (g : Z) (a : AppState) : AppState :=
  if (attempt_generation (pairing a) =? g) && bool_decide (phase (pairing a) = SasPending)
  then let a := on_pairing timeout_pairing a in
       a <| is_session_key_authenticated := false |>
         <| connection ::= fun c => {| status := "DISCONNECTED"; method := method c; color := "red" |} |>
  else a.

(** [get_pairing_config], its nonce part ([nonce] is what the generator drew). *)
Definition issue_fresh_nonce (nonce : bytes) (a : AppState) : AppState :=
  on_pairing (fun p => p <| pending_pairing_nonce := hex_encode nonce |>) a.

(** [generate_keypair] of the commands. *)
Definition generate_keypair (ok : bool) (coins : KemCoins) (a : AppState) : AppState :=
  let pair := generate_hybrid_keypair coins in
  a <| keypair := Some pair |> <| host ::= store_pairing_keypair_to_keyring ok pair |>.

(** ** The confirmation *)

(** Run a registry's operation inside a command; its error becomes [msg]. *)
Definition on_ratchets {A} (msg : string) (c : registry A) : command A :=
  fun a => match c (ratchets a) with
           | (Ok x, r) => (Ok x, a <| ratchets := r |>)
           | (Err _, r) => (Err msg, a <| ratchets := r |>)
           | (Panic m, r) => (Panic m, a <| ratchets := r |>)
           end.
Definition on_session_keys {A} (msg : string) (c : handles A) : command A :=
  fun a => match c (session_keys a) with
           | (Ok x, r) => (Ok x, a <| session_keys := r |>)
           | (Err _, r) => (Err msg, a <| session_keys := r |>)
           | (Panic m, r) => (Panic m, a <| session_keys := r |>)
           end.

Definition if_nonempty (b : bytes) : option bytes := match b with [] => None | _ => Some b end.

(** The ratchet session of the confirmed peer, from its pending secret. *)
Definition start_session (coins : KemCoins) (peer_id ss_hex : string) : command unit :=
  match hex_decode ss_hex with
  | None => mret tt
  | Some ss =>
      a ← get;
      let peer_mlkem := default [] (hex_decode (initiator_pk (pairing a))) in
      let peer_x25519 := default [] (hex_decode (initiator_x25519_pk (pairing a))) in
      match keypair a with
      | None => throw "No local pairing keypair registered — cannot initialize the ratchet session. Generate a pairing keypair first, then re-pair."
      | Some kp =>
          _ ← modify (fun a => a <| ratchets ::= fun r => snd (ratchet_remove_session_impl peer_id r) |>);
          on_ratchets "Failed to initialize ratchet session for peer {peer_id}: {e} — re-pair required"
            (ratchet_init_session_with_keypair_impl peer_id ss true
               (Some (x25519_pk kp, x25519_sk kp, mlkem_pk kp, mlkem_sk kp)) coins
               (if_nonempty peer_x25519) (if_nonempty peer_mlkem))
      end
  end.

(** The session key's handle, pinned. *)
Definition open_session_key (pending_key : string) : command unit :=
  match default [] (hex_decode pending_key) with
  | [] => mret tt
  | sk =>
      h ← on_session_keys "Failed to create session key handle: {e} — re-pair required" (session_key_create sk);
      _ ← lift (guard_err (h =? 0) "Session key handle creation returned the reserved handle 0 — re-pair required");
      modify (fun a => a <| session_keys ::= fun r => snd (session_key_pin h r) |> <| desktop_session_key_handle := h |>)
  end.

(** The peer's certificate becomes the trusted one. *)
Definition promote_identity (a : AppState) : AppState :=
  let cert := pending_client_cert_hash (pairing a) in
  if is_empty cert then a
  else
    let a := on_pairing (fun p => p <| paired_client_cert_hash := cert |>) a in
    let peer_id := initiator_pk (pairing a) in
    let a := if is_empty peer_id then a else on_pairing (register_peer_cert_mapping peer_id cert) a in
    let a := persist_pairing_identity a in
    register_allowed_client_cert cert (set_pinned_client_cert cert a).

Definition perform_sas_confirmation (coins : KemCoins) (keyring_ok : bool) (verified_sas paired_name : string)
  : command string :=
  count ← gets (fun a => attempt_count (pairing a));
  if 3 <=? count then
    _ ← modify (on_pairing clear_all_pairing); throw "Too many SAS attempts. Re-initiate pairing."
  else
    _ ← modify (on_pairing (fun p => p <| attempt_count ::= fun n => wrap32 (n + 1) |>));
    '(stored_sas, pending_key) ← gets (fun a => (sas_code (pairing a), pending_session_key (pairing a)));
    _ ← lift (guard_err (is_empty stored_sas) "No pending pairing SAS code found. Initiate pairing first.");
    _ ← lift (guard_err (negb (constant_time_str_eq stored_sas verified_sas)) "SAS code mismatch. Pairing rejected.");
    _ ← lift (guard_err (is_empty pending_key) "No pending session key. Initiate pairing first.");
    _ ← modify (on_pairing (fun p => p <| pending_session_key := "" |>));
    _ ← modify (fun a => a <| session_key := pending_key |>
                           <| host ::= store_session_key_to_keyring keyring_ok pending_key |>);
    ss_hex ← gets (fun a => pending_shared_secret (pairing a));
    _ ← (if is_empty ss_hex then mret tt
         else
           peer_id ← gets (fun a => initiator_pk (pairing a));
           _ ← (if is_empty peer_id then mret tt else start_session coins peer_id ss_hex);
           open_session_key pending_key);
    _ ← modify promote_identity;
    _ ← modify (on_pairing confirm_pairing);
    _ ← modify (fun a => a <| settings ::= fun s => s <| is_paired := true |> <| paired_device_name := Some paired_name |> |>);
    _ ← modify save_settings;
    _ ← modify (fun a => set_connection "ACTIVE" "QUIC mTLS" "green" (a <| is_session_key_authenticated := true |>));
    _ ← modify (on_pairing (fun p => p <| attempt_count := 0 |>));
    mret "Paired successfully".

(** ** Unpairing *)

Definition peer_is_authorized (cert ip : string) (a : AppState) : bool :=
  if is_authorized_peer_cert cert (pairing a) then true
  else let paired_ip := paired_peer_ip (pairing a) in
       if is_empty paired_ip then false else bool_decide (ip = paired_ip).

(** The outcomes of the deletions of one unpairing. *)
Record UnpairIo := {
  up_persist : PersistIo;
  up_read : bool;
  up_entries : string * string -> bool;
  up_files : string -> bool
}.

Definition unpair_primary (io : UnpairIo) (a : AppState) : AppState :=
  let a := clear_pq_pairing_registry a in
  let handle := desktop_session_key_handle a in
  let a := a <| desktop_session_key_handle := 0 |> in
  let a := if handle =? 0 then a else a <| session_keys ::= session_key_destroy handle |> in
  let a := stop_tor (a <| is_session_key_authenticated := false |>) in
  let a := on_pairing clear_all_pairing (a <| session_key := "" |>) in
  let a := a <| settings ::= fun s => s <| is_paired := false |> <| paired_device_name := None |>
                                          <| paired_device_picture := None |> |> in
  let a := clear_persisted_pairing_identity a in
  a <| host ::= fun h =>
         clear_ratchet_store (up_files io) (up_entries io (entry KEYRING_RATCHET_WATERMARK))
           (delete_password (up_entries io ("kyberpipe-tofu", "server_cert_hash")) ("kyberpipe-tofu", "server_cert_hash")
             (wipe_keyring_entries (up_entries io) (up_files io "device_mldsa_sk.bin") h)) |>.

Definition handle_unpair (io : UnpairIo) (cert ip : string) (a : AppState) : AppState :=
  if negb (peer_is_authorized cert ip a) then a
  else
    let peer_id := resolve_peer_for_cert_hash cert (pairing a) in
    let is_primary := negb (is_empty peer_id) && bool_decide (peer_id = initiator_pk (pairing a)) in
    let has_session := negb (is_empty (session_key a)) || negb (is_empty peer_id) in
    if negb has_session then a
    else
      let a := if is_empty peer_id then a
               else a <| ratchets ::= fun r => snd (ratchet_remove_session_impl peer_id r) |>
                      <| host ::= remove_ratchet_session_for_peer (up_persist io) (up_read io) peer_id |> in
      let a := on_pairing (remove_peer_cert_mapping cert) a in
      let a := if is_primary then unpair_primary io a else a in
      set_connection "DISCONNECTED" "None" "red" (save_settings a).

End Pairing.
