(* ===== verification/PairingProps.v ===== *)
(** * PairingProps: what the confirmation of a pairing accepts, and what an
    unpairing forgets

    The comparison of the codes is equality; a pending code can be guessed three
    times, and what refused guesses change is exactly the counter or, from the
    fourth on, the pairing in memory; unpairing forgets the device. *)

From Stdlib.Strings Require Import Ascii.
From S2P Require Import Prelude Error Primitives Aead Kem Json Sas RatchetState Registry SessionHandle KemHandle.
From S2P Require Import RatchetStore PairingPolicy PairingWire PairingState Pairing.

(** ** The comparison of the codes *)

Lemma Z_of_byte_lxor x y : 0 <= Z.lxor (Z_of_byte x) (Z_of_byte y) /\ (Z.lxor (Z_of_byte x) (Z_of_byte y) = 0 <-> x = y).
Proof.
  split; [apply Z.lxor_nonneg; pose proof (Z_of_byte_range x); pose proof (Z_of_byte_range y); lia|].
  rewrite Z.lxor_eq_0_iff. split; [apply Z_of_byte_inj|by intros ->].
Qed.

Lemma fold_lor_zero (l : list (byte * byte)) acc :
  0 <= acc ->
  fold_left (fun acc '(x, y) => Z.lor acc (Z.lxor (Z_of_byte x) (Z_of_byte y))) l acc = 0
  <-> acc = 0 /\ Forall (fun p => fst p = snd p) l.
Proof.
  revert acc. induction l as [|[x y] l IH]; intros acc Hacc; cbn [fold_left]; [by intuition|].
  destruct (Z_of_byte_lxor x y) as [Hn Hz]. rewrite IH by (apply Z.lor_nonneg; lia).
  rewrite Z.lor_eq_0_iff, Hz, Forall_cons. cbn. tauto.
Qed.

Lemma zip_diag_eq (l k : bytes) :
  length l = length k -> Forall (fun p => fst p = snd p) (zip l k) -> l = k.
Proof.
  revert k. induction l as [|x l IH]; intros [|y k] Hl; try done. cbn. rewrite Forall_cons. cbn. intros [-> H].
  f_equal. apply IH; [by injection Hl|done].
Qed.

Lemma zip_refl_diag (l : bytes) : Forall (fun p => fst p = snd p) (zip l l).
Proof. induction l; cbn; by constructor. Qed.

Lemma str_eq_spec a b : constant_time_str_eq a b = bool_decide (a = b).
Proof.
  unfold constant_time_str_eq. case_bool_decide as H.
  - subst. rewrite Nat.eqb_refl. cbn. apply Z.eqb_eq, fold_lor_zero; [lia|]. split; [done|apply zip_refl_diag].
  - destruct (Nat.eqb_spec (length (bstr a)) (length (bstr b))) as [Hl|]; [|done]. cbn.
    apply Z.eqb_neq. rewrite fold_lor_zero by lia. intros [_ Hd]. by apply H, bstr_inj, zip_diag_eq.
Qed.

Section Confirmation.
Context `{P : Primitives} `{J : SnapshotCodec} `{T : JsonText} `{X : Hex}.

(** ** Three guesses *)

(** The confirmations of a list of entered codes, one after the other. *)
Fixpoint run_guesses (coins : KemCoins) (ok : bool) (name : string) (guesses : list string) (a : AppState)
  : list (result string string) * AppState :=
  match guesses with
  | [] => ([], a)
  | g :: guesses' =>
      let '(r, a) := perform_sas_confirmation coins ok g name a in
      let '(rs, a) := run_guesses coins ok name guesses' a in
      (r :: rs, a)
  end.

(** A refused code changes nothing but the pairing: one more attempt is counted,
    or everything pending is dropped. *)
Lemma wrong_code coins ok v name a :
  sas_code (pairing a) = "" \/ sas_code (pairing a) <> v ->
  exists e, perform_sas_confirmation coins ok v name a
    = (Err e, if 3 <=? attempt_count (pairing a) then on_pairing clear_all_pairing a
              else on_pairing (fun p => p <| attempt_count ::= fun n => wrap32 (n + 1) |>) a).
Proof.
  intros H. unfold perform_sas_confirmation. munfold. destruct (3 <=? _); [by eexists|]. set (a1 := on_pairing _ a).
  change (sas_code (pairing a1)) with (sas_code (pairing a)).
  rewrite str_eq_spec. unfold is_empty. destruct H as [->|H]; [by eexists|].
  case_bool_decide; [by eexists|]. rewrite bool_decide_eq_false_2 by done. by eexists.
Qed.

(** What refused guesses leave: the desktop as it was but for the counter, or,
    [cleared], with its pairing forgotten. *)
Definition guessed (cleared : bool) (a a' : AppState) : Prop :=
  exists n, a' = on_pairing (fun p => (if cleared then clear_all_pairing p else p) <| attempt_count := n |>) a.

Lemma guessed_refl a : guessed false a a.
Proof. exists (attempt_count (pairing a)). destruct a as [p]. destruct p. reflexivity. Qed.
Lemma on_pairing_twice f g a : on_pairing f (on_pairing g a) = on_pairing (fun p => f (g p)) a.
Proof. reflexivity. Qed.
Lemma on_pairing_ext f g a : (forall p, f p = g p) -> on_pairing f a = on_pairing g a.
Proof. intros H. specialize (H (pairing a)). unfold on_pairing, update, upd_pairing. by rewrite H. Qed.
Lemma guessed_after (g : PairingState -> PairingState) (c c' : bool) a a' :
  (forall (n : Z) (p : PairingState), (if c then clear_all_pairing (g p) else g p) <| attempt_count := n |>
               = (if c' then clear_all_pairing p else p) <| attempt_count := n |>) ->
  guessed c (on_pairing g a) a' -> guessed c' a a'.
Proof. intros H [n ->]. exists n. rewrite on_pairing_twice. apply on_pairing_ext, H. Qed.
Lemma guessed_count f c a a' : guessed c (on_pairing (fun p => p <| attempt_count ::= f |>) a) a' -> guessed c a a'.
Proof. apply guessed_after. intros n p. destruct p, c; reflexivity. Qed.
Lemma guessed_clear c a a' : guessed c (on_pairing clear_all_pairing a) a' -> guessed true a a'.
Proof. apply guessed_after. intros n p. destruct p, c; vm_compute; reflexivity. Qed.

(** Without a code pending every guess is refused. *)
Lemma run_guesses_no_code coins ok name guesses a :
  sas_code (pairing a) = "" ->
  let '(rs, a') := run_guesses coins ok name guesses a in
  Forall (fun r => exists e, r = Err e) rs /\ exists c, guessed c a a'.
Proof.
  revert a. induction guesses as [|g guesses IH]; intros a H; cbn [run_guesses].
  { split; [done|]. exists false. apply guessed_refl. }
  destruct (wrong_code coins ok g name a (or_introl H)) as [e ->].
  destruct (3 <=? _); match goal with |- context [run_guesses _ _ _ _ ?s] => specialize (IH s ltac:(done)) end;
    destruct (run_guesses _ _ _ _ _) as [rs a']; destruct IH as [Hf [c Hc]].
  - split; [constructor; eauto|]. exists true. by eapply guessed_clear.
  - split; [constructor; eauto|]. exists c. by eapply guessed_count.
Qed.

Lemma run_guesses_wrong coins ok name guesses a k :
  attempt_count (pairing a) = Z.of_nat k -> (k <= 3)%nat -> sas_code (pairing a) ∉ take (3 - k) guesses ->
  let '(rs, a') := run_guesses coins ok name guesses a in
  Forall (fun r => exists e, r = Err e) rs /\ guessed (bool_decide (3 < length guesses + k)%nat) a a'.
Proof.
  revert a k. induction guesses as [|g guesses IH]; intros a k Hk Hle H; cbn [run_guesses length].
  { rewrite bool_decide_eq_false_2 by lia. split; [done|]. apply guessed_refl. }
  destruct (decide (k = 3%nat)) as [->|Hne].
  - assert (exists e, perform_sas_confirmation coins ok g name a = (Err e, on_pairing clear_all_pairing a)) as [e ->].
    { unfold perform_sas_confirmation. munfold. rewrite Hk. eauto. }
    pose proof (run_guesses_no_code coins ok name guesses (on_pairing clear_all_pairing a) eq_refl) as Hn.
    destruct (run_guesses _ _ _ _ _) as [rs a']. destruct Hn as [Hf [c Hc]].
    rewrite bool_decide_eq_true_2 by lia. split; [constructor; eauto|]. by eapply guessed_clear.
  - destruct (wrong_code coins ok g name a) as [e ->].
    { right. intros Hg. apply H. rewrite Hg. replace (3 - k)%nat with (S (2 - k)) by lia. by left. }
    rewrite Hk, (proj2 (Z.leb_gt _ _)) by lia.
    match goal with |- context [run_guesses _ _ _ _ ?s] => set (a1 := s) end.
    assert (attempt_count (pairing a1) = Z.of_nat (S k)) as Ha.
    { cbn. rewrite Hk. unfold wrap32. rewrite Z.mod_small; lia. }
    specialize (IH a1 (S k) Ha ltac:(lia)). destruct (run_guesses _ _ _ _ a1) as [rs a'].
    destruct IH as [Hf Hc]; [|split; [constructor; eauto|]].
    + intros Hin. apply H. replace (3 - k)%nat with (S (3 - S k)) by lia. by right.
    + apply guessed_count in Hc. by replace (S (length guesses) + k)%nat with (length guesses + S k)%nat by lia.
Qed.

(** C27: whoever confirms a pairing without its code has three guesses: when the
    code is not among the first three entered, every confirmation of any sequence
    is refused.  Up to three refused guesses change the counter of attempts and
    nothing else; the fourth clears the desktop's pairing in memory - the
    attempt, and the certificate, address and peers of an earlier pairing with
    it - and nothing else: no session, key, allow-list or setting. *)
Theorem three_guesses coins ok name guesses a :
  attempt_count (pairing a) = 0 -> sas_code (pairing a) ∉ take 3 guesses ->
  let '(rs, a') := run_guesses coins ok name guesses a in
  Forall (fun r => exists e, r = Err e) rs
  /\ exists n, a' = on_pairing (fun p => (if bool_decide (3 < length guesses)%nat then clear_all_pairing p else p)
                                         <| attempt_count := n |>) a.
Proof.
  intros H0 H. pose proof (run_guesses_wrong coins ok name guesses a 0 H0 ltac:(lia) H) as Hw.
  rewrite Nat.add_0_r in Hw. exact Hw.
Qed.

(** A confirmation that succeeds had the stored code entered, a session key
    pending and at most two failures before it. *)
Lemma confirmed_had_code coins ok v name a r a' :
  perform_sas_confirmation coins ok v name a = (Ok r, a') ->
  attempt_count (pairing a) < 3 /\ sas_code (pairing a) = v /\ v <> "" /\ pending_session_key (pairing a) <> "".
Proof.
  intros H. destruct (decide (sas_code (pairing a) = "" \/ sas_code (pairing a) <> v)) as [Hw|Hw].
  { destruct (wrong_code coins ok v name a Hw) as [e He]. by rewrite He in H. }
  assert (sas_code (pairing a) = v /\ v <> "") as [Hv Hn] by (destruct (decide (sas_code (pairing a) = v)); naive_solver).
  revert H. unfold perform_sas_confirmation. munfold. destruct (3 <=? _) eqn:Hc; [done|]. apply Z.leb_gt in Hc.
  set (a1 := on_pairing _ a). change (sas_code (pairing a1)) with (sas_code (pairing a)).
  change (pending_session_key (pairing a1)) with (pending_session_key (pairing a)).
  rewrite str_eq_spec, Hv, (bool_decide_eq_true_2 (v = v)) by done. unfold is_empty. rewrite bool_decide_eq_false_2 by done.
  cbn [negb]. case_bool_decide; [done|]. done.
Qed.

(** ** Unpairing *)

Lemma authorized_peer cert ip a :
  peer_is_authorized cert ip a = true ->
  is_authorized_peer_cert cert (pairing a) = true \/ (paired_peer_ip (pairing a) <> "" /\ ip = paired_peer_ip (pairing a)).
Proof.
  unfold peer_is_authorized, is_empty. destruct (is_authorized_peer_cert _ _); [by left|].
  case_bool_decide; [done|]. intros H1%bool_decide_eq_true. by right.
Qed.

(** Unpairing the primary device forgets it: no session, session key or KEM
    secret is left, the settings saved say unpaired and hold no identity, and no
    certificate and no address is authorized any more.  The certificates the TLS
    layer admits and the keypair in memory stay as they were. *)
Theorem unpair_forgets io cert ip a :
  peer_is_authorized cert ip a = true ->
  resolve_peer_for_cert_hash cert (pairing a) = initiator_pk (pairing a) -> initiator_pk (pairing a) <> "" ->
  let a' := handle_unpair io cert ip a in
  sessions (ratchets a') = ∅ /\ keys (session_keys a') = ∅ /\ kem_secrets (kem_registry a') = ∅
  /\ session_key a' = "" /\ is_session_key_authenticated a' = false
  /\ is_paired (settings a') = false /\ set_identity (settings a') = ("", "", "", ∅) /\ saved_settings a' = settings a'
  /\ (forall cert' ip', peer_is_authorized cert' ip' a' = false)
  /\ allowed_client_certs a' = allowed_client_certs a /\ pinned_client_cert a' = pinned_client_cert a
  /\ keypair a' = keypair a.
Proof.
  intros Ha Hr Hi. unfold handle_unpair. rewrite Ha, Hr. unfold is_empty.
  rewrite (bool_decide_eq_false_2 (initiator_pk _ = "")), (bool_decide_eq_true_2 (initiator_pk _ = initiator_pk _)) by done. rewrite orb_true_r. cbn [negb andb].
  unfold unpair_primary, set_connection, save_settings, clear_persisted_pairing_identity.
  match goal with |- context [desktop_session_key_handle ?x =? 0] => destruct (desktop_session_key_handle x =? 0) end;
    unfold remove_peer_cert_mapping; destruct (is_empty cert); cbn -[wipe_keyring_entries clear_ratchet_store];
    (split_and!; try done; try by rewrite delete_empty);
    intros c i; unfold peer_is_authorized, is_authorized_peer_cert, is_empty; cbn -[wipe_keyring_entries clear_ratchet_store];
    (case_bool_decide as Hc; [done|]); rewrite lookup_empty, bool_decide_eq_false_2 by (intros E; by rewrite E in Hc); done.
Qed.

(** Unpairing another device takes its session and its certificate, and leaves
    the sessions, certificates and settings of every other. *)
Theorem unpair_secondary io cert ip a peer :
  peer_is_authorized cert ip a = true -> resolve_peer_for_cert_hash cert (pairing a) = peer ->
  peer <> "" -> peer <> initiator_pk (pairing a) ->
  let a' := handle_unpair io cert ip a in
  sessions (ratchets a') !! peer = None
  /\ (forall other, other <> peer -> sessions (ratchets a') !! other = sessions (ratchets a) !! other)
  /\ peer_by_cert_hash (pairing a') !! cert = None
  /\ (forall c, c <> cert -> is_authorized_peer_cert c (pairing a') = is_authorized_peer_cert c (pairing a))
  /\ settings a' = settings a /\ session_key a' = session_key a /\ session_keys a' = session_keys a.
Proof.
  intros Ha Hr Hp Hi. assert (cert <> "") as Hc by (intros ->; by cbn in Hr).
  unfold handle_unpair. rewrite Ha, Hr. unfold is_empty.
  rewrite (bool_decide_eq_false_2 (peer = "")), (bool_decide_eq_false_2 (peer = _)) by done. rewrite orb_true_r. cbn [negb andb].
  unfold remove_peer_cert_mapping, is_empty. rewrite bool_decide_eq_false_2 by done. cbn -[remove_ratchet_session_for_peer].
  split_and!; try done.
  - apply lookup_delete_eq.
  - intros other Ho. by rewrite lookup_delete_ne.
  - apply lookup_delete_eq.
  - intros c Hcc. unfold is_authorized_peer_cert. cbn. by rewrite lookup_delete_ne.
Qed.

End Confirmation.
