(* ===== verification/PairingLive.v ===== *)
(** * PairingLive: no pairing attempt stays pending

    The desktop's pairing as a transition system.  Its state is the
    application's together with the attempts whose decapsulation is running; a
    step is one of the critical sections of [Pairing].  Between a request's
    first part and its second anything may happen, other requests included.  A
    pace says whether a decapsulation ends before the 180 seconds of its own
    attempt's timer, or whenever it does. *)

From S2P Require Import Prelude Error Primitives Aead Kem Json Sas RatchetState Registry SessionHandle KemHandle.
From S2P Require Import RatchetStore PairingPolicy PairingWire PairingState Pairing.

Abbreviation World := (AppState * list InFlight)%type.

(** A phase in which new requests are refused until something happens. *)
Definition pending_phase (a : AppState) : bool := bool_decide (phase (pairing a) ∈ [PendingKem; SasPending]).

(** [Timely]: no timer fires before the decapsulation of its attempt ended. *)
Inductive Pace := Timely | AnyPace.

Section Live.
Context `{P : Primitives} `{J : SnapshotCodec} `{T : JsonText} `{X : Hex}.
Context (pace : Pace) (parse_request : bytes -> option PairingRequest).

(** What the desktop does by itself: a decapsulation ends, a timer fires. *)
Inductive internal : World -> World -> Prop :=
| step_finish a l1 f l2 : internal (a, l1 ++ f :: l2) (snd (pairing_finish f a), l1 ++ l2)
| step_timer a fl l1 g l2 :
    timers a = l1 ++ g :: l2 -> (pace = Timely -> Forall (fun f => fl_generation f <> g) fl) ->
    internal (a, fl) ((timeout_task g a) <| timers := l1 ++ l2 |>, fl).

(** What is asked of it. *)
Inductive external : World -> World -> Prop :=
| step_answered now body ip cert a r a' fl :
    pairing_begin parse_request now body ip cert a = (inl r, a') -> external (a, fl) (a', fl)
| step_started now body ip cert a f a' fl :
    pairing_begin parse_request now body ip cert a = (inr f, a') -> external (a, fl) (a', f :: fl)
| step_confirm coins ok sas name a fl : external (a, fl) (snd (perform_sas_confirmation coins ok sas name a), fl)
| step_nonce nonce a fl : external (a, fl) (issue_fresh_nonce nonce a, fl)
| step_keypair ok coins a fl : external (a, fl) (generate_keypair ok coins a, fl)
| step_unpair io cert ip a fl : external (a, fl) (handle_unpair io cert ip a, fl).

Definition pairing_step (w w' : World) : Prop := internal w w' \/ external w w'.

(** The process has started: nothing pending, no timer. *)
Definition started (a : AppState) : Prop := phase (pairing a) = Idle /\ timers a = [].
Definition reachable (w : World) : Prop := exists a, started a /\ rtc pairing_step (a, []) w.

(** ** The invariant *)

(** An attempt waiting for its decapsulation is in flight, and a pending
    attempt's timer is outstanding. *)
Record guarded (w : World) : Prop := {
  gu_flight : phase (pairing (fst w)) = PendingKem ->
              Exists (fun f => fl_generation f = attempt_generation (pairing (fst w))) (snd w);
  gu_timer : pending_phase (fst w) = true -> attempt_generation (pairing (fst w)) ∈ timers (fst w)
}.

(** A step that starts no attempt: the phase stays or leaves the pending ones. *)
Record calm (a a' : AppState) : Prop := {
  ca_timers : timers a' = timers a;
  ca_generation : attempt_generation (pairing a') = attempt_generation (pairing a);
  ca_phase : phase (pairing a') = phase (pairing a) \/ pending_phase a' = false
}.

Lemma pending_phase_true a : pending_phase a = true <-> phase (pairing a) = PendingKem \/ phase (pairing a) = SasPending.
Proof. unfold pending_phase. rewrite bool_decide_eq_true. set_solver. Qed.

Lemma guarded_calm a a' fl : guarded (a, fl) -> calm a a' -> guarded (a', fl).
Proof.
  intros [Hf Ht] [Et Eg Ep]. cbn in *. split; cbn; rewrite ?Et, ?Eg.
  - intros Hp. apply Hf. destruct Ep as [Ep|Ep]; [by rewrite <- Ep|].
    assert (pending_phase a' = true) by (apply pending_phase_true; by left). congruence.
  - intros Hp. apply Ht. destruct Ep as [Ep|Ep]; [|congruence]. unfold pending_phase in *. by rewrite <- Ep.
Qed.

Lemma calm_refl a : calm a a.
Proof. split; auto. Qed.

Lemma calm_trans a b c : calm a b -> calm b c -> calm a c.
Proof.
  intros [T1 G1 P1] [T2 G2 P2]. split; [congruence|congruence|].
  destruct P2 as [P2|P2]; [|by right]. destruct P1 as [P1|P1]; [left; congruence|right].
  unfold pending_phase in *. by rewrite P2.
Qed.

(** *** Calm commands *)

Definition Calm {A} (c : command A) : Prop := forall a, calm a (snd (c a)).

Lemma calm_bind {A B} (c : command A) (f : A -> command B) : Calm c -> (forall x, Calm (f x)) -> Calm (c ≫= f).
Proof.
  intros Hc Hf a. munfold. specialize (Hc a). destruct (c a) as [[x| |] a1]; cbn in *; [|done|done].
  eapply calm_trans; [done|]. apply Hf.
Qed.
Lemma calm_pure {A} (r : AppState -> result string A) : Calm (fun a => (r a, a)).
Proof. intros a. apply calm_refl. Qed.
Lemma calm_modify f : (forall a, calm a (f a)) -> Calm (modify f).
Proof. by intros H a. Qed.
Lemma calm_ratchets {A} msg (c : registry A) : Calm (on_ratchets msg c).
Proof. intros a. unfold on_ratchets. destruct (c (ratchets a)) as [[]]; by split; [..|left]. Qed.
Lemma calm_session_keys {A} msg (c : handles A) : Calm (on_session_keys msg c).
Proof. intros a. unfold on_session_keys. destruct (c (session_keys a)) as [[]]; by split; [..|left]. Qed.

End Live.

(** The commands whose every step is calm. *)
Ltac calm_step :=
  first [ apply calm_bind; [|intros []] | apply calm_bind; [|intros ?] | apply calm_ratchets | apply calm_session_keys
        | apply (calm_pure (fun _ => _)) | apply (calm_pure (fun a => Ok a)) | apply (calm_pure (fun a => Ok (_ a)))
        | apply calm_modify; intros ? ; first [by split; [..|left] | by split; [..|right]] ].
Ltac solve_calm := repeat first [calm_step | case_match].

Section Resolution.
Context `{P : Primitives} `{J : SnapshotCodec} `{T : JsonText} `{X : Hex}.
Context (parse_request : bytes -> option PairingRequest).

Lemma calm_allow hash a : calm a (register_allowed_client_cert hash a).
Proof. unfold register_allowed_client_cert. case_match; [by split; [..|left]|apply calm_refl]. Qed.

Lemma calm_promote a : calm a (promote_identity a).
Proof.
  unfold promote_identity. destruct (is_empty _); [apply calm_refl|].
  eapply calm_trans; [|apply calm_allow]. unfold set_pinned_client_cert.
  assert (forall b, calm a (if is_empty b then on_pairing (fun p => p <| paired_client_cert_hash := pending_client_cert_hash (pairing a) |>) a
     else on_pairing (register_peer_cert_mapping b (pending_client_cert_hash (pairing a)))
            (on_pairing (fun p => p <| paired_client_cert_hash := pending_client_cert_hash (pairing a) |>) a))) as H.
  { intros b. destruct (is_empty b); [by split; [..|left]|]. unfold on_pairing, register_peer_cert_mapping.
    destruct (_ || _); by split; [..|left]. }
  specialize (H (initiator_pk (pairing a))). destruct (valid_cert_hash _); [eapply calm_trans; [|apply calm_allow]|];
    (eapply calm_trans; [apply H|]; by split; [..|left]).
Qed.

Lemma calm_confirm coins ok sas name : Calm (perform_sas_confirmation coins ok sas name).
Proof.
  unfold perform_sas_confirmation, start_session, open_session_key. solve_calm.
  all: try (apply calm_modify; apply calm_promote).
Qed.

Lemma calm_unpair io cert ip a : calm a (handle_unpair io cert ip a).
Proof.
  unfold handle_unpair, unpair_primary, clear_pq_pairing_registry, zeroize_process_key_registry, remove_peer_cert_mapping.
  repeat case_match; first [apply calm_refl | by split; [..|left] | by split; [..|right]].
Qed.

(** *** The handler *)

Lemma begin_answers now body ip cert a r a' fl :
  guarded (a, fl) -> pairing_begin parse_request now body ip cert a = (inl r, a') -> guarded (a', fl).
Proof.
  unfold pairing_begin. destruct (check_pairing_rate_limit _ _ _) as [allowed lim]. intros G.
  repeat case_match; intros [= <- <-];
    first [ eapply guarded_calm; [exact G|]; first [by split; [..|left] | by split; [..|right]]
          | split; cbn; [done|intros ?%pending_phase_true; cbn in *; naive_solver] ].
Qed.

Lemma begin_starts now body ip cert a f a' fl :
  pairing_begin parse_request now body ip cert a = (inr f, a') -> guarded (a', f :: fl).
Proof.
  unfold pairing_begin. destruct (check_pairing_rate_limit _ _ _) as [allowed lim].
  repeat case_match; intros [= <- <-]; split; cbn; intros _; try (by left); apply elem_of_cons; by left.
Qed.

Lemma promote_spec q :
  attempt_generation (promote_to_sas_pending q) = attempt_generation q
  /\ phase (promote_to_sas_pending q) = match phase q with PendingKem => SasPending | ph => ph end.
Proof. unfold promote_to_sas_pending. case_decide as H; [by rewrite H|]. by destruct (phase q). Qed.

(** A decapsulation's end leaves no attempt waiting for one, and makes none
    pending that was not. *)
Lemma finish_settles f a :
  let a' := snd (pairing_finish f a) in
  timers a' = timers a /\ attempt_generation (pairing a') = attempt_generation (pairing a)
  /\ phase (pairing a') <> PendingKem /\ (pending_phase a' = true -> pending_phase a = true).
Proof.
  cbv zeta. rewrite !pending_phase_true. unfold pairing_finish, refuse.
  repeat case_match; cbn -[promote_to_sas_pending]; split_and!; try done;
    first [ by rewrite (proj1 (promote_spec _))
          | rewrite !(proj2 (promote_spec _)); cbn; destruct (phase (pairing a)); naive_solver
          | naive_solver ].
Qed.

Lemma timeout_phase p : phase p = SasPending -> phase (timeout_pairing p) = TimedOut.
Proof. unfold timeout_pairing. intros H. by rewrite decide_True. Qed.

Lemma guarded_internal w w' : guarded w -> internal Timely w w' -> guarded w'.
Proof.
  intros G Hi. revert G. destruct Hi as [a l1 f l2|a fl l1 g l2 H H0]; intros G.
  - destruct (finish_settles f a) as (Et & Eg & Hp & Hk). split; cbn; [by intros ?%Hp|].
    rewrite Et, Eg. intros ?%Hk. by apply (gu_timer _ G).
  - assert (pending_phase a = true -> g <> attempt_generation (pairing a) \/ phase (pairing a) = SasPending) as Hno.
    { intros [Hk|]%pending_phase_true; [left|by right]. intros ->. pose proof (gu_flight _ G Hk) as Hf. cbn in Hf.
      apply Exists_exists in Hf as (f & Hin & Hg). specialize (H0 eq_refl). rewrite Forall_forall in H0. by apply (H0 f). }
    destruct G as [Gf Gt]. cbn in *. rewrite H in Gt. unfold timeout_task, on_pairing.
    destruct (Z.eqb_spec (attempt_generation (pairing a)) g) as [Hg|Hg]; cbn.
    + case_bool_decide as Hs; cbn -[timeout_pairing].
      { split; unfold pending_phase; cbn -[timeout_pairing]; by rewrite timeout_phase. }
      split; cbn; [done|]. intros Hk. unfold pending_phase in Hk. cbn in Hk. destruct (Hno Hk); [congruence|done].
    + split; cbn; [done|]. intros Hk. specialize (Gt Hk). set_solver.
Qed.

Lemma guarded_step w w' : guarded w -> pairing_step Timely parse_request w w' -> guarded w'.
Proof.
  intros G [H|H]; [by eapply guarded_internal|]. revert G.
  destruct H; intros G; [by eapply begin_answers|by eapply begin_starts|..]; (eapply guarded_calm; [done|]); first [apply calm_confirm | apply calm_unpair | by split; [..|left]].
Qed.

Lemma guarded_reachable w : reachable Timely parse_request w -> guarded w.
Proof.
  intros (a & [Hp Ht] & H). assert (guarded (a, [])) as G.
  { split; cbn; [by rewrite Hp|]. intros [|]%pending_phase_true; congruence. }
  revert G. remember (a, []) as w0. clear Heqw0 Hp Ht. induction H; [done|]. intros G. by apply IHrtc, (guarded_step x).
Qed.

(** ** Every run of the desktop's own steps ends *)

Definition outstanding (w : World) : nat := length (snd w) + length (timers (fst w)).

Lemma internal_decreases pace w w' : internal pace w w' -> (outstanding w' < outstanding w)%nat.
Proof.
  intros []; unfold outstanding; cbn -[timeout_task].
  - destruct (finish_settles f a) as (-> & _). rewrite !length_app. cbn. lia.
  - rewrite H, !length_app. cbn. lia.
Qed.

(** Something can always be done while something is outstanding. *)
Lemma internal_enabled pace w : outstanding w <> 0%nat -> exists w', internal pace w w'.
Proof.
  destruct w as [a [|f fl]]; intros H.
  - destruct (timers a) as [|g l] eqn:E; [by unfold outstanding in H; cbn in H; rewrite E in H|].
    eexists. by apply (step_timer pace a [] [] g l).
  - eexists. apply (step_finish pace a [] f fl).
Qed.

Lemma nothing_left pace a : timers a = [] -> forall w, ~ internal pace (a, []) w.
Proof.
  intros Ht w H%internal_decreases. unfold outstanding in H. cbn [fst snd length] in H. rewrite Ht in H. cbn in H. lia.
Qed.

(** C17: provided no attempt's 180-second timer fires before the decapsulation
    of that attempt has ended, in every reachable state - whatever requests,
    confirmations, nonces, keypairs and unpairings came before, in whatever
    order with the running decapsulations and timers - the desktop's own steps
    bring the pairing out of its pending phases, in whatever such order they
    happen, so a new attempt is possible again. *)
Theorem pairing_resolves w :
  reachable Timely parse_request w -> inevitably (internal Timely) (fun w => pending_phase (fst w) = false) w.
Proof.
  intros G%guarded_reachable. revert G. apply inevitably_measure with outstanding.
  - intros v G. destruct (pending_phase (fst v)) eqn:Hk; [right|by left].
    apply internal_enabled. intros H0. pose proof (gu_timer _ G Hk) as Ht. unfold outstanding in H0.
    destruct (timers (fst v)); [by apply not_elem_of_nil in Ht|cbn in H0; lia].
  - intros v v' G Hi. split; [by eapply guarded_internal|by eapply internal_decreases].
Qed.

(** In a reachable state whose code awaits confirmation the attempt's timer is
    outstanding, and when it fires the code, the keys and the certificate of the
    attempt are gone. *)
Theorem sas_expires a fl :
  reachable Timely parse_request (a, fl) -> phase (pairing a) = SasPending ->
  let g := attempt_generation (pairing a) in
  g ∈ timers a /\
  let p := pairing (timeout_task g a) in
  phase p = TimedOut /\ sas_code p = "" /\ pending_session_key p = "" /\ pending_shared_secret p = ""
  /\ pending_client_cert_hash p = "" /\ is_session_key_authenticated (timeout_task g a) = false.
Proof.
  intros G%guarded_reachable Hp g. split; [apply (gu_timer _ G), pending_phase_true; by right|].
  unfold timeout_task. subst g. rewrite Z.eqb_refl, bool_decide_eq_true_2 by done. cbn.
  unfold timeout_pairing. by rewrite decide_True.
Qed.

End Resolution.
