(* ===== verification/PairingComplete.v ===== *)
(** * PairingComplete: an honest pairing, from the request to the session

    What the phone's request and the confirmation of the displayed code leave
    behind, and the scenarios in which other requests interfere. *)

From Stdlib.Strings Require Import Ascii.
From S2P Require Import Prelude Error Primitives Aead Kem Json Sas RatchetState RatchetChain RatchetSession RatchetRekey.
From S2P Require Import Registry SessionHandle KemHandle CryptoApi RatchetStore PairingPolicy PairingWire PairingState Pairing.
From S2P Require Import PairingProps PairingLive Toy Scenario.

Section Complete.
Context `{P : Primitives} `{J : SnapshotCodec} `{T : JsonText} `{X : Hex}.
Context (parse_request : bytes -> option PairingRequest).

(** A desktop on which a pairing can start. *)
Record open_desktop (now : Z) (ip : option string) (a : AppState) : Prop := {
  od_limit : fst (check_pairing_rate_limit now ip (limiter a)) = true;
  od_unpaired : is_paired (settings a) = false;
  od_phase : phase (pairing a) ∈ [Idle; TimedOut; Failed];
  od_pending : is_pairing_pending (pairing a) = false;
  od_nonce : pending_pairing_nonce (pairing a) <> ""
}.

(** The request of a phone with the keypair [pp] that encapsulated [res] and
    computed [code], for the certificate [cert] of its connection. *)
Record answers (a : AppState) (cert : string) (pp : HybridKeyPair) (res : HybridKemResult) (code : bytes) (p : Parsed)
  : Prop := {
  an_ciphertext : ciphertext p = ciphertext_bytes res;
  an_pk : client_pk p = mlkem_pk pp;
  an_xpk : client_x25519_pk p = x25519_pk pp;
  an_nonce : supplied_nonce p = pending_pairing_nonce (pairing a);
  an_cert : claimed_cert_hash p = "" \/ claimed_cert_hash p = cert;
  an_sas : supplied_sas_hex p = text code
}.

(** The state after the request: the code is displayed. *)
Record awaiting (a : AppState) (cert : string) (pp : HybridKeyPair) (ss sk code : bytes) (a1 : AppState) : Prop := {
  aw_phase : phase (pairing a1) = SasPending;
  aw_code : sas_code (pairing a1) = text code;
  aw_key : pending_session_key (pairing a1) = hex_encode sk;
  aw_secret : pending_shared_secret (pairing a1) = hex_encode ss;
  aw_pk : initiator_pk (pairing a1) = hex_encode (mlkem_pk pp);
  aw_xpk : initiator_x25519_pk (pairing a1) = hex_encode (x25519_pk pp);
  aw_count : attempt_count (pairing a1) = 0;
  aw_cert : pending_client_cert_hash (pairing a1) = cert;
  aw_nonce : pending_pairing_nonce (pairing a1) = "";
  aw_keypair : keypair a1 = keypair a;
  aw_ratchets : ratchets a1 = ratchets a;
  aw_session_keys : session_keys a1 = session_keys a
}.

Lemma open_phase ph : ph ∈ [Idle; TimedOut; Failed] -> ph ∉ [PendingKem; SasPending; Confirmed].
Proof. rewrite !elem_of_cons, !elem_of_nil. naive_solver. Qed.

Lemma begin_ok now body ip cert a p kp :
  open_desktop now ip a -> cert <> "" -> keypair a = kp -> parse_body parse_request body = Ok p ->
  supplied_nonce p = pending_pairing_nonce (pairing a) -> ciphertext p <> [] ->
  exists a0, pairing_begin parse_request now body ip cert a
      = (inr {| fl_parsed := p; fl_cert_hash := cert; fl_keypair := kp;
                fl_generation := attempt_generation (pairing a0) |}, a0)
    /\ phase (pairing a0) = PendingKem /\ attempt_count (pairing a0) = 0 /\ pending_client_cert_hash (pairing a0) = cert
    /\ keypair a0 = keypair a /\ ratchets a0 = ratchets a /\ session_keys a0 = session_keys a.
Proof.
  intros [Hl Hu Hp Hn Hno] Hc Hk Hb Hs Hct. unfold pairing_begin. unfold is_empty at 1. rewrite bool_decide_eq_false_2 by done.
  destruct (check_pairing_rate_limit _ _ _) as [allowed lim]. cbn in Hl. subst allowed. cbn [negb].
  change (settings (a <| limiter := lim |>)) with (settings a). change (pairing (a <| limiter := lim |>)) with (pairing a).
  rewrite Hu, Hn. rewrite bool_decide_eq_false_2 by (by apply open_phase).
  set (a2 := match ip with Some _ => _ | None => _ end).
  assert (pairing a2 = (begin_pairing_attempt (pairing a)) <| pending_client_cert_hash := cert |>
            <| paired_peer_ip := default (paired_peer_ip (pairing a)) ip |>) as Ep by (by destruct ip).
  assert (keypair a2 = keypair a /\ ratchets a2 = ratchets a /\ session_keys a2 = session_keys a) as (E1 & E2 & E3)
    by (by destruct ip).
  rewrite E1, Ep. cbn [pending_pairing_nonce update upd_phase]. cbn -[wrap64].
  unfold is_empty. rewrite bool_decide_eq_false_2 by done. rewrite Hb, Hs, bool_decide_eq_false_2 by done.
  rewrite bool_decide_eq_true_2 by done. cbn [negb orb]. destruct (ciphertext p); [done|].
  eexists. rewrite Ep, <- Hk. split; [done|]. by rewrite E1, E2, E3.
Qed.

Context `{L : !PrimitivesLaws} `{LO : !LowOrderLaw} `{XL : !HexLaws}.

Lemma decapsulate_nil sk msk : ~ exists s, decapsulate_hybrid [] sk msk = Ok s.
Proof. unfold decapsulate_hybrid. intros [s H]. revert H. by repeat case_match. Qed.

Lemma text_nonempty b : b <> [] -> text b <> "".
Proof. by destruct b. Qed.

Lemma sas_nonempty h c s code : generate_sas_code h c s = Ok code -> code <> [].
Proof. rewrite generate_sas_windows. by intros [= <-]. Qed.

(** The blocking work recovers what the phone encapsulated. *)
Lemma kem_outcome_ok a cert kc ce res pp code sk p :
  let kp := generate_hybrid_keypair kc in
  len (coins_x25519 kc) = 32 -> mlkem_pk pp <> [] ->
  encapsulate_hybrid (x25519_pk kp) (mlkem_pk kp) ce = Ok res ->
  generate_sas_code (mlkem_pk kp) (mlkem_pk pp) (combined_shared_secret res) = Ok code ->
  derive_session_key (combined_shared_secret res) SESSION_KEY_DERIVATION_SALT (bstr "kyberpipe-hybrid-session") = Ok sk ->
  answers a cert pp res code p ->
  kem_outcome (Some kp) p = Some (hex_encode sk, hex_encode (combined_shared_secret res), text code)
  /\ ciphertext p <> [].
Proof.
  intros kp Hc Hpp He Hs Hd [A1 A2 A3 A4 A5 A6].
  pose proof (decapsulate_encapsulate kc ce res He) as D. cbv zeta in D. fold kp in D.
  destruct (keypair_lengths kc) as (_ & K2 & _ & K4). fold kp in K2, K4. split.
  - unfold kem_outcome, decapsulate_pq_secret, derive_session_key_raw, session_derivation_salt. munfold. cbn [option_bind]. rewrite A1, K2, Hc, K4, !Z.eqb_refl. cbn [negb].
    rewrite <- K2, D, Hd, A2. destruct (mlkem_pk pp) eqn:E; [done|]. by rewrite Hs.
  - rewrite A1. intros E. apply (decapsulate_nil (x25519_sk kp) (mlkem_sk kp)). exists (combined_shared_secret res).
    by rewrite <- E.
Qed.

Lemma finish_ok a a0 cert pp res code p kp sk g :
  phase (pairing a0) = PendingKem -> attempt_count (pairing a0) = 0 -> pending_client_cert_hash (pairing a0) = cert ->
  keypair a0 = keypair a -> ratchets a0 = ratchets a -> session_keys a0 = session_keys a ->
  answers a cert pp res code p -> code <> [] -> mlkem_pk pp <> [] -> x25519_pk pp <> [] ->
  kem_outcome kp p = Some (hex_encode sk, hex_encode (combined_shared_secret res), text code) ->
  exists a1, pairing_finish {| fl_parsed := p; fl_cert_hash := cert; fl_keypair := kp; fl_generation := g |} a0
      = (RespPendingSas, a1)
    /\ awaiting a cert pp (combined_shared_secret res) sk code a1.
Proof.
  intros Hp Hc Hcert Hk Hr Hs [A1 A2 A3 A4 A5 A6] Hcode Hpk Hxpk Ho.
  assert (forall b : bytes, b <> [] -> len b =? 0 = false) as Hlen by (intros [|] ?; [done|apply Z.eqb_neq; unfold len; cbn [length]; lia]).
  unfold pairing_finish. cbn [fl_parsed fl_cert_hash fl_keypair]. rewrite Ho, A2, A3, A6.
  rewrite (Hlen _ Hpk), (Hlen _ Hxpk). unfold is_empty at 1 2. rewrite !(bool_decide_eq_false_2 (text code = "")) by (by apply text_nonempty).
  rewrite bool_decide_eq_true_2 by done. cbn [negb andb orb].
  assert (negb (is_empty (claimed_cert_hash p)) && negb (is_empty cert) && negb (bool_decide (claimed_cert_hash p = cert)) = false) as ->.
  { destruct A5 as [-> | ->]; [done|]. rewrite (bool_decide_eq_true_2 (cert = cert)) by done. by rewrite andb_false_r. }
  unfold is_empty. rewrite bool_decide_eq_false_2 by (by apply text_nonempty). cbn [negb andb]. eexists. split; [done|].
  unfold on_pairing, promote_to_sas_pending. cbn. split; cbn; rewrite ?decide_True by done; done.
Qed.

Lemma comp_bind_ok {E S A B} (c : Comp E S A) (f : A -> Comp E S B) s x s' :
  c s = (Ok x, s') -> (c ≫= f) s = f x s'.
Proof. intros H. munfold. by rewrite H. Qed.

Lemma bind_gets {E S A B} (g : S -> A) (f : A -> Comp E S B) s : (gets g ≫= f) s = f (g s) s.
Proof. done. Qed.
Lemma bind_modify {E S B} (g : S -> S) (f : unit -> Comp E S B) s : (modify g ≫= f) s = f tt (g s).
Proof. done. Qed.
Lemma bind_lift {E S A B} (x : A) (f : A -> Comp E S B) s : (lift (Ok x) ≫= f) s = f x s.
Proof. done. Qed.

Lemma start_session_ok coins peer ss b kp xpk mpk :
  keypair b = Some kp -> len (x25519_pk kp) = 32 -> len (x25519_sk kp) = 32 ->
  initiator_pk (pairing b) = hex_encode mpk -> initiator_x25519_pk (pairing b) = hex_encode xpk ->
  len xpk = 32 -> len mpk = 1184 ->
  exists r, start_session coins peer (hex_encode ss) b = (Ok tt, b <| ratchets := r |>)
    /\ sessions r !! peer = Some {| state := fresh_session ss true kp (Some xpk) (Some mpk); poisoned := false |}.
Proof.
  intros Hk H1 H2 Hm Hx H3 H4. unfold start_session. rewrite hex_roundtrip. munfold. cbv beta iota zeta.
  rewrite Hk, Hm, Hx, !hex_roundtrip. cbn [default]. unfold on_ratchets, ratchet_init_session_with_keypair_impl, check_len, adopt_keypair.
  assert (forall b : bytes, len b <> 0 -> if_nonempty b = Some b) as Hn by (by intros []).
  cbn [default from_option id]. rewrite !Hn by lia. munfold. cbv beta iota zeta.
  rewrite H3, H4, H1, H2. cbn [Z.eqb Pos.eqb negb orb].
  rewrite (new_with_keypair_ok ss true). cbv beta iota.
  match goal with |- context [is_some (sessions ?r !! peer)] => assert (sessions r !! peer = None) as ->; [|cbn [is_some]] end.
  { unfold ratchet_remove_session_impl. destruct b; cbn. case_match; cbn; [apply lookup_empty|apply lookup_delete_eq]. }
  eexists. split; [by destruct b, kp|]. apply lookup_insert_eq.
Qed.

Lemma open_session_key_ok sk b h ks :
  sk <> [] -> session_key_create sk (session_keys b) = (Ok h, ks) -> h <> 0 ->
  open_session_key (hex_encode sk) b
  = (Ok tt, b <| session_keys := snd (session_key_pin h ks) |> <| desktop_session_key_handle := h |>).
Proof.
  intros Hs Hc Hh. unfold open_session_key, on_session_keys. rewrite hex_roundtrip. cbn [default from_option id].
  destruct sk as [|x sk]; [done|]. munfold. rewrite Hc. cbv beta iota. rewrite (proj2 (Z.eqb_neq _ _)) by done. by destruct b.
Qed.

Lemma created_key sk r h r' : session_key_create sk r = (Ok h, r') -> keys r' !! h = Some sk.
Proof.
  unfold session_key_create. munfold. repeat case_match; intros [= <- <-]; try done. simplify_eq. cbn. apply lookup_insert_eq.
Qed.

(** What a completed pairing leaves. *)
Record completed (cert peer name : string) (sk : bytes) (session : DoubleRatchetState) (a : AppState) : Prop := {
  co_phase : phase (pairing a) = Confirmed;
  co_paired : is_paired (settings a) = true /\ paired_device_name (settings a) = Some name;
  co_saved : saved_settings a = settings a;
  co_cert : is_authorized_peer_cert cert (pairing a) = true;
  co_peer : resolve_peer_for_cert_hash cert (pairing a) = peer;
  co_pinned : pinned_client_cert a = Some cert /\ cert ∈ allowed_client_certs a;
  co_session : sessions (ratchets a) !! peer = Some {| state := session; poisoned := false |};
  co_key : keys (session_keys a) !! desktop_session_key_handle a = Some sk;
  co_cleared : sas_code (pairing a) = "" /\ pending_session_key (pairing a) = "" /\ pending_shared_secret (pairing a) = "";
  co_authenticated : is_session_key_authenticated a = true
}.

Lemma promote_identity_ok b cert peer :
  pending_client_cert_hash (pairing b) = cert -> initiator_pk (pairing b) = peer -> cert <> "" -> peer <> "" ->
  valid_cert_hash cert = true ->
  promote_identity b =
    let p := (pairing b) <| paired_client_cert_hash := cert |> <| peer_by_cert_hash ::= <[cert := peer]> |> in
    let s := (settings b) <| set_identity := identity_snapshot p |> in
    b <| pairing := p |> <| settings := s |> <| saved_settings := s |> <| pinned_client_cert := Some cert |>
      <| allowed_client_certs ::= fun c => {[cert]} ∪ ({[cert]} ∪ c) |>.
Proof.
  intros Hc Hp Hn Hm Hv. unfold promote_identity. rewrite Hc. unfold is_empty. rewrite bool_decide_eq_false_2 by done.
  set (b1 := on_pairing _ b). change (initiator_pk (pairing b1)) with (initiator_pk (pairing b)). rewrite Hp.
  rewrite bool_decide_eq_false_2 by done. unfold set_pinned_client_cert, register_allowed_client_cert. rewrite Hv.
  unfold on_pairing, register_peer_cert_mapping, is_empty. subst b1. unfold on_pairing.
  rewrite !bool_decide_eq_false_2 by done. cbn [orb]. by destruct b as [p s ? ? ? ? ? ? ? ? ? ? ? ? ? ? ? ?], p, s.
Qed.

Lemma confirm_ok coins ok name a a1 cert pp kp ss sk code h ks :
  awaiting a cert pp ss sk code a1 -> keypair a = Some kp -> len (x25519_pk kp) = 32 -> len (x25519_sk kp) = 32 ->
  len (x25519_pk pp) = 32 -> len (mlkem_pk pp) = 1184 -> code <> [] -> sk <> [] -> ss <> [] ->
  cert <> "" -> valid_cert_hash cert = true -> session_key_create sk (session_keys a) = (Ok h, ks) -> h <> 0 ->
  exists a2, perform_sas_confirmation coins ok (text code) name a1 = (Ok "Paired successfully", a2)
    /\ completed cert (hex_encode (mlkem_pk pp)) name sk
         (fresh_session ss true kp (Some (x25519_pk pp)) (Some (mlkem_pk pp))) a2.
Proof.
  intros [W1 W2 W3 W4 W5 W6 W7 W8 W9 W10 W11 W12] Hk H1 H2 H3 H4 Hcode Hsk Hss Hc Hv Hcr Hh.
  assert (hex_encode (mlkem_pk pp) <> "") as Hpk by (apply hex_nonempty; intros E; by rewrite E in H4).
  assert (forall b : bytes, b <> [] -> is_empty (hex_encode b) = false) as Hne
    by (intros b Hb; apply bool_decide_eq_false_2; by apply hex_nonempty).
  assert (is_empty (text code) = false) as Htext by (apply bool_decide_eq_false_2; by apply text_nonempty).
  unfold perform_sas_confirmation.
  rewrite bind_gets, W7. cbn [Z.leb Z.compare].
  rewrite bind_modify. set (a3 := on_pairing _ a1).
  rewrite bind_gets. change (sas_code (pairing a3)) with (sas_code (pairing a1)).
  change (pending_session_key (pairing a3)) with (pending_session_key (pairing a1)). rewrite W2, W3. cbv beta iota.
  rewrite Htext, str_eq_spec, bool_decide_eq_true_2, Hne by done. cbn [negb guard_err]. rewrite !bind_lift.
  rewrite bind_modify. set (a4 := on_pairing _ a3). rewrite bind_modify. cbv beta.
  set (a5 := a4 <| session_key := hex_encode sk |> <| host ::= store_session_key_to_keyring ok (hex_encode sk) |>).
  rewrite bind_gets. change (pending_shared_secret (pairing a5)) with (pending_shared_secret (pairing a1)).
  rewrite W4, Hne by done.
  destruct (start_session_ok coins (hex_encode (mlkem_pk pp)) ss a5 kp (x25519_pk pp) (mlkem_pk pp)) as (r & Hr & Hlook);
    [by rewrite <- Hk, <- W10|done..|].
  set (a6 := a5 <| ratchets := r |>) in *.
  assert (open_session_key (hex_encode sk) a6
          = (Ok tt, a6 <| session_keys := snd (session_key_pin h ks) |> <| desktop_session_key_handle := h |>)) as Ho.
  { apply open_session_key_ok; [done| |done]. by rewrite <- Hcr, <- W12. }
  set (a7 := a6 <| session_keys := snd (session_key_pin h ks) |> <| desktop_session_key_handle := h |>) in *.
  erewrite (comp_bind_ok _ _ a5 tt a7).
  2:{ rewrite bind_gets. change (initiator_pk (pairing a5)) with (initiator_pk (pairing a1)). rewrite W5.
      rewrite Hne by (intros E; by rewrite E in H4). by rewrite (comp_bind_ok _ _ a5 tt a6 Hr). }
  rewrite bind_modify, (promote_identity_ok a7 cert (hex_encode (mlkem_pk pp))) by (done || by rewrite ?W5, ?W8).
  rewrite !bind_modify. eexists. split; [done|].
  split; cbn -[session_key_pin]; try done.
  - unfold is_authorized_peer_cert, is_empty. cbn. rewrite bool_decide_eq_false_2 by done. by rewrite bool_decide_eq_true_2.
  - unfold resolve_peer_for_cert_hash, is_empty. cbn. rewrite bool_decide_eq_false_2 by done. by rewrite lookup_insert_eq.
  - split; [done|set_solver].
  - unfold session_key_pin. rewrite (created_key _ _ _ _ Hcr). cbn. by apply created_key in Hcr.
Qed.

Lemma combined_nonempty xpk mpk c res : encapsulate_hybrid xpk mpk c = Ok res -> combined_shared_secret res <> [].
Proof. unfold encapsulate_hybrid. repeat case_match; intros [= <-]. done. Qed.

Lemma derived_nonempty ss salt info sk : derive_session_key ss salt info = Ok sk -> sk <> [].
Proof.
  unfold derive_session_key. rewrite hkdf_expand_32. intros [= <-] E. pose proof (hkdf_okm_length (Some salt) ss info 32) as H.
  by rewrite E in H.
Qed.

(** C5: A pairing with an honest phone: the phone encapsulates to the desktop's
    public keys and sends the ciphertext, its own public keys, the displayed
    nonce and the code it computed; the desktop answers that the code awaits
    confirmation, and confirming that code succeeds.  The desktop then trusts and
    has pinned the phone's certificate, holds the session key, and its session for
    the phone is in step with the one the phone starts from its own secret. *)
Theorem pairing_completes now body ip cert a p kc pc ce res code sk h ks cc ok name :
  let kp := generate_hybrid_keypair kc in
  let pp := generate_hybrid_keypair pc in
  open_desktop now ip a -> keypair a = Some kp -> len (coins_x25519 kc) = 32 -> valid_cert_hash cert = true ->
  encapsulate_hybrid (x25519_pk kp) (mlkem_pk kp) ce = Ok res ->
  generate_sas_code (mlkem_pk kp) (mlkem_pk pp) (combined_shared_secret res) = Ok code ->
  derive_session_key (combined_shared_secret res) SESSION_KEY_DERIVATION_SALT (bstr "kyberpipe-hybrid-session") = Ok sk ->
  parse_body parse_request body = Ok p -> answers a cert pp res code p ->
  session_key_create sk (session_keys a) = (Ok h, ks) -> h <> 0 ->
  exists a1 a2 session,
    handle_pairing parse_request now body ip cert a = (RespPendingSas, a1)
    /\ phase (pairing a1) = SasPending /\ sas_code (pairing a1) = text code /\ pending_pairing_nonce (pairing a1) = ""
    /\ perform_sas_confirmation cc ok (text code) name a1 = (Ok "Paired successfully", a2)
    /\ completed cert (hex_encode (mlkem_pk pp)) name sk session a2
    /\ Paired session (fresh_session (combined_shared_secret res) false pp (Some (x25519_pk kp)) (Some (mlkem_pk kp))).
Proof.
  intros kp pp Hod Hk Hc Hv He Hs Hd Hb An Hcr Hh.
  destruct (keypair_lengths kc) as (K1 & K2 & K3 & _), (keypair_lengths pc) as (Q1 & Q2 & Q3 & _).
  fold kp in K1, K2, K3. fold pp in Q1, Q2, Q3.
  assert (cert <> "") as Hcn by (intros ->; done).
  assert (mlkem_pk pp <> []) as Hpp by (intros E; by rewrite E in Q3).
  assert (x25519_pk pp <> []) as Hpx by (intros E; by rewrite E in Q1).
  destruct (kem_outcome_ok a cert kc ce res pp code sk p Hc Hpp He Hs Hd An) as [Ho Hct].
  destruct (begin_ok now body ip cert a p (Some kp) Hod Hcn Hk Hb (an_nonce _ _ _ _ _ _ An) Hct)
    as (a0 & Hbeg & B1 & B2 & B3 & B4 & B5 & B6).
  destruct (finish_ok a a0 cert pp res code p (Some kp) sk (attempt_generation (pairing a0))) as (a1 & Hfin & W);
    [done..|by apply sas_nonempty in Hs|done|done|done|].
  destruct (confirm_ok cc ok name a a1 cert pp kp (combined_shared_secret res) sk code h ks W Hk K1) as (a2 & Hconf & Hco);
    [by rewrite K2|done|done|by apply sas_nonempty in Hs|by eapply derived_nonempty|by eapply combined_nonempty|done..|].
  exists a1, a2. eexists. split_and!; [by unfold handle_pairing; rewrite Hbeg|apply W|apply W|apply W|done|done|by split].
Qed.

End Complete.
