(* ===== verification/PairingScenario.v ===== *)
(** * PairingScenario: pairings that are interfered with, and concrete runs

    Requests that arrive while an attempt is pending, confirmations on a desktop
    that is already paired, and the concrete desktop and phone on which the
    theorems of [PairingProps], [PairingLive] and [PairingComplete] are
    evaluated. *)

From Stdlib.Strings Require Import Ascii.
From S2P Require Import Prelude Error Primitives Aead Kem Json Sas RatchetState RatchetChain RatchetSession RatchetRekey.
From S2P Require Import Registry SessionHandle KemHandle RatchetStore PairingPolicy PairingWire PairingState Pairing.
From S2P Require Import PairingProps PairingLive PairingComplete Toy Scenario StoreProps.

Section Interference.
Context `{P : Primitives} `{J : SnapshotCodec} `{T : JsonText} `{X : Hex}.
Context (parse_request : bytes -> option PairingRequest).

(** While an attempt is pending, any request of any connection - whatever its
    body, without the nonce - is refused and ends that attempt: its code and keys
    are gone.  A request without a certificate does so even beyond the rate
    limit, and costs no budget. *)
Theorem request_aborts_pending now body ip cert a :
  pending_phase a = true ->
  cert = "" \/ fst (check_pairing_rate_limit now ip (limiter a)) = true ->
  exists reason a', handle_pairing parse_request now body ip cert a = (RespError reason, a')
    /\ phase (pairing a') = Failed /\ sas_code (pairing a') = "" /\ pending_session_key (pairing a') = ""
    /\ pending_client_cert_hash (pairing a') = "" /\ (cert = "" -> limiter a' = limiter a).
Proof.
  intros Hp Hc. unfold handle_pairing, pairing_begin. destruct (is_empty cert) eqn:Ec; [by eexists _, _|].
  apply bool_decide_eq_false in Ec. destruct Hc as [?|Hl]; [done|].
  destruct (check_pairing_rate_limit _ _ _) as [allowed lim]. cbn in Hl. subst allowed. cbn [negb].
  change (pairing (a <| limiter := lim |>)) with (pairing a).
  destruct (is_paired _); [by eexists _, _|].
  rewrite bool_decide_eq_true_2 by (apply pending_phase_true in Hp as [-> | ->]; set_solver). by eexists _, _.
Qed.

(** Four confirmations on a desktop with no code pending erase the identity of
    the device it is paired with - its certificate, the map from certificates to
    peers - and leave the desktop paired. *)
Theorem confirmations_erase_identity coins ok name g1 g2 g3 g4 a :
  attempt_count (pairing a) = 0 -> sas_code (pairing a) = "" ->
  let a' := snd (run_guesses coins ok name [g1; g2; g3; g4] a) in
  is_paired (settings a') = is_paired (settings a)
  /\ pairing a' = clear_all_pairing (pairing a)
  /\ forall cert, is_authorized_peer_cert cert (pairing a') = false.
Proof.
  intros H0 Hs. cbn [run_guesses].
  destruct (wrong_code coins ok g1 name a (or_introl Hs)) as [e1 ->]. rewrite H0. cbn [Z.leb Z.compare].
  match goal with |- context [perform_sas_confirmation coins ok g2 name ?b] => set (b1 := b) end.
  destruct (wrong_code coins ok g2 name b1 (or_introl Hs)) as [e2 ->].
  assert (attempt_count (pairing b1) = 1) as H1 by (cbn; by rewrite H0). rewrite H1. cbn [Z.leb Z.compare Pos.compare Pos.compare_cont].
  match goal with |- context [perform_sas_confirmation coins ok g3 name ?b] => set (b2 := b) end.
  destruct (wrong_code coins ok g3 name b2 (or_introl Hs)) as [e3 ->].
  assert (attempt_count (pairing b2) = 2) as H2 by (unfold b2, on_pairing; cbn -[b1]; by rewrite H1).
  rewrite H2. cbn [Z.leb Z.compare Pos.compare Pos.compare_cont].
  match goal with |- context [perform_sas_confirmation coins ok g4 name ?b] => set (b3 := b) end.
  destruct (wrong_code coins ok g4 name b3 (or_introl Hs)) as [e4 ->].
  assert (attempt_count (pairing b3) = 3) as H3 by (unfold b3, on_pairing; cbn -[b2]; by rewrite H2).
  rewrite H3. cbn [Z.leb Z.compare Pos.compare Pos.compare_cont snd]. split_and!; [done|done|].
  intros cert. unfold is_authorized_peer_cert, is_empty. case_bool_decide as Hc; [done|].
  cbn. rewrite lookup_empty, bool_decide_eq_false_2 by (intros E; by rewrite E in Hc). done.
Qed.

End Interference.

(** ** A desktop and a phone *)

Import Scenario ToyJson.

Module Desk.

(** A desktop that has generated its keypair and displays its nonce. *)
Definition desk : AppState := issue_fresh_nonce (bstr "nonce") {|
  pairing := default_pairing; settings := default_settings; saved_settings := default_settings;
  keypair := Some pair_b; session_key := ""; connection := {| status := "DISCONNECTED"; method := "None"; color := "red" |};
  tor_running := false; is_session_key_authenticated := false; desktop_session_key_handle := 0;
  limiter := new_limiter 0; ratchets := {| sessions := ∅; map_poisoned := false |}; session_keys := new_registry;
  kem_registry := new_kem_handles; pairing_keypair := None; pinned_client_cert := None; allowed_client_certs := ∅;
  host := empty_host; timers := [] |}.

Definition phone_cert : string := hex_encode (be_bytes 32 7).
Definition other_cert : string := hex_encode (be_bytes 32 8).

Definition phone_kem : HybridKemResult :=
  match encapsulate_hybrid (x25519_pk pair_b) (mlkem_pk pair_b) (coins 7) with
  | Ok r => r | _ => {| ciphertext_bytes := []; combined_shared_secret := [] |} end.
Definition phone_code : bytes :=
  match generate_sas_code (mlkem_pk pair_b) (mlkem_pk pair_a) (combined_shared_secret phone_kem) with Ok c => c | _ => [] end.
Definition phone_key : bytes :=
  match derive_session_key (combined_shared_secret phone_kem) SESSION_KEY_DERIVATION_SALT (bstr "kyberpipe-hybrid-session")
  with Ok k => k | _ => [] end.

Definition phone_frame : PairingFrame := {|
  pf_ciphertext := ciphertext_bytes phone_kem; pf_client_pk := mlkem_pk pair_a; pf_client_x25519_pk := x25519_pk pair_a;
  pf_cert_hash := bstr phone_cert; pf_nonce_hex := bstr (hex_encode (bstr "nonce")); pf_sas_hex := phone_code |}.
Definition phone_body : bytes :=
  [x4b; x50; x00] ++ base_layout phone_frame ++ field (pf_nonce_hex phone_frame) ++ field (pf_sas_hex phone_frame).

(** No JSON body in these runs. *)
Definition no_json (b : bytes) : option PairingRequest := None.

Definition phone_parsed : Parsed :=
  match parse_body no_json phone_body with
  | Ok p => p
  | _ => {| ciphertext := []; client_pk := []; client_x25519_pk := []; claimed_cert_hash := ""; supplied_nonce := "";
            supplied_sas_hex := "" |}
  end.

Definition started_run : (Response + InFlight) * AppState :=
  pairing_begin no_json 0 phone_body (Some "10.0.0.2") phone_cert desk.
Definition flight : InFlight :=
  match fst started_run with
  | inr f => f
  | inl _ => {| fl_parsed := phone_parsed; fl_cert_hash := ""; fl_keypair := None; fl_generation := 0 |}
  end.
Definition displayed : Response * AppState := pairing_finish flight (snd started_run).

(** The same attempt, with a request without a certificate refused in between. *)
Definition disturbed : AppState :=
  snd (pairing_begin no_json 1 [] (Some "10.0.0.3") "" (snd started_run)).
Definition displayed_late : Response * AppState := pairing_finish flight disturbed.

End Desk.
Import Desk.

Lemma displayed_code : sas_code (pairing (snd displayed)) = "468LCBM".
Proof. vm_compute. reflexivity. Qed.

Definition entered : list string := ["A"; "B"; "C"; text phone_code].

Lemma three_guesses_witness :
  let '(rs, a') := run_guesses (coins 1) true "phone" entered (snd displayed) in
  Forall (fun r => exists e, r = Err e) rs
  /\ exists n, a' = on_pairing (fun p => (if bool_decide (3 < length entered)%nat then clear_all_pairing p else p)
                                         <| attempt_count := n |>) (snd displayed).
Proof.
  apply (three_guesses (coins 1) true "phone" entered (snd displayed)); [by vm_compute|].
  rewrite displayed_code. unfold entered. cbn [take]. rewrite !elem_of_cons, elem_of_nil. naive_solver.
Defined.

Lemma phone_started :
  pairing_begin no_json 0 phone_body (Some "10.0.0.2") phone_cert desk = (inr flight, snd started_run).
Proof. by vm_compute. Qed.

Lemma displayed_reachable : reachable Timely no_json (snd displayed, []).
Proof.
  exists desk. split; [by vm_compute|]. apply (rtc_l _ _ (snd started_run, [flight])).
  - right. exact (step_started no_json 0 phone_body (Some "10.0.0.2") phone_cert desk flight (snd started_run) [] phone_started).
  - apply rtc_once. left. unfold displayed. exact (step_finish Timely (snd started_run) [] flight []).
Qed.

Lemma pairing_resolves_witness :
  inevitably (internal Timely) (fun w => pending_phase (fst w) = false) (snd displayed, []).
Proof. apply (pairing_resolves no_json (snd displayed, [])). exact displayed_reachable. Defined.

(** A timer that fires first does not touch the attempt it belongs to, and the
    code the late decapsulation then displays has no timer any more: nothing the
    desktop does by itself ends it. *)
Definition timer_first : AppState := (timeout_task (fl_generation flight) (snd started_run)) <| timers := [] |>.
Definition stranded : AppState := snd (pairing_finish flight timer_first).

Lemma overtaken_pairing_stays :
  reachable AnyPace no_json (stranded, []) /\ phase (pairing stranded) = SasPending
  /\ forall w, ~ internal AnyPace (stranded, []) w.
Proof.
  split; [|split; [by vm_compute|]].
  - exists desk. split; [by vm_compute|]. apply (rtc_l _ _ (snd started_run, [flight])).
    { right. exact (step_started no_json 0 phone_body (Some "10.0.0.2") phone_cert desk flight (snd started_run) [] phone_started). }
    apply (rtc_l _ _ (timer_first, [flight])).
    { left. apply (step_timer AnyPace (snd started_run) [flight] [] (fl_generation flight) []); [by vm_compute|done]. }
    apply rtc_once. left. exact (step_finish AnyPace timer_first [] flight []).
  - apply nothing_left. by vm_compute.
Qed.

Lemma sas_expires_witness :
  attempt_generation (pairing (snd displayed)) ∈ timers (snd displayed).
Proof. apply (sas_expires no_json (snd displayed) []); [exact displayed_reachable|by vm_compute]. Defined.

Lemma pairing_completes_witness : exists a1 a2 session,
  handle_pairing no_json 0 phone_body (Some "10.0.0.2") phone_cert desk = (RespPendingSas, a1)
  /\ phase (pairing a1) = SasPending /\ sas_code (pairing a1) = text phone_code /\ pending_pairing_nonce (pairing a1) = ""
  /\ perform_sas_confirmation (coins 1) true (text phone_code) "phone" a1 = (Ok "Paired successfully", a2)
  /\ completed phone_cert (hex_encode (mlkem_pk pair_a)) "phone" phone_key session a2
  /\ Paired session (fresh_session (combined_shared_secret phone_kem) false pair_a
                       (Some (x25519_pk pair_b)) (Some (mlkem_pk pair_b))).
Proof.
  apply (pairing_completes no_json 0 phone_body (Some "10.0.0.2") phone_cert desk phone_parsed (coins 21) (coins 11)
           (coins 7) phone_kem phone_code phone_key 1 (snd (session_key_create phone_key new_registry)) (coins 1) true "phone");
    try by vm_compute.
  - split; try by vm_compute. by apply (bool_decide_eq_true_1 (phase (pairing desk) ∈ [Idle; TimedOut; Failed])); vm_compute.
  - split; try by vm_compute. right. by vm_compute.
Defined.

Lemma request_aborts_pending_witness : exists reason a',
  handle_pairing no_json (secs 1) [] (Some "10.0.0.3") other_cert (snd displayed) = (RespError reason, a')
  /\ phase (pairing a') = Failed /\ sas_code (pairing a') = "" /\ pending_session_key (pairing a') = ""
  /\ pending_client_cert_hash (pairing a') = "" /\ (other_cert = "" -> limiter a' = limiter (snd displayed)).
Proof.
  apply (request_aborts_pending no_json (secs 1) [] (Some "10.0.0.3") other_cert (snd displayed)); [by vm_compute|].
  right. by vm_compute.
Defined.

(** The desktop once the phone's code is confirmed. *)
Definition paired_desk : AppState :=
  snd (perform_sas_confirmation (coins 1) true (text phone_code) "phone" (snd displayed)).

Lemma confirmations_erase_identity_witness :
  let a' := snd (run_guesses (coins 1) true "phone" [""; ""; ""; ""] paired_desk) in
  is_paired (settings a') = is_paired (settings paired_desk)
  /\ pairing a' = clear_all_pairing (pairing paired_desk)
  /\ forall cert, is_authorized_peer_cert cert (pairing a') = false.
Proof. apply (confirmations_erase_identity (coins 1) true "phone" "" "" "" "" paired_desk); by vm_compute. Defined.

(** A request without a certificate, refused while the phone's decapsulation runs,
    takes the certificate from the phone's attempt but not the attempt: the phone
    is told its code awaits confirmation, the attempt's timer does nothing, and
    the confirmation succeeds - with no certificate trusted or pinned, so that no
    later stream of the phone is authorized by its certificate. *)
Theorem certificate_lost :
  fst displayed_late = RespPendingSas
  /\ timeout_task 1 (snd displayed_late) = snd displayed_late
  /\ sas_code (pairing (snd displayed_late)) = text phone_code
  /\ let '(r, a) := perform_sas_confirmation (coins 1) true (text phone_code) "phone" (snd displayed_late) in
     r = Ok "Paired successfully" /\ is_paired (settings a) = true /\ pinned_client_cert a = None
     /\ is_authorized_peer_cert phone_cert (pairing a) = false.
Proof. by vm_compute. Qed.

Definition all_removed : UnpairIo :=
  {| up_persist := all_ok; up_read := true; up_entries := fun _ => true; up_files := fun _ => true |}.

Lemma unpair_forgets_witness :
  let a' := handle_unpair all_removed phone_cert "10.0.0.2" paired_desk in
  sessions (ratchets a') = ∅ /\ keys (session_keys a') = ∅ /\ kem_secrets (kem_registry a') = ∅
  /\ session_key a' = "" /\ is_session_key_authenticated a' = false
  /\ is_paired (settings a') = false /\ set_identity (settings a') = ("", "", "", ∅) /\ saved_settings a' = settings a'
  /\ (forall cert' ip', peer_is_authorized cert' ip' a' = false)
  /\ allowed_client_certs a' = allowed_client_certs paired_desk /\ pinned_client_cert a' = pinned_client_cert paired_desk
  /\ keypair a' = keypair paired_desk.
Proof. apply (unpair_forgets all_removed phone_cert "10.0.0.2" paired_desk); by vm_compute. Defined.

(** The paired desktop with a second device. *)
Definition two_devices : AppState :=
  on_pairing (register_peer_cert_mapping "tablet" other_cert) paired_desk <| ratchets ::= put_session "tablet" bob |>.

Lemma unpair_secondary_witness :
  let a' := handle_unpair all_removed other_cert "10.0.0.3" two_devices in
  sessions (ratchets a') !! "tablet" = None
  /\ (forall other, other <> "tablet" -> sessions (ratchets a') !! other = sessions (ratchets two_devices) !! other)
  /\ peer_by_cert_hash (pairing a') !! other_cert = None
  /\ (forall c, c <> other_cert ->
        is_authorized_peer_cert c (pairing a') = is_authorized_peer_cert c (pairing two_devices))
  /\ settings a' = settings two_devices /\ session_key a' = session_key two_devices
  /\ session_keys a' = session_keys two_devices.
Proof. apply (unpair_secondary all_removed other_cert "10.0.0.3" two_devices "tablet"); by vm_compute. Defined.
