(* ===== verification/Stun.v ===== *)
(** * Stun: the STUN client (core-crypto/src/network/stun.rs)

    The binding request, and what is made of the one datagram received: [buf] is
    the 512-byte buffer, its first [len] bytes the datagram, an index outside it
    a panic.  Name lookup, the socket and the timeout are the caller's: the
    datagram and its source are arguments.  The CRC-32 is a third-party crate, a
    parameter. *)

From S2P Require Import Prelude Error.

Record SocketAddr := { addr_ip : bytes; addr_port : Z }.
#[export] Instance SocketAddr_eq_dec : EqDecision SocketAddr. Proof. solve_decision. Defined.

Definition MAGIC_COOKIE : Z := 0x2112A442.

Definition binding_request (tx_id : bytes) : bytes :=
  be_bytes 2 0x0001 ++ be_bytes 2 0x0000 ++ be_bytes 4 MAGIC_COOKIE ++ tx_id.

(** [buf[i]], and a big-endian u16 at [i]. *)
Definition byte_at (buf : bytes) (i : Z) : kres byte := expect (buf !! Z.to_nat i) "index out of bounds".
Definition u16_at (buf : bytes) (i : Z) : kres Z :=
  hi ← byte_at buf i; lo ← byte_at buf (i + 1); Ok (be_Z [hi; lo]).

(** [&buf[a..b]]. *)
Definition range (buf : bytes) (a b : Z) : kres bytes :=
  if (a <=? b) && (b <=? len buf) then Ok (take (Z.to_nat (b - a)) (drop (Z.to_nat a) buf))
  else Panic "range out of bounds".

Definition net_err {A} (m : string) : kres A := Err (NetworkError m).

(** What the loop over the attributes keeps. *)
Record Scan := { scan_pos : Z; mapped_addr : option SocketAddr; fingerprint_ok : option bool }.

Definition mapped_address (v : bytes) (attr_len : Z) : kres (option SocketAddr) :=
  if attr_len <? 8 then Ok None
  else
    family ← byte_at v 1;
    port ← u16_at v 2;
    if Z_of_byte family =? 1 then
      ip ← range v 4 8; Ok (Some {| addr_ip := ip; addr_port := port |})
    else Ok None.

Definition xor_bytes (a b : bytes) : bytes :=
  zip_with (fun x y => byte_of_Z (Z.lxor (Z_of_byte x) (Z_of_byte y))) a b.

Definition xor_mapped_address (v : bytes) (attr_len : Z) : kres (option SocketAddr) :=
  if attr_len <? 8 then Ok None
  else
    family ← byte_at v 1;
    xport ← u16_at v 2;
    let port := Z.lxor xport 0x2112 in
    if Z_of_byte family =? 1 then
      xip ← range v 4 8;
      Ok (Some {| addr_ip := xor_bytes xip (be_bytes 4 MAGIC_COOKIE); addr_port := port |})
    else Ok None.

Section Stun.
Context (crc32 : bytes -> Z).

Definition fingerprint (buf : bytes) (pos attr_len : Z) (v : bytes) : kres bool :=
  claimed ← range v 0 4;
  prefix ← range buf 0 (pos - attr_len);
  Ok (Z.lxor (crc32 (prefix ++ be_bytes 4 0)) 0x5354554e =? be_Z claimed).

(** One turn of the loop, its guard included; [None] leaves it. *)
Definition scan_attribute (buf : bytes) (len_ : Z) (s : Scan) : kres (option Scan) :=
  let pos := scan_pos s in
  if len_ <=? pos then Ok None
  else if len_ <? pos + 4 then Ok None
  else
    attr_type ← u16_at buf pos;
    attr_len ← u16_at buf (pos + 2);
    let pos := pos + 4 in
    if (512 <? attr_len) || (len_ <? pos + attr_len) then Ok None
    else
      attr_value ← range buf pos (pos + attr_len);
      let pos := pos + attr_len in
      let padded_len := Z.land (attr_len + 3) (Z.lnot 3) in
      let pos := pos + (padded_len - attr_len) in
      if attr_type =? 0x0001 then
        a ← mapped_address attr_value attr_len;
        Ok (Some {| scan_pos := pos; mapped_addr := match a with Some _ => a | None => mapped_addr s end;
                    fingerprint_ok := fingerprint_ok s |})
      else if attr_type =? 0x0020 then
        a ← xor_mapped_address attr_value attr_len;
        Ok (Some {| scan_pos := pos; mapped_addr := match a with Some _ => a | None => mapped_addr s end;
                    fingerprint_ok := fingerprint_ok s |})
      else if (attr_type =? 0x8028) && (attr_len =? 4) then
        ok ← fingerprint buf pos attr_len attr_value;
        Ok (Some {| scan_pos := pos; mapped_addr := mapped_addr s; fingerprint_ok := Some ok |})
      else Ok (Some {| scan_pos := pos; mapped_addr := mapped_addr s; fingerprint_ok := fingerprint_ok s |}).

(** The loop, with fuel. *)
Fixpoint scan_attributes (fuel : nat) (buf : bytes) (len_ : Z) (s : Scan) : kres Scan :=
  match fuel with
  | O => Panic "loop"
  | S f =>
      o ← scan_attribute buf len_ s;
      match o with None => Ok s | Some s' => scan_attributes f buf len_ s' end
  end.

(** The buffer after the datagram [data] is received into it. *)
Definition BUF_LEN : nat := 512.
Definition received (data : bytes) : bytes := take BUF_LEN data ++ replicate (BUF_LEN - length data) x00.

(** [query_stun_server] from the answer on: [tx_id] is the request's, [src] the
    datagram's source. *)
Definition stun_response (tx_id : bytes) (stun_addr src : SocketAddr) (data : bytes) : kres SocketAddr :=
  let buf := received data in
  let len_ := Z.min (Z.of_nat BUF_LEN) (len data) in
  if negb (bool_decide (src = stun_addr)) then net_err "STUN response source mismatch"
  else if len_ <? 20 then net_err "STUN response too short"
  else
    msg_length ← u16_at buf 2;
    if len_ <? msg_length + 20 then net_err "STUN message length field exceeds actual payload"
    else
      msg_type ← u16_at buf 0;
      if negb (msg_type =? 0x0101) then net_err "STUN response was not success"
      else
        id ← range buf 8 20;
        if negb (bool_decide (tx_id = id)) then net_err "STUN transaction ID mismatch"
        else
          s ← scan_attributes (S (Z.to_nat len_)) buf len_ {| scan_pos := 20; mapped_addr := None; fingerprint_ok := None |};
          if bool_decide (fingerprint_ok s = Some false)
          then net_err "STUN FINGERPRINT validation failed — rejecting response"
          else match mapped_addr s with
               | Some addr => Ok addr
               | None => net_err "No valid mapped address found in STUN response"
               end.

(** ** No datagram makes it panic or loop *)

Lemma byte_at_ok buf i : 0 <= i < len buf -> exists b, byte_at buf i = Ok b.
Proof.
  unfold byte_at, len. intros H. destruct (lookup_lt_is_Some_2 buf (Z.to_nat i)) as [b ->]; [lia|]. by exists b.
Qed.

Lemma u16_at_ok buf i : 0 <= i -> i + 1 < len buf -> exists n, u16_at buf i = Ok n /\ 0 <= n < 65536.
Proof.
  intros H H'. unfold u16_at. destruct (byte_at_ok buf i) as [x ->]; [lia|]. destruct (byte_at_ok buf (i + 1)) as [y ->]; [lia|].
  eexists. split; [reflexivity|]. pose proof (be_Z_range [x; y]). done.
Qed.

Lemma range_ok buf a b : 0 <= a <= b -> b <= len buf -> exists v, range buf a b = Ok v /\ len v = b - a.
Proof.
  intros H H'. unfold range. rewrite !(proj2 (Z.leb_le _ _)) by lia. eexists. split; [reflexivity|].
  unfold len in *. rewrite length_take, length_drop. lia.
Qed.

Lemma pad4 n : Z.land (n + 3) (Z.lnot 3) = 4 * ((n + 3) / 4).
Proof.
  rewrite <- Z.ldiff_land. change 3 with (Z.ones 2) at 2. rewrite Z.ldiff_ones_r, Z.shiftl_mul_pow2, Z.shiftr_div_pow2 by lia.
  change (2 ^ 2) with 4. lia.
Qed.

Lemma mapped_ok v : exists a, mapped_address v (len v) = Ok a.
Proof.
  unfold mapped_address. destruct (Z.ltb_spec (len v) 8); [eauto|].
  destruct (byte_at_ok v 1) as [f ->]; [lia|]. destruct (u16_at_ok v 2) as (q & -> & _); [lia|lia|]. cbn [mbind result_bind].
  destruct (_ =? 1); [|eauto]. destruct (range_ok v 4 8) as (ip & -> & _); [lia|lia|]. cbn. eauto.
Qed.

Lemma xor_mapped_ok v : exists a, xor_mapped_address v (len v) = Ok a.
Proof.
  unfold xor_mapped_address. destruct (Z.ltb_spec (len v) 8); [eauto|].
  destruct (byte_at_ok v 1) as [f ->]; [lia|]. destruct (u16_at_ok v 2) as (q & -> & _); [lia|lia|]. cbn [mbind result_bind].
  destruct (_ =? 1); [|eauto]. destruct (range_ok v 4 8) as (ip & -> & _); [lia|lia|]. cbn. eauto.
Qed.

(** A turn of the loop reads inside the buffer and moves on by at least four. *)
Lemma scan_attribute_ok buf len_ s :
  len_ <= len buf -> 0 <= scan_pos s ->
  exists o, scan_attribute buf len_ s = Ok o /\ forall s', o = Some s' -> scan_pos s + 4 <= scan_pos s'.
Proof.
  intros Hl Hp. unfold scan_attribute. destruct (Z.leb_spec len_ (scan_pos s)); [by eexists|].
  destruct (Z.ltb_spec len_ (scan_pos s + 4)); [by eexists|].
  destruct (u16_at_ok buf (scan_pos s)) as (ty & -> & _); [lia|lia|].
  destruct (u16_at_ok buf (scan_pos s + 2)) as (n & -> & Hn); [lia|lia|]. cbn [mbind result_bind].
  destruct (Z.ltb_spec 512 n); [by eexists|]. destruct (Z.ltb_spec len_ (scan_pos s + 4 + n)); [by eexists|]. cbn [orb].
  destruct (range_ok buf (scan_pos s + 4) (scan_pos s + 4 + n)) as (v & -> & Hv); [lia|lia|].
  replace (scan_pos s + 4 + n - (scan_pos s + 4)) with n in Hv by lia. cbn [mbind result_bind]. rewrite pad4.
  assert (n <= 4 * ((n + 3) / 4) <= n + 3) as Hpad by (pose proof (Z.div_mod (n + 3) 4); pose proof (Z.mod_pos_bound (n + 3) 4); lia).
  destruct (_ =? 1). { destruct (mapped_ok v) as [a Ha]. rewrite Hv in Ha. rewrite Ha. eexists. split; [reflexivity|]. intros ? [= <-]. cbn [scan_pos]. lia. }
  destruct (_ =? 32). { destruct (xor_mapped_ok v) as [a Ha]. rewrite Hv in Ha. rewrite Ha. eexists. split; [reflexivity|]. intros ? [= <-]. cbn [scan_pos]. lia. }
  destruct (Z.eqb_spec n 4) as [->|]; rewrite ?andb_true_r, ?andb_false_r.
  - destruct (_ =? _); [|eexists; split; [reflexivity|]; intros ? [= <-]; cbn [scan_pos]; lia].
    unfold fingerprint. destruct (range_ok v 0 4) as (c & -> & _); [lia|lia|]. change (4 * ((4 + 3) / 4)) with 4.
    destruct (range_ok buf 0 (scan_pos s + 4 + 4 + (4 - 4) - 4)) as (q & -> & _); [lia|lia|]. cbn [mbind result_bind].
    eexists. split; [reflexivity|]. intros ? [= <-]. cbn [scan_pos]. lia.
  - eexists. split; [reflexivity|]. intros ? [= <-]. cbn [scan_pos]. lia.
Qed.

Lemma scan_terminates fuel buf len_ s :
  len_ <= len buf -> 0 <= scan_pos s -> (Z.to_nat (len_ - scan_pos s) < fuel)%nat ->
  exists s', scan_attributes fuel buf len_ s = Ok s'.
Proof.
  intros Hl. revert s. induction fuel as [|fuel IH]; intros s Hp Hf; [lia|]. cbn [scan_attributes].
  destruct (scan_attribute_ok buf len_ s Hl Hp) as (o & Ho & Hmove). rewrite Ho. cbn [mbind result_bind].
  destruct o as [s'|]; [|eauto]. specialize (Hmove s' eq_refl). apply IH; [lia|].
  assert (scan_pos s < len_) by (unfold scan_attribute in Ho; destruct (Z.leb_spec len_ (scan_pos s)); [done|lia]). lia.
Qed.

Lemma received_length data : length (received data) = BUF_LEN.
Proof. unfold received, BUF_LEN. rewrite length_app, length_take, length_replicate. lia. Qed.

(** C34: Whatever datagram comes from wherever - truncated, with lengths that point
    outside it, endless - the client comes to an answer: an address or a network
    error, without a panic. *)
Theorem stun_total tx_id stun_addr src data :
  (exists addr, stun_response tx_id stun_addr src data = Ok addr)
  \/ exists m, stun_response tx_id stun_addr src data = Err (NetworkError m).
Proof.
  unfold stun_response, net_err. set (buf := received data). set (len_ := Z.min (Z.of_nat BUF_LEN) (len data)).
  assert (len buf = 512) as Hb by (unfold len, buf; by rewrite received_length).
  assert (len_ <= 512) as Hl by (unfold len_, BUF_LEN; lia).
  destruct (negb _); [eauto|]. destruct (Z.ltb_spec len_ 20); [eauto|].
  destruct (u16_at_ok buf 2) as (ml & -> & _); [lia|lia|]. cbn [mbind result_bind]. destruct (_ <? _); [eauto|].
  destruct (u16_at_ok buf 0) as (ty & -> & _); [lia|lia|]. cbn [mbind result_bind]. destruct (negb _); [eauto|].
  destruct (range_ok buf 8 20) as (id & -> & _); [lia|lia|]. cbn [mbind result_bind]. destruct (negb _); [eauto|].
  destruct (scan_terminates (S (Z.to_nat len_)) buf len_ {| scan_pos := 20; mapped_addr := None; fingerprint_ok := None |})
    as [s ->]; [lia|cbn; lia|cbn [scan_pos]; lia|]. cbn [mbind result_bind].
  case_bool_decide; [eauto|]. destruct (mapped_addr s); eauto.
Qed.

(** ** What a well-formed response says *)

Record Attribute := { at_type : Z; at_value : bytes; at_pad : bytes }.
Definition encode_attr (a : Attribute) : bytes :=
  be_bytes 2 (at_type a) ++ be_bytes 2 (len (at_value a)) ++ at_value a ++ at_pad a.
Definition encode_attrs (l : list Attribute) : bytes := concat (encode_attr <$> l).
Definition wf_attr (a : Attribute) : Prop :=
  0 <= at_type a < 65536 /\ len (at_value a) <= 512
  /\ len (at_value a) + len (at_pad a) = 4 * ((len (at_value a) + 3) / 4).

(** The IPv4 address of an attribute's value, with the mask of its kind. *)
Definition read_addr (mask : bytes) (v : bytes) : option SocketAddr :=
  match v with
  | _ :: f :: p :: q :: a :: b :: c :: d :: _ =>
      if Z_of_byte f =? 1
      then Some {| addr_ip := xor_bytes [a; b; c; d] mask; addr_port := Z.lxor (be_Z [p; q]) (be_Z (take 2 mask)) |}
      else None
  | _ => None
  end.
Definition no_mask : bytes := replicate 4 x00.
Definition cookie_mask : bytes := be_bytes 4 MAGIC_COOKIE.

(** What is known after an attribute that follows [prefix]: the last address
    named, and whether the last fingerprint was right. *)
Abbreviation Known := (option SocketAddr * option bool)%type.
Definition learn (prefix : bytes) (a : Attribute) (k : Known) : Known :=
  let '(addr, fp) := k in
  if at_type a =? 0x0001 then (match read_addr no_mask (at_value a) with Some x => Some x | None => addr end, fp)
  else if at_type a =? 0x0020 then (match read_addr cookie_mask (at_value a) with Some x => Some x | None => addr end, fp)
  else if (at_type a =? 0x8028) && (len (at_value a) =? 4)
  then (addr, Some (Z.lxor (crc32 (prefix ++ be_bytes 2 0x8028 ++ be_bytes 2 4 ++ be_bytes 4 0)) 0x5354554e =? be_Z (at_value a)))
  else k.
Fixpoint learn_all (prefix : bytes) (l : list Attribute) (k : Known) : Known :=
  match l with [] => k | a :: l' => learn_all (prefix ++ encode_attr a) l' (learn prefix a k) end.

(** The 20 bytes before the attributes, with any cookie. *)
Definition header (n : Z) (cookie tx_id : bytes) : bytes := be_bytes 2 0x0101 ++ be_bytes 2 n ++ cookie ++ tx_id.

Lemma byte_at_app pre x t : byte_at (pre ++ x :: t) (len pre) = Ok x.
Proof. unfold byte_at, len. by rewrite Nat2Z.id, list_lookup_middle. Qed.

Lemma u16_at_app pre n t : 0 <= n < 65536 -> u16_at (pre ++ be_bytes 2 n ++ t) (len pre) = Ok n.
Proof.
  intros Hn. unfold u16_at. pose proof (length_be_bytes 2 n) as Hl.
  pose proof (be_Z_be_bytes_small 2 n Hn) as Hv. destruct (be_bytes 2 n) as [|x [|y [|]]]; try done. cbn [app].
  rewrite byte_at_app. cbn [mbind result_bind].
  replace (pre ++ x :: y :: t) with ((pre ++ [x]) ++ y :: t) by (by rewrite <- app_assoc).
  replace (len pre + 1) with (len (pre ++ [x])) by (by rewrite len_app). rewrite byte_at_app. cbn [mbind result_bind]. by rewrite Hv.
Qed.

Lemma range_app pre v t : range (pre ++ v ++ t) (len pre) (len pre + len v) = Ok v.
Proof.
  unfold range. rewrite !len_app. pose proof (len_nonneg v). pose proof (len_nonneg t).
  rewrite !(proj2 (Z.leb_le _ _)) by lia. cbn [andb]. f_equal.
  replace (len pre + len v - len pre) with (len v) by lia. unfold len. rewrite !Nat2Z.id.
  by rewrite drop_app_length, take_app_length.
Qed.

Lemma range_from_start v t : range (v ++ t) 0 (0 + len v) = Ok v.
Proof. exact (range_app [] v t). Qed.
Lemma range_all v : range v 0 (len v) = Ok v.
Proof. rewrite <- (app_nil_r v) at 1. exact (range_app [] v []). Qed.

Lemma xor_no_mask a b c d : xor_bytes [a; b; c; d] no_mask = [a; b; c; d].
Proof.
  unfold xor_bytes, no_mask. cbn [replicate zip_with]. change (Z_of_byte x00) with 0. by rewrite !Z.lxor_0_r, !byte_of_Z_of_byte.
Qed.

Lemma addresses_spec v :
  mapped_address v (len v) = Ok (read_addr no_mask v) /\ xor_mapped_address v (len v) = Ok (read_addr cookie_mask v).
Proof.
  unfold mapped_address, xor_mapped_address. destruct (Z.ltb_spec (len v) 8) as [H|H].
  - destruct v as [|x1 [|x2 [|x3 [|x4 [|x5 [|x6 [|x7 [|x8 v]]]]]]]]; try done. unfold len in H. cbn [length] in H. lia.
  - destruct v as [|x1 [|x2 [|x3 [|x4 [|x5 [|x6 [|x7 [|x8 v]]]]]]]]; try (unfold len in H; cbn [length] in H; lia).
    assert (range (x1 :: x2 :: x3 :: x4 :: x5 :: x6 :: x7 :: x8 :: v) 4 8 = Ok [x5; x6; x7; x8]) as Hr.
    { exact (range_app [x1; x2; x3; x4] [x5; x6; x7; x8] v). }
    unfold u16_at, byte_at, read_addr. rewrite Hr.
    change (Z.to_nat 1) with 1%nat. change (Z.to_nat 2) with 2%nat. change (Z.to_nat (2 + 1)) with 3%nat.
    cbn [lookup list_lookup expect mbind result_bind].
    rewrite xor_no_mask. change (be_Z (take 2 no_mask)) with 0. rewrite Z.lxor_0_r.
    change (be_Z (take 2 cookie_mask)) with 0x2112. by destruct (Z_of_byte x2 =? 1).
Qed.

Lemma encode_attr_len a : wf_attr a -> len (encode_attr a) = 4 + 4 * ((len (at_value a) + 3) / 4).
Proof. intros (_ & _ & H). unfold encode_attr. rewrite !len_app, !len_be_bytes. lia. Qed.

(** One turn of the loop on an encoded attribute. *)
Lemma scan_encoded_attr pre a t addr fp :
  wf_attr a -> let len_ := len pre + len (encode_attr a) + len t in
  forall rest, scan_attribute (pre ++ encode_attr a ++ t ++ rest) len_
      {| scan_pos := len pre; mapped_addr := addr; fingerprint_ok := fp |}
    = Ok (Some {| scan_pos := len (pre ++ encode_attr a);
                  mapped_addr := fst (learn pre a (addr, fp)); fingerprint_ok := snd (learn pre a (addr, fp)) |}).
Proof.
  intros Hwf len_ rest. pose proof (encode_attr_len a Hwf) as Hlen. destruct Hwf as (Hty & Hv & Hpad).
  pose proof (len_nonneg pre). pose proof (len_nonneg t). pose proof (len_nonneg (at_value a)). pose proof (len_nonneg (at_pad a)).
  set (n := len (at_value a)) in *. unfold scan_attribute. cbn [scan_pos].
  rewrite (proj2 (Z.leb_gt _ _)) by (unfold len_; lia). rewrite (proj2 (Z.ltb_ge _ _)) by (unfold len_; lia).
  unfold encode_attr. rewrite <- !app_assoc. rewrite u16_at_app by lia. cbn [mbind result_bind].
  replace (len pre + 2) with (len (pre ++ be_bytes 2 (at_type a))) by (by rewrite len_app, len_be_bytes).
  rewrite app_assoc, u16_at_app by (unfold n in *; lia). cbn [mbind result_bind]. fold n.
  rewrite (proj2 (Z.ltb_ge 512 n)) by lia. rewrite (proj2 (Z.ltb_ge len_ _)) by (unfold len_; lia). cbn [orb].
  set (pre2 := (pre ++ be_bytes 2 (at_type a)) ++ be_bytes 2 n).
  replace (len pre + 4) with (len pre2) by (unfold pre2; rewrite !len_app, !len_be_bytes; lia).
  rewrite (app_assoc (pre ++ _)). fold pre2. unfold n at 1. rewrite range_app. cbn [mbind result_bind]. rewrite pad4.
  destruct (addresses_spec (at_value a)) as [Am Ax]. fold n in Am, Ax. rewrite Am, Ax. cbn [mbind result_bind].
  assert (len pre2 + n + (4 * ((n + 3) / 4) - n) = len (pre ++ be_bytes 2 (at_type a) ++ be_bytes 2 n ++ at_value a ++ at_pad a)) as Hpos
    by (unfold pre2; rewrite !len_app, !len_be_bytes; fold n; lia).
  fold n. rewrite Hpos. unfold learn. fold n. destruct (at_type a =? 1); [by destruct (read_addr no_mask _)|].
  destruct (at_type a =? 32); [by destruct (read_addr cookie_mask _)|].
  destruct (Z.eqb_spec (at_type a) 0x8028) as [Et|]; [|done]. destruct (Z.eqb_spec n 4) as [En|]; [|done]. cbn [andb].
  unfold fingerprint. rewrite <- Hpos, En. change (4 * ((4 + 3) / 4)) with 4.
  replace (len pre2 + 4 + (4 - 4) - 4) with (0 + len pre2) by lia.
  pose proof (range_all (at_value a)) as Hr. fold n in Hr. rewrite En in Hr.
  rewrite (range_from_start pre2 _), Hr. cbn [mbind result_bind].
  unfold pre2. by rewrite Et, En, <- !app_assoc.
Qed.

Lemma scan_encoded pre l rest addr fp fuel :
  Forall wf_attr l -> (length l < fuel)%nat ->
  exists s, scan_attributes fuel (pre ++ encode_attrs l ++ rest) (len pre + len (encode_attrs l))
              {| scan_pos := len pre; mapped_addr := addr; fingerprint_ok := fp |} = Ok s
    /\ (mapped_addr s, fingerprint_ok s) = learn_all pre l (addr, fp).
Proof.
  revert pre addr fp fuel. induction l as [|a l IH]; intros pre addr fp fuel Hwf Hf; (destruct fuel as [|fuel]; [cbn in Hf; lia|]).
  - cbn [scan_attributes encode_attrs fmap list_fmap concat]. unfold scan_attribute. cbn [scan_pos].
    rewrite (proj2 (Z.leb_le _ _)) by (unfold len; cbn; lia). cbn [mbind result_bind]. by eexists.
  - apply Forall_cons in Hwf as [Ha Hwf]. cbn [scan_attributes learn_all].
    change (encode_attrs (a :: l)) with (encode_attr a ++ encode_attrs l).
    pose proof (scan_encoded_attr pre a (encode_attrs l) addr fp Ha rest) as Hs. cbv zeta in Hs.
    rewrite <- app_assoc, len_app, Z.add_assoc, Hs. cbn [mbind result_bind].
    destruct (learn pre a (addr, fp)) as [addr' fp'] eqn:El. cbn [fst snd].
    destruct (IH (pre ++ encode_attr a) addr' fp' fuel Hwf) as (s & E1 & E2); [cbn in Hf; lia|].
    rewrite len_app, <- app_assoc in E1. rewrite len_app. exists s. split; [exact E1|exact E2].
Qed.

(** The answer the knowledge of a response's attributes gives. *)
Definition answer (k : Known) : kres SocketAddr :=
  match k with
  | (_, Some false) => net_err "STUN FINGERPRINT validation failed — rejecting response"
  | (Some addr, _) => Ok addr
  | (None, _) => net_err "No valid mapped address found in STUN response"
  end.

Lemma header_len n cookie tx : len cookie = 4 -> len tx = 12 -> len (header n cookie tx) = 20.
Proof. intros Hc Ht. unfold header. rewrite !len_app, !len_be_bytes. lia. Qed.

(** C33: the client decodes a well-formed response of the server asked - any list of
    attributes that fits the buffer, with any values, any padding bytes and any
    trailing zero length - exactly as the reference reading of its attributes: the
    last address named, unless the last fingerprint is wrong.  A wrong
    fingerprint before a right one is not fatal, against the comment in the
    source. *)
Theorem stun_decodes tx addr l n cookie :
  len tx = 12 -> len cookie = 4 -> Forall wf_attr l -> 20 + len (encode_attrs l) <= 512 -> 0 <= n <= len (encode_attrs l) ->
  stun_response tx addr addr (header n cookie tx ++ encode_attrs l)
  = answer (learn_all (header n cookie tx) l (None, None)).
Proof.
  intros Ht Hc Hwf Hfit Hn. pose proof (header_len n cookie tx Hc Ht) as Hh. pose proof (len_nonneg (encode_attrs l)) as H0.
  set (hd := header n cookie tx) in *. set (body := encode_attrs l) in *.
  unfold stun_response. rewrite bool_decide_eq_true_2 by done. cbn [negb].
  assert (len (hd ++ body) = 20 + len body) as Hd by (rewrite len_app; lia).
  replace (Z.min (Z.of_nat BUF_LEN) (len (hd ++ body))) with (20 + len body) by (unfold BUF_LEN; lia).
  rewrite (proj2 (Z.ltb_ge _ 20)) by lia.
  assert (exists z, received (hd ++ body) = hd ++ body ++ z) as [z Hz].
  { unfold received. rewrite take_ge by (unfold len, BUF_LEN in *; lia). rewrite <- app_assoc. eauto. }
  rewrite Hz.
  assert (u16_at (hd ++ body ++ z) 2 = Ok n) as E2.
  { unfold hd, header. rewrite <- !app_assoc. apply (u16_at_app (be_bytes 2 0x0101)). lia. }
  assert (u16_at (hd ++ body ++ z) 0 = Ok 0x0101) as E0.
  { unfold hd, header. rewrite <- !app_assoc. apply (u16_at_app []). lia. }
  assert (range (hd ++ body ++ z) 8 20 = Ok tx) as Ei.
  { pose proof (range_app (be_bytes 2 0x0101 ++ be_bytes 2 n ++ cookie) tx (body ++ z)) as Hr.
    rewrite !len_app, !len_be_bytes, Hc, Ht in Hr. unfold hd, header. rewrite <- !app_assoc. rewrite <- !app_assoc in Hr. exact Hr. }
  rewrite E2. cbn [mbind result_bind]. rewrite (proj2 (Z.ltb_ge _ (n + 20))) by lia.
  rewrite E0. cbn [mbind result_bind]. rewrite Z.eqb_refl, Ei. cbn [negb mbind result_bind].
  rewrite bool_decide_eq_true_2 by done. cbn [negb].
  destruct (scan_encoded hd l z None None (S (Z.to_nat (20 + len body))) Hwf) as (s & Es & Ek).
  { assert (forall k, (length k <= length (encode_attrs k))%nat) as Hk; [|specialize (Hk l); fold body in Hk; unfold len; lia].
    induction k as [|a k IH]; [done|]. change (encode_attrs (a :: k)) with (encode_attr a ++ encode_attrs k).
    rewrite length_app. unfold encode_attr. rewrite length_app, length_be_bytes. cbn [length]. lia. }
  rewrite Hh in Es. fold body in Es. rewrite Es. cbn [mbind result_bind]. rewrite <- Ek. unfold answer.
  destruct (fingerprint_ok s) as [[]|]; [..|]; destruct (mapped_addr s); try done; by rewrite bool_decide_eq_false_2.
Qed.

(** An address that is accepted came from the server asked, in a success
    response to this request. *)
Theorem stun_authentic tx addr src data a :
  stun_response tx addr src data = Ok a ->
  src = addr /\ 20 <= len data /\ take 2 data = be_bytes 2 0x0101 /\ take 12 (drop 8 data) = tx.
Proof.
  unfold stun_response, net_err. destruct (decide (src = addr)) as [->|]; [|by rewrite bool_decide_eq_false_2].
  rewrite bool_decide_eq_true_2 by done. cbn [negb].
  destruct (Z.ltb_spec (Z.min (Z.of_nat BUF_LEN) (len data)) 20) as [|Hl]; [done|].
  assert (exists hd t t', received data = hd ++ t /\ data = hd ++ t' /\ length hd = 20%nat) as (hd & t & t' & -> & -> & Hhd).
  { exists (take 20 data). unfold received. exists (drop 20 (take BUF_LEN data) ++ replicate (BUF_LEN - length data) x00), (drop 20 data).
    rewrite take_drop, length_take. split_and!; [|done|unfold len in Hl; lia].
    rewrite app_assoc. f_equal. replace (take 20 data) with (take 20 (take BUF_LEN data)) by (by rewrite take_take). by rewrite take_drop. }
  destruct (u16_at_ok (hd ++ t) 2) as (ml & -> & _); [lia|rewrite len_app; unfold len; lia|]. cbn [mbind result_bind].
  destruct (_ <? _); [done|].
  destruct hd as [|x [|y hd]]; try done. change (u16_at ((x :: y :: hd) ++ t) 0) with (Ok (E := KyberError) (be_Z [x; y])).
  cbn [mbind result_bind]. destruct (Z.eqb_spec (be_Z [x; y]) 0x0101) as [Et|]; [|done]. cbn [negb].
  unfold range. rewrite (proj2 (Z.leb_le 20 _)) by (rewrite len_app; unfold len; lia). cbn [andb Z.leb Z.compare Pos.compare Pos.compare_cont mbind result_bind].
  case_bool_decide as Hid; [|done]. intros _. split_and!; [done|rewrite len_app; unfold len; lia| |].
  - cbn [take app]. apply be_Z_inj; [done|]. transitivity 0x0101; [exact Et|done].
  - rewrite Hid. cbn [app drop]. change (Z.to_nat 8) with 8%nat. change (Z.to_nat (20 - 8)) with 12%nat. cbn [drop].
    rewrite !drop_app_le by (cbn in Hhd; lia). rewrite !take_app_le by (rewrite length_drop; cbn in Hhd; lia). done.
Qed.

End Stun.

(** ** Concrete responses *)

Definition toy_crc (b : bytes) : Z := be_Z b mod 2 ^ 32.
Definition tx12 : bytes := be_bytes 12 99.
Definition server : SocketAddr := {| addr_ip := [x01; x02; x03; x04]; addr_port := 3478 |}.
(** 203.0.113.9:4660 masked, and 10.0.0.1:5000 in the clear. *)
Definition public_addr : SocketAddr := {| addr_ip := [xcb; x00; x71; x09]; addr_port := 4660 |}.
Definition xor_attr : Attribute :=
  {| at_type := 0x0020;
     at_value := [x00; x01] ++ be_bytes 2 (Z.lxor 4660 0x2112) ++ xor_bytes (addr_ip public_addr) cookie_mask; at_pad := [] |}.
Definition plain_attr : Attribute :=
  {| at_type := 0x0001; at_value := [x00; x01] ++ be_bytes 2 5000 ++ [x0a; x00; x00; x01]; at_pad := [] |}.
Definition software_attr : Attribute := {| at_type := 0x8022; at_value := bstr "coturn"; at_pad := [x00; x00] |}.

Lemma stun_decodes_witness :
  stun_response toy_crc tx12 server server (header 24 cookie_mask tx12 ++ encode_attrs [software_attr; xor_attr]) = Ok public_addr.
Proof.
  rewrite (stun_decodes toy_crc tx12 server [software_attr; xor_attr] 24 cookie_mask); [by vm_compute|done|done| |by vm_compute|].
  - repeat constructor; by vm_compute.
  - by vm_compute.
Defined.

Lemma stun_authentic_witness :
  server = server /\ 20 <= len (header 12 cookie_mask tx12 ++ encode_attrs [xor_attr])
  /\ take 2 (header 12 cookie_mask tx12 ++ encode_attrs [xor_attr]) = be_bytes 2 0x0101
  /\ take 12 (drop 8 (header 12 cookie_mask tx12 ++ encode_attrs [xor_attr])) = tx12.
Proof.
  apply (stun_authentic toy_crc tx12 server server (header 12 cookie_mask tx12 ++ encode_attrs [xor_attr]) public_addr). by vm_compute.
Defined.

(** The last address wins, the plain one too: a MAPPED-ADDRESS after the
    XOR-MAPPED-ADDRESS replaces it. *)
Lemma plain_address_replaces_xor :
  stun_response toy_crc tx12 server server (header 24 cookie_mask tx12 ++ encode_attrs [xor_attr; plain_attr])
  = Ok {| addr_ip := [x0a; x00; x00; x01]; addr_port := 5000 |}.
Proof. by vm_compute. Qed.
