(* ===== verification/Utils.v ===== *)
(** * Utils: clipboard normalization and deduplication (core-crypto/src/utils.rs)

    Text is its UTF-8 bytes.  The deduplicator is shared between threads; each
    method is one critical section, so a function of its state. *)

From S2P Require Import Prelude Error Primitives Json Toy.

(** ** Normalization *)

(** [str::replace], CR LF by LF. *)
Fixpoint replace_crlf (t : bytes) : bytes :=
  match t with
  | x0d :: ((x0a :: _) as t') => replace_crlf t'
  | x :: t' => x :: replace_crlf t'
  | [] => []
  end.

(** The encodings of the characters with the White_Space property. *)
Definition white_space : list bytes :=
  [[x09]; [x0a]; [x0b]; [x0c]; [x0d]; [x20]; [xc2; x85]; [xc2; xa0]; [xe1; x9a; x80];
   [xe2; x80; x80]; [xe2; x80; x81]; [xe2; x80; x82]; [xe2; x80; x83]; [xe2; x80; x84]; [xe2; x80; x85];
   [xe2; x80; x86]; [xe2; x80; x87]; [xe2; x80; x88]; [xe2; x80; x89]; [xe2; x80; x8a];
   [xe2; x80; xa8]; [xe2; x80; xa9]; [xe2; x80; xaf]; [xe2; x81; x9f]; [xe3; x80; x80]].

(** One white-space character off the end of the (reversed) text. *)
Fixpoint strip_any (encs : list bytes) (r : bytes) : option bytes :=
  match encs with
  | [] => None
  | e :: encs' =>
      if bool_decide (take (length e) r = rev e) then Some (drop (length e) r) else strip_any encs' r
  end.
Fixpoint trim_rev (fuel : nat) (r : bytes) : bytes :=
  match fuel with
  | O => r
  | S f => match strip_any white_space r with Some r' => trim_rev f r' | None => r end
  end.
Definition trim_end (t : bytes) : bytes := rev (trim_rev (length t) (rev t)).

Definition normalize_clipboard_text (t : bytes) : bytes := trim_end (replace_crlf t).

(** ** The deduplicator *)

Record ClipboardDeduplicator := {
  history : list string;
  is_processing_remote_update : bool;
  max_history : nat
}.
Definition new_deduplicator : ClipboardDeduplicator :=
  {| history := []; is_processing_remote_update := false; max_history := 5 |}.

Definition push_history (h : string) (d : ClipboardDeduplicator) : ClipboardDeduplicator :=
  {| history := (if (max_history d <=? length (history d))%nat then tail (history d) else history d) ++ [h];
     is_processing_remote_update := is_processing_remote_update d; max_history := max_history d |}.

(** [with_remote_update]: the closure runs with the flag set, unless it is set
    already; the guard clears it, after a panic too. *)
Definition with_remote_update {A} (f : ClipboardDeduplicator -> A * ClipboardDeduplicator) (d : ClipboardDeduplicator)
  : option A * ClipboardDeduplicator :=
  if is_processing_remote_update d then (None, d)
  else
    let '(x, d') := f {| history := history d; is_processing_remote_update := true; max_history := max_history d |} in
    (Some x, {| history := history d'; is_processing_remote_update := false; max_history := max_history d' |}).

Section Dedup.
Context `{P : Primitives} `{X : Hex}.

Definition hash_clipboard_text (t : bytes) : string := hex_encode (sha256 (normalize_clipboard_text t)).

Definition is_suppressed (t : bytes) (d : ClipboardDeduplicator) : bool :=
  if is_processing_remote_update d then true
  else existsb (fun h => bool_decide (h = hash_clipboard_text t)) (history d).

Definition record_text (t : bytes) (d : ClipboardDeduplicator) : ClipboardDeduplicator :=
  if bool_decide (hash_clipboard_text t ∈ history d) then d else push_history (hash_clipboard_text t) d.

Definition check_and_record (t : bytes) (d : ClipboardDeduplicator) : bool * ClipboardDeduplicator :=
  if existsb (fun h => bool_decide (h = hash_clipboard_text t)) (history d) then (false, d)
  else (true, push_history (hash_clipboard_text t) d).

(** ** Lemmas *)

Record wf_dedup (d : ClipboardDeduplicator) : Prop := {
  wd_cap : max_history d = 5%nat;
  wd_len : (length (history d) <= 5)%nat;
  wd_nodup : NoDup (history d)
}.

Lemma known_spec (h : string) (l : list string) : existsb (fun x => bool_decide (x = h)) l = bool_decide (h ∈ l).
Proof.
  apply eq_true_iff_eq. rewrite existsb_exists, bool_decide_eq_true. setoid_rewrite bool_decide_eq_true.
  setoid_rewrite <- list_elem_of_In. naive_solver.
Qed.

Lemma wf_push h d : wf_dedup d -> h ∉ history d -> wf_dedup (push_history h d).
Proof.
  intros [Hc Hl Hn] Hh. unfold push_history. rewrite Hc. destruct (Nat.leb_spec 5 (length (history d))); split; cbn; try done.
  - destruct (history d); rewrite length_app; cbn in *; lia.
  - destruct (history d) as [|x l]; cbn in *; [apply NoDup_singleton|]. apply NoDup_cons in Hn as [Hx Hn].
    apply NoDup_app. split_and!; [done| |apply NoDup_singleton]. intros y Hy ->%list_elem_of_singleton. apply Hh. set_solver.
  - rewrite length_app. cbn. lia.
  - apply NoDup_app. split_and!; [done| |apply NoDup_singleton]. intros y Hy ->%list_elem_of_singleton. done.
Qed.

Lemma wf_check t d : wf_dedup d -> wf_dedup (snd (check_and_record t d)).
Proof.
  intros H. unfold check_and_record. rewrite known_spec. case_bool_decide; [done|]. by apply wf_push.
Qed.

(** Texts offered one after the other. *)
Definition offer_all (ts : list bytes) (d : ClipboardDeduplicator) : ClipboardDeduplicator :=
  foldl (fun d t => snd (check_and_record t d)) d ts.

(** [h] is among the last [n] recorded: at most [5 - n] newer ones. *)
Definition recent_hash (n : nat) (h : string) (d : ClipboardDeduplicator) : Prop :=
  exists l k, history d = l ++ h :: k /\ (length k + n <= 5)%nat.

Lemma recent_check n h t d :
  wf_dedup d -> recent_hash (S n) h d -> (0 < n)%nat -> recent_hash n h (snd (check_and_record t d)).
Proof.
  intros H (l & k & Hd & Hk) Hn. unfold check_and_record. rewrite known_spec. case_bool_decide as Hin.
  { exists l, k. split; [done|lia]. }
  unfold push_history, recent_hash. cbn [snd history]. rewrite (wd_cap _ H), Hd. destruct (Nat.leb_spec 5 (length (l ++ h :: k))) as [H5|H5].
  - rewrite length_app in H5. cbn in H5. destruct l as [|x l]; [cbn in H5; lia|]. cbn [tail app].
    exists l, (k ++ [hash_clipboard_text t]). rewrite <- app_assoc, length_app. cbn. split; [done|lia].
  - exists l, (k ++ [hash_clipboard_text t]). rewrite <- app_assoc, length_app. cbn. split; [done|lia].
Qed.

Lemma recent_offer h ts n d :
  wf_dedup d -> recent_hash (length ts + S n) h d -> recent_hash (S n) h (offer_all ts d).
Proof.
  revert d. induction ts as [|t ts IH]; intros d H Hr; [done|]. cbn [offer_all foldl]. apply IH; [by apply wf_check|].
  apply recent_check; [done| |lia]. by replace (S (length ts + S n)) with (length (t :: ts) + S n)%nat by (cbn; lia).
Qed.

(** A text that was recorded as new is not taken for new again - under any line
    ending and trailing white space that normalizes alike - until five other
    texts have been recorded; the history stays within its five places. *)
Theorem echo_suppressed t t' ts d :
  wf_dedup d -> fst (check_and_record t d) = true -> (length ts <= 4)%nat ->
  normalize_clipboard_text t' = normalize_clipboard_text t ->
  let d' := offer_all ts (snd (check_and_record t d)) in
  fst (check_and_record t' d') = false /\ is_suppressed t' d' = true /\ (length (history d') <= 5)%nat.
Proof.
  intros H Hnew Hts Hnorm d'. assert (wf_dedup (snd (check_and_record t d))) as H1 by (by apply wf_check).
  assert (hash_clipboard_text t' = hash_clipboard_text t) as Hh by (unfold hash_clipboard_text; by rewrite Hnorm).
  assert (recent_hash (5 - length ts) (hash_clipboard_text t) d') as (l & k & Hd & _).
  { replace (5 - length ts)%nat with (S (4 - length ts)) by lia. apply recent_offer; [done|].
    unfold check_and_record in Hnew |- *. destruct (existsb _ _); [done|]. eexists _, []. split; [done|]. cbn. lia. }
  assert (hash_clipboard_text t ∈ history d') as Hin by (rewrite Hd; set_solver).
  assert (forall ts d, wf_dedup d -> wf_dedup (offer_all ts d)) as Hoff.
  { intros l'. induction l' as [|x l' IH]; intros e He; [done|]. apply IH. by apply wf_check. }
  unfold check_and_record, is_suppressed. rewrite !known_spec, Hh, bool_decide_eq_true_2 by done.
  split_and!; [done|by destruct (is_processing_remote_update d')|]. by apply wd_len, Hoff.
Qed.

End Dedup.

(** ** Line endings *)

Fixpoint to_crlf (t : bytes) : bytes :=
  match t with [] => [] | x0a :: t' => x0d :: x0a :: to_crlf t' | x :: t' => x :: to_crlf t' end.

Lemma replace_cons x t : x <> x0d -> replace_crlf (x :: t) = x :: replace_crlf t.
Proof. by destruct x. Qed.

Lemma replace_to_crlf t : x0d ∉ t -> replace_crlf (to_crlf t) = replace_crlf t.
Proof.
  induction t as [|x t IH]; [done|]. intros [Hx Ht]%not_elem_of_cons. specialize (IH Ht).
  destruct (decide (x = x0a)) as [->|Hn].
  - cbn [to_crlf]. change (replace_crlf (x0d :: x0a :: to_crlf t)) with (replace_crlf (x0a :: to_crlf t)).
    rewrite !replace_cons by done. by rewrite IH.
  - replace (to_crlf (x :: t)) with (x :: to_crlf t) by (by destruct x). rewrite !replace_cons by done. by rewrite IH.
Qed.

(** The hash of a text does not depend on whether its lines end in LF or CR LF. *)
Theorem line_endings_agree `{P : Primitives} `{X : Hex} t :
  x0d ∉ t -> hash_clipboard_text (to_crlf t) = hash_clipboard_text t.
Proof. intros H. unfold hash_clipboard_text, normalize_clipboard_text. by rewrite replace_to_crlf. Qed.

(** A lone CR before a CR LF survives one normalization and not the next. *)
Lemma normalize_not_idempotent :
  normalize_clipboard_text (normalize_clipboard_text [x0d; x0d; x0a; x41]) <> normalize_clipboard_text [x0d; x0d; x0a; x41].
Proof. by vm_compute. Qed.

Import Toy ToyJson.

Lemma wf_new_dedup : wf_dedup new_deduplicator.
Proof. split; cbn; [done|lia|constructor]. Qed.

Lemma echo_suppressed_witness :
  let d' := offer_all [bstr "b"; bstr "c"] (snd (check_and_record (bstr "a") new_deduplicator)) in
  fst (check_and_record (bstr "a  ") d') = false /\ is_suppressed (bstr "a  ") d' = true /\ (length (history d') <= 5)%nat.
Proof.
  apply (echo_suppressed (bstr "a") (bstr "a  ") [bstr "b"; bstr "c"] new_deduplicator wf_new_dedup); [by vm_compute|cbn; lia|by vm_compute].
Defined.

Lemma line_endings_agree_witness :
  hash_clipboard_text (to_crlf [x61; x0a; x62]) = hash_clipboard_text [x61; x0a; x62].
Proof. apply (line_endings_agree [x61; x0a; x62]). by apply (bool_decide_eq_true_1 (x0d ∉ [x61; x0a; x62])); vm_compute. Defined.
