(* ===== verification/StrOps.v ===== *)
(** * StrOps: the string functions of the Rust standard library the program uses

    A [&str] is a [string] whose characters are its UTF-8 bytes; the separators
    searched for are ASCII, so searching bytes and searching characters agree. *)

From Stdlib.Strings Require Import Ascii.
From S2P Require Import Prelude Error Json.

Definition code (c : ascii) : Z := Z.of_nat (nat_of_ascii c).
Definition chars (s : string) : list ascii := String.list_ascii_of_string s.
Definition free_of (c : ascii) (s : string) : Prop := Forall (fun a => a <> c) (chars s).

(** [str::splitn(n, c)], collected. *)
Fixpoint splitn (n : nat) (c : ascii) (s : string) : list string :=
  match n with
  | O => []
  | S O => [s]
  | S n' => match split_once c s with Some (l, r) => l :: splitn n' c r | None => [s] end
  end.

(** [str::strip_prefix]. *)
Fixpoint strip_prefix (p s : string) : option string :=
  match p, s with
  | EmptyString, _ => Some s
  | String a p', String b s' => if decide (a = b) then strip_prefix p' s' else None
  | String _ _, EmptyString => None
  end.

(** [&s[..n]]: a panic when [n] is inside a character. *)
Definition is_continuation (c : ascii) : bool := (128 <=? code c) && (code c <=? 191).
Fixpoint str_take (n : nat) (s : string) : kres string :=
  match n, s with
  | O, String c _ => if is_continuation c then Panic "byte index is not a char boundary" else Ok ""
  | O, EmptyString => Ok ""
  | S n', String c s' => r ← str_take n' s'; Ok (String c r)
  | S _, EmptyString => Panic "byte index out of bounds"
  end.

(** ** Decimal numbers *)

Definition digit (c : ascii) : option Z :=
  if (48 <=? code c) && (code c <=? 57) then Some (code c - 48) else None.

Fixpoint parse_digits (acc : Z) (s : string) : option Z :=
  match s with
  | EmptyString => Some acc
  | String c s' =>
      d ← digit c;
      let acc := acc * 10 + d in
      if u64_max <? acc then None else parse_digits acc s'
  end.
(** [str::parse::<u64>]: a leading plus sign is accepted, nothing else. *)
Definition parse_u64 (s : string) : option Z :=
  match s with
  | EmptyString => None
  | String c s' =>
      if decide (c = "+"%char) then match s' with EmptyString => None | _ => parse_digits 0 s' end
      else parse_digits 0 s
  end.

(** The decimal text of a number below [10 ^ fuel]. *)
Definition digit_char (d : Z) : ascii := ascii_of_nat (Z.to_nat (48 + d)).
Fixpoint decimal_loop (fuel : nat) (n : Z) (rest : string) : string :=
  match fuel with
  | O => rest
  | S f => let rest := String (digit_char (n mod 10)) rest in if n <? 10 then rest else decimal_loop f (n / 10) rest
  end.
(** [format!("{n}")] of a [u64], which has at most twenty digits. *)
Definition decimal (n : Z) : string := decimal_loop 20 n "".

Lemma code_digit_char d : 0 <= d < 10 -> code (digit_char d) = 48 + d.
Proof. intros H. unfold code, digit_char. rewrite nat_ascii_embedding; lia. Qed.

Lemma digit_digit_char d : 0 <= d < 10 -> digit (digit_char d) = Some d.
Proof.
  intros H. unfold digit. rewrite code_digit_char by done.
  rewrite (proj2 (Z.leb_le _ _)), (proj2 (Z.leb_le _ _)) by lia. cbn [andb]. f_equal. lia.
Qed.

Lemma parse_decimal_loop fuel n rest :
  0 <= n <= u64_max -> n < 10 ^ Z.of_nat fuel -> parse_digits 0 (decimal_loop fuel n rest) = parse_digits n rest.
Proof.
  revert n rest. induction fuel as [|f IH]; intros n rest Hn Hf; [cbn in Hf; by replace n with 0 by lia|].
  pose proof (Z.mod_pos_bound n 10 ltac:(lia)) as Hm. pose proof (Z.div_mod n 10 ltac:(lia)) as Hd.
  rewrite Nat2Z.inj_succ, Z.pow_succ_r in Hf by lia. cbn [decimal_loop].
  assert (forall a, 10 * a + n mod 10 = n -> parse_digits a (String (digit_char (n mod 10)) rest) = parse_digits n rest) as Hstep.
  { intros a Ha. cbn [parse_digits]. rewrite digit_digit_char by lia. cbn [mbind option_bind].
    replace (a * 10 + n mod 10) with n by lia. by rewrite (proj2 (Z.ltb_ge _ _)) by lia. }
  case (Z.ltb_spec n 10) as [H|H].
  - apply Hstep. rewrite Z.mod_small; lia.
  - rewrite IH; [apply Hstep; lia| |apply Z.div_lt_upper_bound; lia]. split; [apply Z.div_pos; lia|].
    apply Z.div_le_upper_bound; lia.
Qed.

(** Every character of a decimal text is a digit. *)
Lemma decimal_loop_digits fuel n rest :
  0 <= n -> Forall (fun c => is_Some (digit c)) (chars rest) -> Forall (fun c => is_Some (digit c)) (chars (decimal_loop fuel n rest)).
Proof.
  revert n rest. induction fuel as [|f IH]; intros n rest Hn Hr; [done|]. cbn [decimal_loop].
  pose proof (Z.mod_pos_bound n 10 ltac:(lia)) as Hm.
  assert (Forall (fun c => is_Some (digit c)) (chars (String (digit_char (n mod 10)) rest))) as H.
  { constructor; [|done]. rewrite digit_digit_char by done. by eexists. }
  destruct (n <? 10); [done|]. apply IH; [apply Z.div_pos; lia|done].
Qed.

Lemma decimal_digits n : 0 <= n -> Forall (fun c => is_Some (digit c)) (chars (decimal n)).
Proof. intros H. apply decimal_loop_digits; [done|constructor]. Qed.

Lemma decimal_free n c : 0 <= n -> digit c = None -> free_of c (decimal n).
Proof.
  intros Hn Hc. eapply Forall_impl; [by apply decimal_digits|]. intros a [d Ha] ->. congruence.
Qed.

Lemma parse_u64_decimal n : 0 <= n <= u64_max -> parse_u64 (decimal n) = Some n.
Proof.
  intros Hn. assert (parse_digits 0 (decimal n) = Some n) as Hp.
  { unfold decimal. rewrite parse_decimal_loop; [done|done|]. unfold u64_max in Hn. cbn. lia. }
  pose proof (decimal_digits n ltac:(lia)) as Hd. unfold parse_u64. destruct (decimal n) as [|c s] eqn:E.
  - exfalso. revert E. unfold decimal. assert (forall f m r, r <> "" -> decimal_loop f m r <> "") as H.
    { induction f as [|f IH]; intros m r Hr; [done|]. cbn [decimal_loop]. destruct (m <? 10); [done|by apply IH]. }
    change (decimal_loop 20 n "") with (if n <? 10 then String (digit_char (n mod 10)) "" else decimal_loop 19 (n / 10) (String (digit_char (n mod 10)) "")).
    destruct (n <? 10); [done|by apply H].
  - rewrite decide_False; [done|]. intros ->. by apply Forall_cons in Hd as [[d H] _].
Qed.

(** ** Splitting *)

Lemma splitn_S n c s :
  splitn (S (S n)) c s = match split_once c s with Some (l, r) => l :: splitn (S n) c r | None => [s] end.
Proof. done. Qed.

Lemma splitn_app n c l r : free_of c l -> splitn (S (S n)) c (l +:+ String c r) = l :: splitn (S n) c r.
Proof. intros H. cbn [splitn]. by rewrite split_once_app. Qed.

Lemma split_once_free c s : free_of c s -> split_once c s = None.
Proof.
  induction s as [|a s IH]; [done|]. intros [Ha Hs]%Forall_cons. cbn. rewrite decide_False by done. by rewrite IH.
Qed.

Lemma splitn_free n c s : free_of c s -> splitn (S n) c s = [s].
Proof. intros H. destruct n; [done|]. cbn [splitn]. by rewrite split_once_free. Qed.

(** A text is as many fields as [splitn] gives, with its separators. *)
Fixpoint joined (c : ascii) (l : list string) : string :=
  match l with [] => "" | [s] => s | s :: l' => s +:+ String c (joined c l') end.

Lemma split_once_sound c s l r : split_once c s = Some (l, r) -> s = l +:+ String c r /\ free_of c l.
Proof.
  revert l r. induction s as [|a s IH]; intros l r; [done|]. cbn. case_decide as H.
  - intros [= <- <-]. subst a. split; [done|constructor].
  - destruct (split_once c s) as [[l' r']|] eqn:E; [|done]. intros [= <- <-]. destruct (IH l' r' eq_refl) as [-> Hf].
    split; [done|by constructor].
Qed.

Lemma splitn_joined n c s : joined c (splitn (S n) c s) = s.
Proof.
  revert s. induction n as [|n IH]; intros s; [done|]. rewrite splitn_S. destruct (split_once c s) as [[l r]|] eqn:E; [|done].
  apply split_once_sound in E as [-> _]. specialize (IH r).
  destruct (splitn (S n) c r) as [|x q] eqn:Es; [by destruct n; cbn in Es; [|destruct (split_once c r) as [[]|]]|]. transitivity (l +:+ String c (joined c (x :: q))); [done|by rewrite IH].
Qed.
