(* ===== verification/Privilege.v ===== *)
(** * Privilege: confirmation tokens of privileged commands (desktop commands/security.rs, commands/mod.rs)

    A token is minted after the user confirmed a native dialog, lives thirty
    seconds and is used once.  The dialog's answer, the random token and the
    clock are arguments. *)

From S2P Require Import Prelude RatchetState.

Definition TOKEN_TTL : Z := secs 30.
Definition TOKEN_MAX_OUTSTANDING_PER_ACTION : nat := 4.
Definition ALLOWED_TOKEN_ACTIONS : list string :=
  ["get_pairing_config"; "get_pairing_nonce"; "delete_connection"; "trigger_panic_self_destruct"; "grant_file_access";
   "open_local_file"; "request_firewall_open"; "create_tor_onion"; "execute_boa_script"; "execute_fallback_script";
   "read_real_clipboard"; "write_real_clipboard"; "open_external_url"; "store_key_in_secure_enclave";
   "generate_shamir_recovery_shares"; "reconstruct_key_from_shamir_shares"; "bind_pkcs11_yubikey_hardware_token"].

(** (action, token, minted at), oldest first. *)
Abbreviation Tokens := (list (string * string * Z)).
Definition live_tokens (now : Z) (st : Tokens) : Tokens := filter (fun e => sat_sub now (snd e) < TOKEN_TTL) st.
Definition outstanding_tokens (action : string) (st : Tokens) : nat := length (filter (fun e => fst (fst e) = action) st).

Definition request_privilege_token (confirmed : bool) (token : string) (now : Z) (action : string) (st : Tokens)
  : result string string * Tokens :=
  if negb (bool_decide (action ∈ ALLOWED_TOKEN_ACTIONS))
  then (Err "Privileged action '{action}' is not in the allowlist — token refused (audit F15)", st)
  else if negb confirmed
  then (Err "Privileged action '{action}' was not confirmed by the user in the native dialog", st)
  else
    let st := live_tokens now st in
    if decide (TOKEN_MAX_OUTSTANDING_PER_ACTION <= outstanding_tokens action st)%nat
    then (Err "Too many outstanding tokens for '{action}' ({outstanding}) — reuse or wait for expiry (audit #15)", st)
    else (Ok token, st ++ [(action, token, now)]).

(** [position] and [remove]: the first entry of the action and the token. *)
Fixpoint take_token (action token : string) (st : Tokens) : option Tokens :=
  match st with
  | [] => None
  | (a, t, at_) :: st => if decide (a = action /\ t = token) then Some st else cons (a, t, at_) <$> take_token action token st
  end.

Definition consume_privilege_token (now : Z) (action token : string) (st : Tokens) : bool * Tokens :=
  let st := live_tokens now st in
  match take_token action token st with
  | Some st => (true, st)
  | None => (false, st)
  end.

Definition gate_tier2 (now : Z) (action token : string) (st : Tokens) : result string unit * Tokens :=
  let '(ok, st) := consume_privilege_token now action token st in
  (if ok : bool then Ok tt else Err "Privileged action '{action}' requires a fresh user-gesture confirmation token", st).

(** ** Runs *)

Inductive TokenOp :=
| Request (confirmed : bool) (token : string) (now : Z) (action : string)
| Consume (now : Z) (action token : string).

Inductive TokenEvent :=
| Granted (action token : string) (at_ : Z)
| Spent (action token : string) (at_ : Z)
| Refused.
#[export] Instance token_event_eq : EqDecision TokenEvent.
Proof. solve_decision. Defined.

Definition exec_token (op : TokenOp) (st : Tokens) : TokenEvent * Tokens :=
  match op with
  | Request confirmed token now action =>
      match request_privilege_token confirmed token now action st with
      | (Ok t, st) => (Granted action t now, st)
      | (_, st) => (Refused, st)
      end
  | Consume now action token =>
      let '(ok, st) := consume_privilege_token now action token st in
      (if ok : bool then Spent action token now else Refused, st)
  end.

Fixpoint run_tokens (ops : list TokenOp) (st : Tokens) : list TokenEvent * Tokens :=
  match ops with
  | [] => ([], st)
  | op :: ops =>
      let '(e, st) := exec_token op st in
      let '(es, st) := run_tokens ops st in (e :: es, st)
  end.

Definition count_if {A} (f : A -> bool) (l : list A) : nat := length (List.filter f l).
Definition grants (action : string) : list TokenEvent -> nat :=
  count_if (fun e => match e with Granted a _ _ => bool_decide (a = action) | _ => false end).
Definition spends (action : string) : list TokenEvent -> nat :=
  count_if (fun e => match e with Spent a _ _ => bool_decide (a = action) | _ => false end).
(** The dialogs the user confirmed for an action. *)
Definition gestures (action : string) : list TokenOp -> nat :=
  count_if (fun op => match op with Request true _ _ a => bool_decide (a = action) | _ => false end).

Lemma count_app {A} (f : A -> bool) l l' : count_if f (l ++ l') = (count_if f l + count_if f l')%nat.
Proof. unfold count_if. by rewrite List.filter_app, length_app. Qed.

(** Every token spent or outstanding was granted; the outstanding ones of an
    action are at most four. *)
Record token_inv (es : list TokenEvent) (st : Tokens) : Prop := {
  ti_count a : (spends a es + outstanding_tokens a st <= grants a es)%nat;
  ti_granted a t n : (a, t, n) ∈ st -> Granted a t n ∈ es /\ a ∈ ALLOWED_TOKEN_ACTIONS;
  ti_bounded a : (outstanding_tokens a st <= TOKEN_MAX_OUTSTANDING_PER_ACTION)%nat
}.

Lemma outstanding_sub a st st' : st' `sublist_of` st -> (outstanding_tokens a st' <= outstanding_tokens a st)%nat.
Proof.
  unfold outstanding_tokens. induction 1 as [|x l l' _ IH|x l l' _ IH]; rewrite ?filter_cons; [done|..]; destruct (decide _); cbn; lia.
Qed.

Lemma live_sub now st : live_tokens now st `sublist_of` st.
Proof. apply sublist_filter. Qed.

Lemma inv_sub es st st' : st' `sublist_of` st -> token_inv es st -> token_inv es st'.
Proof.
  intros Hs [Hc Hg Hb]. split.
  - intros a. pose proof (Hc a). pose proof (outstanding_sub a st st' Hs). lia.
  - intros a t n Hin. apply Hg. by eapply elem_of_sublist.
  - intros a. pose proof (Hb a). pose proof (outstanding_sub a st st' Hs). lia.
Qed.

Lemma inv_refused es st : token_inv es st -> token_inv (es ++ [Refused]) st.
Proof.
  intros [Hc Hg Hb]. split; [..|done].
  - intros a. unfold spends, grants. rewrite !count_app. specialize (Hc a). unfold spends, grants in Hc. cbn. lia.
  - intros a t n Hin. destruct (Hg a t n Hin). set_solver.
Qed.

Lemma take_token_some action token st st' :
  take_token action token st = Some st' ->
  st' `sublist_of` st
  /\ (exists n, (action, token, n) ∈ st)
  /\ outstanding_tokens action st = S (outstanding_tokens action st').
Proof.
  revert st'. induction st as [|[[a t] n] st IH]; intros st'; cbn [take_token]; [done|]. case_decide as H.
  - destruct H as [-> ->]. intros [= <-]. split_and!; [by constructor|by exists n; left|].
    unfold outstanding_tokens. by rewrite filter_cons, decide_True.
  - intros (r & Hr & ->)%fmap_Some. destruct (IH r Hr) as (Hs & [n' Hn] & Ho). split_and!; [by constructor|by exists n'; right|].
    unfold outstanding_tokens in *. rewrite !filter_cons. destruct (decide _); cbn; lia.
Qed.

Lemma exec_inv op es st : token_inv es st -> token_inv (es ++ [fst (exec_token op st)]) (snd (exec_token op st)).
Proof.
  intros HI. destruct op as [confirmed token now action|now action token]; cbn.
  - unfold request_privilege_token. case_bool_decide as Ha; [|by apply inv_refused]. destruct confirmed; [|by apply inv_refused].
    cbn [negb]. pose proof (inv_sub _ _ _ (live_sub now st) HI) as [Hc Hg Hb]. set (st1 := live_tokens now st) in *.
    case_decide as Hd; [by apply inv_refused|]. cbn [fst snd].
    assert (forall a, outstanding_tokens a (st1 ++ [(action, token, now)])
                      = (outstanding_tokens a st1 + if decide (action = a) then 1 else 0)%nat) as Ho.
    { intros a. unfold outstanding_tokens. rewrite filter_app, length_app, filter_cons. cbn [fst]. by destruct (decide (action = a)). }
    split.
    + intros a. unfold spends, grants. rewrite !count_app, Ho. specialize (Hc a). unfold spends, grants in Hc. cbn.
      destruct (decide (action = a)) as [E|E]; [rewrite bool_decide_eq_true_2 by done|rewrite bool_decide_eq_false_2 by done]; cbn; lia.
    + intros a t n [Hin|Hin]%elem_of_app; [destruct (Hg a t n Hin); set_solver|]. apply list_elem_of_singleton in Hin. set_solver.
    + intros a. rewrite Ho. destruct (decide (action = a)) as [<-|]; [lia|]. specialize (Hb a). lia.
  - unfold consume_privilege_token. pose proof (inv_sub _ _ _ (live_sub now st) HI) as HI1.
    destruct (take_token action token (live_tokens now st)) as [st2|] eqn:E; [|by apply inv_refused].
    apply take_token_some in E as (Hs & _ & Ho). pose proof (inv_sub _ _ _ Hs HI1) as [_ Hg Hb]. split; cbn [fst snd]; [|set_solver|done].
    intros a. unfold spends, grants. rewrite !count_app. pose proof (ti_count _ _ HI1 a) as Hc. unfold spends, grants in Hc. cbn.
    destruct (decide (action = a)) as [<-|Hne].
    + rewrite bool_decide_eq_true_2 by done. cbn. lia.
    + rewrite bool_decide_eq_false_2 by done. cbn. pose proof (outstanding_sub a _ _ Hs). lia.
Qed.

Lemma tokens_inv ops es st :
  token_inv es st -> token_inv (es ++ fst (run_tokens ops st)) (snd (run_tokens ops st)).
Proof.
  revert es st. induction ops as [|op ops IH]; intros es st HI; cbn; [by rewrite app_nil_r|].
  pose proof (exec_inv op es st HI) as H1. destruct (exec_token op st) as [e st1]. cbn [fst snd] in H1.
  specialize (IH _ _ H1). destruct (run_tokens ops st1) as [es' st2]. cbn [fst snd] in *. by rewrite <- app_assoc in IH.
Qed.

Lemma inv_nil : token_inv [] [].
Proof. split; [done|set_solver|]. intros a. cbn. unfold TOKEN_MAX_OUTSTANDING_PER_ACTION. lia. Qed.

Lemma grants_gestures a ops st : (grants a (fst (run_tokens ops st)) <= gestures a ops)%nat.
Proof.
  revert st. induction ops as [|op ops IH]; intros st; [done|]. cbn [run_tokens].
  destruct (exec_token op st) as [e st1] eqn:E. specialize (IH st1). destruct (run_tokens ops st1) as [es st2]. cbn [fst] in *.
  unfold grants, gestures in *. change (e :: es) with ([e] ++ es). change (op :: ops) with ([op] ++ ops). rewrite !count_app.
  enough (count_if (fun e => match e with Granted a0 _ _ => bool_decide (a0 = a) | _ => false end) [e]
          <= count_if (fun op => match op with Request true _ _ a0 => bool_decide (a0 = a) | _ => false end) [op])%nat by lia.
  destruct op as [confirmed token now action|now action token]; cbn in E.
  - unfold request_privilege_token in E. case_bool_decide; cbn [negb] in E; [|simplify_eq; apply Nat.le_0_l].
    destruct confirmed; cbn [negb] in E; [|simplify_eq; apply Nat.le_0_l]. case_decide; simplify_eq; [apply Nat.le_0_l|].
    unfold count_if. cbn [List.filter]. destruct (bool_decide _); cbn; lia.
  - destruct (consume_privilege_token now action token st) as [[] ?]; simplify_eq; apply Nat.le_0_l.
Qed.

(** C22: In every run of requests and uses, whatever tokens the attacker tries: the
    privileged actions that go through are, for each action, at most the dialogs
    the user confirmed for it; and a use that goes through at the end has a token
    granted for this action less than thirty seconds before, for an action of the
    allow-list, not yet used up by the uses before it. *)
Theorem privilege_needs_gesture ops now action token :
  let run := run_tokens ops [] in
  (forall a, (spends a (fst run) <= gestures a ops)%nat)
  /\ (fst (consume_privilege_token now action token (snd run)) = true ->
      action ∈ ALLOWED_TOKEN_ACTIONS
      /\ (exists minted, Granted action token minted ∈ fst run /\ now - minted < TOKEN_TTL)
      /\ (spends action (fst run) < gestures action ops)%nat).
Proof.
  intros run. pose proof (tokens_inv ops [] [] inv_nil) as [Hc Hg Hb]. cbn [app] in *. subst run. split.
  - intros a. pose proof (Hc a). pose proof (grants_gestures a ops []). lia.
  - unfold consume_privilege_token. destruct (take_token _ _ _) as [st'|] eqn:E; [|done]. intros _.
    apply take_token_some in E as (_ & [n Hn] & Ho). pose proof Hn as Hn'. apply list_elem_of_filter in Hn' as [Hage Hin].
    destruct (Hg _ _ _ Hin) as [Hgr Hal]. split_and!; [done|exists n; split; [done|]|].
    + cbn [snd] in Hage. unfold sat_sub in Hage. lia.
    + pose proof (Hc action). pose proof (grants_gestures action ops []).
      pose proof (outstanding_sub action _ _ (live_sub now (snd (run_tokens ops [])))). lia.
Qed.

(** A token is good once: after a use, the same action and token are refused
    until a token is granted again (tokens being distinct). *)
Lemma token_used_up now action token st :
  NoDup (fst <$> st) -> fst (consume_privilege_token now action token st) = true ->
  forall now', fst (consume_privilege_token now' action token (snd (consume_privilege_token now action token st))) = false.
Proof.
  intros HN. unfold consume_privilege_token at 1 3. destruct (take_token _ _ _) as [st'|] eqn:E; [|done]. intros _ now'. cbn [snd].
  unfold consume_privilege_token. destruct (take_token action token (live_tokens now' st')) as [st''|] eqn:E'; [|done]. exfalso.
  apply take_token_some in E' as (_ & [n Hn] & _). apply list_elem_of_filter in Hn as [_ Hn].
  assert (NoDup (fst <$> live_tokens now st)) as HN1 .
  { clear -HN. induction st as [|e st IH]; [done|]. apply NoDup_cons in HN as [He HN]. unfold live_tokens. rewrite filter_cons.
    case_decide; [|by apply IH]. apply NoDup_cons. split; [|by apply IH]. intros (y & Hy & Hin)%list_elem_of_fmap.
    apply list_elem_of_filter in Hin as [_ Hin]. apply He. apply list_elem_of_fmap. by exists y. }
  clear HN. revert st' E Hn HN1. generalize (live_tokens now st). intros l. induction l as [|[[a t] k] l IH]; intros st' E Hn HN1; [done|].
  cbn in E, HN1. apply NoDup_cons in HN1 as [Hx HN1]. case_decide as Hd.
  - destruct Hd as [-> ->]. injection E as <-. apply Hx. apply list_elem_of_fmap. by exists (action, token, n).
  - apply fmap_Some in E as (r & Hr & ->). apply elem_of_cons in Hn as [[= <- <- <-]|Hn]; [by apply Hd|]. by apply (IH r).
Qed.

Lemma privilege_needs_gesture_witness :
  fst (consume_privilege_token 5 "delete_connection" "t" (snd (run_tokens [Request true "t" 0 "delete_connection"] []))) = true
  /\ "delete_connection" ∈ ALLOWED_TOKEN_ACTIONS.
Proof.
  assert (fst (consume_privilege_token 5 "delete_connection" "t"
            (snd (run_tokens [Request true "t" 0 "delete_connection"] []))) = true) as H by reflexivity.
  split; [exact H|]. exact (proj1 (proj2 (privilege_needs_gesture [Request true "t" 0 "delete_connection"] 5 "delete_connection" "t") H)).
Defined.
