(* ===== verification/Beacon.v ===== *)
(** * Beacon: signed discovery beacons (core-crypto network/beacon.rs, crypto/signing.rs)

    The desktop broadcasts its key hash and address in a datagram signed with
    ML-DSA-65; a listener checks the age, the source address, the signature, the
    expected key and a cache of seen nonces.  Also where the signing key is kept:
    in the keyring, migrated from the files of older versions.  ML-DSA and the
    hexadecimal codec are parameters; the sockets are the list of what they
    receive. *)

From Stdlib.Strings Require Import Ascii.
From S2P Require Import Prelude Error Json StrOps Packets RatchetState RatchetStore.

(** ** ML-DSA-65 *)

(** The pqcrypto_mldsa crate: key generation from its randomness, which byte
    strings it takes for keys and signatures, signing (with its randomness) and
    verification. *)
Class MlDsa := {
  mldsa_keypair : bytes -> bytes * bytes;
  secret_key_from_bytes : bytes -> bool;
  public_key_from_bytes : bytes -> bool;
  signature_from_bytes : bytes -> bool;
  detached_sign : bytes -> bytes -> bytes -> bytes;
  verify_detached_signature : bytes -> bytes -> bytes -> bool
}.
(** Sizes of FIPS 204; a signature of a key verifies under it. *)
Class MlDsaLaws `{M : MlDsa} := {
  keypair_sizes r : len (fst (mldsa_keypair r)) = 1952 /\ len (snd (mldsa_keypair r)) = 4032;
  keypair_parses r : public_key_from_bytes (fst (mldsa_keypair r)) = true /\ secret_key_from_bytes (snd (mldsa_keypair r)) = true;
  signature_size c r m : len (detached_sign c (snd (mldsa_keypair r)) m) = 3309;
  signature_parses c r m : signature_from_bytes (detached_sign c (snd (mldsa_keypair r)) m) = true;
  signature_verifies c r m :
    verify_detached_signature (detached_sign c (snd (mldsa_keypair r)) m) m (fst (mldsa_keypair r)) = true
}.
(** [hex::encode] writes two ASCII digits per byte, [hex::decode] reads only
    ASCII digits. *)
Definition ascii_text (s : string) : Prop := Forall (fun c => code c < 128) (chars s).
Class HexDigits `{X : Hex} := {
  hex_length b : String.length (hex_encode b) = (2 * length b)%nat;
  hex_encode_ascii b : ascii_text (hex_encode b);
  hex_decode_ascii s b : hex_decode s = Some b -> ascii_text s
}.

Definition BEACON_MAGIC : string := "KYBERPIPE_P2P_BEACON_V1".
Definition BEACON_NONCE_CACHE_MAX : nat := 1024.
Definition BEACON_NONCE_TTL : Z := secs 60.
(** The listener's receive buffer. *)
Definition RECV_BUF : nat := 2048.

(** (signing key, nonce) to the instant it was first seen. *)
Abbreviation SeenBeacons := (gmap (bytes * bytes) Z).

(** The oldest entry; the code picks any of several equally old ones. *)
Definition older (kv : bytes * bytes * Z) (best : option (bytes * bytes * Z)) : option (bytes * bytes * Z) :=
  match best with
  | Some b => if snd kv <? snd b then Some kv else best
  | None => Some kv
  end.
Definition oldest_entry (m : SeenBeacons) : option (bytes * bytes) := fst <$> foldr older None (map_to_list m).

Definition beacon_nonce_is_replay (now : Z) (pk nonce : bytes) (m : SeenBeacons) : bool * SeenBeacons :=
  let m := filter (fun kv => sat_sub now (snd kv) < BEACON_NONCE_TTL) m in
  let m := if decide (BEACON_NONCE_CACHE_MAX <= size m)%nat
           then match oldest_entry m with Some k => delete k m | None => m end else m in
  match m !! (pk, nonce) with
  | Some _ => (true, m)
  | None => (false, <[(pk, nonce) := now]> m)
  end.

Section Beacon.
Context `{M : MlDsa} `{X : Hex}.
(** Whether the info level is logged: a log line slices its arguments. *)
Context (info : bool).

Definition sign_mldsa_payload (coins payload sk : bytes) : kres bytes :=
  match payload with
  | [] => Err (CryptoError "Empty payload for ML-DSA signing")
  | _ => if secret_key_from_bytes sk then Ok (detached_sign coins sk payload)
         else Err (CryptoError "Invalid ML-DSA-65 secret key bytes")
  end.

Definition verify_mldsa_signature (payload signature pk : bytes) : bool :=
  match payload, signature, pk with
  | [], _, _ | _, [], _ | _, _, [] => false
  | _, _, _ => public_key_from_bytes pk && signature_from_bytes signature && verify_detached_signature signature payload pk
  end.

Definition generate_mldsa_keypair (coins : bytes) : bytes * bytes := mldsa_keypair coins.

(** ** Sending *)

Definition signed_region (payload : string) (timestamp : Z) (nonce : bytes) : string :=
  joined ":"%char [payload; decimal timestamp; hex_encode nonce].

(** The datagram [send_p2p_beacon] broadcasts; a signature that fails is left
    empty. *)
Definition send_p2p_beacon (payload : string) (timestamp : Z) (nonce coins : bytes) (device : bytes * bytes) : bytes :=
  let region := signed_region payload timestamp nonce in
  let sig := match sign_mldsa_payload coins (bstr region) (snd device) with Ok s => s | _ => [] end in
  bstr (joined ":"%char [BEACON_MAGIC; region; hex_encode (fst device); hex_encode sig]).

(** ** Receiving *)

(** An age above 60 seconds; a timestamp that is no number has no age. *)
Definition stale (now_unix : Z) (ts_str : string) : bool :=
  match parse_u64 ts_str with Some ts => 60 <? sat_sub now_unix ts | None => false end.

Definition log_prefix (s : string) : kres string :=
  if info then str_take (Nat.min 16 (String.length s)) s else Ok "".

Definition check_replay (now : Z) (signing_pk_hex nonce_hex : string) (found : string * string * string) (m : SeenBeacons)
  : kres (option (string * string * string)) * SeenBeacons :=
  match hex_decode signing_pk_hex, hex_decode nonce_hex with
  | Some pk, Some nonce =>
      let '(replayed, m) := beacon_nonce_is_replay now pk nonce m in
      (Ok (if replayed : bool then None else Some found), m)
  | _, _ => (Ok (Some found), m)
  end.

Definition parse_beacon_payload (now_unix now : Z) (payload source_ip : string) (expected_signing_pk : option bytes)
    (m : SeenBeacons) : kres (option (string * string * string)) * SeenBeacons :=
  match splitn 7 ":"%char payload with
  | host_pk :: local_ip :: ts_str :: nonce_hex :: signing_pk_hex :: sig_hex :: _ =>
      let sig_ok :=
        match hex_decode sig_hex, hex_decode signing_pk_hex with
        | Some sig, Some pk => verify_mldsa_signature (bstr (joined ":"%char [host_pk; local_ip; ts_str; nonce_hex])) sig pk
        | _, _ => false
        end in
      if stale now_unix ts_str then (Ok None, m)
      else if negb (bool_decide (local_ip = source_ip)) then (Ok None, m)
      else if negb sig_ok then (Ok None, m)
      else
        let found := (host_pk, local_ip, "Desktop") in
        match expected_signing_pk with
        | Some expected =>
            if decide (expected = default [] (hex_decode signing_pk_hex))
            then check_replay now signing_pk_hex nonce_hex found m
            else (Ok None, m)
        | None =>
            match log_prefix signing_pk_hex with
            | Ok _ => check_replay now signing_pk_hex nonce_hex found m
            | Err e => (Err e, m)
            | Panic p => (Panic p, m)
            end
        end
  | _ => (Ok None, m)
  end.

(** A datagram as it arrives: the clocks, the source address and the bytes. *)
Record Datagram := { rx_unix : Z; rx_now : Z; rx_source : string; rx_data : bytes }.

(** One turn of the listener on a datagram; what the buffer cannot hold is lost. *)
Definition receive_beacon (expected : option bytes) (rx : Datagram) (m : SeenBeacons)
  : kres (option (string * string * string)) * SeenBeacons :=
  let raw := take RECV_BUF (rx_data rx) in
  match strip_prefix BEACON_MAGIC (String.string_of_list_byte raw) with
  | None => (Ok None, m)
  | Some "" => (Panic "range start index out of range", m)
  | Some (String _ payload) =>
      if utf8_valid (bstr payload) then
        match parse_beacon_payload (rx_unix rx) (rx_now rx) payload (rx_source rx) expected m with
        | (Ok (Some found), m) =>
            match log_prefix (fst (fst found)) with
            | Ok _ => (Ok (Some found), m)
            | Err e => (Err e, m)
            | Panic p => (Panic p, m)
            end
        | r => r
        end
      else (Ok None, m)
  end.

(** The listening window: a datagram, or a receive error or a quiet interval. *)
Fixpoint listen_loop (expected : option bytes) (events : list (option Datagram)) (m : SeenBeacons)
  : kres (list (string * string * string)) * SeenBeacons :=
  match events with
  | [] => (Ok [], m)
  | None :: events => listen_loop expected events m
  | Some rx :: events =>
      match receive_beacon expected rx m with
      | (Ok o, m) =>
          match listen_loop expected events m with
          | (Ok l, m) => (Ok (option_list o ++ l), m)
          | r => r
          end
      | (Err e, m) => (Err e, m)
      | (Panic p, m) => (Panic p, m)
      end
  end.
Definition listen_for_beacons_with_expected_key (expected_signing_pk_hex : option string) (events : list (option Datagram))
    (m : SeenBeacons) : kres (list (string * string * string)) * SeenBeacons :=
  listen_loop (expected_signing_pk_hex ≫= hex_decode) events m.

End Beacon.

(** ** Where the signing key is kept *)

(** A keyring write: what it reports, and whether the value is there afterwards. *)
Record SetFate := { reported : bool; stored : bool }.
Definition keyring_set (f : SetFate) (e : string * string) (v : string) (h : Host) : bool * Host :=
  (reported f, set_password (stored f) e v h).

Record KeyIo := {
  kio_get : bool * bool;          (* reading the secret and the public entry *)
  kio_set : SetFate * SetFate * SetFate;  (* the probe, the secret and the public entry *)
  kio_verify : bool;              (* reading the secret entry back *)
  kio_read : bool * bool;         (* reading the two files *)
  kio_remove : bool * bool        (* removing them *)
}.

Definition SK_ENTRY : string * string := entry "beacon_signing_sk".
Definition PK_ENTRY : string * string := entry "beacon_signing_pk".
Definition PK_FILE : string := "device_mldsa_pk.bin".
Definition SK_FILE : string := "device_mldsa_sk.bin".

Section Keys.
Context `{M : MlDsa} `{X : Hex}.

Definition persist_beacon_signing_keypair (io : KeyIo) (pk sk : bytes) (h : Host) : bool * Host :=
  let '(f1, f2, f3) := kio_set io in
  let '(ok, h) := keyring_set f1 SK_ENTRY "probe" h in
  if negb ok then (false, h)
  else
    let '(ok, h) := keyring_set f2 SK_ENTRY (hex_encode sk) h in
    if negb ok then (false, h) else keyring_set f3 PK_ENTRY (hex_encode pk) h.

Definition migrate_and_remove_legacy_files (io : KeyIo) (pk sk : bytes) (h : Host) : Host :=
  let '(ok, h) := persist_beacon_signing_keypair io pk sk h in
  if negb ok then h
  else if bool_decide (get_password (kio_verify io) SK_ENTRY h = Some (hex_encode sk))
  then fs_remove (snd (kio_remove io)) SK_FILE (fs_remove (fst (kio_remove io)) PK_FILE h)
  else h.

(** The pair of the keyring, when both entries decode to the right sizes. *)
Definition keyring_pair (io : KeyIo) (h : Host) : option (bytes * bytes) :=
  sk_hex ← get_password (fst (kio_get io)) SK_ENTRY h;
  pk_hex ← get_password (snd (kio_get io)) PK_ENTRY h;
  sk ← hex_decode sk_hex;
  pk ← hex_decode pk_hex;
  if (len sk =? 4032) && (len pk =? 1952) then Some (pk, sk) else None.

(** The pair of the two files of older versions. *)
Definition file_pair (io : KeyIo) (h : Host) : option (bytes * bytes) :=
  pk ← fs_read (fst (kio_read io)) PK_FILE h;
  sk ← fs_read (snd (kio_read io)) SK_FILE h;
  if (len (bstr pk) =? 1952) && (len (bstr sk) =? 4032) then Some (bstr pk, bstr sk) else None.

(** The public and the secret key, with the randomness of a new pair. *)
Definition device_signing_key (io : KeyIo) (coins : bytes) (h : Host) : (bytes * bytes) * Host :=
  match keyring_pair io h with
  | Some kp => (kp, h)
  | None =>
      match file_pair io h with
      | Some (pk, sk) => ((pk, sk), migrate_and_remove_legacy_files io pk sk h)
      | None =>
          let '(pk, sk) := generate_mldsa_keypair coins in
          ((pk, sk), snd (persist_beacon_signing_keypair io pk sk h))
      end
  end.

End Keys.
