(* ===== verification/BeaconProps.v ===== *)
(** * BeaconProps: what a discovery beacon proves, and what the listener loses *)

From Stdlib.Strings Require Import Ascii.
From S2P Require Import Prelude Error Json StrOps Packets RatchetState RatchetStore Beacon.

(** ** Strings and their bytes *)

Lemma append_cons x (a b : string) : String x a +:+ b = String x (a +:+ b).
Proof. done. Qed.

Lemma append_assoc (a b c : string) : (a +:+ b) +:+ c = a +:+ (b +:+ c).
Proof. induction a as [|x a IH]; [done|]. change (String x ((a +:+ b) +:+ c) = String x (a +:+ b +:+ c)). by rewrite IH. Qed.

Lemma length_append (a b : string) : String.length (a +:+ b) = (String.length a + String.length b)%nat.
Proof. induction a as [|x a IH]; [done|]. simpl. by rewrite IH. Qed.

Lemma bstr_app a b : bstr (a +:+ b) = bstr a ++ bstr b.
Proof.
  induction a as [|x a IH]; [done|]. change (byte_of_ascii x :: bstr (a +:+ b) = byte_of_ascii x :: bstr a ++ bstr b).
  by rewrite IH.
Qed.

Lemma string_of_app a b :
  String.string_of_list_byte (a ++ b) = String.string_of_list_byte a +:+ String.string_of_list_byte b.
Proof.
  induction a as [|x a IH]; [done|].
  change (String (ascii_of_byte x) (String.string_of_list_byte (a ++ b))
          = String (ascii_of_byte x) (String.string_of_list_byte a +:+ String.string_of_list_byte b)). by rewrite IH.
Qed.

Lemma strip_prefix_app p s : strip_prefix p (p +:+ s) = Some s.
Proof. induction p as [|x p IH]; [done|]. rewrite append_cons. cbn [strip_prefix]. by rewrite decide_True. Qed.

(** The number of separators. *)
Fixpoint separators (c : ascii) (s : string) : nat :=
  match s with EmptyString => 0 | String a s' => (if decide (a = c) then 1 else 0) + separators c s' end.

Lemma separators_app c a b : separators c (a +:+ b) = (separators c a + separators c b)%nat.
Proof. induction a as [|x a IH]; [done|]. rewrite append_cons. cbn [separators]. rewrite IH. lia. Qed.

Lemma separators_free c s : free_of c s -> separators c s = 0%nat.
Proof. induction s as [|x s IH]; [done|]. intros [H1 H2]%Forall_cons. cbn [separators]. rewrite decide_False by done. by apply IH. Qed.

Lemma splitn_separators n c s : (length (splitn n c s) <= S (separators c s))%nat.
Proof.
  revert s. induction n as [|[|n] IH]; intros s; [cbn; lia..|]. rewrite splitn_S.
  destruct (split_once c s) as [[l r]|] eqn:E; [|cbn; lia]. apply split_once_sound in E as [-> Hf].
  specialize (IH r). rewrite separators_app. cbn [length separators]. rewrite decide_True by done. lia.
Qed.

Lemma splitn_fields n c l :
  l <> [] -> (length l <= n)%nat -> Forall (free_of c) l -> splitn n c (joined c l) = l.
Proof.
  revert l. induction n as [|n IH]; intros [|x [|y l]] Hn Hl HF; try done; cbn in Hl; [lia..| |].
  - apply splitn_free. by inversion HF.
  - apply Forall_cons in HF as [Hx HF]. destruct n as [|n]; [lia|].
    change (joined c (x :: y :: l)) with (x +:+ String c (joined c (y :: l))). rewrite splitn_app by done.
    f_equal. apply IH; [done|cbn; lia|done].
Qed.

Section Props.
Context `{M : MlDsa} `{LM : !MlDsaLaws} `{X : Hex} `{LX : !HexLaws} `{DX : !HexDigits}.
Context (info : bool).

(** ** The datagram *)

Lemma hex_free b : free_of ":"%char (hex_encode b).
Proof. apply hex_no_colon. Qed.

Lemma decimal_no_colon n : 0 <= n -> free_of ":"%char (decimal n).
Proof. intros H. by apply decimal_free. Qed.

(** What follows the magic and its separator: six fields. *)
Definition beacon_fields (host ip : string) (ts : Z) (nonce coins : bytes) (device : bytes * bytes) : list string :=
  let region := signed_region (joined ":"%char [host; ip]) ts nonce in
  [host; ip; decimal ts; hex_encode nonce; hex_encode (fst device);
   hex_encode (match sign_mldsa_payload coins (bstr region) (snd device) with Ok s => s | _ => [] end)].

Lemma send_fields host ip ts nonce coins device :
  send_p2p_beacon (joined ":"%char [host; ip]) ts nonce coins device
  = bstr (BEACON_MAGIC +:+ String ":"%char (joined ":"%char (beacon_fields host ip ts nonce coins device))).
Proof.
  unfold send_p2p_beacon, beacon_fields. f_equal. cbn [joined]. unfold signed_region at 1. cbn [joined].
  do 2 f_equal. by rewrite !append_assoc, !append_cons, !append_assoc, !append_cons.
Qed.

Lemma region_fields host ip ts nonce :
  signed_region (joined ":"%char [host; ip]) ts nonce = joined ":"%char [host; ip; decimal ts; hex_encode nonce].
Proof. unfold signed_region. cbn [joined]. by rewrite append_assoc. Qed.

Lemma fields_free host ip ts nonce coins device :
  free_of ":"%char host -> free_of ":"%char ip -> 0 <= ts -> Forall (free_of ":"%char) (beacon_fields host ip ts nonce coins device).
Proof.
  intros Hh Hi Ht. unfold beacon_fields.
  repeat (apply Forall_cons; split; [first [done|by apply decimal_no_colon|apply hex_free]|]). by apply Forall_nil.
Qed.

Lemma region_nonempty host ip ts nonce : bstr (signed_region (joined ":"%char [host; ip]) ts nonce) <> [].
Proof.
  intros E%(f_equal length). rewrite length_bstr, region_fields in E. cbn [joined] in E.
  rewrite length_append in E. cbn [String.length length] in E. lia.
Qed.

Lemma device_signs coins m r : m <> [] -> sign_mldsa_payload coins m (snd (mldsa_keypair r)) = Ok (detached_sign coins (snd (mldsa_keypair r)) m).
Proof. intros H. unfold sign_mldsa_payload. destruct m; [done|]. by rewrite (proj2 (keypair_parses r)). Qed.

Lemma device_verifies coins m r :
  m <> [] -> verify_mldsa_signature m (detached_sign coins (snd (mldsa_keypair r)) m) (fst (mldsa_keypair r)) = true.
Proof.
  intros Hm. pose proof (signature_size coins r m) as Hs. pose proof (proj1 (keypair_sizes r)) as Hp.
  pose proof (signature_verifies coins r m) as Hv. pose proof (signature_parses coins r m) as Hq. pose proof (proj1 (keypair_parses r)) as Hk.
  unfold verify_mldsa_signature. destruct m; [done|]. destruct (detached_sign _ _ _); [done|].
  destruct (fst (mldsa_keypair r)); [done|]. by rewrite Hk, Hq, Hv.
Qed.

Lemma str_take_ascii n s : ascii_text s -> exists p, str_take (Nat.min n (String.length s)) s = Ok p.
Proof.
  revert n. induction s as [|c s IH]; intros n Ha; [rewrite Nat.min_0_r; by eexists|].
  apply Forall_cons in Ha as [Hc Ha]. destruct n as [|n]; cbn [Nat.min String.length str_take].
  - unfold is_continuation. rewrite (proj2 (Z.leb_gt _ _)) by done. by eexists.
  - destruct (IH n Ha) as [p ->]. by eexists.
Qed.

Lemma log_hex s b : hex_decode s = Some b -> exists p, log_prefix info s = Ok p.
Proof. intros H%hex_decode_ascii. unfold log_prefix. destruct info; [by apply str_take_ascii|by eexists]. Qed.

(** The beacon of a device, at most a minute old and not seen before, is
    understood: it names the host and its address, to a listener without an
    expected key and to one that expects this device's key. *)
Theorem beacon_understood now_unix now host ip ts nonce coins r expected m :
  free_of ":"%char host -> free_of ":"%char ip -> 0 <= ts <= u64_max -> now_unix - ts <= 60 ->
  (expected = None \/ expected = Some (fst (mldsa_keypair r))) ->
  fst (beacon_nonce_is_replay now (fst (mldsa_keypair r)) nonce m) = false ->
  fst (parse_beacon_payload info now_unix now (joined ":"%char (beacon_fields host ip ts nonce coins (mldsa_keypair r)))
         ip expected m)
  = Ok (Some (host, ip, "Desktop")).
Proof.
  intros Hh Hi Hts Hage Hexp Hnew. unfold parse_beacon_payload.
  rewrite splitn_fields; [|done|cbn; lia|apply fields_free; [done|done|lia]]. unfold beacon_fields.
  rewrite device_signs by apply region_nonempty.
  unfold stale. rewrite parse_u64_decimal by done. rewrite (proj2 (Z.ltb_ge _ _)) by (unfold sat_sub; lia).
  rewrite bool_decide_eq_true_2 by done. cbn [negb]. rewrite !hex_roundtrip, <- region_fields, device_verifies by apply region_nonempty.
  cbn [negb]. assert (fst (check_replay now (hex_encode (fst (mldsa_keypair r))) (hex_encode nonce) (host, ip, "Desktop") m)
                      = Ok (Some (host, ip, "Desktop"))) as HR.
  { unfold check_replay. rewrite !hex_roundtrip. destruct (beacon_nonce_is_replay _ _ _ m) as [b m']. cbn in Hnew. by subst b. }
  destruct Hexp as [->| ->]; [|by rewrite decide_True].
  by destruct (log_hex _ _ (hex_roundtrip (fst (mldsa_keypair r)))) as [p ->].
Qed.

(** ** The receive buffer *)

Lemma take_text n a b :
  (String.length a <= n)%nat ->
  String.string_of_list_byte (take n (bstr (a +:+ b))) = a +:+ String.string_of_list_byte (take (n - String.length a) (bstr b)).
Proof.
  intros H. rewrite bstr_app, take_app, length_bstr, take_ge by (rewrite length_bstr; lia).
  by rewrite string_of_app, string_of_bstr.
Qed.

Lemma separators_take c n s : (separators c (String.string_of_list_byte (take n (bstr s))) <= separators c s)%nat.
Proof.
  rewrite <- (string_of_bstr s) at 2. rewrite <- (take_drop n (bstr s)) at 2. rewrite string_of_app, separators_app. lia.
Qed.

Lemma parse_few now_unix now payload ip expected m :
  (separators ":"%char payload <= 4)%nat -> parse_beacon_payload info now_unix now payload ip expected m = (Ok None, m).
Proof.
  intros H. pose proof (splitn_separators 7 ":"%char payload) as Hl. unfold parse_beacon_payload.
  destruct (splitn 7 ":"%char payload) as [|? [|? [|? [|? [|? [|? l]]]]]]; try done. cbn in Hl. lia.
Qed.

(** The text the listener sees of a beacon. *)
Lemma receive_text expected rx m w :
  rx_data rx = bstr (BEACON_MAGIC +:+ String ":"%char w) ->
  (separators ":"%char (String.string_of_list_byte (take 2024 (bstr w))) <= 4)%nat ->
  receive_beacon info expected rx m = (Ok None, m).
Proof.
  intros Hrx Hs. unfold receive_beacon. rewrite Hrx.
  assert (BEACON_MAGIC +:+ String ":"%char w = (BEACON_MAGIC +:+ ":") +:+ w) as -> by (by rewrite append_assoc).
  rewrite take_text by (by vm_compute; lia). change (RECV_BUF - _)%nat with 2024%nat. rewrite append_assoc, strip_prefix_app.
  set (t := String.string_of_list_byte _) in *. change (":" +:+ t) with (String ":"%char t). cbv beta iota.
  destruct (utf8_valid (bstr t)); [|done]. by rewrite parse_few.
Qed.

(** C40: Of the datagram a device sends, the listener's buffer holds less than the
    first five fields: whatever it expects and whenever the datagram comes, the
    listener drops it. *)
Theorem device_beacon_never_received host ip ts nonce coins r expected rx m :
  free_of ":"%char host -> free_of ":"%char ip -> 0 <= ts ->
  rx_data rx = send_p2p_beacon (joined ":"%char [host; ip]) ts nonce coins (mldsa_keypair r) ->
  receive_beacon info expected rx m = (Ok None, m).
Proof.
  intros Hh Hi Hts Hrx. rewrite send_fields in Hrx. eapply receive_text; [exact Hrx|]. unfold beacon_fields.
  set (sig := match sign_mldsa_payload _ _ _ with Ok s => s | _ => [] end).
  set (q := joined ":"%char [host; ip; decimal ts; hex_encode nonce; hex_encode (fst (mldsa_keypair r))]).
  assert (joined ":"%char [host; ip; decimal ts; hex_encode nonce; hex_encode (fst (mldsa_keypair r)); hex_encode sig]
          = q +:+ String ":"%char (hex_encode sig)) as ->.
  { unfold q. cbn [joined]. by rewrite !append_assoc, !append_cons, !append_assoc, !append_cons, !append_assoc, !append_cons, append_assoc. }
  assert (2024 <= String.length q)%nat as Hl.
  { unfold q. cbn [joined]. rewrite length_append. cbn [String.length]. rewrite length_append. cbn [String.length].
    rewrite length_append. cbn [String.length]. rewrite length_append. cbn [String.length]. rewrite !hex_length.
    pose proof (proj1 (keypair_sizes r)) as Hk. unfold len in Hk. lia. }
  rewrite bstr_app, take_app_le by (rewrite length_bstr; lia). etrans; [apply separators_take|].
  unfold q. cbn [joined]. rewrite !separators_app. cbn [separators]. rewrite !separators_app. cbn [separators].
  rewrite !separators_app. cbn [separators]. rewrite !separators_app. cbn [separators].
  rewrite !separators_free by first [done|by apply decimal_no_colon|apply hex_free].
  rewrite decide_True by done. lia.
Qed.

(** The magic alone, in a datagram of 23 bytes, ends the listener. *)
Lemma magic_alone_panics expected rx m :
  rx_data rx = bstr BEACON_MAGIC -> receive_beacon info expected rx m = (Panic "range start index out of range", m).
Proof.
  intros H. unfold receive_beacon. rewrite H. assert (strip_prefix BEACON_MAGIC (String.string_of_list_byte (take RECV_BUF (bstr BEACON_MAGIC))) = Some "") as ->; [|done].
  vm_compute. reflexivity.
Qed.

(** ** What an accepted beacon proves *)

Lemma check_replay_found now pk_hex nonce_hex found f m m' :
  check_replay now pk_hex nonce_hex found m = (Ok (Some f), m') -> f = found.
Proof.
  unfold check_replay. intros H. repeat case_match; simplify_eq; done.
Qed.

(** A beacon that is accepted came from the address it names, its first four
    fields are signed under the key it carries, which is the expected one when
    one is expected, and its age, when it states one, is at most a minute. *)
Theorem beacon_authentic now_unix now payload source expected m host ip name m' :
  parse_beacon_payload info now_unix now payload source expected m = (Ok (Some (host, ip, name)), m') ->
  ip = source /\ exists ts nonce pk_hex sig_hex more sig pk,
    splitn 7 ":"%char payload = host :: ip :: ts :: nonce :: pk_hex :: sig_hex :: more
    /\ hex_decode sig_hex = Some sig /\ hex_decode pk_hex = Some pk
    /\ verify_mldsa_signature (bstr (joined ":"%char [host; ip; ts; nonce])) sig pk = true
    /\ (forall e, expected = Some e -> e = pk)
    /\ (forall t, parse_u64 ts = Some t -> now_unix - t <= 60).
Proof.
  unfold parse_beacon_payload. destruct (splitn 7 ":"%char payload) as [|h [|i [|ts [|n [|pk [|sig more]]]]]]; try done.
  destruct (stale now_unix ts) eqn:Est; [done|]. case_bool_decide as Hi; [|done]. cbn [negb].
  destruct (hex_decode sig) as [sg|] eqn:Hsig; [|done]. destruct (hex_decode pk) as [k|] eqn:Hpk; [|done].
  destruct (verify_mldsa_signature _ sg k) eqn:Hv; [|done]. cbn [negb default].
  intros H. assert ((host, ip, name) = (h, i, "Desktop") /\ (forall e, expected = Some e -> e = k)) as [[= -> -> ->] He].
  { destruct expected as [e|].
    - case_decide as Hd; [|done]. apply check_replay_found in H. split; [done|]. by intros ? [= <-].
    - destruct (log_prefix info pk) as [? | |]; try done. apply check_replay_found in H. by split. }
  split; [done|]. exists ts, n, pk, sig, more, sg, k. split_and!; try done.
  intros t Ht. unfold stale in Est. rewrite Ht in Est. apply Z.ltb_ge in Est. unfold sat_sub in Est. lia.
Qed.

(** ** Replays *)

Definition remembered (k : bytes * bytes) (t : Z) (m : SeenBeacons) : Prop := m !! k = Some t.

Lemma replay_keeps now pk nonce k t m :
  remembered k t m -> now < t + BEACON_NONCE_TTL -> (size m < BEACON_NONCE_CACHE_MAX)%nat ->
  let '(b, m') := beacon_nonce_is_replay now pk nonce m in
  remembered k t m' /\ (size m' <= S (size m))%nat /\ ((pk, nonce) = k -> b = true).
Proof.
  intros Hk Ht Hs. unfold beacon_nonce_is_replay. set (f := filter _ m).
  assert (f !! k = Some t) as Hf.
  { apply map_lookup_filter_Some. split; [done|]. unfold sat_sub, BEACON_NONCE_TTL, secs in *. cbn [snd]. lia. }
  assert (size f <= size m)%nat as Hsz by (apply map_subseteq_size, map_filter_subseteq).
  rewrite decide_False by lia. destruct (f !! (pk, nonce)) eqn:E; [by split_and!; [..|lia|]|].
  split_and!.
  - unfold remembered. rewrite lookup_insert_ne; [done|]. intros <-. congruence.
  - rewrite map_size_insert_None by done. lia.
  - intros <-. congruence.
Qed.

Lemma replay_size now pk nonce m : (size (snd (beacon_nonce_is_replay now pk nonce m)) <= S (size m))%nat.
Proof.
  unfold beacon_nonce_is_replay. set (f := filter _ m).
  assert (size f <= size m)%nat as Hsz by (apply map_subseteq_size, map_filter_subseteq).
  set (g := if decide _ then _ else f). assert (size g <= size f)%nat as Hg.
  { unfold g. case_decide; [|done]. destruct (oldest_entry f); [|done]. apply map_subseteq_size, delete_subseteq. }
  destruct (g !! (pk, nonce)) eqn:E; cbn [snd]; [lia|]. rewrite map_size_insert_None by done. lia.
Qed.

Lemma parse_seen now_unix now payload source expected m :
  let m' := snd (parse_beacon_payload info now_unix now payload source expected m) in
  m' = m \/ exists pk nonce, m' = snd (beacon_nonce_is_replay now pk nonce m).
Proof.
  unfold parse_beacon_payload, check_replay.
  repeat first [by left | case_match; try by left]; right; eexists _, _; by match goal with H : beacon_nonce_is_replay _ _ _ _ = _ |- _ => rewrite H end.
Qed.

Lemma receive_seen expected rx m :
  let m' := snd (receive_beacon info expected rx m) in
  m' = m \/ exists pk nonce, m' = snd (beacon_nonce_is_replay (rx_now rx) pk nonce m).
Proof.
  unfold receive_beacon. destruct (strip_prefix _ _) as [[|c t]|]; [by left| |by left].
  destruct (utf8_valid _); [|by left]. pose proof (parse_seen (rx_unix rx) (rx_now rx) t (rx_source rx) expected m) as H.
  destruct (parse_beacon_payload _ _ _ _ _ _ _) as [[[f|]|e|p] m1]; [|exact H..]. destruct (log_prefix info _); exact H.
Qed.

Definition receive_all (expected : option bytes) (l : list Datagram) (m : SeenBeacons) : SeenBeacons :=
  foldl (fun m rx => snd (receive_beacon info expected rx m)) m l.

Lemma receive_all_keeps expected l k t m :
  remembered k t m -> Forall (fun rx => rx_now rx < t + BEACON_NONCE_TTL) l -> (size m + length l < BEACON_NONCE_CACHE_MAX)%nat ->
  remembered k t (receive_all expected l m) /\ (size (receive_all expected l m) <= size m + length l)%nat.
Proof.
  revert m. induction l as [|rx l IH]; intros m Hk Hl Hs; [cbn; split; [done|lia]|].
  apply Forall_cons in Hl as [Hr Hl]. cbn [length] in *. unfold receive_all. cbn [foldl]. fold (receive_all expected l).
  assert (remembered k t (snd (receive_beacon info expected rx m)) /\ (size (snd (receive_beacon info expected rx m)) <= S (size m))%nat) as [Hk' Hs'].
  { destruct (receive_seen expected rx m) as [-> | (pk & nonce & ->)]; [split; [done|lia]|].
    pose proof (replay_keeps (rx_now rx) pk nonce k t m Hk Hr ltac:(lia)) as HK.
    destruct (beacon_nonce_is_replay _ _ _ _) as [b m1]. cbn. tauto. }
  destruct (IH _ Hk' Hl ltac:(lia)) as [H1 H2]. split; [exact H1|]. etrans; [exact H2|lia].
Qed.

(** Once a beacon with a hexadecimal nonce was accepted, it is refused for a
    minute, whatever else the listener receives in between, as long as fewer
    than 1024 beacons are remembered - from any address and under any clock. *)
Theorem beacon_replay_refused expected now_unix now payload source m found m1 l now_unix' now' source' host ip ts nonce_hex pk_hex nonce more :
  splitn 7 ":"%char payload = host :: ip :: ts :: nonce_hex :: pk_hex :: more -> hex_decode nonce_hex = Some nonce ->
  parse_beacon_payload info now_unix now payload source expected m = (Ok (Some found), m1) ->
  (size m1 + length l < BEACON_NONCE_CACHE_MAX)%nat ->
  Forall (fun rx => rx_now rx < now + BEACON_NONCE_TTL) l -> now' < now + BEACON_NONCE_TTL ->
  fst (parse_beacon_payload info now_unix' now' payload source' expected (receive_all expected l m1)) = Ok None.
Proof.
  intros Hsp Hn Hp Hsz Hl Hnow. destruct found as [[h i] d]. pose proof Hp as Hp0.
  apply beacon_authentic in Hp0 as (-> & ts' & n' & pk' & sig' & more' & sg & k & Hsp' & Hsig & Hpk & Hv & He & _).
  rewrite Hsp in Hsp'. injection Hsp' as <- <- <- <- <- ->.
  assert (remembered (k, nonce) now m1) as Hk.
  { unfold parse_beacon_payload in Hp. rewrite Hsp, Hsig, Hpk, Hv in Hp. cbn [negb] in Hp.
    destruct (stale now_unix ts); [done|]. destruct (negb _); [done|].
    assert (check_replay now pk_hex nonce_hex (host, ip, "Desktop") m = (Ok (Some (host, ip, d)), m1)) as HC.
    { destruct expected as [e|]; [case_decide; done|]. destruct (log_prefix info pk_hex); done. }
    unfold check_replay in HC. rewrite Hpk, Hn in HC. unfold beacon_nonce_is_replay in HC.
    repeat case_match; simplify_eq; apply lookup_insert_eq. }
  destruct (receive_all_keeps expected l _ _ m1 Hk Hl Hsz) as [Hk' Hs']. set (m2 := receive_all _ _ _) in *.
  pose proof (replay_keeps now' k nonce _ _ m2 Hk' Hnow ltac:(lia)) as HK.
  assert (fst (check_replay now' pk_hex nonce_hex (host, ip, "Desktop") m2) = Ok None) as HC.
  { unfold check_replay. rewrite Hpk, Hn. destruct (beacon_nonce_is_replay _ _ _ _) as [b m3]. by rewrite (proj2 (proj2 HK) eq_refl). }
  unfold parse_beacon_payload. rewrite Hsp, Hsig, Hpk, Hv. cbn [negb].
  destruct (stale _ _); [done|]. destruct (negb _); [done|]. destruct expected as [e|].
  - by rewrite (He e eq_refl), decide_True.
  - destruct (log_hex _ _ Hpk) as [q ->]. done.
Qed.

End Props.

(** ** The signing key *)

(** Every operation succeeds and does what it reports. *)
Definition fair : SetFate := {| reported := true; stored := true |}.
Definition key_ok : KeyIo :=
  {| kio_get := (true, true); kio_set := (fair, fair, fair); kio_verify := true; kio_read := (true, true); kio_remove := (true, true) |}.

Section Keys.
Context `{M : MlDsa} `{LM : !MlDsaLaws} `{X : Hex} `{LX : !HexLaws}.

Definition holds_pair (kp : bytes * bytes) (h : Host) : Prop :=
  keyring h !! SK_ENTRY = Some (hex_encode (snd kp)) /\ keyring h !! PK_ENTRY = Some (hex_encode (fst kp)).
Definition files_hold (kp : bytes * bytes) (h : Host) : Prop :=
  bstr <$> files h !! PK_FILE = Some (fst kp) /\ bstr <$> files h !! SK_FILE = Some (snd kp).
Definition sized (kp : bytes * bytes) : Prop := len (fst kp) = 1952 /\ len (snd kp) = 4032.

Lemma sized_keypair coins : sized (generate_mldsa_keypair coins).
Proof. apply keypair_sizes. Qed.

Lemma keyring_pair_held io kp h :
  kio_get io = (true, true) -> sized kp -> holds_pair kp h -> keyring_pair io h = Some kp.
Proof.
  intros Hg [S1 S2] [H1 H2]. unfold keyring_pair. rewrite Hg. cbn [fst snd get_password]. rewrite H1, H2.
  cbn [mbind option_bind]. rewrite !hex_roundtrip. cbn [mbind option_bind]. rewrite S1, S2. by destruct kp.
Qed.

Lemma keyring_pair_sized io kp h : keyring_pair io h = Some kp -> sized kp.
Proof.
  unfold keyring_pair. intros H. repeat (apply bind_Some in H as (? & _ & H)).
  destruct (_ && _) eqn:E; [|done]. injection H as <-. apply andb_true_iff in E as [E1 E2]. split; cbn; lia.
Qed.

Lemma file_pair_sized io kp h : file_pair io h = Some kp -> sized kp.
Proof.
  unfold file_pair. intros H. repeat (apply bind_Some in H as (? & _ & H)).
  destruct (_ && _) eqn:E; [|done]. injection H as <-. apply andb_true_iff in E as [E1 E2]. split; cbn; lia.
Qed.

(** A write sequence that reports success, of truthful writes, holds the pair. *)
Lemma persist_holds io pk sk h h' :
  (let '(f1, f2, f3) := kio_set io in stored f2 = reported f2 /\ stored f3 = reported f3) ->
  persist_beacon_signing_keypair io pk sk h = (true, h') -> holds_pair (pk, sk) h'.
Proof.
  unfold persist_beacon_signing_keypair, keyring_set. destruct (kio_set io) as [[f1 f2] f3]. intros [E2 E3].
  destruct (reported f1); [|done]. cbn [negb]. destruct (reported f2) eqn:R2; [|done]. cbn [negb].
  destruct (reported f3) eqn:R3; [|done]. intros [= <-]. rewrite E2, E3. unfold holds_pair, set_password. cbn.
  split; [by rewrite lookup_insert_ne, lookup_insert_eq|by rewrite lookup_insert_eq].
Qed.

Lemma persist_files io pk sk h : files (snd (persist_beacon_signing_keypair io pk sk h)) = files h.
Proof.
  unfold persist_beacon_signing_keypair, keyring_set, set_password. destruct (kio_set io) as [[f1 f2] f3].
  by destruct (reported f1), (reported f2), (stored f1), (stored f2), (stored f3).
Qed.

Lemma key_is_stable coins h io' coins' :
  kio_get io' = (true, true) ->
  let '(kp, h') := device_signing_key key_ok coins h in
  device_signing_key io' coins' h' = (kp, h').
Proof.
  intros Hg. unfold device_signing_key at 1. destruct (keyring_pair key_ok h) as [kp|] eqn:Ek.
  { unfold device_signing_key. unfold keyring_pair in *. rewrite Hg. cbn [kio_get key_ok] in Ek. by rewrite Ek. }
  assert (forall pk sk h', sized (pk, sk) -> holds_pair (pk, sk) h' -> device_signing_key io' coins' h' = ((pk, sk), h')) as Hdone.
  { intros pk sk h' Hs Hh. unfold device_signing_key. by rewrite (keyring_pair_held io' (pk, sk) h' Hg Hs Hh). }
  destruct (file_pair key_ok h) as [[pk sk]|] eqn:Ef.
  - apply file_pair_sized in Ef. apply Hdone; [done|]. unfold migrate_and_remove_legacy_files.
    destruct (persist_beacon_signing_keypair key_ok pk sk h) as [ok h1] eqn:Ep.
    assert (ok = true) as -> by (by injection Ep as <- _). apply persist_holds in Ep; [|done]. cbn [negb].
    case_bool_decide; [|done]. destruct Ep. by split.
  - pose proof (sized_keypair coins) as Hs. destruct (generate_mldsa_keypair coins) as [pk sk]. apply Hdone; [done|].
    destruct (persist_beacon_signing_keypair key_ok pk sk h) as [ok h1] eqn:Ep.
    assert (ok = true) as -> by (by injection Ep as <- _). by apply persist_holds in Ep.
Qed.

(** With a working keyring the device keeps its signing key: whatever was stored
    before and whatever new pair a later call would draw, every later call that
    can read the keyring gives the pair of the first. *)
Theorem identity_kept coins h io' coins' :
  kio_get io' = (true, true) ->
  device_signing_key io' coins' (snd (device_signing_key key_ok coins h)) = device_signing_key key_ok coins h.
Proof. intros Hg. pose proof (key_is_stable coins h io' coins' Hg) as H. by destruct (device_signing_key key_ok coins h). Qed.

(** The migration never destroys the only copy: whatever fails of the keyring
    and of the files, when the write of the public key does what it reports, the
    pair of the files is afterwards still in the files or in the keyring. *)
Theorem migration_keeps_a_copy io coins h kp :
  files_hold kp h -> keyring_pair io h = None -> file_pair io h = Some kp ->
  (let '(_, _, f3) := kio_set io in stored f3 = reported f3) ->
  let run := device_signing_key io coins h in
  fst run = kp /\ (files_hold kp (snd run) \/ holds_pair kp (snd run)).
Proof.
  intros Hf Hk Hp H3 run. subst run. unfold device_signing_key. rewrite Hk, Hp. destruct kp as [pk sk]. split; [done|]. cbn [snd].
  unfold migrate_and_remove_legacy_files. pose proof (persist_files io pk sk h) as Hfiles.
  destruct (persist_beacon_signing_keypair io pk sk h) as [ok h1] eqn:Ep. cbn [snd] in Hfiles.
  assert (files_hold (pk, sk) h1) as Hf1 by (unfold files_hold; by rewrite Hfiles).
  destruct ok; [|by left]. cbn [negb]. case_bool_decide as Hv; [|by left]. right.
  unfold get_password in Hv. destruct (kio_verify io); [|done].
  assert (keyring h1 !! PK_ENTRY = Some (hex_encode pk)) as HP.
  { unfold persist_beacon_signing_keypair, keyring_set in Ep. destruct (kio_set io) as [[f1 f2] f3].
    destruct (reported f1); [|done]. destruct (reported f2); [|done]. cbn [negb] in Ep. injection Ep as R3 <-.
    rewrite H3, R3. cbn. apply lookup_insert_eq. }
  unfold fs_remove. destruct (fst (kio_remove io)), (snd (kio_remove io)); by split.
Qed.

End Keys.

(** ** Concrete runs *)

Module ToyDsa.

Definition fill (n : nat) (b : bytes) : bytes := take n (b ++ replicate n x00).
Lemma length_fill n b : length (fill n b) = n.
Proof. unfold fill. rewrite length_take, length_app, length_replicate. lia. Qed.

(** A "signature" names the key and starts with the message. *)
Definition stamp (key m : bytes) : bytes := fill 3309 (take 8 key ++ m).
#[export] Instance toy_dsa : MlDsa := {|
  mldsa_keypair r := (fill 1952 (fill 8 r), fill 4032 (fill 8 r));
  secret_key_from_bytes sk := (len sk =? 4032);
  public_key_from_bytes pk := (len pk =? 1952);
  signature_from_bytes sig := (len sig =? 3309);
  detached_sign _ sk m := stamp sk m;
  verify_detached_signature sig m pk := bool_decide (sig = stamp pk m)
|}.

Lemma take_fill n b : (8 <= n)%nat -> take 8 (fill n (fill 8 b)) = fill 8 b.
Proof.
  intros H. unfold fill at 1. rewrite take_take, Nat.min_l by done. rewrite take_app_le by (by rewrite length_fill).
  apply take_ge. by rewrite length_fill.
Qed.

#[export] Instance toy_dsa_laws : MlDsaLaws.
Proof.
  split; intros; cbn [mldsa_keypair secret_key_from_bytes public_key_from_bytes signature_from_bytes detached_sign
                      verify_detached_signature toy_dsa fst snd]; unfold len, stamp; rewrite ?length_fill; try (split; try done; by apply Z.eqb_eq).
  apply bool_decide_eq_true_2. by rewrite !take_fill by lia.
Qed.

Import ToyJson.
#[export] Instance toy_hex_digits : HexDigits.
Proof.
  assert (forall z, 0 <= z < 16 -> code (hex_digit z) < 128) as Hz.
  { intros z Hz. unfold code, hex_digit. rewrite nat_ascii_embedding; [|destruct (z <? 10); lia]. destruct (z <? 10); lia. }
  split; cbn [hex_encode hex_decode toy_hex].
  - induction b as [|x b IH]; [done|]. cbn [toy_encode String.length length]. rewrite IH. lia.
  - induction b as [|x b IH]; [constructor|]. pose proof (Z_of_byte_range x) as Hr. cbn [toy_encode].
    apply Forall_cons. split; [apply Hz; split; [apply Z.div_pos; lia|apply Z.div_lt_upper_bound; lia]|].
    apply Forall_cons. split; [apply Hz; apply Z.mod_pos_bound; lia|exact IH].
  - assert (forall c v, digit_value c = Some v -> code c < 128) as Hd.
    { intros c v. unfold digit_value, code. repeat case_match; try done; intros _;
        match goal with H : (_ && _)%bool = true |- _ => apply andb_true_iff in H as [? ?] end; lia. }
    assert (forall n s, (String.length s <= n)%nat -> forall b, toy_decode s = Some b -> ascii_text s) as Hall.
    { induction n as [|n IH]; intros [|h [|l s]] Hn b Hb; try constructor; try done; cbn in Hn; [lia..| |].
      - cbn [toy_decode] in Hb. apply bind_Some in Hb as (a & Ha & _). by eapply Hd.
      - cbn [toy_decode] in Hb. apply bind_Some in Hb as (a & _ & Hb). apply bind_Some in Hb as (a' & Ha' & Hb).
        apply bind_Some in Hb as (r & Hr & _). constructor; [by eapply Hd|]. eapply IH; [|exact Hr]. lia. }
    intros s b. by apply (Hall (String.length s)).
Qed.

Definition desk_beacon : list string := beacon_fields "aabb" "192.168.1.50" 1000 [x01; x02] [] (mldsa_keypair [x07]).

Lemma beacon_understood_witness :
  fst (parse_beacon_payload true 1030 5 (joined ":"%char desk_beacon) "192.168.1.50" None ∅)
  = Ok (Some ("aabb", "192.168.1.50", "Desktop")).
Proof.
  apply (beacon_understood true 1030 5 "aabb" "192.168.1.50" 1000 [x01; x02] [] [x07] None ∅);
    [by repeat constructor|by repeat constructor|unfold u64_max; lia|lia|by left|by vm_compute].
Defined.

Definition desk_datagram : Datagram :=
  {| rx_unix := 1030; rx_now := 5; rx_source := "192.168.1.50";
     rx_data := send_p2p_beacon (joined ":"%char ["aabb"; "192.168.1.50"]) 1000 [x01; x02] [] (mldsa_keypair [x07]) |}.

Lemma device_beacon_never_received_witness : receive_beacon true None desk_datagram ∅ = (Ok None, ∅).
Proof.
  apply (device_beacon_never_received true "aabb" "192.168.1.50" 1000 [x01; x02] [] [x07] None desk_datagram ∅);
    [by repeat constructor|by repeat constructor|lia|reflexivity].
Defined.

(** A beacon that was accepted, and the cache afterwards. *)
Abbreviation accepted := (parse_beacon_payload true 1030 5 (joined ":"%char desk_beacon) "192.168.1.50" None ∅).
Lemma first_accepted : fst accepted = Ok (Some ("aabb", "192.168.1.50", "Desktop")).
Proof. vm_compute. reflexivity. Qed.
Lemma pair_snd {A B} (x : A * B) a : fst x = a -> x = (a, snd x).
Proof. by destruct x; intros <-. Qed.
Lemma was_accepted : accepted = (Ok (Some ("aabb", "192.168.1.50", "Desktop")), snd accepted).
Proof. exact (pair_snd _ _ first_accepted). Qed.
Lemma one_remembered : (size (snd accepted) + length [desk_datagram] < BEACON_NONCE_CACHE_MAX)%nat.
Proof.
  assert (size (snd accepted) <= 1)%nat as H; [|cbn [length]; unfold BEACON_NONCE_CACHE_MAX; lia].
  destruct (parse_seen true 1030 5 (joined ":"%char desk_beacon) "192.168.1.50" None ∅) as [E|(pk & nonce & E)];
    rewrite E; [by rewrite map_size_empty; lia|]. by rewrite replay_size, map_size_empty.
Qed.
Lemma beacon_splits :
  splitn 7 ":"%char (joined ":"%char desk_beacon) = "aabb" :: "192.168.1.50" :: "1000" 
  :: "0102" :: hex_encode (fst (mldsa_keypair [x07])) :: drop 5 desk_beacon.
Proof. vm_compute. reflexivity. Qed.

Lemma in_between : Forall (fun rx => rx_now rx < 5 + BEACON_NONCE_TTL) [desk_datagram].
Proof. apply Forall_singleton. unfold desk_datagram, BEACON_NONCE_TTL, secs. cbn [rx_now]. lia. Qed.

Lemma beacon_replay_refused_witness :
  fst (parse_beacon_payload true 1040 9 (joined ":"%char desk_beacon) "192.168.1.50" None
         (receive_all true None [desk_datagram] (snd accepted))) = Ok None.
Proof.
  exact (beacon_replay_refused true None 1030 5 (joined ":"%char desk_beacon) "192.168.1.50" ∅
           ("aabb", "192.168.1.50", "Desktop") (snd accepted) [desk_datagram] 1040 9 "192.168.1.50"
           "aabb" "192.168.1.50" "1000" "0102" (hex_encode (fst (mldsa_keypair [x07]))) [x01; x02] (drop 5 desk_beacon)
           beacon_splits eq_refl was_accepted one_remembered in_between eq_refl).
Defined.

Lemma identity_kept_witness :
  device_signing_key key_ok [x02] (snd (device_signing_key key_ok [x01] {| keyring := ∅; files := ∅ |}))
  = device_signing_key key_ok [x01] {| keyring := ∅; files := ∅ |}.
Proof. exact (identity_kept [x01] {| keyring := ∅; files := ∅ |} key_ok [x02] eq_refl). Defined.

(** A keyring that takes the secret key and loses the public one: the files are
    removed, and the next start draws a new identity. *)
Definition lossy : KeyIo :=
  {| kio_get := (true, true); kio_set := (fair, fair, {| reported := true; stored := false |}); kio_verify := true;
     kio_read := (true, true); kio_remove := (true, true) |}.
Definition old_install : Host :=
  let kp := mldsa_keypair [x05] in
  {| keyring := ∅; files := <[PK_FILE := String.string_of_list_byte (fst kp)]> {[ SK_FILE := String.string_of_list_byte (snd kp) ]} |}.

Lemma migration_loses_identity :
  fst (device_signing_key lossy [] old_install) = mldsa_keypair [x05]
  /\ fst (device_signing_key key_ok [x06] (snd (device_signing_key lossy [] old_install))) = mldsa_keypair [x06].
Proof. split; vm_compute; reflexivity. Qed.

End ToyDsa.
