(* ===== verification/IpAddr.v ===== *)
(** * IpAddr: addresses of the Rust standard library (core::net)

    IPv4 and IPv6 addresses as their 32- and 128-bit numbers, socket addresses,
    the parsers behind [str::parse] and the address classes the program asks for. *)

From Stdlib Require Import Ascii.
From S2P Require Import Prelude Error Json StrOps.

Inductive IpAddr := V4 (a : Z) | V6 (a : Z).
#[export] Instance IpAddr_eq_dec : EqDecision IpAddr. Proof. solve_decision. Defined.
Record SockAddr := { sa_ip : IpAddr; sa_port : Z }.
#[export] Instance SockAddr_eq_dec : EqDecision SockAddr. Proof. solve_decision. Defined.

Definition octet (i : Z) (a : Z) : Z := Z.land (Z.shiftr a (8 * (3 - i))) 255.
Definition segment (i : Z) (a : Z) : Z := Z.land (Z.shiftr a (16 * (7 - i))) 65535.

(** An address is in range. *)
Definition ip_range (ip : IpAddr) : Prop :=
  match ip with V4 a => 0 <= a < 2 ^ 32 | V6 a => 0 <= a < 2 ^ 128 end.

(** ** Classes *)

Module Ipv4.
Definition is_loopback (a : Z) : bool := octet 0 a =? 127.
Definition is_private (a : Z) : bool :=
  (octet 0 a =? 10)
  || ((octet 0 a =? 172) && (16 <=? octet 1 a) && (octet 1 a <=? 31))
  || ((octet 0 a =? 192) && (octet 1 a =? 168)).
Definition is_link_local (a : Z) : bool := (octet 0 a =? 169) && (octet 1 a =? 254).
Definition is_unspecified (a : Z) : bool := a =? 0.
Definition is_multicast (a : Z) : bool := (224 <=? octet 0 a) && (octet 0 a <=? 239).
End Ipv4.

Module Ipv6.
Definition is_loopback (a : Z) : bool := a =? 1.
Definition is_unspecified (a : Z) : bool := a =? 0.
Definition is_multicast (a : Z) : bool := Z.land (segment 0 a) 0xff00 =? 0xff00.
Definition is_unique_local (a : Z) : bool := Z.land (segment 0 a) 0xfe00 =? 0xfc00.
Definition is_unicast_link_local (a : Z) : bool := Z.land (segment 0 a) 0xffc0 =? 0xfe80.
End Ipv6.

Definition ip_is_loopback (ip : IpAddr) : bool :=
  match ip with V4 a => Ipv4.is_loopback a | V6 a => Ipv6.is_loopback a end.

(** ** Parsing *)

(** A parser consumes characters, or leaves them as they were. *)
Definition parser (A : Type) : Type := list ascii -> option (A * list ascii).

Definition read_given_char (c : ascii) : parser unit := fun s =>
  match s with c' :: s => if decide (c' = c) then Some (tt, s) else None | [] => None end.

Definition to_digit (radix : Z) (c : ascii) : option Z :=
  let n := code c in
  let d := if (48 <=? n) && (n <=? 57) then Some (n - 48)
           else if (97 <=? n) && (n <=? 122) then Some (n - 87)
           else if (65 <=? n) && (n <=? 90) then Some (n - 55) else None in
  match d with Some d => if d <? radix then Some d else None | None => None end.

(** The digits at the front: their number and value. *)
Fixpoint read_digits (radix acc : Z) (count : nat) (s : list ascii) : Z * nat * list ascii :=
  match s with
  | c :: s' => match to_digit radix c with Some d => read_digits radix (acc * radix + d) (S count) s' | None => (acc, count, s) end
  | [] => (acc, count, s)
  end.

(** [read_number]: at least one digit, at most [max_digits], no zero in front of
    another digit unless allowed, at most [max]. *)
Definition read_number (radix : Z) (max_digits : option nat) (allow_zero_prefix : bool) (max : Z) : parser Z := fun s =>
  let '(n, count, rest) := read_digits radix 0 0 s in
  let leading_zero := match s with c :: _ => bool_decide (c = "0"%char) | [] => false end in
  if (count =? 0)%nat || (match max_digits with Some m => (m <? count)%nat | None => false end)
     || (negb allow_zero_prefix && leading_zero && (1 <? count)%nat) || (max <? n)
  then None else Some (n, rest).

Definition read_separator {A} (sep : ascii) (index : nat) (inner : parser A) : parser A := fun s =>
  if (index =? 0)%nat then inner s else '(_, s) ← read_given_char sep s; inner s.

Definition read_ipv4_addr : parser Z := fun s =>
  let number i := read_separator "."%char i (read_number 10 (Some 3%nat) false 255) in
  '(a, s) ← number 0%nat s; '(b, s) ← number 1%nat s; '(c, s) ← number 2%nat s; '(d, s) ← number 3%nat s;
  Some (((a * 256 + b) * 256 + c) * 256 + d, s).

(** [read_groups]: up to [limit - i] more groups, and whether the last two were
    written as an IPv4 address. *)
Fixpoint read_groups (left_ : nat) (i : nat) (s : list ascii) : list Z * bool * list ascii :=
  match left_ with
  | O => ([], false, s)
  | S left_ =>
      match (if decide (left_ = 0%nat) then None else read_separator ":"%char i read_ipv4_addr s) with
      | Some (v4, s) => ([v4 / 65536; v4 mod 65536], true, s)
      | None =>
          match read_separator ":"%char i (read_number 16 (Some 4%nat) true 65535) s with
          | Some (g, s) => let '(gs, v4, s) := read_groups left_ (S i) s in (g :: gs, v4, s)
          | None => ([], false, s)
          end
      end
  end.

Definition of_segments (gs : list Z) : Z := fold_left (fun acc g => acc * 65536 + g) gs 0.

Definition read_ipv6_addr : parser Z := fun s =>
  let '(head, head_ipv4, s) := read_groups 8 0 s in
  if (length head =? 8)%nat then Some (of_segments head, s)
  else if head_ipv4 then None
  else
    '(_, s) ← read_given_char ":"%char s;
    '(_, s) ← read_given_char ":"%char s;
    let '(tail, _, s) := read_groups (8 - (length head + 1)) 0 s in
    Some (of_segments (head ++ replicate (8 - length head - length tail) 0 ++ tail), s).

Definition read_port : parser Z := fun s =>
  '(_, s) ← read_given_char ":"%char s; read_number 10 None true 65535 s.

(** [%scope]: a number, not kept. *)
Definition read_scope_id : parser unit := fun s =>
  '(_, s) ← read_given_char "%"%char s; '(_, s) ← read_number 10 None true u32_max s; Some (tt, s).

Definition read_socket_addr_v4 : parser SockAddr := fun s =>
  '(ip, s) ← read_ipv4_addr s; '(port, s) ← read_port s; Some ({| sa_ip := V4 ip; sa_port := port |}, s).
Definition read_socket_addr_v6 : parser SockAddr := fun s =>
  '(_, s) ← read_given_char "["%char s;
  '(ip, s) ← read_ipv6_addr s;
  let s := match read_scope_id s with Some (_, s) => s | None => s end in
  '(_, s) ← read_given_char "]"%char s;
  '(port, s) ← read_port s;
  Some ({| sa_ip := V6 ip; sa_port := port |}, s).

(** [parse]: the whole text. *)
Definition parse_with {A} (p : parser A) (s : string) : option A :=
  '(a, rest) ← p (chars s); if decide (rest = []) then Some a else None.
Definition or_parser {A} (p q : parser A) : parser A := fun s => match p s with Some r => Some r | None => q s end.
Definition parse_ip (s : string) : option IpAddr :=
  parse_with (or_parser (fun s => '(a, s) ← read_ipv4_addr s; Some (V4 a, s)) (fun s => '(a, s) ← read_ipv6_addr s; Some (V6 a, s))) s.
Definition parse_socket_addr (s : string) : option SockAddr :=
  parse_with (or_parser read_socket_addr_v4 read_socket_addr_v6) s.

Example parse_v4 : parse_ip "192.168.1.20" = Some (V4 0xC0A80114).
Proof. reflexivity. Qed.
Example parse_v4_zero : parse_ip "010.0.0.1" = None.
Proof. reflexivity. Qed.
Example parse_v6 : parse_ip "fe80::1:ffff:10.0.0.1" = Some (V6 0xfe800000000000000001ffff0a000001).
Proof. reflexivity. Qed.
Example parse_socket : parse_socket_addr "[::1%4]:4433" = Some {| sa_ip := V6 1; sa_port := 4433 |}.
Proof. reflexivity. Qed.

(** ** Display *)

Definition ipv4_text (a : Z) : string :=
  joined "."%char (map (fun i => decimal (octet i a)) [0; 1; 2; 3]).

Definition hex_char (d : Z) : ascii := ascii_of_nat (Z.to_nat (if d <? 10 then 48 + d else 87 + d)).
(** [{:x}] of a segment. *)
Fixpoint hex_loop (fuel : nat) (n : Z) (rest : string) : string :=
  match fuel with
  | O => rest
  | S fuel => let rest := String (hex_char (n mod 16)) rest in if n <? 16 then rest else hex_loop fuel (n / 16) rest
  end.
Definition segments_text (gs : list Z) : string := joined ":"%char (map (fun g => hex_loop 4 g "") gs).

(** The first longest run of zero segments: its start and length. *)
Definition zero_run (gs : list Z) : nat * nat :=
  let '(_, _, longest) :=
    fold_left (fun '(i, current, longest) g =>
      if g =? 0 then
        let current := if (snd current =? 0)%nat then (i, 1%nat) else (fst current, S (snd current)) in
        (S i, current, if (snd longest <? snd current)%nat then current else longest)
      else (S i, (0%nat, 0%nat), longest))
    gs (0%nat, (0%nat, 0%nat), (0%nat, 0%nat)) in
  longest.

Definition ipv6_text (a : Z) : string :=
  let gs := map (fun i => segment i a) [0; 1; 2; 3; 4; 5; 6; 7] in
  if Z.shiftr a 32 =? 0xffff then "::ffff:" +:+ ipv4_text (a mod 2 ^ 32)
  else
    let '(start, n) := zero_run gs in
    if (1 <? n)%nat then segments_text (take start gs) +:+ "::" +:+ segments_text (drop (start + n) gs)
    else segments_text gs.

Definition ip_text (ip : IpAddr) : string := match ip with V4 a => ipv4_text a | V6 a => ipv6_text a end.

Example show_v4 : ip_text (V4 0xC0A80114) = "192.168.1.20".
Proof. vm_compute. reflexivity. Qed.
Example show_v6 : ip_text (V6 0xfe800000000000000001ffff0a000001) = "fe80::1:ffff:a00:1".
Proof. vm_compute. reflexivity. Qed.
Example show_mapped : ip_text (V6 0xffff0a000001) = "::ffff:10.0.0.1".
Proof. vm_compute. reflexivity. Qed.

(** ** Address blocks *)

(** [base/len] of the addresses with [width] bits. *)
Definition in_block (width : Z) (a : Z) (block : Z * Z) : bool :=
  let '(base, n) := block in Z.shiftr a (width - n) =? Z.shiftr base (width - n).
Definition in_blocks (v4 v6 : list (Z * Z)) (ip : IpAddr) : bool :=
  match ip with V4 a => existsb (in_block 32 a) v4 | V6 a => existsb (in_block 128 a) v6 end.

(** The first two octets, and the first segment, of an address. *)
Lemma octet_0 a : octet 0 a = Z.land (Z.shiftr (Z.shiftr a 16) 8) 255.
Proof. unfold octet. by rewrite Z.shiftr_shiftr. Qed.
Lemma octet_1 a : octet 1 a = Z.land (Z.shiftr a 16) 255.
Proof. done. Qed.
Lemma segment_0 a : segment 0 a = Z.land (Z.shiftr a 112) 65535.
Proof. done. Qed.

(** A block of at most sixteen bits looks at these only. *)
Lemma in_block_16 width a base n :
  n <= 16 -> 16 <= width ->
  in_block width a (base, n) = (Z.shiftr (Z.shiftr a (width - 16)) (16 - n) =? Z.shiftr base (width - n)).
Proof. intros Hn Hw. unfold in_block. rewrite Z.shiftr_shiftr by lia. by replace (width - 16 + (16 - n)) with (width - n) by lia. Qed.
Lemma in_block_all width a base : in_block width a (base, width) = (a =? base).
Proof. unfold in_block. by rewrite Z.sub_diag, !Z.shiftr_0_r. Qed.

Lemma top_16 width a : 16 <= width -> 0 <= a < 2 ^ width -> 0 <= Z.shiftr a (width - 16) < 65536.
Proof.
  intros Hw Ha. rewrite Z.shiftr_div_pow2 by lia. split; [apply Z.div_pos; lia|].
  apply Z.div_lt_upper_bound; [lia|]. change 65536 with (2 ^ 16). rewrite <- Z.pow_add_r by lia.
  replace (width - 16 + 16) with width by lia. lia.
Qed.

(** Masking off low bits. *)
Lemma land_mask s n k m : 0 <= s < 2 ^ n -> 0 <= k <= n -> m = Z.ldiff (Z.ones n) (Z.ones k) -> Z.land s m = s / 2 ^ k * 2 ^ k.
Proof.
  intros Hs Hk ->. rewrite <- Z.shiftr_div_pow2, <- Z.shiftl_mul_pow2, <- Z.ldiff_ones_r by lia.
  rewrite !Z.ldiff_land, Z.land_assoc, Z.land_ones by lia. by rewrite Z.mod_small.
Qed.

(** Shifts and masks of bytes as divisions, for [lia]. *)
Lemma land_255 x : Z.land x 255 = x mod 256.
Proof. exact (Z.land_ones x 8 ltac:(lia)). Qed.
Lemma land_65535 x : Z.land x 65535 = x mod 65536.
Proof. exact (Z.land_ones x 16 ltac:(lia)). Qed.

(** Powers of two, and the bases of blocks shifted, as numbers. *)
Ltac eval_powers :=
  repeat match goal with
  | |- context [2 ^ ?k] => let v := eval vm_compute in (2 ^ k) in change (2 ^ k) with v
  | |- context [Zpos ?c / ?d] => let v := eval vm_compute in (Zpos c / d) in change (Zpos c / d) with v
  end.
