(* ===== verification/Tls.v ===== *)
(** * Tls: certificate pinning and the server's TLS identity
    (core-crypto/src/network/tls_config.rs, core-crypto/src/quic_app/mod.rs)

    The verifier both ends install, the pin kept after pairing, the certificate
    and key of the desktop with the keyring and the files they live in, and the
    server endpoint with its rebinding.  Certificate generation (rcgen), the
    handshake (rustls) and the sockets (quinn) are third-party: their outcomes are
    arguments. *)

From S2P Require Import Prelude Error Primitives Toy Json RatchetState RatchetStore Beacon.

(** ** The verifier *)

Record PinnedCertVerifier := { pinned_sha256_hex : list string; required : bool }.

Definition single (hash : string) (required : bool) : PinnedCertVerifier :=
  {| pinned_sha256_hex := if eqb_dec hash "" then [] else [hash]; required := required |}.

Inductive CertificateError := ApplicationVerificationFailure.

Section Verifier.
Context `{P : Primitives} `{X : Hex}.

Definition cert_sha256 (cert : bytes) : string := hex_encode (sha256 cert).

Definition verify_cert (v : PinnedCertVerifier) (end_entity : bytes) : result CertificateError unit :=
  let cert_hash := cert_sha256 end_entity in
  match pinned_sha256_hex v with
  | [] => if required v then Err ApplicationVerificationFailure else Ok tt
  | pins =>
      if existsb (fun pinned =>
           (String.length pinned =? String.length cert_hash)%nat && eqb_dec (bstr pinned) (bstr cert_hash)) pins
      then Ok tt
      else Err ApplicationVerificationFailure
  end.

Definition verify_server_cert (v : PinnedCertVerifier) (end_entity : bytes) : result CertificateError unit :=
  verify_cert v end_entity.
Definition verify_client_cert (v : PinnedCertVerifier) (end_entity : bytes) : result CertificateError unit :=
  verify_cert v end_entity.
Definition offer_client_auth (v : PinnedCertVerifier) : bool := true.
Definition client_auth_mandatory (v : PinnedCertVerifier) : bool := required v.

(** ** What is configured from it *)

(** [None]: no client authentication. *)
Record ServerConfig := {
  sc_certs : list bytes;
  sc_key : bytes;
  sc_verifier : option PinnedCertVerifier;
  sc_alpn : list bytes
}.
Record ClientConfig := {
  cc_verifier : PinnedCertVerifier;
  cc_auth : option (list bytes * bytes);
  cc_alpn : list bytes
}.

Definition ALPN : list bytes := [bstr "kyberpipe-pqc-v1"].

(** [accepted]: whether rustls accepts the certificate with the key. *)
Definition configure_quic_server (accepted : bool) (certs : list bytes) (key : bytes) (require_client_auth : bool)
  (pinned_client_cert_hashes : list string) : kres ServerConfig :=
  if negb accepted then Err (NetworkError "Rustls ServerConfig error: {e}")
  else
    let required := negb (bool_decide (pinned_client_cert_hashes = [])) in
    Ok {| sc_certs := certs; sc_key := key;
          sc_verifier :=
            if require_client_auth
            then Some {| pinned_sha256_hex := pinned_client_cert_hashes; required := required |}
            else None;
          sc_alpn := ALPN |}.

Definition configure_quic_client (pinned_cert_hash : option string) : ClientConfig :=
  {| cc_verifier := {| pinned_sha256_hex := option_list pinned_cert_hash; required := is_some pinned_cert_hash |};
     cc_auth := None; cc_alpn := ALPN |}.

(** The configuration [QuicAppManager::connect] dials with. *)
Definition connect_config (pinned_cert_hash : option string) (client_certs : option (list bytes * bytes)) : ClientConfig :=
  match client_certs with
  | Some (certs, key) =>
      {| cc_verifier := single (default "" pinned_cert_hash) (is_some pinned_cert_hash);
         cc_auth := Some (certs, key); cc_alpn := ALPN |}
  | None => configure_quic_client pinned_cert_hash
  end.

(** ** The confirmed pin of a server *)

Definition PIN_ENTRY : string * string := ("kyberpipe-tofu", "server_cert_hash").

(** The static is read from the keyring when it is first used. *)
Definition trusted_server_pin (readable : bool) (cached : option (option string)) (h : Host) : option string :=
  match cached with Some p => p | None => get_password readable PIN_ENTRY h end.
Definition get_tofu_cert_hash : bool -> option (option string) -> Host -> option string := trusted_server_pin.
Definition store_tofu_cert_hash (written : bool) (hash : string) (h : Host) : option (option string) * Host :=
  if eqb_dec hash "" then (Some None, delete_password written PIN_ENTRY h)
  else (Some (Some hash), set_password written PIN_ENTRY hash h).

(** The FFI entry that stores one. *)
Definition quic_store_server_pin (written : bool) (cert_hash : string) (cached : option (option string)) (h : Host)
  : kres unit * (option (option string) * Host) :=
  if negb (String.length cert_hash =? 64)%nat || negb (is_some (hex_decode cert_hash))
  then (Err (NetworkError "Cert pin must be a 64-char hex SHA-256 digest"), (cached, h))
  else (Ok tt, store_tofu_cert_hash written cert_hash h).

Definition capture_server_cert_hash_no_store (peer_identity : option (list bytes)) : option string :=
  certs ← peer_identity; cert ← head certs; Some (cert_sha256 cert).

(** ** The server's own identity *)

Definition CERT_FILE : string := "server_cert.der".
Definition KEY_FILE : string := "server_key.der".
Definition TLS_KEYRING_ENTRY : string * string := entry "server_tls_key".

(** What the keyring and the file system make of the calls of one load. *)
Record TlsIo := {
  force_legacy : bool;             (* FORCE_LEGACY_KEY_FILE *)
  tio_read_cert : bool;
  tio_get : bool;
  tio_read_key : bool;
  tio_set : SetFate;
  tio_verify : bool;
  tio_remove : bool;
  tio_generated : option (bytes * bytes);  (* a certificate and its key *)
  tio_write_key : bool * option string;
  tio_write_cert : bool * option string
}.

Definition keyring_server_key (readable : bool) (h : Host) : kres bytes :=
  stored ← ok_or (get_password readable TLS_KEYRING_ENTRY h) (NetworkError "Keyring read failed: {e}");
  ok_or (hex_decode stored) (NetworkError "Stored TLS key is not hex: {e}").
Definition keyring_store_server_key (fate : SetFate) (key_der : bytes) (h : Host) : bool * Host :=
  keyring_set fate TLS_KEYRING_ENTRY (hex_encode key_der) h.

Definition reads_back (readable : bool) (key_der : bytes) (h : Host) : bool :=
  match keyring_server_key readable h with Ok k => eqb_dec k key_der | _ => false end.

(** The key file of older versions: used, and moved to the keyring when the
    keyring gives it back. *)
Definition migrate_server_key (io : TlsIo) (key_der : bytes) (h : Host) : Host :=
  if force_legacy io then h
  else
    let '(ok, h) := keyring_store_server_key (tio_set io) key_der h in
    if ok && reads_back (tio_verify io) key_der h then fs_remove (tio_remove io) KEY_FILE h else h.

(** A certificate is on disk. *)
Definition load_server_cert (io : TlsIo) (h : Host) : kres (list bytes * bytes) * Host :=
  match fs_read (tio_read_cert io) CERT_FILE h with
  | None => (Err (NetworkError "Failed to read cert: {e}"), h)
  | Some cert =>
      match (if force_legacy io then None
             else match keyring_server_key (tio_get io) h with Ok k => Some k | _ => None end) with
      | Some key_der => (Ok ([bstr cert], key_der), h)
      | None =>
          match fs_read (tio_read_key io) KEY_FILE h with
          | Some key => (Ok ([bstr cert], bstr key), migrate_server_key io (bstr key) h)
          | None => (Err (NetworkError "Server TLS identity unavailable"), h)
          end
      end
  end.

(** None is: a new one, its key kept before its certificate. *)
Definition generate_server_cert (io : TlsIo) (h : Host) : kres (list bytes * bytes) * Host :=
  match tio_generated io with
  | None => (Err (NetworkError "Certificate generation failed: {e}"), h)
  | Some (cert, key_der) =>
      let '(durable, h) :=
        if force_legacy io then (false, h)
        else
          let '(ok, h) := keyring_store_server_key (tio_set io) key_der h in
          (ok && reads_back (tio_verify io) key_der h, h) in
      let key_text := String.string_of_list_byte key_der in
      let h := if durable then h else fs_write (fst (tio_write_key io)) (snd (tio_write_key io)) KEY_FILE key_text h in
      if negb durable && negb (fst (tio_write_key io))
      then (Err (NetworkError "Failed to persist server TLS key (keyring unusable and key file write failed): {e}"), h)
      else
        (Ok ([cert], key_der),
         fs_write (fst (tio_write_cert io)) (snd (tio_write_cert io)) CERT_FILE (String.string_of_list_byte cert) h)
  end.

Definition load_or_generate_cert (io : TlsIo) (h : Host) : kres (list bytes * bytes) * Host :=
  if is_some (files h !! CERT_FILE) then load_server_cert io h else generate_server_cert io h.

Definition server_cert_sha256 (io : TlsIo) (h : Host) : option string * Host :=
  let '(r, h) := load_or_generate_cert io h in
  (match r with Ok (certs, _) => cert_sha256 <$> head certs | _ => None end, h).

(** ** The endpoint *)

(** A bound endpoint: its port and its configuration. *)
Record Endpoint := { ep_port : Z; ep_config : ServerConfig }.

(** [accepted], [bound]: rustls takes the identity, the socket is bound. *)
Record BindIo := { bio_tls : TlsIo; bio_accepted : bool; bio_bound : bool }.

Definition bind_server (io : BindIo) (allowed : list string) (port : Z) (st : option Endpoint * Host)
  : kres Endpoint * (option Endpoint * Host) :=
  let '(ep, h) := st in
  let '(r, h) := load_or_generate_cert (bio_tls io) h in
  match r with
  | Ok (certs, key) =>
      match configure_quic_server (bio_accepted io) certs key true allowed with
      | Ok config =>
          if bio_bound io then (Ok {| ep_port := port; ep_config := config |}, (Some {| ep_port := port; ep_config := config |}, h))
          else (Err (NetworkError "QUIC server bind failed: {e}"), (ep, h))
      | Err e => (Err e, (ep, h))
      | Panic m => (Panic m, (ep, h))
      end
  | Err e => (Err e, (ep, h))
  | Panic m => (Panic m, (ep, h))
  end.

(** [local]: the old endpoint tells its port; [released]: its socket is free
    again within two seconds. *)
Definition rebind_server (io : BindIo) (local released : bool) (allowed : list string) (port : Z) (st : option Endpoint * Host)
  : kres unit * (option Endpoint * Host) :=
  if bool_decide (allowed = [])
  then (Err (NetworkError "No authorized client certs registered — cannot rebind with mTLS"), st)
  else
    let port := match fst st with Some ep => if local then ep_port ep else port | None => port end in
    if is_some (fst st) && negb released
    then (Err (NetworkError "Rebind aborted: port {port} still held by the previous endpoint: {e}"), (None, snd st))
    else
      let '(r, st) := bind_server io allowed port (None, snd st) in
      (_ ← r; Ok tt, st).

(** ** The verifier accepts the pinned certificates *)

Lemma verify_cert_iff v cert :
  verify_cert v cert = Ok tt <->
  (pinned_sha256_hex v = [] /\ required v = false) \/ cert_sha256 cert ∈ pinned_sha256_hex v.
Proof.
  unfold verify_cert. destruct (pinned_sha256_hex v) as [|p ps] eqn:E.
  - destruct (required v); split; try done; [intros [[_ ?]|?]; [done|set_solver]|by left].
  - rewrite <- E in *. destruct (existsb _ _) eqn:Ex; split; try done.
    + intros _. right. apply existsb_exists in Ex as (q & Hq & Hb). apply list_elem_of_In in Hq.
      apply andb_true_iff in Hb as [_ Hb]. apply bool_decide_eq_true, bstr_inj in Hb. by subst q.
    + intros [[? _]|Hin]; [congruence|]. apply not_true_iff_false in Ex. destruct Ex. apply existsb_exists.
      exists (cert_sha256 cert). split; [by apply list_elem_of_In|]. rewrite Nat.eqb_refl. by apply bool_decide_eq_true.
Qed.

(** The verifier of a connection is the pin, with a client certificate or not. *)
Lemma connect_config_pins pin client_certs cert :
  pin <> "" ->
  verify_server_cert (cc_verifier (connect_config (Some pin) client_certs)) cert = Ok tt <-> cert_sha256 cert = pin.
Proof.
  intros Hp. unfold verify_server_cert. rewrite verify_cert_iff.
  assert (pinned_sha256_hex (cc_verifier (connect_config (Some pin) client_certs)) = [pin]) as ->.
  { destruct client_certs as [[? ?]|]; cbn; [|done]. unfold single. cbn. unfold eqb_dec. by rewrite bool_decide_eq_false_2. }
  rewrite list_elem_of_singleton. naive_solver.
Qed.

(** ** The identity is kept *)

(** The loads of a process, or of several. *)
Fixpoint run_loads (ios : list TlsIo) (h : Host) : list (kres (list bytes * bytes)) * Host :=
  match ios with
  | [] => ([], h)
  | io :: ios =>
      let '(r, h) := load_or_generate_cert io h in
      let '(rs, h) := run_loads ios h in
      (r :: rs, h)
  end.

(** The certificate is on disk, every copy of a key is its key, and one exists. *)
Record identity (cert key : bytes) (h : Host) : Prop := {
  id_cert : files h !! CERT_FILE = Some (String.string_of_list_byte cert);
  id_ring e k : keyring h !! TLS_KEYRING_ENTRY = Some e -> hex_decode e = Some k -> k = key;
  id_file f : files h !! KEY_FILE = Some f -> bstr f = key;
  id_copy : files h !! KEY_FILE = Some (String.string_of_list_byte key)
            \/ exists e, keyring h !! TLS_KEYRING_ENTRY = Some e /\ hex_decode e = Some key
}.

Context {XL : HexLaws}.

Lemma reads_back_stored readable key h :
  reads_back readable key h = true ->
  exists e, keyring h !! TLS_KEYRING_ENTRY = Some e /\ hex_decode e = Some key.
Proof.
  unfold reads_back, keyring_server_key, get_password. destruct readable; cbn; [|done].
  destruct (keyring h !! TLS_KEYRING_ENTRY) as [e|]; cbn; [|done].
  destruct (hex_decode e) as [k|] eqn:E; cbn; [|done]. intros ->%bool_decide_eq_true. by exists e.
Qed.

Lemma keyring_key_is cert key readable h k :
  identity cert key h -> keyring_server_key readable h = Ok k -> k = key.
Proof.
  intros [_ Hr _ _]. unfold keyring_server_key, get_password. destruct readable; cbn; [|done].
  destruct (keyring h !! TLS_KEYRING_ENTRY) as [e|] eqn:E; cbn; [|done].
  destruct (hex_decode e) as [k'|] eqn:E'; cbn; [|done]. intros [= <-]. by apply (Hr e).
Qed.

(** Writing the key to the keyring, whatever becomes of it, keeps the copies. *)
Lemma store_keeps cert key fate h :
  identity cert key h -> identity cert key (snd (keyring_store_server_key fate key h)).
Proof.
  intros [Hc Hr Hf Hk]. unfold keyring_store_server_key, keyring_set, set_password. cbn [snd].
  destruct (stored fate); [|by split]. split; cbn; try done.
  - intros e k. rewrite lookup_insert_eq. intros [= <-]. rewrite hex_roundtrip. congruence.
  - right. exists (hex_encode key). by rewrite lookup_insert_eq, hex_roundtrip.
Qed.

Lemma migrate_keeps cert key io h : identity cert key h -> identity cert key (migrate_server_key io key h).
Proof.
  intros HI. unfold migrate_server_key. destruct (force_legacy io); [done|].
  pose proof (store_keeps _ _ (tio_set io) _ HI) as HI'. destruct (keyring_store_server_key _ _ _) as [ok h']. cbn in HI'.
  destruct ok; [|done]. destruct (reads_back _ _ _) eqn:E; [|done]. apply reads_back_stored in E.
  unfold fs_remove. cbn. destruct (tio_remove io); [|done]. destruct HI' as [Hc Hr Hf _]. split; cbn; try done.
  - by rewrite lookup_delete_ne.
  - intros f. by rewrite lookup_delete_eq.
  - by right.
Qed.

Lemma load_keeps cert key io h :
  identity cert key h ->
  identity cert key (snd (load_or_generate_cert io h))
  /\ (forall id, fst (load_or_generate_cert io h) = Ok id -> id = ([cert], key)).
Proof.
  intros HI. pose proof HI as [Hc Hr Hf Hk]. unfold load_or_generate_cert. rewrite Hc. cbn [is_some].
  unfold load_server_cert, fs_read at 1. destruct (tio_read_cert io); cbn; [|done]. rewrite Hc, bstr_of_string.
  destruct (if force_legacy io then _ else _) as [k|] eqn:E; cbn.
  - split; [done|]. destruct (force_legacy io); [done|]. destruct (keyring_server_key _ _) as [k'| |] eqn:Ek; try done.
    injection E as [= ->]. apply (keyring_key_is cert key) in Ek; [|done]. naive_solver.
  - unfold fs_read. destruct (tio_read_key io); cbn; [|done].
    destruct (files h !! KEY_FILE) as [f|] eqn:Ef; cbn; [|done]. rewrite (Hf f eq_refl).
    split; [by apply migrate_keeps|]. naive_solver.
Qed.

Lemma loads_keep cert key ios h :
  identity cert key h ->
  identity cert key (snd (run_loads ios h))
  /\ Forall (fun r => forall id, r = Ok id -> id = ([cert], key)) (fst (run_loads ios h)).
Proof.
  revert h. induction ios as [|io ios IH]; intros h HI; cbn [run_loads]; [done|].
  destruct (load_keeps cert key io h HI) as [HI' Hr]. destruct (load_or_generate_cert io h) as [r h']. cbn in *.
  destruct (IH h' HI') as [HI'' Hrs]. destruct (run_loads ios h') as [rs h'']. cbn in *. by rewrite Forall_cons.
Qed.

(** With the keyring and the files readable the identity is found. *)
Lemma identity_available cert key io h :
  identity cert key h -> force_legacy io = false -> tio_read_cert io = true -> tio_get io = true -> tio_read_key io = true ->
  fst (load_or_generate_cert io h) = Ok ([cert], key).
Proof.
  intros HI Hfl Hrc Hg Hrk. pose proof HI as [Hc Hr Hf Hk]. unfold load_or_generate_cert. rewrite Hc. cbn [is_some].
  unfold load_server_cert, fs_read. rewrite Hrc, Hc, bstr_of_string, Hfl, Hrk, Hg.
  destruct (keyring_server_key true h) as [k|e|m] eqn:Ek.
  - by rewrite (keyring_key_is _ _ _ _ _ HI Ek).
  - destruct Hk as [->|(e' & He & Hd)]; [by rewrite bstr_of_string|].
    unfold keyring_server_key, get_password in Ek. rewrite He in Ek. cbn in Ek. by rewrite Hd in Ek.
  - destruct Hk as [->|(e' & He & Hd)]; [by rewrite bstr_of_string|].
    unfold keyring_server_key, get_password in Ek. rewrite He in Ek. cbn in Ek. by rewrite Hd in Ek.
Qed.

(** A machine that has neither the certificate nor a key. *)
Definition no_identity (h : Host) : Prop :=
  files h !! CERT_FILE = None /\ files h !! KEY_FILE = None /\ keyring h !! TLS_KEYRING_ENTRY = None.

Lemma first_load_establishes io h id :
  no_identity h -> fst (tio_write_cert io) = true -> fst (load_or_generate_cert io h) = Ok id ->
  exists cert key, id = ([cert], key) /\ identity cert key (snd (load_or_generate_cert io h)).
Proof.
  intros (Hc & Hf & Hr) Hw. unfold load_or_generate_cert. rewrite Hc. cbn [is_some]. unfold generate_server_cert.
  destruct (tio_generated io) as [[cert key]|]; [|done]. set (d := if force_legacy io then _ else _).
  assert (files (snd d) = files h
          /\ (forall e k, keyring (snd d) !! TLS_KEYRING_ENTRY = Some e -> hex_decode e = Some k -> k = key)
          /\ (fst d = true -> exists e, keyring (snd d) !! TLS_KEYRING_ENTRY = Some e /\ hex_decode e = Some key)) as (Hd1 & Hd2 & Hd3).
  { subst d. destruct (force_legacy io); cbn; [rewrite Hr; done|].
    unfold keyring_store_server_key, keyring_set, set_password. cbn. split; [by destruct (stored _)|]. split.
    - destruct (stored _); cbn; [|by rewrite Hr]. intros e k. rewrite lookup_insert_eq. intros [= <-].
      rewrite hex_roundtrip. congruence.
    - intros [_ H]%andb_true_iff. by apply reads_back_stored in H. }
  destruct d as [durable h']. cbn [fst snd] in *. rewrite Hw. unfold fs_write at 1.
  destruct durable; cbn; [|destruct (tio_write_key io) as [[] torn]; cbn; [|done]].
  - intros [= <-]. exists cert, key. split; [done|]. split; cbn; [by rewrite lookup_insert_eq|done| |by auto].
    intros f. rewrite lookup_insert_ne by done. by rewrite Hd1, Hf.
  - intros [= <-]. exists cert, key. split; [done|]. split; cbn; [by rewrite lookup_insert_eq|done| |].
    + intros f. rewrite lookup_insert_ne, lookup_insert_eq by done. intros [= <-]. apply bstr_of_string.
    + left. by rewrite lookup_insert_ne, lookup_insert_eq by done.
Qed.

(** C10: the server keeps its TLS identity: once a start on a host without one (no
    certificate file, no key file, no key in the keyring) has generated a
    certificate and written it, every later load of a sequence, whichever of the
    loads' own keyring and file operations fail (entries unreadable, writes that
    are lost or only reported, files that cannot be read or removed), either
    fails or gives that certificate with its key; and a load whose reads succeed
    gives it.  Nothing but loads touches the files and the keyring in between:
    an unpairing, which deletes the key, does not belong to the sequence. *)
Theorem server_identity_kept io ios h id io' :
  no_identity h -> fst (tio_write_cert io) = true -> fst (load_or_generate_cert io h) = Ok id ->
  Forall (fun r => forall id', r = Ok id' -> id' = id) (fst (run_loads ios (snd (load_or_generate_cert io h))))
  /\ (force_legacy io' = false -> tio_read_cert io' = true -> tio_get io' = true -> tio_read_key io' = true ->
      fst (load_or_generate_cert io' (snd (run_loads ios (snd (load_or_generate_cert io h))))) = Ok id).
Proof.
  intros Hn Hw Hid. destruct (first_load_establishes io h id Hn Hw Hid) as (cert & key & -> & HI).
  destruct (loads_keep cert key ios _ HI) as [HI' HF]. split; [done|]. intros. by apply identity_available.
Qed.

(** ** The endpoint after pairing *)

(** A client must present a certificate, and it must be one of these. *)
Definition enforces (allowed : list string) (config : ServerConfig) : Prop :=
  exists v, sc_verifier config = Some v /\ client_auth_mandatory v = true
  /\ forall cert, verify_client_cert v cert = Ok tt <-> cert_sha256 cert ∈ allowed.

Lemma configured_enforces accepted certs key allowed config :
  allowed <> [] -> configure_quic_server accepted certs key true allowed = Ok config -> enforces allowed config.
Proof.
  intros Ha. unfold configure_quic_server. destruct accepted; cbn; [|done]. intros [= <-].
  eexists. split; [done|]. rewrite bool_decide_eq_false_2 by done. split; [done|]. intros cert.
  unfold verify_client_cert. rewrite verify_cert_iff. cbn. naive_solver.
Qed.

Lemma bind_enforces io allowed port h r st :
  allowed <> [] -> bind_server io allowed port (None, h) = (r, st) ->
  match r with
  | Ok ep => fst st = Some ep /\ ep_port ep = port /\ enforces allowed (ep_config ep)
  | _ => fst st = None
  end.
Proof.
  intros Ha. unfold bind_server. destruct (load_or_generate_cert _ _) as [[[certs key]|e|m] h']; [|by intros [= <- <-]..].
  destruct (configure_quic_server _ _ _ _ _) as [config|e|m] eqn:E; [|by intros [= <- <-]..].
  destruct (bio_bound io); intros [= <- <-]; [|done]. cbn. split; [done|]. split; [done|]. by eapply configured_enforces.
Qed.

(** C20: Rebinding after pairing leaves no window: whatever fails, the endpoint that
    accepted any certificate is gone; the one in its place, if there is one,
    demands a certificate of the allow-list, and rebinding succeeds only with
    such an endpoint in place, on the port of the old one. *)
Theorem rebind_closes_window io local released allowed port st :
  allowed <> [] ->
  match fst (rebind_server io local released allowed port st) with
  | Ok _ =>
      exists ep, fst (snd (rebind_server io local released allowed port st)) = Some ep /\ enforces allowed (ep_config ep)
      /\ (forall old, fst st = Some old -> local = true -> ep_port ep = ep_port old)
  | _ => fst (snd (rebind_server io local released allowed port st)) = None
  end.
Proof.
  intros Ha. unfold rebind_server. rewrite bool_decide_eq_false_2 by done.
  destruct (is_some (fst st) && negb released); [done|].
  set (p := match fst st with Some _ => _ | None => _ end).
  destruct (bind_server io allowed p (None, snd st)) as [r st'] eqn:E. apply bind_enforces in E; [|done].
  destruct r as [ep|e|m]; cbn; [|done..]. destruct E as (He & Hp & HE). exists ep. split; [done|]. split; [done|].
  intros old Ho ->. rewrite Hp. subst p. by rewrite Ho.
Qed.

End Verifier.

(** ** A first start and a rebind *)

Module Start.
Import Toy ToyJson.

(** Everything works; the keyring is only reported to have taken the key. *)
Definition works : TlsIo := {|
  force_legacy := false; tio_read_cert := true; tio_get := true; tio_read_key := true;
  tio_set := {| reported := true; stored := true |}; tio_verify := true; tio_remove := true;
  tio_generated := Some (bstr "cert", bstr "key");
  tio_write_key := (true, None); tio_write_cert := (true, None) |}.
Definition forgets : TlsIo := {|
  force_legacy := false; tio_read_cert := true; tio_get := true; tio_read_key := true;
  tio_set := {| reported := true; stored := false |}; tio_verify := true; tio_remove := true;
  tio_generated := Some (bstr "cert", bstr "key");
  tio_write_key := (true, None); tio_write_cert := (true, None) |}.
Definition empty_host : Host := {| keyring := ∅; files := ∅ |}.

Lemma server_identity_kept_witness :
  fst (load_or_generate_cert works (snd (run_loads [works] (snd (load_or_generate_cert forgets empty_host)))))
  = Ok ([bstr "cert"], bstr "key").
Proof.
  refine (proj2 (server_identity_kept forgets [works] empty_host _ works _ eq_refl _) eq_refl eq_refl eq_refl eq_refl).
  - split; [|split]; reflexivity.
  - vm_compute. reflexivity.
Defined.

Definition binds : BindIo := {| bio_tls := works; bio_accepted := true; bio_bound := true |}.
Definition open_endpoint : Endpoint :=
  {| ep_port := 4433; ep_config := {| sc_certs := []; sc_key := []; sc_verifier := None; sc_alpn := ALPN |} |}.

Lemma rebind_closes_window_witness :
  exists ep, fst (snd (rebind_server binds true true ["aa"] 0 (Some open_endpoint, empty_host))) = Some ep
  /\ enforces ["aa"] (ep_config ep)
  /\ (forall old, fst (Some open_endpoint, empty_host) = Some old -> true = true -> ep_port ep = ep_port old).
Proof. exact (rebind_closes_window binds true true ["aa"] 0 (Some open_endpoint, empty_host) ltac:(discriminate)). Defined.

(** A certificate that could not be written is used all the same, and the next
    load makes another identity. *)
Definition unwritten (cert key : string) : TlsIo := {|
  force_legacy := false; tio_read_cert := true; tio_get := true; tio_read_key := true;
  tio_set := {| reported := true; stored := true |}; tio_verify := true; tio_remove := true;
  tio_generated := Some (bstr cert, bstr key);
  tio_write_key := (true, None); tio_write_cert := (false, None) |}.
Lemma unwritten_certificate_rotates :
  fst (run_loads [unwritten "first" "k1"; unwritten "second" "k2"] empty_host)
  = [Ok ([bstr "first"], bstr "k1"); Ok ([bstr "second"], bstr "k2")].
Proof. vm_compute. reflexivity. Qed.

(** A key left in the keyring is taken for the key of a certificate generated
    while the keyring refused the new one. *)
Definition refuses : TlsIo := {|
  force_legacy := false; tio_read_cert := true; tio_get := true; tio_read_key := true;
  tio_set := {| reported := false; stored := false |}; tio_verify := true; tio_remove := true;
  tio_generated := Some (bstr "cert", bstr "key");
  tio_write_key := (true, None); tio_write_cert := (true, None) |}.
Lemma stale_key_for_new_certificate :
  fst (run_loads [refuses; works] (empty_host <| keyring := {[TLS_KEYRING_ENTRY := hex_encode (bstr "old")]} |>))
  = [Ok ([bstr "cert"], bstr "key"); Ok ([bstr "cert"], bstr "old")].
Proof. vm_compute. reflexivity. Qed.

End Start.
