(* ===== verification/QuicBridge.v ===== *)
(** * QuicBridge: the registry of QUIC connections (core-crypto/src/quic_bridge.rs)

    Connections by peer key with what a reconnect needs, the active peer, the
    reconnect slot of each peer and the gates that admit one round trip at a
    time.  A [quinn::Connection] is a handle: a number, with the set of the
    handles that are closed; its peer may close it at any moment.  What dialing an
    address comes to (quinn, rustls, the three-second bound) is a function of the
    address and of the configuration dialed with. *)

From S2P Require Import Prelude Error Primitives Json StrOps RatchetState Tls IpAddr.

Definition Connection : Type := N.

Record ConnConfig := {
  cfg_addr : SockAddr;
  cfg_pin : option string;
  cfg_client_certs : option (bytes * bytes);
  candidates : list SockAddr
}.
Definition eta_config (c : ConnConfig) : ConnConfig :=
  {| cfg_addr := cfg_addr c; cfg_pin := cfg_pin c; cfg_client_certs := cfg_client_certs c; candidates := candidates c |}.
#[export] Instance upd_cfg_addr : Update cfg_addr. Proof. solve_update eta_config cfg_addr. Defined.
#[export] Instance upd_candidates : Update candidates. Proof. solve_update eta_config candidates. Defined.

Record ManagedConnection := {
  mc_conn : option Connection;
  mc_config : option ConnConfig;
  last_activity : Z
}.
Definition eta_managed (m : ManagedConnection) : ManagedConnection :=
  {| mc_conn := mc_conn m; mc_config := mc_config m; last_activity := last_activity m |}.
#[export] Instance upd_mc_conn : Update mc_conn. Proof. solve_update eta_managed mc_conn. Defined.
#[export] Instance upd_mc_config : Update mc_config. Proof. solve_update eta_managed mc_config. Defined.
#[export] Instance upd_last_activity : Update last_activity. Proof. solve_update eta_managed last_activity. Defined.

Inductive ReconnectState := Idle | Reconnecting | Done.
#[export] Instance ReconnectState_eq_dec : EqDecision ReconnectState. Proof. solve_decision. Defined.
Record ReconnectGuard := { rg_state : ReconnectState; last_attempt : Z }.

(** The gates, each with the peer it was made for and its [busy] flag; the map
    names a gate by its position. *)
Record InFlight := { gate_map : gmap string nat; gates : list (string * bool) }.
Definition eta_in_flight (f : InFlight) : InFlight := {| gate_map := gate_map f; gates := gates f |}.
#[export] Instance upd_gate_map : Update gate_map. Proof. solve_update eta_in_flight gate_map. Defined.
#[export] Instance upd_gates : Update gates. Proof. solve_update eta_in_flight gates. Defined.

Record Bridge := {
  quic_connections : gmap string ManagedConnection;
  active_peer : option string;
  reconnect_states : gmap string ReconnectGuard;
  in_flight : InFlight;
  closed : gset Connection
}.
Definition eta_bridge (b : Bridge) : Bridge := {|
  quic_connections := quic_connections b; active_peer := active_peer b; reconnect_states := reconnect_states b;
  in_flight := in_flight b; closed := closed b |}.
#[export] Instance upd_quic_connections : Update quic_connections. Proof. solve_update eta_bridge quic_connections. Defined.
#[export] Instance upd_active_peer : Update active_peer. Proof. solve_update eta_bridge active_peer. Defined.
#[export] Instance upd_reconnect_states : Update reconnect_states. Proof. solve_update eta_bridge reconnect_states. Defined.
#[export] Instance upd_in_flight : Update in_flight. Proof. solve_update eta_bridge in_flight. Defined.
#[export] Instance upd_closed : Update closed. Proof. solve_update eta_bridge closed. Defined.

Definition new_bridge : Bridge := {|
  quic_connections := ∅; active_peer := None; reconnect_states := ∅; in_flight := {| gate_map := ∅; gates := [] |};
  closed := ∅ |}.

Definition RECONNECT_BACKOFF : Z := secs 1.
Definition RECONNECT_CANDIDATE_TIMEOUT : Z := secs 3.
Definition RECONNECT_TOTAL_TIMEOUT : Z := secs 15.
Definition MAX_CANDIDATE_ADDRESSES : nat := 4.

Definition peer_key (addr : SockAddr) (pinned_cert_hash : option string) : string :=
  default (ip_text (sa_ip addr) +:+ ":" +:+ decimal (sa_port addr)) pinned_cert_hash.

(** ** The registry *)

Definition is_quic_connected (now : Z) (b : Bridge) : bool :=
  existsb (fun c => is_some (mc_conn c) && (sat_sub now (last_activity c) <? secs 30)) (map_to_list (quic_connections b)).*2.

Definition peer_keys (b : Bridge) : list string := (map_to_list (quic_connections b)).*1.

Definition store_connection (now : Z) (conn : Connection) (addr : SockAddr) (pinned_cert_hash : option string)
  (client_certs : option (bytes * bytes)) (b : Bridge) : Bridge :=
  let key := peer_key addr pinned_cert_hash in
  b <| quic_connections ::= <[key := {|
         mc_conn := Some conn;
         mc_config := Some {| cfg_addr := addr; cfg_pin := pinned_cert_hash; cfg_client_certs := client_certs; candidates := [addr] |};
         last_activity := now |}]> |>
    <| active_peer := Some key |>.

(** [while candidates.len() > MAX { candidates.remove(1) }] *)
Fixpoint cap_candidates (fuel : nat) (l : list SockAddr) : list SockAddr :=
  match fuel with
  | O => l
  | S fuel => if decide (MAX_CANDIDATE_ADDRESSES < length l)%nat then cap_candidates fuel (delete 1%nat l) else l
  end.
Definition capped (l : list SockAddr) : list SockAddr := cap_candidates (length l) l.
#[global] Arguments capped : simpl never.

Definition note_peer_candidate_address (key : string) (addr : SockAddr) (b : Bridge) : bool * Bridge :=
  match quic_connections b !! key with
  | Some mc =>
      match mc_config mc with
      | Some config =>
          if bool_decide (addr ∈ candidates config) then (false, b)
          else
            (true, b <| quic_connections ::=
              <[key := mc <| mc_config := Some (config <| candidates := capped (candidates config ++ [addr]) |>) |>]> |>)
      | None => (false, b)
      end
  | None => (false, b)
  end.

(** Taking the handle out, closing it. *)
Definition hang_up (now : Z) (mc : ManagedConnection) : ManagedConnection :=
  mc <| mc_conn := None |> <| last_activity := now - secs 60 |>.

Definition close_connection (now : Z) (b : Bridge) : Bridge :=
  b <| closed ::= union (list_to_set (omap mc_conn (map_to_list (quic_connections b)).*2)) |>
    <| quic_connections ::= fmap (hang_up now) |>
    <| active_peer := None |>.

Definition drop_reconnect_state (key : string) (b : Bridge) : Bridge := b <| reconnect_states ::= delete key |>.
Definition drop_in_flight_state (key : string) (b : Bridge) : Bridge := b <| in_flight ::= fun f => f <| gate_map ::= delete key |> |>.

Definition close_peer (now : Z) (key : string) (b : Bridge) : Bridge :=
  let b :=
    match quic_connections b !! key with
    | Some mc =>
        b <| closed ::= union (list_to_set (option_list (mc_conn mc))) |>
          <| quic_connections ::= <[key := hang_up now mc]> |>
    | None => b
    end in
  let b := if bool_decide (active_peer b = Some key) then b <| active_peer := None |> else b in
  drop_in_flight_state key (drop_reconnect_state key b).

Definition touch_connection (now : Z) (b : Bridge) : Bridge :=
  match active_peer b with
  | Some key =>
      match quic_connections b !! key with
      | Some mc => b <| quic_connections ::= <[key := mc <| last_activity := now |>]> |>
      | None => b
      end
  | None => b
  end.

Definition active_connection (b : Bridge) : option Connection :=
  key ← active_peer b; mc ← quic_connections b !! key; mc_conn mc.

(** ** Gates *)

(** The gate of the peer, made when missing. *)
Definition gate_for (key : string) (f : InFlight) : nat * InFlight :=
  match gate_map f !! key with
  | Some g => (g, f)
  | None => (length (gates f), {| gate_map := <[key := length (gates f)]> (gate_map f); gates := gates f ++ [(key, false)] |})
  end.
Definition is_busy (g : nat) (f : InFlight) : bool := match gates f !! g with Some (_, busy) => busy | None => false end.
Definition set_busy (g : nat) (busy : bool) (f : InFlight) : InFlight := f <| gates ::= alter (fun e => (fst e, busy)) g |>.

(** [acquire_in_flight] by a caller that finds the gate free, or busy for as
    long as it waits. *)
Definition acquire_in_flight (key : string) (b : Bridge) : kres nat * Bridge :=
  let '(g, f) := gate_for key (in_flight b) in
  if is_busy g f
  then (Err (NetworkError "A QUIC round-trip for peer '{peer_key}' is already in flight (per-peer gate, audit #6) — timed out waiting"),
        b <| in_flight := f |>)
  else (Ok g, b <| in_flight := set_busy g true f |>).
Definition release_in_flight (g : nat) (b : Bridge) : Bridge := b <| in_flight ::= set_busy g false |>.

(** ** Reconnecting *)

(** The handle of the entry, unless it is closed. *)
Definition live (b : Bridge) (mc : ManagedConnection) : option Connection :=
  match mc_conn mc with
  | Some c => if bool_decide (c ∈ closed b) then None else Some c
  | None => None
  end.

(** The slot, made when missing: an attempt a minute ago. *)
Definition reconnect_state_for (now : Z) (key : string) (b : Bridge) : ReconnectGuard * Bridge :=
  match reconnect_states b !! key with
  | Some g => (g, b)
  | None =>
      let g := {| rg_state := Idle; last_attempt := now - secs 60 |} in
      (g, b <| reconnect_states ::= <[key := g]> |>)
  end.
Definition set_slot (key : string) (g : ReconnectGuard) (b : Bridge) : Bridge := b <| reconnect_states ::= <[key := g]> |>.

(** What a caller finds when it takes the slot: another attempt is running and
    did not end in the five seconds waited, or an answer, or the slot is its. *)
Definition claim_reconnect (now : Z) (key : string) (b : Bridge) : option (kres Connection) * Bridge :=
  let '(g, b) := reconnect_state_for now key b in
  match rg_state g with
  | Reconnecting => (Some (Err (NetworkError "QUIC reconnect in progress — timed out waiting")), b)
  | Done =>
      let b := set_slot key {| rg_state := Idle; last_attempt := last_attempt g |} b in
      (Some (match quic_connections b !! key ≫= live b with
             | Some c => Ok c
             | None => Err (NetworkError "QUIC reconnect completed but connection unavailable")
             end), b)
  | Idle =>
      if sat_sub now (last_attempt g) <? RECONNECT_BACKOFF
      then (Some (Err (NetworkError "QUIC reconnect rate-limited (backoff)")), b)
      else (None, set_slot key {| rg_state := Reconnecting; last_attempt := now |} b)
  end.

(** What dialing comes to within three seconds. *)
Inductive DialFate := Dialed (c : Connection) | DialFailed (e : KyberError) | DialTimedOut.

(** The primary first, then the others. *)
Definition dial_order (c : ConnConfig) : list SockAddr :=
  cfg_addr c :: filter (fun a => a <> cfg_addr c) (candidates c).

Definition client_identity (c : ConnConfig) : option (list bytes * bytes) :=
  (fun '(cert_der, key_der) => ([cert_der], key_der)) <$> cfg_client_certs c.

Section Dial.
Context (dial : SockAddr -> ClientConfig -> DialFate).

(** The loop over the addresses: the first that answers, or the last error. *)
Fixpoint try_candidates (config : ConnConfig) (last_err : option KyberError) (addrs : list SockAddr)
  : option KyberError + SockAddr * Connection :=
  match addrs with
  | [] => inl last_err
  | cand :: addrs =>
      match dial cand (connect_config (cfg_pin config) (client_identity config)) with
      | Dialed c => inr (cand, c)
      | DialFailed e => try_candidates config (Some e) addrs
      | DialTimedOut => try_candidates config (Some (NetworkError "QUIC connect to {cand} timed out after {}s")) addrs
      end
  end.

Definition promoted (addr : SockAddr) (c : ConnConfig) : ConnConfig :=
  let cands := if bool_decide (addr ∈ candidates c) then candidates c else candidates c ++ [addr] in
  c <| cfg_addr := addr |> <| candidates := capped (addr :: filter (fun a => a <> addr) cands) |>.

Definition promote (key : string) (addr : SockAddr) (b : Bridge) : Bridge :=
  match quic_connections b !! key with
  | Some mc =>
      match mc_config mc with
      | Some c => b <| quic_connections ::= <[key := mc <| mc_config := Some (promoted addr c) |>]> |>
      | None => b
      end
  | None => b
  end.

(** [built]: the runtime of the worker is built. *)
Definition run_reconnect_blocking (built : bool) (key : string) (b : Bridge) : kres Connection * Bridge :=
  match quic_connections b !! key ≫= mc_config with
  | None => (Err (NetworkError "No reconnect info available for peer '{peer_key}'"), b)
  | Some config =>
      if negb built then (Err (NetworkError "Reconnect runtime build failed: {e}"), b)
      else
        match try_candidates config None (dial_order config) with
        | inr (addr, conn) => (Ok conn, promote key addr b)
        | inl last_err => (Err (default (NetworkError "Reconnect exhausted all candidate addresses") last_err), b)
        end
  end.

(** What the caller hears of the worker: its result, or nothing in fifteen seconds,
    or that it died. *)
Inductive WorkerFate := Answered | TookTooLong | Disconnected.

Definition heard (fate : WorkerFate) (r : kres Connection) : kres Connection :=
  match fate with
  | Answered => r
  | TookTooLong => Err (NetworkError "QUIC reconnect for peer '{peer_key}' timed out after {}s")
  | Disconnected => Err (NetworkError "QUIC reconnect worker exited without a result")
  end.

(** The slot, unless it was dropped, is [Done] whatever came of it; a connection goes to the registry. *)
Definition finish_reconnect (now : Z) (key : string) (r : kres Connection) (b : Bridge) : kres Connection * Bridge :=
  let b :=
    match reconnect_states b !! key with
    | Some g => set_slot key {| rg_state := Done; last_attempt := last_attempt g |} b
    | None => b
    end in
  match r with
  | Ok conn =>
      (Ok conn,
       match quic_connections b !! key with
       | Some mc => b <| quic_connections ::= <[key := mc <| mc_conn := Some conn |> <| last_activity := now |>]> |>
       | None => b
       end)
  | r => (r, b)
  end.

Definition get_or_reconnect_for (built : bool) (fate : WorkerFate) (now now' : Z) (key : string) (b : Bridge)
  : kres Connection * Bridge :=
  match quic_connections b !! key with
  | None => (Err (NetworkError "No QUIC connection registered for peer '{peer_key}' — call quic_connect first"), b)
  | Some mc =>
      match live b mc with
      | Some c => (Ok c, b)
      | None =>
          let '(claim, b) := claim_reconnect now key b in
          match claim with
          | Some r => (r, b)
          | None =>
              let '(r, b) := run_reconnect_blocking built key b in
              finish_reconnect now' key (heard fate r) b
          end
      end
  end.

Definition get_or_reconnect (built : bool) (fate : WorkerFate) (now now' : Z) (b : Bridge) : kres Connection * Bridge :=
  match active_peer b with
  | None => (Err (NetworkError "No active QUIC connection and no reconnect info available"), b)
  | Some key => get_or_reconnect_for built fate now now' key b
  end.

End Dial.

#[global] Arguments try_candidates : simpl never.
