(* ===== verification/Connect.v ===== *)
(** * Connect: connecting and round trips (core-crypto/src/ffi/network.rs, core-crypto/src/network_api.rs)

    The address guard, the certificate pin a connection needs, and one request
    and its answer.  Name resolution ([ToSocketAddrs]) and dialing are parameters. *)

From Stdlib.Strings Require Import Ascii.
From S2P Require Import Prelude Error Primitives Json StrOps RatchetState Tls IpAddr QuicBridge.

Definition is_private_or_restricted (ip : IpAddr) : bool :=
  match ip with
  | V4 a => Ipv4.is_loopback a || Ipv4.is_private a || Ipv4.is_link_local a || Ipv4.is_unspecified a || Ipv4.is_multicast a
  | V6 a =>
      Ipv6.is_loopback a || Ipv6.is_unspecified a || Ipv6.is_multicast a || Ipv6.is_unique_local a
      || Ipv6.is_unicast_link_local a
  end.

Section Connect.
Context `{P : Primitives} `{X : Hex}.
Context (to_socket_addrs : string -> option (list SockAddr)) (dial : SockAddr -> ClientConfig -> DialFate).

Definition validate_stun_host (host : string) : kres unit :=
  let hostname := match split_once ":"%char host with Some (h, _) => h | None => host end in
  match parse_ip hostname with
  | Some ip =>
      if is_private_or_restricted ip
      then Err (NetworkError "STUN host {host} is a private/reserved IP — rejected to prevent SSRF")
      else Ok tt
  | None =>
      match to_socket_addrs (hostname +:+ ":19302") with
      | None => Err (NetworkError "STUN host resolution failed for {host}: {e}")
      | Some resolved =>
          let ips := map sa_ip resolved in
          if bool_decide (ips = []) then Err (NetworkError "STUN host {host} resolved to no addresses")
          else if is_some (List.find is_private_or_restricted ips)
          then Err (NetworkError "STUN host {host} resolves to private/internal address {bad} — rejected to prevent SSRF")
          else Ok tt
      end
  end.

Definition validate_cert_pin (pin : string) : bool := (String.length pin =? 64)%nat && is_some (hex_decode pin).

(** The addresses of [host:port], a literal address without asking anyone. *)
Definition resolve_target (raw : string) : kres (list SockAddr) :=
  match parse_socket_addr raw with
  | Some a => Ok [a]
  | None => ok_or (to_socket_addrs raw) (NetworkError "Address resolution failed: {e}")
  end.

(** The loop of the guard. *)
Fixpoint guard_addresses (allow_private : bool) (addrs : list SockAddr) : kres unit :=
  match addrs with
  | [] => Ok tt
  | addr :: addrs =>
      if ip_is_loopback (sa_ip addr) then Err (NetworkError "Cannot connect to loopback address {ip} (SSRF guard)")
      else if is_private_or_restricted (sa_ip addr) && negb allow_private
      then Err (NetworkError "Cannot connect to private IP {ip} without a valid paired-cert pin")
      else guard_addresses allow_private addrs
  end.

Definition quic_connect_with_mode (now : Z) (host : string) (port : Z) (pin : string) (allow_private : bool)
  (client_certs : option (bytes * bytes)) (b : Bridge) : kres bool * Bridge :=
  if negb (eqb_dec pin "") && negb (validate_cert_pin pin)
  then (Err (NetworkError "Invalid certificate pin: must be a 64-char hex SHA-256 digest"), b)
  else if eqb_dec pin ""
  then (Err (NetworkError "QUIC connect without a certificate pin is forbidden (MITM protection)"), b)
  else
    match resolve_target (host +:+ ":" +:+ decimal port) with
    | Err e => (Err e, b)
    | Panic m => (Panic m, b)
    | Ok [] => (Err (NetworkError "No address resolved for target"), b)
    | Ok ((addr :: _) as addrs) =>
        match guard_addresses allow_private addrs with
        | Err e => (Err e, b)
        | Panic m => (Panic m, b)
        | Ok _ =>
            let pinned := if eqb_dec pin "" then None else Some pin in
            let identity := (fun '(cert_der, key_der) => ([cert_der], key_der)) <$> client_certs in
            match dial addr (connect_config pinned identity) with
            | Dialed conn => (Ok true, store_connection now conn addr pinned client_certs b)
            | DialFailed e => (Err e, b)
            | DialTimedOut => (Err (NetworkError "QUIC connect timed out after 5s"), b)
            end
        end
    end.

Definition quic_connect_impl (now : Z) (host : string) (port : Z) (pin : string) (b : Bridge) : kres bool * Bridge :=
  quic_connect_with_mode now host port pin (negb (eqb_dec pin "")) None b.

Definition quic_connect_pairing_bootstrap_impl (now : Z) (host : string) (port : Z) (pin : string) (b : Bridge)
  : kres bool * Bridge :=
  if negb (validate_cert_pin pin)
  then (Err (NetworkError "Bootstrap pairing requires a valid QR-bound server certificate pin — pairing without one is forbidden (MITM protection, audit finding #15)"), b)
  else quic_connect_with_mode now host port pin true None b.

Definition quic_connect_with_client_cert_impl (now : Z) (host : string) (port : Z) (pin : string)
  (client_cert_der client_key_der : bytes) (b : Bridge) : kres bool * Bridge :=
  quic_connect_with_mode now host port pin (negb (eqb_dec pin "")) (Some (client_cert_der, client_key_der)) b.

Definition quic_note_peer_candidate_address (key host : string) (port : Z) (b : Bridge) : bool * Bridge :=
  match parse_ip host with
  | Some ip => note_peer_candidate_address key {| sa_ip := ip; sa_port := port |} b
  | None => (false, b)
  end.

(** ** Round trips *)

Definition QUIC_IO_TIMEOUT_SECS : Z := 10.

(** [None]: no answer in ten seconds, the round trip is aborted. *)
Abbreviation IoFate := (option (kres string)).

Record CallIo := { cio_built : bool; cio_worker : WorkerFate; cio_now : Z; cio_done : Z; cio_answer : Connection -> IoFate }.

Definition round_trip (io : CallIo) (close : option string) (conn : kres Connection) (b : Bridge) : kres string * Bridge :=
  match conn with
  | Ok conn =>
      match cio_answer io conn with
      | Some r => (r, b)
      | None =>
          (Err (NetworkError "QUIC send/recv timed out after {QUIC_IO_TIMEOUT_SECS}s — connection closed for reconnect"),
           match close with Some key => close_peer (cio_done io) key b | None => b end)
      end
  | Err e => (Err e, b)
  | Panic m => (Panic m, b)
  end.

Definition quic_send_and_recv_to (io : CallIo) (key : string) (b : Bridge) : kres string * Bridge :=
  let '(gate, b) := acquire_in_flight key b in
  match gate with
  | Ok g =>
      let '(conn, b) := get_or_reconnect_for dial (cio_built io) (cio_worker io) (cio_now io) (cio_done io) key b in
      let '(r, b) := round_trip io (Some key) conn b in
      (r, release_in_flight g b)
  | Err e => (Err e, b)
  | Panic m => (Panic m, b)
  end.

(** The call without a peer: the active one. *)
Definition quic_send_and_recv_impl (io : CallIo) (b : Bridge) : kres string * Bridge :=
  let peer := active_peer b in
  let '(gate, b) := acquire_in_flight (default "<legacy-active>" peer) b in
  match gate with
  | Ok g =>
      let '(conn, b) := get_or_reconnect dial (cio_built io) (cio_worker io) (cio_now io) (cio_done io) b in
      let '(r, b) := round_trip io peer conn b in
      (r, release_in_flight g b)
  | Err e => (Err e, b)
  | Panic m => (Panic m, b)
  end.

Definition quic_capture_server_cert_hash (peer_identity : Connection -> option (list bytes)) (b : Bridge) : option string :=
  conn ← active_connection b; capture_server_cert_hash_no_store (peer_identity conn).

End Connect.

(** ** The connection tier *)

Record ConnectionInfo := {
  active_tier : Z; active_path_description : string; latency_ms : Z; public_endpoint : string
}.
Definition evaluate_connection_hierarchy (wifi_direct_active lan_active : bool) (endpoint : string) : ConnectionInfo :=
  if lan_active then
    {| active_tier := 2; active_path_description := "Local Network (LAN)"; latency_ms := 5; public_endpoint := endpoint |}
  else if negb (eqb_dec endpoint "") then
    {| active_tier := 3; active_path_description := "Public Internet (STUN)"; latency_ms := 50; public_endpoint := endpoint |}
  else {| active_tier := 0; active_path_description := "Not Connected"; latency_ms := 0; public_endpoint := "" |}.

(** ** The guard by address blocks *)

Definition V4_BLOCKS : list (Z * Z) :=
  [(0x7f000000, 8); (0x0a000000, 8); (0xac100000, 12); (0xc0a80000, 16); (0xa9fe0000, 16); (0xe0000000, 4); (0, 32)].
Definition V6_BLOCKS : list (Z * Z) :=
  [(0xff00 * 2 ^ 112, 8); (0xfc00 * 2 ^ 112, 7); (0xfe80 * 2 ^ 112, 10); (0, 128); (1, 128)].

(** The two sides on the leading sixteen bits. *)
Definition v4_classes (p : Z) : bool :=
  let o0 := Z.land (Z.shiftr p 8) 255 in
  let o1 := Z.land p 255 in
  (o0 =? 127) || ((o0 =? 10) || ((o0 =? 172) && (16 <=? o1) && (o1 <=? 31)) || ((o0 =? 192) && (o1 =? 168)))
  || ((o0 =? 169) && (o1 =? 254)) || ((224 <=? o0) && (o0 <=? 239)).
Definition v6_classes (p : Z) : bool :=
  let s := Z.land p 65535 in
  (Z.land s 0xff00 =? 0xff00) || (Z.land s 0xfe00 =? 0xfc00) || (Z.land s 0xffc0 =? 0xfe80).
Definition prefix_blocks (width : Z) (blocks : list (Z * Z)) (p : Z) : bool :=
  existsb (fun '(base, n) => Z.shiftr p (16 - n) =? Z.shiftr base (width - n)) blocks.

Lemma v4_classes_blocks p : 0 <= p < 65536 -> v4_classes p = prefix_blocks 32 (take 6 V4_BLOCKS) p.
Proof.
  intros Hp. unfold v4_classes, prefix_blocks, V4_BLOCKS. cbn [existsb take]. rewrite !land_255, !Z.shiftr_div_pow2 by lia.
  apply eq_iff_eq_true. rewrite !orb_true_iff, !andb_true_iff, !Z.eqb_eq, !Z.leb_le. eval_powers. Z.to_euclidean_division_equations. lia.
Qed.
Lemma v6_classes_blocks p : 0 <= p < 65536 -> v6_classes p = prefix_blocks 128 (take 3 V6_BLOCKS) p.
Proof.
  intros Hp. unfold v6_classes, prefix_blocks, V6_BLOCKS. cbn [existsb take]. rewrite land_65535, Z.mod_small by done.
  rewrite (land_mask p 16 8 0xff00), (land_mask p 16 9 0xfe00), (land_mask p 16 6 0xffc0) by (lia || done).
  rewrite !Z.shiftr_div_pow2 by lia.
  apply eq_iff_eq_true. rewrite !orb_true_iff, !Z.eqb_eq. eval_powers. Z.to_euclidean_division_equations. lia.
Qed.

(** The guard refuses the addresses of 127/8, 10/8, 172.16/12, 192.168/16,
    169.254/16, 224/4 and 0.0.0.0, of ff00::/8, fc00::/7 and fe80::/10, :: and
    ::1, and no others. *)
Lemma guard_is_blocks ip : ip_range ip -> is_private_or_restricted ip = in_blocks V4_BLOCKS V6_BLOCKS ip.
Proof.
  destruct ip as [a|a]; cbn [ip_range]; intros Ha; unfold in_blocks, is_private_or_restricted.
  - pose proof (top_16 32 a ltac:(lia) Ha) as Hp. change (32 - 16) with 16 in Hp.
    transitivity (v4_classes (Z.shiftr a 16) || (a =? 0)).
    { unfold Ipv4.is_loopback, Ipv4.is_private, Ipv4.is_link_local, Ipv4.is_unspecified, Ipv4.is_multicast, v4_classes.
      rewrite octet_0, octet_1. destruct (a =? 0); by rewrite ?orb_true_r, ?orb_false_r. }
    rewrite v4_classes_blocks by done. unfold prefix_blocks, V4_BLOCKS. cbn [existsb take].
    rewrite in_block_all, !in_block_16 by lia. by rewrite ?orb_false_r, <- ?orb_assoc.
  - pose proof (top_16 128 a ltac:(lia) Ha) as Hp. change (128 - 16) with 112 in Hp.
    transitivity (v6_classes (Z.shiftr a 112) || ((a =? 0) || (a =? 1))).
    { unfold Ipv6.is_loopback, Ipv6.is_unspecified, Ipv6.is_multicast, Ipv6.is_unique_local, Ipv6.is_unicast_link_local, v6_classes.
      rewrite segment_0. destruct (a =? 0), (a =? 1); by rewrite ?orb_true_r, ?orb_false_r. }
    rewrite v6_classes_blocks by done. unfold prefix_blocks, V6_BLOCKS. cbn [existsb take].
    rewrite !in_block_all, !in_block_16 by lia. by rewrite ?orb_false_r, <- ?orb_assoc.
Qed.

(** ** What is connected to *)

Definition LOOPBACK_V4 : list (Z * Z) := [(0x7f000000, 8)].
Definition LOOPBACK_V6 : list (Z * Z) := [(1, 128)].

Lemma loopback_is_blocks ip : ip_range ip -> ip_is_loopback ip = in_blocks LOOPBACK_V4 LOOPBACK_V6 ip.
Proof.
  destruct ip as [a|a]; cbn [ip_range]; intros Ha; unfold in_blocks, LOOPBACK_V4, LOOPBACK_V6, ip_is_loopback; cbn [existsb].
  - rewrite orb_false_r. unfold Ipv4.is_loopback, octet, in_block. rewrite land_255, !Z.shiftr_div_pow2 by lia.
    apply eq_iff_eq_true. rewrite !Z.eqb_eq. eval_powers. Z.to_euclidean_division_equations. lia.
  - by rewrite orb_false_r, in_block_all.
Qed.

Section Guarded.
Context `{P : Primitives} `{X : Hex}.
Context (to_socket_addrs : string -> option (list SockAddr)) (dial : SockAddr -> ClientConfig -> DialFate).

Lemma guard_addresses_ok allow addrs :
  guard_addresses allow addrs = Ok tt ->
  Forall (fun a => ip_is_loopback (sa_ip a) = false /\ (allow = false -> is_private_or_restricted (sa_ip a) = false)) addrs.
Proof.
  induction addrs as [|a addrs IH]; cbn [guard_addresses]; [constructor|].
  destruct (ip_is_loopback (sa_ip a)) eqn:El; [done|]. destruct (is_private_or_restricted (sa_ip a) && negb allow) eqn:Ep; [done|].
  intros H. constructor; [|by apply IH]. split; [done|]. intros ->. by rewrite andb_true_r in Ep.
Qed.

(** A connection is made only with a 64-digit pin, to the first address of the
    target, when none of its addresses is a loopback address; the handshake is
    configured to take the pinned certificate only, and the registry then has the
    connection under the pin. *)
Lemma connect_guarded now host port pin allow certs b ok :
  fst (quic_connect_with_mode to_socket_addrs dial now host port pin allow certs b) = Ok ok ->
  validate_cert_pin pin = true
  /\ exists addr rest c identity,
       resolve_target to_socket_addrs (host +:+ ":" +:+ decimal port) = Ok (addr :: rest)
       /\ Forall (fun a => ip_is_loopback (sa_ip a) = false) (addr :: rest)
       /\ dial addr (connect_config (Some pin) identity) = Dialed c
       /\ (forall cert, verify_server_cert (cc_verifier (connect_config (Some pin) identity)) cert = Ok tt <-> cert_sha256 cert = pin)
       /\ snd (quic_connect_with_mode to_socket_addrs dial now host port pin allow certs b)
          = store_connection now c addr (Some pin) certs b.
Proof.
  unfold quic_connect_with_mode, eqb_dec. case_bool_decide as Hp.
  { by subst pin. }
  cbn [negb andb]. destruct (validate_cert_pin pin) eqn:Ev; cbn [negb]; [|done].
  destruct (resolve_target _ _) as [[|addr rest]|e|m] eqn:Er; [done| |done..].
  destruct (guard_addresses _ _) as [[]|e|m] eqn:Eg; [|done..]. destruct (dial addr _) as [c|e|] eqn:Ed; [|done..].
  cbn [fst snd]. intros _. split; [done|]. eexists addr, rest, c, _. split; [done|]. split.
  - eapply Forall_impl; [by eapply guard_addresses_ok|]. by intros ? [? _].
  - split; [exact Ed|]. split; [|done]. intros cert. by apply connect_config_pins.
Qed.

(** A STUN host that is let through is not in a refused block, nor is any
    address its name resolves to. *)
Lemma stun_host_guarded host :
  validate_stun_host to_socket_addrs host = Ok tt ->
  exists hostname, (parse_ip hostname = None \/ exists ip, parse_ip hostname = Some ip /\ is_private_or_restricted ip = false)
  /\ (parse_ip hostname = None ->
      exists addrs, to_socket_addrs (hostname +:+ ":19302") = Some addrs /\ addrs <> []
      /\ Forall (fun a => is_private_or_restricted (sa_ip a) = false) addrs).
Proof.
  unfold validate_stun_host. set (hostname := match split_once _ _ with Some _ => _ | None => _ end). intros H. exists hostname.
  destruct (parse_ip hostname) as [ip|].
  - split; [|done]. right. exists ip. by destruct (is_private_or_restricted ip).
  - split; [by left|]. intros _. destruct (to_socket_addrs _) as [addrs|]; [|done]. exists addrs. split; [done|].
    case_bool_decide as Hn; [done|]. split; [by intros ->|]. destruct (List.find _ _) as [ip|] eqn:Ef; [done|].
    rewrite Forall_forall. intros a Ha. eapply List.find_none in Ef; [exact Ef|]. apply in_map. by apply list_elem_of_In.
Qed.

End Guarded.

(** An IPv4 loopback address written as an IPv6 address passes both guards. *)
Lemma mapped_loopback_passes :
  parse_socket_addr "[::ffff:127.0.0.1]:4433" = Some {| sa_ip := V6 0xffff7f000001; sa_port := 4433 |}
  /\ ip_is_loopback (V6 0xffff7f000001) = false /\ is_private_or_restricted (V6 0xffff7f000001) = false.
Proof. split; [|split]; reflexivity. Qed.

(** Of 0.0.0.0/8 only the first address is refused. *)
Lemma zero_net_passes : is_private_or_restricted (V4 0x00010203) = false.
Proof. reflexivity. Qed.
