(* ===== verification/BridgeProps.v ===== *)
(** * BridgeProps: what the connection registry guarantees

    Over any run of its operations: every connection it hands out is to a server
    whose certificate is the pinned one, the addresses of a peer are few, distinct
    and start with the one in use; and what a reconnect does with them. *)

From S2P Require Import Prelude Error Primitives Toy Json StrOps RatchetState Tls IpAddr QuicBridge Connect.

(** ** Candidate addresses *)

Lemma capped_cons a l : capped (a :: l) = a :: drop (length l - 3) l.
Proof.
  unfold capped. cbn [length]. remember (S (length l)) as fuel eqn:E.
  assert (length l < fuel)%nat as Hf by lia. clear E. revert l Hf.
  induction fuel as [|fuel IH]; intros l Hf; [lia|]. cbn [cap_candidates]. unfold MAX_CANDIDATE_ADDRESSES in *.
  case_decide as H; cbn [length] in H.
  - destruct l as [|x l]; [cbn in H; lia|]. change (delete 1%nat (a :: x :: l)) with (a :: l). cbn [length] in *.
    rewrite IH by lia. by replace (S (length l) - 3)%nat with (S (length l - 3)) by lia.
  - by replace (length l - 3)%nat with 0%nat by lia.
Qed.

(** Primary first, no address twice, at most four. *)
Record candidates_ok (c : ConnConfig) : Prop := {
  cand_primary : exists rest, candidates c = cfg_addr c :: rest;
  cand_nodup : NoDup (candidates c);
  cand_bound : (length (candidates c) <= MAX_CANDIDATE_ADDRESSES)%nat
}.

Lemma capped_ok addr l :
  NoDup (addr :: l) ->
  NoDup (capped (addr :: l)) /\ (length (capped (addr :: l)) <= MAX_CANDIDATE_ADDRESSES)%nat.
Proof.
  rewrite capped_cons, !NoDup_cons. intros [Hn HN]. split.
  - split; [intros H; by apply Hn, (elem_of_sublist _ _ _ H), sublist_drop|by eapply sublist_NoDup; [|apply sublist_drop]].
  - cbn [length]. rewrite length_drop. unfold MAX_CANDIDATE_ADDRESSES. lia.
Qed.

Lemma note_ok c addr :
  candidates_ok c -> addr ∉ candidates c -> candidates_ok (c <| candidates := capped (candidates c ++ [addr]) |>).
Proof.
  intros [[rest Hr] HN Hb] Hn. rewrite Hr in *. cbn [app].
  assert (NoDup (cfg_addr c :: rest ++ [addr])) as HN'.
  { apply (NoDup_app (cfg_addr c :: rest) [addr]). split; [done|]. split; [set_solver|apply NoDup_singleton]. }
  destruct (capped_ok _ _ HN') as [H1 H2]. split; cbn; [|done|done]. rewrite capped_cons. by eexists.
Qed.

Lemma promoted_ok c addr : candidates_ok c -> candidates_ok (promoted addr c).
Proof.
  intros [_ HN Hb]. unfold promoted. set (cands := if bool_decide _ then _ else _).
  assert (NoDup cands) as HN'.
  { subst cands. case_bool_decide as H; [done|]. apply NoDup_app. split; [done|]. split; [set_solver|apply NoDup_singleton]. }
  destruct (capped_ok addr (filter (fun a => a <> addr) cands)) as [H1 H2].
  { apply NoDup_cons. split; [|by apply NoDup_filter]. rewrite list_elem_of_filter. naive_solver. }
  split; cbn; [|done|done]. rewrite capped_cons. by eexists.
Qed.

(** An address that was a candidate takes the front and the others stay. *)
Lemma promoted_perm c addr :
  candidates_ok c -> addr ∈ candidates c -> candidates (promoted addr c) ≡ₚ candidates c.
Proof.
  intros [_ HN Hb] Hin. unfold promoted. cbn. rewrite bool_decide_eq_true_2 by done.
  assert (addr :: filter (fun a => a <> addr) (candidates c) ≡ₚ candidates c) as Hp.
  { apply NoDup_Permutation; [|done|].
    - apply NoDup_cons. split; [rewrite list_elem_of_filter; naive_solver|by apply NoDup_filter].
    - intros x. rewrite elem_of_cons, list_elem_of_filter. destruct (decide (x = addr)); naive_solver. }
  rewrite capped_cons. apply Permutation_length in Hp as Hl. cbn [length] in Hl. unfold MAX_CANDIDATE_ADDRESSES in *.
  by replace (length (filter _ _) - 3)%nat with 0%nat by lia.
Qed.

Lemma dial_order_perm c : candidates_ok c -> dial_order c = candidates c.
Proof.
  intros [[rest Hr] HN Hb]. unfold dial_order. rewrite Hr in *. apply NoDup_cons in HN as [Hn HN].
  rewrite filter_cons_False by naive_solver. f_equal. clear HN Hb Hr.
  induction rest as [|x rest IH]; [done|]. rewrite filter_cons_True by set_solver. f_equal. apply IH. set_solver.
Qed.

(** ** The registry over a run *)

(** A handshake completes only when the verifier it was configured with accepts
    the server's certificate. *)
Class DialLaws `{P : Primitives} `{X : Hex} (dial : SockAddr -> ClientConfig -> DialFate) (peer_cert : Connection -> bytes) :=
  dial_verified addr config c :
    dial addr config = Dialed c -> verify_server_cert (cc_verifier config) (peer_cert c) = Ok tt.

Section Run.
Context `{P : Primitives} `{X : Hex}.
Context (to_socket_addrs : string -> option (list SockAddr)) (dial : SockAddr -> ClientConfig -> DialFate).
Context (peer_cert : Connection -> bytes).

Inductive BridgeOp :=
| Connect (now : Z) (host : string) (port : Z) (pin : string)
| ConnectBootstrap (now : Z) (host : string) (port : Z) (pin : string)
| ConnectWithCert (now : Z) (host : string) (port : Z) (pin : string) (cert key : bytes)
| NoteCandidate (key host : string) (port : Z)
| Disconnect (now : Z)
| DisconnectPeer (now : Z) (key : string)
| Touch (now : Z)
| SendTo (io : CallIo) (key : string)
| Send (io : CallIo)
| RemoteClose (c : Connection).

Definition exec_op (op : BridgeOp) (b : Bridge) : Bridge :=
  match op with
  | Connect now host port pin => snd (quic_connect_impl to_socket_addrs dial now host port pin b)
  | ConnectBootstrap now host port pin => snd (quic_connect_pairing_bootstrap_impl to_socket_addrs dial now host port pin b)
  | ConnectWithCert now host port pin cert key =>
      snd (quic_connect_with_client_cert_impl to_socket_addrs dial now host port pin cert key b)
  | NoteCandidate key host port => snd (quic_note_peer_candidate_address key host port b)
  | Disconnect now => close_connection now b
  | DisconnectPeer now key => close_peer now key b
  | Touch now => touch_connection now b
  | SendTo io key => snd (quic_send_and_recv_to dial io key b)
  | Send io => snd (quic_send_and_recv_impl dial io b)
  | RemoteClose c => b <| closed ::= union {[c]} |>
  end.

Definition run_ops (ops : list BridgeOp) (b : Bridge) : Bridge := foldl (fun b op => exec_op op b) b ops.

(** An entry: its key is its pin, and its connection, if any, is to that server. *)
Record entry_ok (key : string) (mc : ManagedConnection) : Prop := {
  ent_config : exists c, mc_config mc = Some c /\ cfg_pin c = Some key /\ candidates_ok c;
  ent_pin : key <> "";
  ent_conn c : mc_conn mc = Some c -> cert_sha256 (peer_cert c) = key
}.
Definition registry_ok (b : Bridge) : Prop := map_Forall entry_ok (quic_connections b).

Lemma registry_same b b' : quic_connections b' = quic_connections b -> registry_ok b -> registry_ok b'.
Proof. unfold registry_ok. by intros ->. Qed.

Lemma hang_up_ok now key mc : entry_ok key mc -> entry_ok key (hang_up now mc).
Proof. intros [Hc Hp Hk]. by split. Qed.

Lemma store_ok now conn addr pin certs b :
  registry_ok b -> pin <> "" -> cert_sha256 (peer_cert conn) = pin ->
  registry_ok (store_connection now conn addr (Some pin) certs b).
Proof.
  intros Hb Hp Hc. unfold registry_ok, store_connection. cbn. apply map_Forall_insert_2; [|done]. split; cbn; [|done|].
  - eexists. split; [done|]. split; [done|]. split; cbn; [by eexists|apply NoDup_singleton|unfold MAX_CANDIDATE_ADDRESSES; lia].
  - by intros c [= <-].
Qed.

Lemma note_registry_ok key addr b : registry_ok b -> registry_ok (snd (note_peer_candidate_address key addr b)).
Proof.
  intros Hb. unfold note_peer_candidate_address. destruct (quic_connections b !! key) as [mc|] eqn:E; [|done].
  destruct (Hb key mc E) as [(c & Hc & Hpin & Hok) Hp Hk]. rewrite Hc. case_bool_decide as H; [done|].
  unfold registry_ok. cbn. apply map_Forall_insert_2; [|done]. split; cbn; try done.
  eexists. split; [done|]. split; [done|]. by apply note_ok.
Qed.

Lemma close_peer_ok now key b : registry_ok b -> registry_ok (close_peer now key b).
Proof.
  intros Hb. unfold close_peer. destruct (quic_connections b !! key) as [mc|] eqn:E.
  - unfold registry_ok. case_bool_decide; apply map_Forall_insert_2; try done; by apply hang_up_ok, Hb.
  - by case_bool_decide.
Qed.

Lemma promote_ok key addr b : registry_ok b -> registry_ok (promote key addr b).
Proof.
  intros Hb. unfold promote. destruct (quic_connections b !! key) as [mc|] eqn:E; [|done].
  destruct (Hb key mc E) as [(c & Hc & Hpin & Hok) Hp Hk]. rewrite Hc. unfold registry_ok. cbn.
  apply map_Forall_insert_2; [|done]. split; cbn; try done. eexists. split; [done|]. split; [done|]. by apply promoted_ok.
Qed.

Context {DL : DialLaws dial peer_cert}.

Lemma claim_same now key b : quic_connections (snd (claim_reconnect now key b)) = quic_connections b.
Proof.
  unfold claim_reconnect, reconnect_state_for. destruct (reconnect_states b !! key) as [g|]; cbn.
  - destruct (rg_state g); cbn; [by case_match|done|done].
  - by case_match.
Qed.

(** What the loop over the addresses found was dialed with the pin. *)
Lemma try_candidates_dialed config last_err addrs addr c :
  try_candidates dial config last_err addrs = inr (addr, c) ->
  addr ∈ addrs /\ dial addr (connect_config (cfg_pin config) (client_identity config)) = Dialed c.
Proof.
  revert last_err. induction addrs as [|a addrs IH]; intros last_err; unfold try_candidates; fold try_candidates; [done|].
  destruct (dial a _) as [c'|e|] eqn:E.
  - intros [= <- <-]. split; [set_solver|done].
  - intros H. apply IH in H as [? ?]. split; [set_solver|done].
  - intros H. apply IH in H as [? ?]. split; [set_solver|done].
Qed.

Lemma dialed_pin key config addr certs c :
  key <> "" -> dial addr (connect_config (Some key) certs) = Dialed c -> config = Some key -> cert_sha256 (peer_cert c) = key.
Proof. intros Hk Hd ->. apply dial_verified in Hd. by apply connect_config_pins in Hd. Qed.

Lemma run_reconnect_ok built key b :
  registry_ok b ->
  registry_ok (snd (run_reconnect_blocking dial built key b))
  /\ (forall c, fst (run_reconnect_blocking dial built key b) = Ok c -> cert_sha256 (peer_cert c) = key).
Proof.
  intros Hb. unfold run_reconnect_blocking. destruct (quic_connections b !! key) as [mc|] eqn:E; cbn; [|done].
  destruct (Hb key mc E) as [(config & Hc & Hpin & Hok) Hp Hk]. rewrite Hc. destruct built; cbn; [|done].
  destruct (try_candidates _ _ _ _) as [e|[addr c]] eqn:Et; cbn; [by split|].
  apply try_candidates_dialed in Et as [_ Hd]. rewrite Hpin in Hd. split; [by apply promote_ok|].
  intros c' [= <-]. by eapply dialed_pin.
Qed.

Lemma finish_reconnect_ok now key r b :
  registry_ok b -> (forall c, r = Ok c -> cert_sha256 (peer_cert c) = key) -> registry_ok (snd (finish_reconnect now key r b)).
Proof.
  intros Hb Hr. unfold finish_reconnect.
  set (b' := match reconnect_states b !! key with Some _ => _ | None => _ end).
  assert (quic_connections b' = quic_connections b) as Hq by (subst b'; by case_match).
  assert (registry_ok b') as Hb' by (by eapply registry_same). destruct r as [c|e|m]; cbn [snd]; [|done..].
  destruct (quic_connections b' !! key) as [mc|] eqn:E; [|done]. destruct (Hb' key mc E) as [Hc Hp Hk].
  unfold registry_ok. cbn. apply map_Forall_insert_2; [|done]. split; cbn; [done|done|]. intros c' [= <-]. by apply Hr.
Qed.

(** A connection handed out for a peer is to the server with its certificate. *)
Lemma get_or_reconnect_for_ok built fate now now' key b :
  registry_ok b ->
  registry_ok (snd (get_or_reconnect_for dial built fate now now' key b))
  /\ (forall c, fst (get_or_reconnect_for dial built fate now now' key b) = Ok c -> cert_sha256 (peer_cert c) = key).
Proof.
  assert (forall b mc c, registry_ok b -> quic_connections b !! key = Some mc -> live b mc = Some c -> cert_sha256 (peer_cert c) = key) as Hlive.
  { intros b0 mc c Hb E Hl. apply (ent_conn _ _ (Hb key mc E)). unfold live in Hl. destruct (mc_conn mc); [|done].
    case_bool_decide; congruence. }
  intros Hb. unfold get_or_reconnect_for. destruct (quic_connections b !! key) as [mc|] eqn:E; [|done].
  destruct (live b mc) as [c|] eqn:El; [cbn; split; [done|]; intros c' [= <-]; by eapply Hlive|].
  pose proof (claim_same now key b) as Hq. destruct (claim_reconnect now key b) as [claim b1] eqn:Ec. cbn in Hq.
  assert (registry_ok b1) as Hb1 by (by eapply registry_same). destruct claim as [r|].
  - cbn. split; [done|]. intros c ->. unfold claim_reconnect in Ec.
    destruct (reconnect_state_for now key b) as [g b0] eqn:Eg.
    assert (quic_connections b0 = quic_connections b) as Hq0.
    { unfold reconnect_state_for in Eg. destruct (reconnect_states b !! key); by injection Eg as [= <- <-]. }
    destruct (rg_state g); [by case_match|done|]. cbn in Ec. rewrite Hq0, E in Ec. cbn in Ec.
    destruct (live (set_slot _ _ _) mc) as [c'|] eqn:El'; [|done]. injection Ec as [= <- <-].
    eapply (Hlive (set_slot key _ b0)); [|cbn; by rewrite Hq0|exact El']. by eapply registry_same; [|exact Hb].
  - destruct (run_reconnect_ok built key b1 Hb1) as [Hb2 Hr].
    destruct (run_reconnect_blocking dial built key b1) as [r b2]. cbn in Hb2, Hr.
    assert (forall c, heard fate r = Ok c -> cert_sha256 (peer_cert c) = key) as Hh by (intros c; destruct fate; [apply Hr|done|done]).
    split; [by apply finish_reconnect_ok|]. intros c. unfold finish_reconnect. destruct (heard fate r); cbn; naive_solver.
Qed.

Lemma get_or_reconnect_ok built fate now now' b :
  registry_ok b -> registry_ok (snd (get_or_reconnect dial built fate now now' b)).
Proof.
  intros Hb. unfold get_or_reconnect. destruct (active_peer b) as [key|]; [|done]. by apply get_or_reconnect_for_ok.
Qed.

Lemma round_trip_ok io close conn b : registry_ok b -> registry_ok (snd (round_trip io close conn b)).
Proof.
  intros Hb. unfold round_trip. destruct conn as [c|e|m]; [|done..]. destruct (cio_answer io c); [done|].
  destruct close; [by apply close_peer_ok|done].
Qed.

Lemma acquire_same key b : quic_connections (snd (acquire_in_flight key b)) = quic_connections b.
Proof. unfold acquire_in_flight. destruct (gate_for key (in_flight b)). by case_match. Qed.

Lemma send_to_ok io key b : registry_ok b -> registry_ok (snd (quic_send_and_recv_to dial io key b)).
Proof.
  intros Hb. unfold quic_send_and_recv_to. pose proof (acquire_same key b) as Hq.
  destruct (acquire_in_flight key b) as [[g|e|m] b1]; cbn in Hq; [|by eapply registry_same..].
  assert (registry_ok b1) as Hb1 by (by eapply registry_same).
  destruct (get_or_reconnect_for_ok (cio_built io) (cio_worker io) (cio_now io) (cio_done io) key b1 Hb1) as [Hb2 _].
  destruct (get_or_reconnect_for _ _ _ _ _ _ _) as [conn b2]. cbn in Hb2.
  apply (round_trip_ok io (Some key) conn) in Hb2. destruct (round_trip _ _ _ _) as [r b3]. cbn in *. by eapply registry_same.
Qed.

Lemma send_ok io b : registry_ok b -> registry_ok (snd (quic_send_and_recv_impl dial io b)).
Proof.
  intros Hb. unfold quic_send_and_recv_impl. pose proof (acquire_same (default "<legacy-active>" (active_peer b)) b) as Hq.
  destruct (acquire_in_flight _ b) as [[g|e|m] b1]; cbn in Hq; [|by eapply registry_same..].
  assert (registry_ok b1) as Hb1 by (by eapply registry_same).
  apply (get_or_reconnect_ok (cio_built io) (cio_worker io) (cio_now io) (cio_done io)) in Hb1.
  destruct (get_or_reconnect _ _ _ _ _ _) as [conn b2]. cbn in Hb1.
  apply (round_trip_ok io (active_peer b) conn) in Hb1. destruct (round_trip _ _ _ _) as [r b3]. cbn in *. by eapply registry_same.
Qed.

Lemma connect_ok now host port pin allow certs b :
  registry_ok b -> registry_ok (snd (quic_connect_with_mode to_socket_addrs dial now host port pin allow certs b)).
Proof.
  intros Hb. unfold quic_connect_with_mode, eqb_dec. destruct (negb (bool_decide (pin = "")) && _); [done|].
  case_bool_decide as Hp; [done|]. destruct (resolve_target _ _) as [[|addr addrs]|e|m]; [done| |done..].
  destruct (guard_addresses _ _); [|done..]. destruct (dial addr _) as [c|e|] eqn:Ed; [|done..].
  cbn [snd]. apply store_ok; [done|done|]. by eapply dialed_pin.
Qed.

Lemma exec_ok op b : registry_ok b -> registry_ok (exec_op op b).
Proof.
  intros Hb. destruct op; cbn [exec_op].
  - by apply connect_ok.
  - unfold quic_connect_pairing_bootstrap_impl. destruct (negb _); [done|]. by apply connect_ok.
  - by apply connect_ok.
  - unfold quic_note_peer_candidate_address. destruct (parse_ip host); [|done]. by apply note_registry_ok.
  - unfold registry_ok, close_connection. cbn. apply map_Forall_fmap. intros k mc E. by apply hang_up_ok, Hb.
  - by apply close_peer_ok.
  - unfold touch_connection. destruct (active_peer b) as [k|]; [|done].
    destruct (quic_connections b !! k) as [mc|] eqn:E; [|done]. unfold registry_ok. cbn.
    apply map_Forall_insert_2; [|done]. destruct (Hb k mc E). by split.
  - by apply send_to_ok.
  - by apply send_ok.
  - by eapply registry_same.
Qed.

Lemma run_ok_ops ops b : registry_ok b -> registry_ok (run_ops ops b).
Proof. revert b. induction ops as [|op ops IH]; intros b Hb; [done|]. by apply IH, exec_ok. Qed.

(** C9: Over any run of connects, discoveries, round trips with their reconnects,
    disconnects and closes by the peer: every entry of the registry is filed under
    the certificate pin it was made with, a connection it holds is to the server
    whose certificate has that hash, and the addresses it would dial start with
    the one in use, are distinct and at most four; and a connection handed out for
    a peer, reconnected or not, is to that server. *)
Theorem registry_pinned ops :
  registry_ok (run_ops ops new_bridge)
  /\ forall built fate now now' key c,
     fst (get_or_reconnect_for dial built fate now now' key (run_ops ops new_bridge)) = Ok c ->
     cert_sha256 (peer_cert c) = key.
Proof.
  assert (registry_ok (run_ops ops new_bridge)) as H.
  { apply run_ok_ops. intros k mc. unfold new_bridge. cbn. by rewrite lookup_empty. }
  split; [done|]. intros. by eapply get_or_reconnect_for_ok.
Qed.

End Run.

(** ** Reconnecting *)

Section Reconnect.
Context `{P : Primitives} `{X : Hex}.
Context (dial : SockAddr -> ClientConfig -> DialFate).

Definition answers (config : ConnConfig) (addr : SockAddr) : bool :=
  match dial addr (connect_config (cfg_pin config) (client_identity config)) with Dialed _ => true | _ => false end.

Lemma try_candidates_find config last_err addrs :
  match List.find (answers config) addrs with
  | Some a => exists c, dial a (connect_config (cfg_pin config) (client_identity config)) = Dialed c
                     /\ try_candidates dial config last_err addrs = inr (a, c)
  | None => exists e, try_candidates dial config last_err addrs = inl e
  end.
Proof.
  revert last_err. induction addrs as [|a addrs IH]; intros last_err; cbn [List.find]; [by eexists|].
  unfold answers at 1. unfold try_candidates; fold try_candidates.
  destruct (dial a _) as [c|e|] eqn:E; [by exists c| |]; apply IH.
Qed.

(** The slot is free and the last attempt a second ago or more. *)
Definition may_reconnect (now : Z) (key : string) (b : Bridge) : Prop :=
  match reconnect_states b !! key with
  | Some g => rg_state g = Idle /\ RECONNECT_BACKOFF <= sat_sub now (last_attempt g)
  | None => True
  end.

Lemma claim_free now key b :
  may_reconnect now key b ->
  claim_reconnect now key b = (None, set_slot key {| rg_state := Reconnecting; last_attempt := now |} (snd (reconnect_state_for now key b))).
Proof.
  unfold may_reconnect, claim_reconnect, reconnect_state_for. destruct (reconnect_states b !! key) as [g|].
  - intros [Hi Hl]. cbv beta iota. rewrite Hi. by rewrite (proj2 (Z.ltb_ge _ _) Hl).
  - intros _. cbv beta iota zeta. cbn [rg_state last_attempt].
    assert (sat_sub now (now - secs 60) <? RECONNECT_BACKOFF = false) as ->; [|done].
    apply Z.ltb_ge. unfold sat_sub, RECONNECT_BACKOFF, secs. lia.
Qed.

Lemma claimed_connections now key b :
  quic_connections (set_slot key {| rg_state := Reconnecting; last_attempt := now |} (snd (reconnect_state_for now key b)))
  = quic_connections b.
Proof. unfold reconnect_state_for. by destruct (reconnect_states b !! key). Qed.

(** A reconnect tries the address in use, then the other candidates, each once
    and within the time the caller waits.  The first that answers gives the
    connection, is kept as the address in use, and no candidate is forgotten; if
    none answers the call fails and the entries are as they were. *)
Theorem reconnect_rotates built now now' key b mc config :
  quic_connections b !! key = Some mc -> mc_config mc = Some config -> candidates_ok config ->
  live b mc = None -> may_reconnect now key b -> built = true ->
  dial_order config = candidates config
  /\ len (dial_order config) * RECONNECT_CANDIDATE_TIMEOUT < RECONNECT_TOTAL_TIMEOUT
  /\ match List.find (answers config) (candidates config) with
     | Some a =>
         exists c mc' config',
           fst (get_or_reconnect_for dial built Answered now now' key b) = Ok c
           /\ dial a (connect_config (cfg_pin config) (client_identity config)) = Dialed c
           /\ quic_connections (snd (get_or_reconnect_for dial built Answered now now' key b)) = <[key := mc']> (quic_connections b)
           /\ mc_conn mc' = Some c /\ mc_config mc' = Some config'
           /\ cfg_addr config' = a /\ candidates config' ≡ₚ candidates config /\ candidates_ok config'
     | None =>
         (exists e, fst (get_or_reconnect_for dial built Answered now now' key b) = Err e)
         /\ quic_connections (snd (get_or_reconnect_for dial built Answered now now' key b)) = quic_connections b
     end.
Proof.
  intros E Hc Hok Hl Hm ->. pose proof (dial_order_perm config Hok) as Ho. split; [done|]. split.
  { rewrite Ho. pose proof (cand_bound _ Hok) as Hb. unfold len, RECONNECT_CANDIDATE_TIMEOUT, RECONNECT_TOTAL_TIMEOUT, secs,
      MAX_CANDIDATE_ADDRESSES in *. lia. }
  unfold get_or_reconnect_for. rewrite E, Hl, (claim_free _ _ _ Hm).
  pose proof (claimed_connections now key b) as Hq. set (b1 := set_slot key _ _) in *.
  unfold run_reconnect_blocking. rewrite Hq, E. cbn [mbind option_bind]. rewrite Hc, Ho. cbn [negb].
  pose proof (try_candidates_find config None (candidates config)) as Ht.
  destruct (List.find _ _) as [a|] eqn:Ef.
  - destruct Ht as (c & Hd & ->). apply List.find_some in Ef as [Hin _]. apply list_elem_of_In in Hin.
    unfold promote. rewrite Hq, E, Hc. unfold heard, finish_reconnect.
    set (b2 := match reconnect_states _ !! key with Some _ => _ | None => _ end).
    assert (quic_connections b2 = <[key := mc <| mc_config := Some (promoted a config) |>]> (quic_connections b)) as H2.
    { subst b2. rewrite <- Hq. by case_match. }
    rewrite H2, lookup_insert_eq. cbn [fst snd]. eexists c, _, (promoted a config). split; [done|]. split; [done|].
    split; [cbn; rewrite H2; apply insert_insert_eq|]. cbn. split; [done|]. split; [done|]. split; [done|].
    split; [by apply promoted_perm|by apply promoted_ok].
  - destruct Ht as [e ->]. unfold heard, finish_reconnect. cbn [fst snd]. split; [by eexists|]. rewrite <- Hq. by case_match.
Qed.

(** A reconnect that failed leaves its slot done: the next call fails without
    dialing, however much later and whatever would answer. *)
Lemma failed_reconnect_wastes_a_call dial' built fate now now' later later' key b mc e b' :
  quic_connections b !! key = Some mc -> live b mc = None -> may_reconnect now key b ->
  get_or_reconnect_for dial true Answered now now' key b = (Err e, b') ->
  fst (get_or_reconnect_for dial' built fate later later' key b')
  = Err (NetworkError "QUIC reconnect completed but connection unavailable").
Proof.
  intros E Hl Hm. unfold get_or_reconnect_for at 1. rewrite E, Hl, (claim_free _ _ _ Hm).
  pose proof (claimed_connections now key b) as Hq.
  assert (closed (set_slot key {| rg_state := Reconnecting; last_attempt := now |} (snd (reconnect_state_for now key b))) = closed b) as Hcl
    by (unfold reconnect_state_for; by destruct (reconnect_states b !! key)).
  assert (reconnect_states (set_slot key {| rg_state := Reconnecting; last_attempt := now |} (snd (reconnect_state_for now key b))) !! key
          = Some {| rg_state := Reconnecting; last_attempt := now |}) as Hs by (cbn; apply lookup_insert_eq).
  set (b1 := set_slot key _ _) in *. clearbody b1. destruct (run_reconnect_blocking dial true key b1) as [r b2] eqn:Er.
  intros Hf.
  assert (b2 = b1) as ->.
  { unfold run_reconnect_blocking in Er. destruct (quic_connections b1 !! key ≫= mc_config) as [config|]; [|congruence].
    cbn [negb] in Er. destruct (try_candidates _ _ _ _) as [?|[a c]]; [congruence|]. injection Er as [= <- <-].
    unfold heard, finish_reconnect in Hf. by case_match. }
  assert (b' = set_slot key {| rg_state := Done; last_attempt := now |} b1) as ->.
  { unfold heard, finish_reconnect in Hf. rewrite Hs in Hf. cbv beta iota zeta in Hf.
    destruct r as [c|e0|m]; [discriminate|by injection Hf as [= _ <-]|discriminate]. }
  assert (forall g, live (set_slot key g b1) mc = None) as Hl' by (intros g; unfold live in *; cbn; by rewrite Hcl).
  unfold get_or_reconnect_for. cbn [quic_connections set_slot update upd_reconnect_states].
  unfold set_slot at 1. cbn. rewrite Hq, E.
  replace (live _ mc) with (@None Connection) by (symmetry; exact (Hl' _)).
  unfold claim_reconnect, reconnect_state_for. cbn. rewrite lookup_insert_eq. cbn. rewrite Hq, E. cbn.
  match goal with |- context [live ?b mc] => assert (live b mc = None) as -> end; [|done].
  unfold live in *. cbn. by rewrite Hcl.
Qed.

End Reconnect.

(** ** A phone and its desktop *)

Module Roaming.
Import Toy ToyJson.

Definition desktop_cert : bytes := bstr "desktop".
Definition pin : string := cert_sha256 desktop_cert.
Definition old_addr : SockAddr := {| sa_ip := V4 0xC0A80114; sa_port := 4433 |}.
Definition new_addr : SockAddr := {| sa_ip := V4 0x0A000007; sa_port := 4433 |}.

(** The desktop answers at one address, to whoever takes its certificate. *)
Definition dial_at (home : SockAddr) (c : Connection) (addr : SockAddr) (config : ClientConfig) : DialFate :=
  if decide (addr = home) then
    match verify_server_cert (cc_verifier config) desktop_cert with Ok _ => Dialed c | _ => DialFailed (NetworkError "Handshake failed: {e}") end
  else DialTimedOut.
#[export] Instance dial_at_laws home c : DialLaws (dial_at home c) (fun _ => desktop_cert).
Proof.
  intros addr config c'. unfold dial_at. case_decide; [|done]. destruct (verify_server_cert _ _) as [[]| |]; done.
Qed.

Definition no_names : string -> option (list SockAddr) := fun _ => None.
Definition at_home : list BridgeOp :=
  [Connect 0 "192.168.1.20" 4433 pin; NoteCandidate pin "10.0.0.7" 4433; RemoteClose 1%N].
Definition connected : Bridge := run_ops no_names (dial_at old_addr 1%N) at_home new_bridge.

Definition home_config : ConnConfig :=
  {| cfg_addr := old_addr; cfg_pin := Some pin; cfg_client_certs := None; candidates := [old_addr; new_addr] |}.
Lemma connected_entry :
  quic_connections connected !! pin = Some {| mc_conn := Some 1%N; mc_config := Some home_config; last_activity := 0 |}.
Proof. vm_compute. reflexivity. Qed.

Lemma registry_pinned_witness :
  is_some (quic_connections connected !! pin) = true
  /\ registry_ok (fun _ => desktop_cert) connected.
Proof.
  split; [rewrite connected_entry; reflexivity|].
  exact (proj1 (registry_pinned no_names (dial_at old_addr 1%N) (fun _ => desktop_cert) at_home)).
Defined.

Lemma home_ok : candidates_ok home_config.
Proof. split; cbn; [by eexists|by apply (bool_decide_unpack _)|unfold MAX_CANDIDATE_ADDRESSES; lia]. Qed.

Lemma reconnect_rotates_witness :
  exists c mc' config',
    fst (get_or_reconnect_for (dial_at new_addr 2%N) true Answered (secs 5) (secs 9) pin connected) = Ok c
    /\ dial_at new_addr 2%N new_addr (connect_config (Some pin) None) = Dialed c
    /\ quic_connections (snd (get_or_reconnect_for (dial_at new_addr 2%N) true Answered (secs 5) (secs 9) pin connected))
       = <[pin := mc']> (quic_connections connected)
    /\ mc_conn mc' = Some c /\ mc_config mc' = Some config'
    /\ cfg_addr config' = new_addr /\ candidates config' ≡ₚ [old_addr; new_addr] /\ candidates_ok config'.
Proof.
  exact (proj2 (proj2 (reconnect_rotates (dial_at new_addr 2%N) true (secs 5) (secs 9) pin connected _ home_config
    connected_entry eq_refl home_ok ltac:(vm_compute; reflexivity) ltac:(vm_compute; exact I) eq_refl))).
Defined.

End Roaming.
