(* ===== verification/RoundTrips.v ===== *)
(** * RoundTrips: concurrent round trips to a peer (core-crypto/src/quic_bridge.rs, network_api.rs)

    The calls of [quic_send_and_recv_to] interleaved: a critical section of a
    mutex is one step.  A call takes the gate of its peer from the map, waits for
    it to be free, makes its round trip and frees the gate; a round trip that
    expires closes the peer first, which takes the gate out of the map. *)

From S2P Require Import Prelude Error RatchetState QuicBridge.






(** ** Gates made for a peer *)





(** ** The invariant *)













(** ** A waiting call and a new one *)



