(* ===== verification/Automation.v ===== *)
(** * Automation: feeds and scripts of the desktop (commands/automation.rs, executor/fallback.rs, executor/worker.rs)

    The feed a script reads is fetched from an address that must not be private;
    scripts run in child processes of a small pool, fallback scripts come from a
    list.  Name resolution, what a server answers and what the child processes do
    are arguments. *)

From Stdlib.Strings Require Import Ascii.
From S2P Require Import Prelude Error Json StrOps RatchetState IpAddr Utils Privilege.

(** ** The guard *)

Definition is_private_or_restricted (addr : IpAddr) : bool :=
  match addr with
  | V4 a =>
      if octet 0 a =? 10 then true
      else if (octet 0 a =? 172) && (Z.land (octet 1 a) 0xF0 =? 16) then true
      else if (octet 0 a =? 192) && (octet 1 a =? 168) then true
      else if octet 0 a =? 127 then true
      else if (octet 0 a =? 169) && (octet 1 a =? 254) then true
      else if (octet 0 a =? 100) && (Z.land (octet 1 a) 0xC0 =? 64) then true
      else octet 0 a =? 0
  | V6 a =>
      if a =? 1 then true
      else if Z.land (segment 0 a) 0xFFC0 =? 0xFE80 then true
      else Z.land (segment 0 a) 0xFF00 =? 0xFD00
  end.

(** ** The address of a feed *)

(** [str::trim], on the bytes of the text. *)
Fixpoint strip_start (encs : list bytes) (t : bytes) : option bytes :=
  match encs with
  | [] => None
  | e :: encs => if bool_decide (take (length e) t = e) then Some (drop (length e) t) else strip_start encs t
  end.
Fixpoint trim_start_loop (fuel : nat) (t : bytes) : bytes :=
  match fuel with
  | O => t
  | S fuel => match strip_start white_space t with Some t => trim_start_loop fuel t | None => t end
  end.
Definition trim (t : bytes) : bytes := trim_end (trim_start_loop (length t) t).
Definition trim_str (s : string) : string := String.string_of_list_byte (trim (bstr s)).

(** [trim_start_matches]: the prefix as often as it is there. *)
Fixpoint trim_start_matches (fuel : nat) (p s : string) : string :=
  match fuel with
  | O => s
  | S fuel => match strip_prefix p s with Some s => trim_start_matches fuel p s | None => s end
  end.

(** [rsplit_once]: at the last occurrence. *)
Definition rsplit_once (c : ascii) (s : string) : option (string * string) :=
  '(r, l) ← split_once c (String.string_of_list_ascii (rev (chars s)));
  Some (String.string_of_list_ascii (rev (chars l)), String.string_of_list_ascii (rev (chars r))).

Definition parse_u16 (s : string) : option Z :=
  match parse_u64 s with Some n => if n <=? 65535 then Some n else None | None => None end.

Definition starts_with (p s : string) : bool := is_some (strip_prefix p s).

(** The host and port of an authority. *)
Definition host_and_port (https : bool) (authority : string) : result string (string * Z) :=
  match rsplit_once ":"%char authority with
  | Some (h, p) =>
      if negb (eqb_dec h "") && forallb (fun c => is_some (digit c)) (chars p)
      then match parse_u16 p with Some port => Ok (h, port) | None => Err "Invalid feed port" end
      else Ok (authority, if https then 443 else 80)
  | None => Ok (authority, if https then 443 else 80)
  end.

Section Feed.
Context (to_socket_addrs : string -> option (list SockAddr)).

Definition resolve_feed_endpoint (url : string) : result string (string * Z * string * SockAddr) :=
  let url_str := trim_str url in
  let https := starts_with "https://" url_str in
  let http := starts_with "http://" url_str in
  if negb http && negb https then Err "Only HTTP(S) URLs allowed for feed source"
  else
    let without_proto := trim_start_matches (String.length url_str) "http://"
                           (trim_start_matches (String.length url_str) "https://" url_str) in
    let '(authority, path) :=
      match split_once "/"%char without_proto with Some (a, p) => (a, "/" +:+ p) | None => (without_proto, "/") end in
    if eqb_dec authority "" then Err "Feed URL has no host"
    else
      '(host, port) ← host_and_port https authority;
      let addr := host +:+ ":" +:+ decimal port in
      socket_addrs ←
        match parse_socket_addr addr with
        | Some a => Ok [a]
        | None => ok_or (to_socket_addrs addr) "DNS resolution failed: {e}"
        end;
      if existsb (fun a => is_private_or_restricted (sa_ip a)) socket_addrs
      then Err "SSRF blocked: connection to private/internal address {} is not allowed"
      else
        first_addr ← ok_or (head socket_addrs) "No address resolved";
        if is_private_or_restricted (sa_ip first_addr)
        then Err "SSRF guard: refusing connect to {} (private/link-local/loopback)"
        else Ok (host, port, path, first_addr).

(** ** Fetching *)

(** [from_utf8_lossy]: what is not UTF-8 becomes U+FFFD, a maximal piece at a time. *)
Definition in_range (lo hi : Z) (b : byte) : bool := (lo <=? Z_of_byte b) && (Z_of_byte b <=? hi).
Definition second_ok (b0 b1 : byte) : bool :=
  let z := Z_of_byte b0 in
  if z =? 0xE0 then in_range 0xA0 0xBF b1
  else if z =? 0xED then in_range 0x80 0x9F b1
  else if z =? 0xF0 then in_range 0x90 0xBF b1
  else if z =? 0xF4 then in_range 0x80 0x8F b1
  else in_range 0x80 0xBF b1.
Definition width (b : byte) : nat :=
  let z := Z_of_byte b in
  if z <? 0x80 then 1%nat
  else if (0xC2 <=? z) && (z <=? 0xDF) then 2%nat
  else if (0xE0 <=? z) && (z <=? 0xEF) then 3%nat
  else if (0xF0 <=? z) && (z <=? 0xF4) then 4%nat
  else 0%nat.
Definition REPLACEMENT : bytes := [xef; xbf; xbd].
Fixpoint from_utf8_lossy (fuel : nat) (t : bytes) : bytes :=
  match fuel, t with
  | S fuel, b0 :: t1 =>
      let bad n := REPLACEMENT ++ from_utf8_lossy fuel (drop n t) in
      let good n := take n t ++ from_utf8_lossy fuel (drop n t) in
      match width b0 with
      | 0%nat => bad 1%nat
      | 1%nat => good 1%nat
      | w =>
          match t1 with
          | b1 :: t2 =>
              if negb (second_ok b0 b1) then bad 1%nat
              else if (w =? 2)%nat then good 2%nat
              else
                match t2 with
                | b2 :: t3 =>
                    if negb (in_range 0x80 0xBF b2) then bad 2%nat
                    else if (w =? 3)%nat then good 3%nat
                    else
                      match t3 with
                      | b3 :: _ => if in_range 0x80 0xBF b3 then good 4%nat else bad 3%nat
                      | [] => bad 3%nat
                      end
                | [] => bad 2%nat
                end
          | [] => bad 1%nat
          end
      end
  | _, _ => []
  end.

(** What follows the first occurrence. *)
Fixpoint after_first (p t : bytes) : option bytes :=
  if bool_decide (take (length p) t = p) then Some (drop (length p) t)
  else match t with [] => None | _ :: t => after_first p t end.

Definition extract_http_body (response : bytes) : result string string :=
  match after_first [x0d; x0a; x0d; x0a] (from_utf8_lossy (length response) response) with
  | Some body => Ok (String.string_of_list_byte (trim body))
  | None => Err "No HTTP body found in response"
  end.

Definition http_request (host : string) (port : Z) (path : string) : string :=
  let crlf := String.string_of_list_byte [x0d; x0a] in
  "GET " +:+ path +:+ " HTTP/1.1" +:+ crlf +:+ "Host: " +:+ host +:+ ":" +:+ decimal port +:+ crlf
  +:+ "Connection: close" +:+ crlf +:+ "User-Agent: KyberPipe/0.1" +:+ crlf +:+ crlf.

(** The exchange with the server at an address, over TLS or not: all it sends. *)
Context (exchange : bool -> string -> SockAddr -> string -> result string bytes).

Definition native_http_fetch (url : string) : result string string :=
  '(host, port, path, addr) ← resolve_feed_endpoint url;
  response ← exchange (starts_with "https://" (trim_str url)) host addr (http_request host port path);
  extract_http_body response.

End Feed.

(** ** Fallback scripts *)

Definition FALLBACK_SCRIPT_ALLOWLIST : list string :=
  ["sensors/ambient_light.js"; "sensors/temperature.js"; "sensors/humidity.js"; "sensors/motion.js"].

(** [Path::file_name]. *)
Definition file_name (path : string) : option string :=
  match last (filter (fun c => c <> "" /\ c <> ".") (splitn (S (String.length path)) "/"%char path)) with
  | Some n => if eqb_dec n ".." then None else Some n
  | None => None
  end.

Definition resolve_allowed_fallback_script (script_path : string) : result string string :=
  let basename := default "" (file_name script_path) in
  ok_or (List.find (fun allowed => eqb_dec (file_name allowed) (Some basename)) FALLBACK_SCRIPT_ALLOWLIST)
    "Script '{}' not in allowed execution list".

Record ScriptExecutionResult := { success : bool; output : string; script_logs : list string }.
Definition failed (msg : string) : ScriptExecutionResult := {| success := false; output := msg; script_logs := [] |}.

(** What becomes of a one-shot child process: its exit status and the result it
    printed, if that parses. *)
Inductive ChildFate :=
| NoExe
| NotSpawned
| IoError
| Exited (status : bool) (printed : option ScriptExecutionResult).

(** [child]: the process given the text of the script at a path. *)
Definition run_fallback_subprocess (on_disk : string -> bool) (child : string -> ChildFate) (script_path : string)
  : ScriptExecutionResult :=
  match resolve_allowed_fallback_script script_path with
  | Ok allowed_path =>
      if negb (on_disk allowed_path) then failed "Not found: {allowed_path}"
      else
        match child allowed_path with
        | NoExe => failed "No exe: {e}"
        | NotSpawned => failed "Spawn error: {e}"
        | IoError => failed "I/O error: {e}"
        | Exited true printed => default (failed "Parse error: {stdout}") printed
        | Exited false _ => failed "Error: {}"
        end
  | Err e => failed e
  | Panic m => failed m
  end.

(** ** The worker pool *)

Definition MAX_POOL_SIZE : nat := 4.

(** The idle workers, and every worker process alive or not yet reaped. *)
Record Pool := { idle : list N; children : gset N }.

Definition checkout_worker (p : Pool) : option N * Pool :=
  match idle p with
  | [] => (None, p)
  | w :: ws => (Some w, {| idle := ws; children := children p |})
  end.
(** Dropping a worker kills its process. *)
Definition drop_worker (w : N) (p : Pool) : Pool := {| idle := idle p; children := children p ∖ {[w]} |}.
Definition checkin_worker (w : N) (p : Pool) : Pool :=
  if decide (MAX_POOL_SIZE <= length (idle p))%nat then drop_worker w p
  else {| idle := idle p ++ [w]; children := children p |}.
(** [spawn]: a process that answers the first ping, or none that lasts. *)
Definition spawn_worker (w : option N) (p : Pool) : option N * Pool :=
  match w with Some w => (Some w, {| idle := idle p; children := {[w]} ∪ children p |}) | None => (None, p) end.

Definition fallback_in_process (fate : ChildFate) : ScriptExecutionResult :=
  match fate with
  | NoExe => failed "Boa fallback disabled: cannot locate executable: {e}"
  | NotSpawned => failed "Boa sandbox fallback unavailable (spawn error: {e}) — script NOT executed"
  | IoError => failed "Boa sandbox I/O error: {e}"
  | Exited true printed => default (failed "Boa sandbox returned malformed result: {e}") printed
  | Exited false _ => failed "Boa sandbox exited with {}: {}"
  end.

(** One run: whether the pooled worker is alive, the processes spawned, what each
    attempt answers ([None]: nothing usable in time), the last resort. *)
Record ScriptIo := {
  sio_alive : bool;
  sio_spawn : option N;
  sio_exec : option ScriptExecutionResult;
  sio_respawn : option N;
  sio_reexec : option ScriptExecutionResult;
  sio_fallback : ChildFate
}.

(** The worker of the first attempt. *)
Definition obtain_worker (io : ScriptIo) (p : Pool) : option N * Pool :=
  match checkout_worker p with
  | (Some w, p) => if sio_alive io then (Some w, p) else spawn_worker (sio_spawn io) (drop_worker w p)
  | (None, p) => spawn_worker (sio_spawn io) p
  end.

Definition second_attempt (io : ScriptIo) (p : Pool) : ScriptExecutionResult * Pool :=
  match spawn_worker (sio_respawn io) p with
  | (None, p) => (fallback_in_process (sio_fallback io), p)
  | (Some w, p) =>
      match sio_reexec io with
      | Some r => (r, checkin_worker w p)
      | None => (fallback_in_process (sio_fallback io), drop_worker w p)
      end
  end.

Definition run_boa_sandboxed_script (io : ScriptIo) (p : Pool) : ScriptExecutionResult * Pool :=
  match obtain_worker io p with
  | (None, p) => (fallback_in_process (sio_fallback io), p)
  | (Some w, p) =>
      match sio_exec io with
      | Some r => (r, checkin_worker w p)
      | None => second_attempt io (drop_worker w p)
      end
  end.

(** ** The commands *)

(** The in-app log keeps a hundred lines. *)
Definition add_log (msg : string) (logs : list string) : list string :=
  (if (100 <=? length logs)%nat then tail logs else logs) ++ [msg].

Record AutoState := { tokens : Tokens; pool : Pool; app_logs : list string }.

Section Commands.
Context (to_socket_addrs : string -> option (list SockAddr)).
Context (exchange : bool -> string -> SockAddr -> string -> result string bytes).
(** The run of the script, given the feed. *)
Context (run : string -> ScriptIo).

Definition feed_host (command : string) : string :=
  let s := trim_start_matches (String.length command) "https://" (trim_start_matches (String.length command) "http://" command) in
  match split_once "/"%char s with Some (h, _) => h | None => s end.

(** The feed and the log lines about it. *)
Definition feed_value (command : string) (logs : list string) : string * list string :=
  if eqb_dec (trim_str command) "" then ("", logs)
  else
    let logs := add_log ("[Automation] Querying feed source: " +:+ command) logs in
    let '(value, logs) :=
      match native_http_fetch to_socket_addrs exchange command with
      | Ok v => (v, logs)
      | Err e => ("", add_log ("[Automation] Feed fetch failed: " +:+ e) logs)
      | Panic m => ("", logs)
      end in
    (value,
     add_log ("[Automation] Resolved feed data from host " +:+ feed_host command +:+ " (" +:+ decimal (Z.of_nat (String.length value))
              +:+ " bytes)") logs).

Definition execute_boa_script (now : Z) (feed_source_command token : string) (st : AutoState)
  : result string ScriptExecutionResult * AutoState :=
  let '(gate, toks) := gate_tier2 now "execute_boa_script" token (tokens st) in
  match gate with
  | Ok _ =>
      let '(feed, logs) := feed_value feed_source_command (app_logs st) in
      let logs := add_log "[Sandbox-Enforced] Running Boa script (lux = {lux})" logs in
      let '(res, pool) := run_boa_sandboxed_script (run feed) (pool st) in
      (Ok res,
       {| tokens := toks; pool := pool;
          app_logs := add_log ("[Sandbox-Enforced] Result: success={}, output=" +:+ output res) logs |})
  | Err e => (Err e, {| tokens := toks; pool := pool st; app_logs := app_logs st |})
  | Panic m => (Panic m, {| tokens := toks; pool := pool st; app_logs := app_logs st |})
  end.

Definition execute_fallback_script (on_disk : string -> bool) (child : string -> ChildFate) (now : Z) (script_path token : string)
  (st : AutoState) : result string ScriptExecutionResult * AutoState :=
  let '(gate, toks) := gate_tier2 now "execute_fallback_script" token (tokens st) in
  match (_ ← gate; resolve_allowed_fallback_script script_path) with
  | Ok allowed_path =>
      let logs := add_log ("[Subprocess] Executing fallback script: " +:+ allowed_path +:+ " (lux = {lux})") (app_logs st) in
      let res := run_fallback_subprocess on_disk child allowed_path in
      (Ok res,
       {| tokens := toks; pool := pool st; app_logs := add_log ("[Subprocess] Result: success={}, output=" +:+ output res) logs |})
  | Err e => (Err e, {| tokens := toks; pool := pool st; app_logs := app_logs st |})
  | Panic m => (Panic m, {| tokens := toks; pool := pool st; app_logs := app_logs st |})
  end.

End Commands.

(** ** What the guard refuses *)

(** The address blocks a feed must not reach, as base and prefix length: 10/8,
    172.16/12, 192.168/16, 127/8, 169.254/16, 100.64/10 and 0/8; fe80::/10,
    fd00::/8 and ::1. *)
Definition FEED_V4 : list (Z * Z) :=
  [(0x0a000000, 8); (0xac100000, 12); (0xc0a80000, 16); (0x7f000000, 8); (0xa9fe0000, 16); (0x64400000, 10); (0, 8)].
Definition FEED_V6 : list (Z * Z) := [(0xfe80 * 2 ^ 112, 10); (0xfd00 * 2 ^ 112, 8); (1, 128)].

(** [if c { return true }]. *)
Lemma if_orb (c d : bool) : (if c then true else d) = c || d.
Proof. done. Qed.

Lemma feed_guard_is_blocks ip : ip_range ip -> is_private_or_restricted ip = in_blocks FEED_V4 FEED_V6 ip.
Proof.
  destruct ip as [a|a]; cbn [ip_range]; intros Ha; unfold in_blocks, is_private_or_restricted, FEED_V4, FEED_V6; cbn [existsb].
  - pose proof (top_16 32 a ltac:(lia) Ha) as Hp. rewrite !in_block_16 by lia. rewrite octet_0, octet_1.
    change (32 - 16) with 16 in *. set (p := Z.shiftr a 16) in *.
    rewrite !(land_mask (Z.land p 255) 8 4 0xF0), !(land_mask (Z.land p 255) 8 6 0xC0), !land_255, !Z.shiftr_div_pow2
      by (rewrite ?land_255; lia || done || (apply Z.mod_pos_bound; lia)).
    apply eq_iff_eq_true. rewrite !if_orb, !orb_true_iff, ?andb_true_iff, !Z.eqb_eq. eval_powers.
    Z.to_euclidean_division_equations. lia.
  - pose proof (top_16 128 a ltac:(lia) Ha) as Hp. rewrite in_block_all, !in_block_16 by lia. rewrite segment_0.
    change (128 - 16) with 112 in *. set (p := Z.shiftr a 112) in *.
    rewrite land_65535, Z.mod_small by done. rewrite (land_mask p 16 6 0xffc0), (land_mask p 16 8 0xff00) by (lia || done).
    rewrite !Z.shiftr_div_pow2 by lia. apply eq_iff_eq_true. rewrite !if_orb, !orb_true_iff, ?andb_true_iff, !Z.eqb_eq. eval_powers.
    Z.to_euclidean_division_equations. lia.
Qed.

(** ** What a feed can reach *)

Section Isolation.
Context (to_socket_addrs : string -> option (list SockAddr)).

Lemma resolved_public url host port path addr :
  resolve_feed_endpoint to_socket_addrs url = Ok (host, port, path, addr) -> is_private_or_restricted (sa_ip addr) = false.
Proof.
  unfold resolve_feed_endpoint. destruct (negb _ && negb _); [done|].
  destruct (match split_once _ _ with Some _ => _ | None => _ end) as [authority p].
  destruct (eqb_dec authority ""); [done|]. destruct (host_and_port _ _) as [[h po]|e|m]; cbn; [|done..].
  destruct (match parse_socket_addr _ with Some _ => _ | None => _ end) as [addrs|e|m]; cbn; [|done..].
  destruct (existsb _ _); [done|]. destruct (head addrs) as [a|]; cbn; [|done].
  destruct (is_private_or_restricted (sa_ip a)) eqn:E; [done|]. by intros [= <- <- <- <-].
Qed.

(** C29: what a feed brings into a script does not depend on any server at an
    address of the blocks 10/8, 172.16/12, 192.168/16, 127/8, 169.254/16,
    100.64/10, 0/8, fe80::/10, fd00::/8 and ::1: a script run, with its result,
    its log lines and the workers it leaves, is the same whatever such servers
    would answer.  (IPv4 addresses written as IPv6 ones and fc00::/8 are not in
    the list.) *)
Theorem feed_isolated exchange exchange' run now command token st :
  (forall tls host addr request, (ip_range (sa_ip addr) -> in_blocks FEED_V4 FEED_V6 (sa_ip addr) = false) ->
     exchange tls host addr request = exchange' tls host addr request) ->
  execute_boa_script to_socket_addrs exchange run now command token st
  = execute_boa_script to_socket_addrs exchange' run now command token st.
Proof.
  intros H.
  assert (native_http_fetch to_socket_addrs exchange command = native_http_fetch to_socket_addrs exchange' command) as Hf.
  { unfold native_http_fetch. destruct (resolve_feed_endpoint _ _) as [[[[host port] path] addr]|e|m] eqn:E; [|done..].
    apply resolved_public in E. cbn. rewrite H; [done|]. intros Hr. by rewrite <- feed_guard_is_blocks. }
  unfold execute_boa_script, feed_value. by rewrite Hf.
Qed.

End Isolation.

(** An IPv4 address written as an IPv6 one passes, and so does fc00::/8. *)
Lemma mapped_metadata_passes :
  is_private_or_restricted (V6 0xffffa9fea9fe) = false /\ is_private_or_restricted (V6 (0xfc00 * 2 ^ 112 + 1)) = false.
Proof. split; reflexivity. Qed.

(** ** Fallback scripts come from the list *)

Lemma resolve_allowed path q :
  resolve_allowed_fallback_script path = Ok q -> q ∈ FALLBACK_SCRIPT_ALLOWLIST /\ file_name q = file_name path.
Proof.
  unfold resolve_allowed_fallback_script, ok_or. destruct (List.find _ _) as [a|] eqn:E; [|done]. intros [= <-].
  apply List.find_some in E as [Hin Hb]. apply list_elem_of_In in Hin. split; [done|].
  apply bool_decide_eq_true in Hb. rewrite Hb. destruct (file_name path) as [n|] eqn:En; [done|]. cbn in Hb.
  unfold FALLBACK_SCRIPT_ALLOWLIST in Hin. rewrite !elem_of_cons in Hin.
  destruct Hin as [->|[->|[->|[->|Hin]]]]; [discriminate Hb..|]. set_solver.
Qed.

(** The executor finds what the command resolved: the two layers never disagree. *)
Theorem layers_agree on_disk child path q :
  resolve_allowed_fallback_script path = Ok q ->
  q ∈ FALLBACK_SCRIPT_ALLOWLIST
  /\ resolve_allowed_fallback_script q = Ok q
  /\ run_fallback_subprocess on_disk child path = run_fallback_subprocess on_disk child q.
Proof.
  intros H. destruct (resolve_allowed path q H) as [Hin _]. split; [done|].
  assert (resolve_allowed_fallback_script q = Ok q) as Hq.
  { unfold FALLBACK_SCRIPT_ALLOWLIST in Hin. rewrite !elem_of_cons in Hin.
    destruct Hin as [->|[->|[->|[->|Hin]]]]; [vm_compute; reflexivity..|set_solver]. }
  split; [done|]. unfold run_fallback_subprocess. by rewrite H, Hq.
Qed.

(** ** The pool *)

(** No worker process is alive but the idle ones, at most four. *)
Record pool_ok (p : Pool) : Prop := {
  po_nodup : NoDup (idle p);
  po_children : children p = list_to_set (idle p);
  po_bound : (length (idle p) <= MAX_POOL_SIZE)%nat
}.

(** A worker in use, beside such a pool. *)
Definition in_use (w : N) (p : Pool) : Prop :=
  NoDup (w :: idle p) /\ children p = list_to_set (w :: idle p) /\ (length (idle p) <= MAX_POOL_SIZE)%nat.

Lemma drop_in_use w p : in_use w p -> pool_ok (drop_worker w p).
Proof. intros ([Hw HN]%NoDup_cons & Hc & Hl). split; cbn; [done| |done]. rewrite Hc. cbn. set_solver. Qed.

Lemma checkin_in_use w p : in_use w p -> pool_ok (checkin_worker w p).
Proof.
  intros H. unfold checkin_worker. case_decide as Hd; [by apply drop_in_use|]. destruct H as ([Hw HN]%NoDup_cons & Hc & Hl).
  split; cbn.
  - apply NoDup_app. split; [done|]. split; [set_solver|apply NoDup_singleton].
  - rewrite Hc. cbn. set_solver.
  - rewrite length_app. cbn. lia.
Qed.

Lemma spawn_in_use w p :
  pool_ok p -> (forall v, w = Some v -> v ∉ children p) ->
  match spawn_worker w p with (Some v, p') => in_use v p' | (None, p') => pool_ok p' end.
Proof.
  intros [HN Hc Hl] Hf. destruct w as [v|]; cbn; [|by split]. specialize (Hf v eq_refl). rewrite Hc in *.
  split; [apply NoDup_cons; split; [set_solver|done]|]. split; [done|done].
Qed.

(** The processes spawned are new. *)
Definition fresh_io (io : ScriptIo) (p : Pool) : Prop :=
  forall v, sio_spawn io = Some v \/ sio_respawn io = Some v -> v ∉ children p.

(** A script run leaves no worker behind: whatever the workers do, whether they
    are found dead, do not start, time out or answer nonsense, afterwards the
    processes alive are the idle workers of the pool, at most four. *)
Theorem no_stray_workers io p : pool_ok p -> fresh_io io p -> pool_ok (snd (run_boa_sandboxed_script io p)).
Proof.
  intros HP Hf. unfold run_boa_sandboxed_script.
  assert (match obtain_worker io p with (Some v, p') => in_use v p' /\ children p' ⊆ {[v]} ∪ children p
          | (None, p') => pool_ok p' end) as Ho.
  { unfold obtain_worker, checkout_worker. destruct (idle p) as [|w ws] eqn:E.
    - pose proof (spawn_in_use (sio_spawn io) p HP ltac:(intros v Hv; apply Hf; by left)) as H.
      destruct (sio_spawn io) as [v|]; cbn in *; [|done]. split; [done|set_solver].
    - assert (in_use w {| idle := ws; children := children p |}) as Hu.
      { destruct HP as [HN Hc Hl]. rewrite E in *. split; cbn; [done|]. split; [done|cbn in Hl; lia]. }
      destruct (sio_alive io); [split; [done|cbn; set_solver]|]. apply drop_in_use in Hu as Hd.
      pose proof (spawn_in_use (sio_spawn io) _ Hd) as H. cbn in H.
      destruct (sio_spawn io) as [v|] eqn:Es; cbn in *; [|done]. split; [|set_solver]. apply H. intros v' [= <-].
      assert (v ∉ children p) by (apply Hf; by left). set_solver. }
  destruct (obtain_worker io p) as [[w|] p1]; [|done]. destruct Ho as [Hu Hsub].
  destruct (sio_exec io); cbn [snd]; [by apply checkin_in_use|]. apply drop_in_use in Hu as Hd.
  unfold second_attempt. destruct (sio_respawn io) as [v|] eqn:Er; [|done].
  assert (in_use v {| idle := idle p1; children := {[v]} ∪ (children p1 ∖ {[w]}) |}) as Hv.
  { apply (spawn_in_use (Some v) _ Hd). intros v' [= <-].
    assert (v ∉ children p) by (apply Hf; by right). cbn. set_solver. }
  cbn. destruct (sio_reexec io); cbn [snd]; [by apply checkin_in_use|by apply drop_in_use].
Qed.

(** ** A router that would answer *)

Definition is_router (ip : IpAddr) : bool := match ip with V4 a => a =? 0xc0a80001 | V6 _ => false end.
Definition public_server (tls : bool) (host : string) (addr : SockAddr) (request : string) : result string bytes :=
  if is_router (sa_ip addr) then Err "refused" else Ok (bstr "HTTP/1.1 200 OK").
Definition with_router (tls : bool) (host : string) (addr : SockAddr) (request : string) : result string bytes :=
  if is_router (sa_ip addr) then Ok (bstr "router page") else Ok (bstr "HTTP/1.1 200 OK").
Definition confirmed_state : AutoState :=
  {| tokens := [("execute_boa_script", "t", 0)]; pool := {| idle := []; children := ∅ |}; app_logs := [] |}.
Definition run_of (feed : string) : ScriptIo := {|
  sio_alive := true; sio_spawn := Some 1%N; sio_exec := Some {| success := true; output := feed; script_logs := [] |};
  sio_respawn := None; sio_reexec := None; sio_fallback := NoExe |}.

Lemma feed_isolated_witness :
  execute_boa_script (fun _ => None) with_router run_of 0 "http://192.168.0.1/admin" "t" confirmed_state
  = execute_boa_script (fun _ => None) public_server run_of 0 "http://192.168.0.1/admin" "t" confirmed_state.
Proof.
  apply (feed_isolated (fun _ => None) with_router public_server run_of 0 "http://192.168.0.1/admin" "t" confirmed_state).
  intros tls host [ip port] request Ha. unfold with_router, public_server. cbn [sa_ip] in *.
  destruct (is_router ip) eqn:E; [|reflexivity]. destruct ip as [a|a]; [|discriminate].
  apply Z.eqb_eq in E. subst a. assert (ip_range (V4 0xc0a80001)) as Hr by (cbn; lia). discriminate (Ha Hr).
Defined.

Example router_not_reached :
  app_logs (snd (execute_boa_script (fun _ => None) with_router run_of 0 "http://192.168.0.1/admin" "t" confirmed_state))
  = ["[Automation] Querying feed source: http://192.168.0.1/admin";
     "[Automation] Feed fetch failed: SSRF blocked: connection to private/internal address {} is not allowed";
     "[Automation] Resolved feed data from host 192.168.0.1 (0 bytes)";
     "[Sandbox-Enforced] Running Boa script (lux = {lux})"; "[Sandbox-Enforced] Result: success={}, output="].
Proof. vm_compute. reflexivity. Qed.

Lemma no_stray_workers_witness :
  pool_ok (snd (run_boa_sandboxed_script (run_of "") {| idle := []; children := ∅ |})).
Proof.
  apply (no_stray_workers (run_of "") {| idle := []; children := ∅ |}).
  - split; cbn; [apply NoDup_nil_2|reflexivity|unfold MAX_POOL_SIZE; lia].
  - intros v _. apply not_elem_of_empty.
Defined.
