(* ===== verification/OpenUrl.v ===== *)
(** * OpenUrl: opening links (desktop commands/open.rs)

    The one command that hands a link to the operating system: a confirmation
    token, then the forms of link it lets through.  Text is its UTF-8 bytes.
    Base64, zlib and JSON are third-party, parameters. *)

From Stdlib.Strings Require Import Ascii.
From S2P Require Import Prelude Error Json StrOps RatchetState Packets Utils Privilege.

(** [chars().count()]: the bytes that start a character. *)
Definition char_count (s : string) : nat := length (filter (fun c => is_continuation c = false) (chars s)).

(** [split(sep).next()]: the text before the first occurrence, or all of it. *)
Fixpoint before (sep s : string) : string :=
  if is_some (strip_prefix sep s) then "" else match s with "" => "" | String c s => String c (before sep s) end.

(** [to_lowercase], as far as it can make ASCII letters: A-Z, and the Kelvin sign. *)
Definition lower_byte (b : byte) : byte :=
  if (65 <=? Z_of_byte b) && (Z_of_byte b <=? 90) then byte_of_Z (Z_of_byte b + 32) else b.
Fixpoint lower (t : bytes) : bytes :=
  match t with
  | xe2 :: x84 :: xaa :: t => x6b :: lower t
  | b :: t => lower_byte b :: lower t
  | [] => []
  end.
Definition to_lowercase (s : string) : string := String.string_of_list_byte (lower (bstr s)).

(** Whether one of the encodings occurs. *)
Fixpoint contains_any (encs : list bytes) (t : bytes) : bool :=
  existsb (fun e => bool_decide (take (length e) t = e)) encs || match t with [] => false | _ :: t => contains_any encs t end.
(** [char::is_control]: U+0000 to U+001F and U+007F to U+009F. *)
Definition control : list bytes :=
  map (fun z => [byte_of_Z z]) (seqZ 0 32 ++ [127]) ++ map (fun z => [xc2; byte_of_Z z]) (seqZ 128 32).

(** [split(['/', '?', '#']).next()] *)
Definition host_of (rest : string) : string := before "#" (before "?" (before "/" rest)).

Definition validate_https_url (url : string) : bool :=
  match strip_prefix "https://" url with
  | None => false
  | Some rest =>
      if eqb_dec rest "" || bool_decide ("@"%char ∈ chars rest) || contains_any white_space (bstr rest)
         || contains_any control (bstr rest)
      then false
      else negb (eqb_dec (host_of rest) "")
  end.

Definition validate_mailto_url (url : string) : bool :=
  let addr := before "?" (default "" (strip_prefix "mailto:" url)) in
  match split_once "@"%char addr with
  | Some (local, domain) => negb (eqb_dec local "") && negb (eqb_dec domain "") && bool_decide ("."%char ∈ chars domain)
  | None => false
  end.

Definition is_ascii_hexdigit (c : ascii) : bool :=
  let z := code c in
  ((48 <=? z) && (z <=? 57)) || ((97 <=? z) && (z <=? 102)) || ((65 <=? z) && (z <=? 70)).

Section Open.
Context `{T : JsonText}.
Context (base64_decode : string -> option bytes) (inflate : bytes -> option bytes).

Definition validate_pairing_payload (data : string) : bool :=
  match base64_decode data ≫= inflate with
  | None => false
  | Some out =>
      match (if utf8_valid out then json_from_str (String.string_of_list_byte out) else None) with
      | None => false
      | Some json =>
          let nonce := default "" (get_field "pairing_nonce_hex" json ≫= as_str) in
          let cert_hash := default "" (get_field "server_cert_hash" json ≫= as_str) in
          let ok n s := negb (eqb_dec s "") && (String.length s =? n)%nat && forallb is_ascii_hexdigit (chars s) in
          ok 32%nat nonce && ok 64%nat cert_hash
      end
  end.

(** The first [data=] of the query. *)
Definition data_field (query : string) : string :=
  default "" (head (omap (strip_prefix "data=") (splitn (S (String.length query)) "&"%char query))).

Definition validate_pairing_deep_link (url : string) : bool :=
  match strip_prefix "kyberpipe://" url with
  | None => false
  | Some rest =>
      let '(host, query) := match split_once "?"%char rest with Some hq => hq | None => (rest, "") end in
      if negb (eqb_dec host "pair") then false
      else
        let data := data_field query in
        if eqb_dec data "" then false else validate_pairing_payload data
  end.

(** The result, the tokens, and the link given to [xdg-open]. *)
Definition open_external_url (spawned : bool) (now : Z) (url token : string) (st : Tokens)
  : result string unit * Tokens * option string :=
  let '(ok, st) := consume_privilege_token now "open_external_url" token st in
  if negb ok then (Err "Opening external URLs requires a fresh user-gesture token", st, None)
  else if eqb_dec url "" || (2048 <? char_count url)%nat then (Err "URL must be non-empty and bounded in length", st, None)
  else
    let scheme := to_lowercase (before "://" url) in
    let allowed :=
      if eqb_dec scheme "https" then validate_https_url url
      else if eqb_dec scheme "mailto" then validate_mailto_url url
      else if eqb_dec scheme "kyberpipe" then validate_pairing_deep_link url
      else false in
    if negb allowed
    then (Err "URL scheme/content not permitted (AUDIT F17 allowlist: https, mailto, kyberpipe://pair): {scheme}", st, None)
    else if spawned then (Ok tt, st, Some url)
    else (Err "Failed to open URL: {e}", st, Some url).

End Open.

(** ** What is opened *)

Lemma strip_prefix_sound p s r : strip_prefix p s = Some r -> s = p +:+ r.
Proof.
  revert s. induction p as [|a p IH]; intros s; [by intros [= ->]|]. destruct s as [|b s]; cbn; [done|].
  case_decide as H; [|done]. intros E. subst b. by rewrite (IH s E).
Qed.

Lemma before_cons sep c s :
  before sep (String c s) = if is_some (strip_prefix sep (String c s)) then "" else String c (before sep s).
Proof. done. Qed.

(** After [mailto:], the scheme is [mailto] only before [//]. *)
Lemma mailto_scheme rest : to_lowercase (before "://" ("mailto:" +:+ rest)) = "mailto" -> exists r, rest = "//" +:+ r.
Proof.
  destruct (strip_prefix "//" rest) as [r|] eqn:E; [intros _; exists r; by apply strip_prefix_sound|].
  assert (before "://" ("mailto:" +:+ rest) = "mailto:" +:+ before "://" rest) as ->.
  { change ("mailto:" +:+ rest) with ("mailto" +:+ String ":"%char rest).
    assert (strip_prefix "://" (String ":"%char rest) = None) as Hn by exact E.
    change (before "://" ("mailto" +:+ String ":"%char rest)) with ("mailto" +:+ before "://" (String ":"%char rest)).
    rewrite before_cons, Hn. done. }
  unfold to_lowercase.
  change (String.string_of_list_byte (lower (bstr ("mailto:" +:+ before "://" rest))))
    with ("mailto:" +:+ String.string_of_list_byte (lower (bstr (before "://" rest)))).
  discriminate.
Qed.

Lemma consumed_was_granted now action token st st' :
  consume_privilege_token now action token st = (true, st') ->
  exists at_, (action, token, at_) ∈ st /\ sat_sub now at_ < TOKEN_TTL.
Proof.
  unfold consume_privilege_token. destruct (take_token action token (live_tokens now st)) as [st1|] eqn:E; [|done]. intros _.
  assert (exists at_, (action, token, at_) ∈ live_tokens now st) as [at_ Hin].
  { revert st1 E. induction (live_tokens now st) as [|[[a t] z] l IH]; intros st1; [done|]. cbn [take_token].
    case_decide as H; [destruct H as [-> ->]; intros _; exists z; by left|].
    intros (l' & Hl & _)%fmap_Some. destruct (IH l' Hl) as [z' Hz]. exists z'. by right. }
  exists at_. unfold live_tokens in Hin. apply list_elem_of_filter in Hin as [H1 H2]. by split.
Qed.

Section Opened.
Context `{T : JsonText}.
Context (base64_decode : string -> option bytes) (inflate : bytes -> option bytes).

(** Nothing is handed to the operating system but after a confirmation in the
    last half minute, and only links of three forms: https with a host and no
    user, mailto followed by two slashes, and the pairing link. *)
Theorem only_safe_links spawned now url token st link :
  snd (open_external_url base64_decode inflate spawned now url token st) = Some link ->
  link = url
  /\ (exists at_, ("open_external_url", token, at_) ∈ st /\ sat_sub now at_ < TOKEN_TTL)
  /\ ((exists rest, url = "https://" +:+ rest /\ host_of rest <> "" /\ "@"%char ∉ chars rest)
      \/ (exists rest, url = "mailto://" +:+ rest)
      \/ (exists query, url = "kyberpipe://pair?" +:+ query /\ validate_pairing_payload base64_decode inflate (data_field query) = true)).
Proof.
  unfold open_external_url. destruct (consume_privilege_token _ _ _ _) as [ok st'] eqn:Ec. destruct ok; [|done]. cbn [negb].
  apply consumed_was_granted in Ec. destruct (eqb_dec url "" || _); [done|]. unfold eqb_dec.
  set (allowed := if bool_decide (to_lowercase _ = "https") then _ else _).
  destruct allowed eqn:Ea; cbn [negb]; [|done]. intros Hl.
  assert (link = url) as -> by (destruct spawned; cbn in Hl; congruence). split; [done|]. split; [done|].
  subst allowed. case_bool_decide as H1; [|case_bool_decide as H2; [|case_bool_decide as H3; [|done]]].
  - left. unfold validate_https_url, eqb_dec in Ea. destruct (strip_prefix "https://" url) as [rest|] eqn:E; [|done].
    exists rest. split; [by apply strip_prefix_sound|]. destruct (_ || _ || _ || _) eqn:Eo; [done|].
    apply negb_true_iff, bool_decide_eq_false in Ea. split; [done|].
    rewrite !orb_false_iff in Eo. destruct Eo as [[[_ Hat] _] _]. by apply bool_decide_eq_false in Hat.
  - right. left. unfold validate_mailto_url in Ea. destruct (strip_prefix "mailto:" url) as [rest|] eqn:E; [|by cbn in Ea].
    apply strip_prefix_sound in E. subst url. apply mailto_scheme in H2 as [r ->]. by exists r.
  - right. right. unfold validate_pairing_deep_link, eqb_dec in Ea.
    destruct (strip_prefix "kyberpipe://" url) as [rest|] eqn:E; [|done]. apply strip_prefix_sound in E. subst url.
    destruct (split_once "?"%char rest) as [[host query]|] eqn:Es.
    + case_bool_decide as Hh; cbn in Ea; [|done]. subst host. apply split_once_sound in Es as [-> _].
      exists query. split; [done|]. by case_bool_decide.
    + case_bool_decide as Hh; cbn in Ea; done.
Qed.

End Opened.

Module Links.
Import ToyJson.

Definition no_base64 : string -> option bytes := fun _ => None.
Definition no_zlib : bytes -> option bytes := fun _ => None.
Definition confirmed : Tokens := [("open_external_url", "t", 0)].

Lemma https_opened :
  snd (open_external_url no_base64 no_zlib true (secs 5) "https://example.org/page" "t" confirmed) = Some "https://example.org/page".
Proof. vm_compute. reflexivity. Qed.

Lemma only_safe_links_witness :
  (exists rest, "https://example.org/page" = "https://" +:+ rest /\ host_of rest <> "" /\ "@"%char ∉ chars rest)
  \/ (exists rest, "https://example.org/page" = "mailto://" +:+ rest)
  \/ (exists query, "https://example.org/page" = "kyberpipe://pair?" +:+ query
                 /\ validate_pairing_payload no_base64 no_zlib (data_field query) = true).
Proof.
  exact (proj2 (proj2 (only_safe_links no_base64 no_zlib true (secs 5) "https://example.org/page" "t" confirmed _ https_opened))).
Defined.

(** A mailto link as they are written is refused, one that is not a mail address
    is opened, and a scheme in capitals is recognised and then refused. *)
Lemma mailto_links_refused :
  snd (open_external_url no_base64 no_zlib true (secs 5) "mailto:someone@example.org" "t" confirmed) = None
  /\ snd (open_external_url no_base64 no_zlib true (secs 5) "mailto://someone@example.org" "t" confirmed)
     = Some "mailto://someone@example.org"
  /\ snd (open_external_url no_base64 no_zlib true (secs 5) "HTTPS://example.org/" "t" confirmed) = None.
Proof. split; [|split]; vm_compute; reflexivity. Qed.

End Links.
