(* ===== verification/ClipboardIo.v ===== *)
(** * ClipboardIo: the desktop's clipboard through its helpers
    (desktop commands/clipboard.rs, portal.rs)

    The native clipboard may hang or fail, so it is tried with a time limit and
    then a chain of helper programs.  What each of them does is an argument. *)

From S2P Require Import Prelude Error Primitives Toy Json RatchetState Registry RatchetStore Utils Packets StrOps Privilege Automation.

(** ** Waiting for a helper *)

(** [Child::try_wait] *)
Inductive TryWait := Exited (success : bool) | Running | WaitFailed.

(** The [n]-th look at the child is at [clock n]; [killed] when the deadline has
    passed.  [None]: out of fuel. *)
Section Wait.
Context (try_wait : nat -> TryWait) (clock : nat -> Z) (deadline : Z).

Record Waited := { status : option bool; killed : bool }.
Fixpoint wait_loop (fuel n : nat) : option Waited :=
  match fuel with
  | O => None
  | S fuel =>
      match try_wait n with
      | Exited success => Some {| status := Some success; killed := false |}
      | Running => if deadline <=? clock n then Some {| status := None; killed := true |} else wait_loop fuel (S n)
      | WaitFailed => Some {| status := None; killed := false |}
      end
  end.

Definition POLL : Z := 25 * 1000000.
Definition looks (start : Z) : nat := S (S (Z.to_nat ((deadline - start) / POLL))).
Definition wait_with_timeout (start : Z) : option Waited := wait_loop (looks start) 0.

Lemma wait_loop_ends start fuel n :
  (forall m, clock m + POLL <= clock (S m)) -> start + Z.of_nat n * POLL <= clock n ->
  deadline < start + (Z.of_nat n + Z.of_nat fuel - 1) * POLL ->
  (0 < fuel)%nat -> exists w, wait_loop fuel n = Some w
  /\ (forall s, status w = Some s -> exists m, try_wait m = Exited s) /\ (killed w = true -> exists m, deadline <= clock m /\ try_wait m = Running).
Proof.
  intros Hc. revert n. induction fuel as [|fuel IH]; intros n Hn Hd Hf; [lia|]. cbn [wait_loop]. destruct (try_wait n) eqn:E.
  - eexists. split; [done|]. cbn. split; [intros s [= <-]; by exists n|done].
  - destruct (Z.leb_spec deadline (clock n)) as [Hle|Hlt].
    + eexists. split; [done|]. cbn. split; [done|]. intros _. by exists n.
    + destruct fuel as [|fuel]; [exfalso; unfold POLL in *; lia|]. apply IH; [|unfold POLL in *; lia|lia].
      pose proof (Hc n). unfold POLL in *. lia.
  - eexists. split; [done|]. cbn. by split.
Qed.

(** The wait ends: a helper that does not exit is killed once the deadline has
    passed, at the latest one look later; a status is one the helper exited
    with. *)
Theorem wait_is_bounded start :
  (forall m, clock m + POLL <= clock (S m)) -> start <= clock 0%nat -> start <= deadline ->
  exists w, wait_with_timeout start = Some w
  /\ (forall s, status w = Some s -> exists m, try_wait m = Exited s)
  /\ (killed w = true -> exists m, deadline <= clock m /\ try_wait m = Running).
Proof.
  intros Hc H0 Hd. apply (wait_loop_ends start); [done|lia| |unfold looks; lia].
  unfold looks. pose proof (Z.div_mod (deadline - start) POLL ltac:(done)). pose proof (Z.mod_pos_bound (deadline - start) POLL ltac:(done)).
  assert (0 <= (deadline - start) / POLL) by (apply Z.div_pos; [lia|done]). unfold POLL in *. lia.
Qed.

End Wait.

(** ** Writing *)

(** What becomes of a helper started to take the text: it is not started, it
    exits, or it is waited for in vain. *)
Inductive HelperFate := NotSpawned (e : string) | Ended (success : bool) | TimedOut.

Definition MAX_CLIPBOARD_SIZE : Z := 10 * 1024 * 1024.

(** [piped]: the text could be written to its input. *)
Record CopyqFate := { cq_fate : HelperFate; cq_piped : bool }.

Definition write_copyq_clipboard (f : CopyqFate) (text : bytes) : result string unit :=
  if MAX_CLIPBOARD_SIZE <? len text then Err "Clipboard payload too large: {} bytes (max {})"
  else if bool_decide (text = []) then Err "Clipboard payload is empty"
  else if existsb (fun b => bool_decide (b = x00)) text then Err "Clipboard payload contains null bytes"
  else
    match cq_fate f with
    | NotSpawned e => Err ("Failed to spawn copyq add: " +:+ e)
    | fate =>
        if negb (cq_piped f) then Err "Failed to write to copyq stdin: {e}"
        else match fate with
             | Ended true => Ok tt
             | Ended false => Err "CopyQ returned non-success"
             | _ => Err "CopyQ timed out"
             end
    end.

(** The helpers in their order, each with its fate. *)
Definition helper_names : list string := ["wl-copy"; "xclip"; "xsel"].
Fixpoint try_helpers (l : list (string * HelperFate)) (last_err : option string) : option string + option string :=
  match l with
  | [] => inr last_err
  | (name, fate) :: l =>
      match fate with
      | Ended true => inl (Some name)
      | Ended false => try_helpers l last_err
      | TimedOut => try_helpers l (Some (name +:+ " timed out (no display session)"))
      | NotSpawned e => try_helpers l (Some e)
      end
  end.
Record WriteFates := { wf_wl : HelperFate; wf_xclip : HelperFate; wf_xsel : HelperFate; wf_copyq : CopyqFate }.
Definition write_clipboard_fallback (f : WriteFates) (text : bytes) : result string unit :=
  match try_helpers (combine helper_names [wf_wl f; wf_xclip f; wf_xsel f]) None with
  | inl _ => Ok tt
  | inr last_err =>
      match write_copyq_clipboard (wf_copyq f) text with
      | Ok _ => Ok tt
      | Err e => Err ("All clipboard helper fallbacks (wl-copy, xclip, xsel) failed. CopyQ error: " +:+ e +:+ ". Last spawn error: {:?}")
      | Panic m => Panic m
      end
  end.

(** [native]: the bounded native write, [None] when it was given up. *)
Definition sync_clipboard_text (flatpak : bool) (native : option bool) (f : WriteFates) (text : bytes) : result string unit :=
  if flatpak then Ok tt
  else if default false native then Ok tt
  else write_clipboard_fallback f text.

Lemma write_copyq_ok f text :
  write_copyq_clipboard f text = Ok tt <->
  cq_fate f = Ended true /\ cq_piped f = true /\ len text <= MAX_CLIPBOARD_SIZE /\ text <> [] /\ x00 ∉ text.
Proof.
  unfold write_copyq_clipboard. destruct (Z.ltb_spec MAX_CLIPBOARD_SIZE (len text)); [split; [done|lia]|].
  case_bool_decide; [split; [done|naive_solver]|].
  destruct (existsb _ text) eqn:Ex.
  - split; [done|]. intros (_ & _ & _ & _ & Hn). apply existsb_exists in Ex as (b & Hb & He). apply bool_decide_eq_true in He as ->.
    by apply list_elem_of_In in Hb.
  - assert (x00 ∉ text).
    { intros Hn. apply list_elem_of_In in Hn. assert (existsb (fun b => bool_decide (b = x00)) text = true); [|congruence].
      apply existsb_exists. exists x00. split; [done|by apply bool_decide_eq_true]. }
    destruct (cq_fate f) as [e|[]|], (cq_piped f); cbn; naive_solver.
Qed.

(** A helper that succeeds ends the chain; else it ends with the last error. *)
Lemma try_helpers_spec l last_err :
  match try_helpers l last_err with inl _ => Ended true ∈ l.*2 | inr _ => Ended true ∉ l.*2 end.
Proof.
  revert last_err. induction l as [|[name fate] l IH]; intros last_err; cbn [try_helpers fmap list_fmap]; [apply not_elem_of_nil|].
  assert (forall e, fate <> Ended true ->
    match try_helpers l e with inl _ => Ended true ∈ fate :: l.*2 | inr _ => Ended true ∉ fate :: l.*2 end) as Hnext.
  { intros e Hf. specialize (IH e). destruct (try_helpers l e); set_solver. }
  destruct fate as [e|[]|]; [by apply Hnext|by left|by apply Hnext..].
Qed.

(** A text reaches some clipboard exactly when the write says so, outside a
    container: the native one took it, or a helper exited successfully, or CopyQ
    took a text of at most 10 MiB that is not empty and has no null byte. *)
Theorem clipboard_write_reported native f text :
  sync_clipboard_text false native f text = Ok tt <->
  native = Some true \/ Ended true ∈ [wf_wl f; wf_xclip f; wf_xsel f]
  \/ (cq_fate (wf_copyq f) = Ended true /\ cq_piped (wf_copyq f) = true
      /\ len text <= MAX_CLIPBOARD_SIZE /\ text <> [] /\ x00 ∉ text).
Proof.
  rewrite <- write_copyq_ok. unfold sync_clipboard_text, write_clipboard_fallback.
  pose proof (try_helpers_spec (combine helper_names [wf_wl f; wf_xclip f; wf_xsel f]) None) as Hh.
  change ((combine helper_names [wf_wl f; wf_xclip f; wf_xsel f]).*2) with [wf_wl f; wf_xclip f; wf_xsel f] in Hh.
  destruct native as [[]|]; cbn [default]; [split; [by left|done]| |];
    destruct (try_helpers _ None); (split; [|intros [|[|]]]); try done; try (by right; left);
    destruct (write_copyq_clipboard (wf_copyq f) text) as [[]| |]; try done; by right; right.
Qed.

(** In a container the outcome of the helpers is not looked at. *)
Lemma flatpak_write_always_ok native f text : sync_clipboard_text true native f text = Ok tt.
Proof. done. Qed.

(** ** Reading *)

(** What a program printed, when it exited successfully. *)
Definition decoded (out : option bytes) : option bytes := t ← out; if utf8_valid t then Some t else None.
Definition not_blank (t : bytes) : bool := negb (bool_decide (trim t = [])).

(** How [copyq read 0] went. *)
Inductive CopyqRead := CqNotRun (e : string) | CqExited (success : bool) (stdout : bytes).

Record ReadFates := {
  rf_display : bool; rf_native : option bytes; rf_copyq : CopyqRead;
  rf_wl : option bytes; rf_xclip : option bytes; rf_xsel : option bytes; rf_copyq_again : CopyqRead
}.

Definition read_copyq_clipboard (out : CopyqRead) : result string bytes :=
  match out with
  | CqNotRun e => Err ("Failed to execute copyq read: " +:+ e)
  | CqExited true t => if utf8_valid t
                       then if not_blank t then Ok t else Err "CopyQ returned empty or non-success"
                       else Err "Invalid UTF-8 from copyq: {e}"
  | CqExited false _ => Err "CopyQ returned empty or non-success"
  end.

Definition read_clipboard_fallback (f : ReadFates) : result string bytes :=
  match List.find not_blank (omap decoded [rf_wl f; rf_xclip f; rf_xsel f]) with
  | Some t => Ok t
  | None => read_copyq_clipboard (rf_copyq_again f)
  end.

Definition read_real_clipboard_internal (f : ReadFates) : result string bytes :=
  match (if rf_display f then rf_native f else None) with
  | Some ((_ :: _) as t) => Ok t
  | _ => match read_copyq_clipboard (rf_copyq f) with
         | Ok t => Ok t
         | _ => read_clipboard_fallback f
         end
  end.

(** ** The commands *)

Section Commands.
Context `{P : Primitives} `{X : Hex}.

Definition read_real_clipboard (now : Z) (token : string) (f : ReadFates) (st : Tokens) : result string bytes * Tokens :=
  let '(ok, st) := consume_privilege_token now "read_real_clipboard" token st in
  (if negb ok then Err "Reading the host clipboard requires a fresh user-gesture token" else read_real_clipboard_internal f, st).

(** [native]: opening the clipboard and setting its text. *)
Definition write_real_clipboard (now : Z) (native : bool) (f : CopyqFate) (text : bytes) (token : string)
  (st : Tokens * ClipboardDeduplicator) : result string unit * (Tokens * ClipboardDeduplicator) :=
  let '(toks, d) := st in
  let '(ok, toks) := consume_privilege_token now "write_real_clipboard" token toks in
  if negb ok then (Err "Writing the host clipboard requires a fresh user-gesture token", (toks, d))
  else
    let d := record_text text d in
    (if native then Ok tt
     else match write_copyq_clipboard f text with
          | Err e => Err ("Failed to write clipboard natively ({:?}) and via CopyQ fallback (" +:+ e +:+ ")")
          | r => r
          end, (toks, d)).

(** A text written by a command needed a token, and is not new when it comes back
    from the phone; nor is one whose write failed. *)
Theorem written_text_suppressed now native f text token toks d r st' :
  write_real_clipboard now native f text token (toks, d) = (r, st') ->
  match fst (consume_privilege_token now "write_real_clipboard" token toks) with
  | true => fst (check_and_record text (snd st')) = false
  | false => snd st' = d /\ exists e, r = Err e
  end.
Proof.
  unfold write_real_clipboard. destruct (consume_privilege_token _ _ _ _) as [[] toks']; cbn [negb fst]; intros [= <- <-]; [|by eauto].
  cbn [snd]. unfold check_and_record. rewrite known_spec. rewrite bool_decide_eq_true_2; [done|].
  unfold record_text. case_bool_decide; [done|]. unfold push_history. cbn [history]. set_solver.
Qed.

End Commands.
