(* ===== verification/LocalFiles.v ===== *)
(** * LocalFiles: listing and opening the user's files (desktop commands/settings.rs)

    Both commands confine themselves to a few directories by comparing
    canonical paths component by component.  The file system is a parameter. *)

From Stdlib.Strings Require Import Ascii.
From S2P Require Import Prelude Error Json StrOps Privilege RatchetState Automation.

(** [Path::components] on Unix: the root, then the names between slashes, empty
    ones and single dots left out but for a dot at the start. *)
Definition components (p : string) : list string :=
  let pieces := splitn (S (String.length p)) "/"%char p in
  let names := List.filter (fun c => negb (eqb_dec c "") && negb (eqb_dec c ".")) in
  match pieces with
  | [] => []
  | first :: rest =>
      if starts_with "/" p then "/" :: names pieces
      else if eqb_dec first "." then "." :: names rest
      else names pieces
  end.

(** [Path::starts_with] *)
Fixpoint is_prefix (base p : list string) : bool :=
  match base, p with
  | [], _ => true
  | b :: base, c :: p => eqb_dec b c && is_prefix base p
  | _ :: _, [] => false
  end.
Definition path_starts_with (p base : string) : bool := is_prefix (components base) (components p).
Definition is_absolute (p : string) : bool := starts_with "/" p.

Record LocalFileItem := { item_name : string; item_path : string; item_is_dir : bool; item_size : Z }.

(** The file system: what resolves, which directories can be read and their
    entries (name and path), what is a directory, the sizes. *)
Record FileSystem := {
  canonicalize : string -> option string;
  path_exists : string -> bool;
  read_dir : string -> option (list (string * string));
  is_dir : string -> bool;
  file_len : string -> option Z
}.

Section Files.
Context (fs : FileSystem) (home_var : option string).

Definition home : string := default "/tmp" home_var.
Definition document_dirs : list string := [home +:+ "/Downloads"; home +:+ "/Documents"; home +:+ "/Desktop"].

Definition last_name (p : string) : string := match rsplit_once "/"%char p with Some (_, n) => n | None => p end.
Definition dir_items : list LocalFileItem :=
  map (fun d => {| item_name := last_name d; item_path := d; item_is_dir := true; item_size := 0 |}) (List.filter (path_exists fs) document_dirs).

(** The entry's canonical path is under the root's; a path that does not resolve is empty. *)
Definition confined (root path : string) : bool :=
  path_starts_with (default "" (canonicalize fs path)) (default "" (canonicalize fs root)).

Fixpoint list_entries (root : string) (listed : nat) (entries : list (string * string)) : list LocalFileItem :=
  match entries with
  | [] => []
  | (name, path) :: entries =>
      if (100 <=? listed)%nat then []
      else if negb (is_absolute path) then list_entries root listed entries
      else if negb (confined root path) then list_entries root listed entries
      else {| item_name := name; item_path := path; item_is_dir := is_dir fs path; item_size := default 0 (file_len fs path) |}
           :: list_entries root (S listed) entries
  end.

(** The first directory that can be read. *)
Fixpoint list_first (roots : list string) : list LocalFileItem :=
  match roots with
  | [] => []
  | root :: roots => match read_dir fs root with Some entries => list_entries root 0 entries | None => list_first roots end
  end.

Definition list_mock_files (granted_desktop granted_phone is_phone : bool) : result string (list LocalFileItem) :=
  let granted := if is_phone then granted_phone else granted_desktop in
  if negb granted then Err "Access denied — permission not granted."
  else if is_phone then Err "Remote phone file listing is not yet wired to the Android file provider"
  else Ok (dir_items ++ list_first document_dirs).

Definition contains (needle s : string) : bool := is_some (after_first (bstr needle) (bstr s)).

(** The path to open, or why not; the tokens; what the opener is started with. *)
Definition open_local_file (now : Z) (spawned : bool) (path token : string) (st : Tokens) : result string unit * Tokens * option string :=
  let '(ok, st) := consume_privilege_token now "open_local_file" token st in
  if negb ok then (Err "Privileged action requires a fresh confirmation token", st, None)
  else if contains ".." path || contains "~" path
  then (Err "Path traversal blocked: relative path components not permitted", st, None)
  else if starts_with "https://" path || starts_with "http://" path || starts_with "file://" path || starts_with "ftp://" path
  then (Err "URL schemes not permitted: use file paths only", st, None)
  else
    let resolved := if starts_with "/" path then path
                    else home +:+ "/" +:+ trim_start_matches (String.length path) "./" path in
    let allowed_dirs := document_dirs ++ [home +:+ "/kyberpipe"] in
    match canonicalize fs resolved with
    | None => (Err "Cannot resolve path: {}", st, None)
    | Some canonical =>
        if negb (existsb (fun d => match canonicalize fs d with Some a => path_starts_with canonical a | None => false end) allowed_dirs)
        then (Err "Access denied: path must be under Downloads, Documents, Desktop, or kyberpipe directory", st, None)
        else if spawned then (Ok tt, st, Some resolved) else (Err "Failed to open file: {e}", st, Some resolved)
    end.

(** ** Confinement *)

(** Under a directory: the directory's components, then more. *)
Definition under (dir p : string) : Prop := exists rest, components p = components dir ++ rest.

Lemma is_prefix_app base p : is_prefix base p = true <-> exists rest, p = base ++ rest.
Proof.
  revert p. induction base as [|b base IH]; intros p; cbn; [split; [by exists p|done]|].
  destruct p as [|c p]; [split; [done|by intros [rest [=]]]|]. rewrite andb_true_iff, IH. unfold eqb_dec. rewrite bool_decide_eq_true.
  split; [intros [-> [rest ->]]; by exists rest|intros [rest [= -> ->]]; split; [done|by exists rest]].
Qed.
Lemma path_starts_with_under p dir : path_starts_with p dir = true <-> under dir p.
Proof. apply is_prefix_app. Qed.

(** What the commands can name: a file that resolves under one of these
    directories, where they resolve. *)
Definition reaches (dirs : list string) (p : string) : Prop :=
  exists dir, dir ∈ dirs /\ under (default "" (canonicalize fs dir)) (default "" (canonicalize fs p)).

Lemma list_entries_ok root listed entries :
  Forall (fun i => is_absolute (item_path i) = true /\ confined root (item_path i) = true) (list_entries root listed entries)
  /\ (length (list_entries root listed entries) <= 100 - listed)%nat.
Proof.
  revert listed. induction entries as [|[name path] entries IH]; intros listed; cbn [list_entries]; [split; [done|cbn; lia]|].
  destruct (Nat.leb_spec 100 listed); [split; [done|cbn; lia]|]. destruct (is_absolute path) eqn:Ea; cbn [negb]; [|apply IH].
  destruct (confined root path) eqn:Ec; cbn [negb]; [|apply IH]. destruct (IH (S listed)) as [H1 H2]. split; [by constructor|cbn; lia].
Qed.
Lemma list_first_ok roots :
  Forall (fun i => reaches roots (item_path i)) (list_first roots) /\ (length (list_first roots) <= 100)%nat.
Proof.
  induction roots as [|root roots [IH1 IH2]]; cbn [list_first]; [split; [done|cbn; lia]|]. destruct (read_dir fs root) as [entries|].
  - destruct (list_entries_ok root 0 entries) as [H1 H2]. split; [|lia]. eapply Forall_impl; [exact H1|]. intros i [_ Hc].
    exists root. split; [by left|]. by apply path_starts_with_under.
  - split; [|done]. eapply Forall_impl; [exact IH1|]. intros i (dir & Hd & Hu). exists dir. split; [by right|done].
Qed.

(** A listing is of the desktop, after access was granted, has at most 103 items,
    and each is one of the three document directories or a path that resolves
    under one of them. *)
Theorem listing_confined granted_desktop granted_phone is_phone items :
  list_mock_files granted_desktop granted_phone is_phone = Ok items ->
  granted_desktop = true /\ is_phone = false /\ (length items <= 103)%nat
  /\ Forall (fun i => item_path i ∈ document_dirs \/ reaches document_dirs (item_path i)) items.
Proof.
  unfold list_mock_files. destruct is_phone, granted_desktop, granted_phone; cbn [negb]; try done; intros Hok;
    assert (items = dir_items ++ list_first document_dirs) as -> by congruence; destruct (list_first_ok document_dirs) as [H1 H2].
  all: assert (length dir_items <= 3)%nat by (unfold dir_items; rewrite length_map; etransitivity; [apply List.filter_length_le|done]).
  all: split_and!; [done|done|rewrite length_app; lia|]; apply Forall_app; split; [|eapply Forall_impl; [exact H1|by right]].
  all: apply Forall_forall; intros i Hi; left; unfold dir_items in Hi; apply list_elem_of_In, in_map_iff in Hi as (d & <- & Hd);
    apply filter_In in Hd as [Hd _]; by apply list_elem_of_In.
Qed.

(** A file is opened only after a confirmation in the last half minute, and only
    one that resolves under one of the four directories; its path has no
    parent component. *)
Theorem open_confined now spawned path token st opened :
  snd (open_local_file now spawned path token st) = Some opened ->
  (exists at_, ("open_local_file", token, at_) ∈ st /\ sat_sub now at_ < TOKEN_TTL)
  /\ contains ".." path = false /\ (opened = path /\ is_absolute path = true \/ exists rest, opened = home +:+ "/" +:+ rest)
  /\ exists dir canonical resolved_dir,
       dir ∈ document_dirs ++ [home +:+ "/kyberpipe"] /\ canonicalize fs opened = Some canonical
       /\ canonicalize fs dir = Some resolved_dir /\ under resolved_dir canonical.
Proof.
  unfold open_local_file, consume_privilege_token. destruct (take_token _ _ _) as [st'|] eqn:Et; cbn [negb]; [|done].
  apply take_token_some in Et as (_ & [n Hn] & _). apply list_elem_of_filter in Hn as [Hage Hin].
  destruct (contains ".." path || contains "~" path) eqn:Ec; [done|]. apply orb_false_iff in Ec as [Ec _].
  destruct (_ || _); [done|]. cbv zeta. set (resolved := if starts_with "/" path then _ else _).
  destruct (canonicalize fs resolved) as [canonical|] eqn:Ecan; [|done].
  destruct (existsb _ _) eqn:Ee; cbn [negb]; [|done]. intros Hr. assert (opened = resolved) as -> by (destruct spawned; by injection Hr).
  split; [by exists n|]. split; [done|]. split.
  { unfold resolved, is_absolute. destruct (starts_with "/" path); [by left|right; by eexists]. }
  apply existsb_exists in Ee as (dir & Hdir & Hd). destruct (canonicalize fs dir) as [a|] eqn:Ea; [|done].
  exists dir, canonical, a. split_and!; [by apply list_elem_of_In|done|done|by apply path_starts_with_under].
Qed.

End Files.

(** ** A home with one document and a link out of it *)

Definition sample_fs : FileSystem := {|
  canonicalize := fun p =>
    if decide (p = "/home/u/Downloads/out") then Some "/etc/passwd"
    else if decide (p ∈ ["/home/u/Downloads"; "/home/u/Downloads/a.txt"]) then Some p else None;
  path_exists := fun p => bool_decide (p = "/home/u/Downloads");
  read_dir := fun p => if decide (p = "/home/u/Downloads")
                       then Some [("a.txt", "/home/u/Downloads/a.txt"); ("out", "/home/u/Downloads/out")] else None;
  is_dir := fun p => bool_decide (p = "/home/u/Downloads");
  file_len := fun p => Some 7 |}.
Definition sample_listing : list LocalFileItem := [
  {| item_name := "Downloads"; item_path := "/home/u/Downloads"; item_is_dir := true; item_size := 0 |};
  {| item_name := "a.txt"; item_path := "/home/u/Downloads/a.txt"; item_is_dir := false; item_size := 7 |}].

Lemma sample_listed : list_mock_files sample_fs (Some "/home/u") true false false = Ok sample_listing.
Proof. vm_compute. reflexivity. Qed.
Lemma listing_confined_witness : (length sample_listing <= 103)%nat.
Proof. exact (proj1 (proj2 (proj2 (listing_confined sample_fs (Some "/home/u") true false false sample_listing sample_listed)))). Defined.

Definition open_token : Tokens := [("open_local_file", "t", 0)].
Lemma link_out_refused : snd (open_local_file sample_fs (Some "/home/u") 1 true "Downloads/out" "t" open_token) = None.
Proof. vm_compute. reflexivity. Qed.
Lemma open_confined_witness :
  contains ".." "./Downloads/a.txt" = false
  /\ snd (open_local_file sample_fs (Some "/home/u") 1 true "./Downloads/a.txt" "t" open_token) = Some "/home/u/Downloads/a.txt".
Proof.
  assert (snd (open_local_file sample_fs (Some "/home/u") 1 true "./Downloads/a.txt" "t" open_token) = Some "/home/u/Downloads/a.txt") as H
    by (vm_compute; reflexivity).
  split; [|exact H]. exact (proj1 (proj2 (open_confined sample_fs (Some "/home/u") 1 true "./Downloads/a.txt" "t" open_token _ H))).
Defined.
