(* ===== verification/Destruct.v ===== *)
(** * Destruct: deleting a connection and self-destruction
    (desktop commands/security.rs, commands/settings.rs; core-crypto/src/destruct.rs)

    What the two destructive commands erase, in memory and at rest, and what a
    desktop that was unpaired or destroyed can still do. *)

From S2P Require Import Prelude Error Primitives Kem Toy Json RatchetState Registry SessionHandle KemHandle CryptoApi RatchetStore.
From S2P Require Import PairingPolicy PairingState Pairing PairingScenario Privilege Automation Beacon Tls.

(** The process: the application state, the tokens, the cached server pin and
    the log.  The process-wide destruct generation is the one the session key
    registry of the application reads. *)
Record Desk := {
  app : AppState;
  desk_tokens : Tokens;
  server_pin : option (option string);
  desk_logs : list string
}.

(** Which deletions succeed. *)
Record WipeIo := { wipe_entries : string * string -> bool; wipe_files : string -> bool }.

Definition forget_device (a : AppState) : AppState :=
  a <| settings ::= fun s => s <| is_paired := false |> <| paired_device_name := None |> <| paired_device_picture := None |> |>.

(** The handle of the desktop's session key is taken and destroyed. *)
Definition destroy_desktop_handle (a : AppState) : AppState :=
  let handle := desktop_session_key_handle a in
  let a := a <| desktop_session_key_handle := 0 |> in
  if handle =? 0 then a else a <| session_keys ::= session_key_destroy handle |>.

Definition erase_store (io : WipeIo) (h : Host) : Host :=
  clear_ratchet_store (wipe_files io) (wipe_entries io (entry KEYRING_RATCHET_WATERMARK)) h.

(** The secrets of the process. *)
Definition zero_secrets (a : AppState) : AppState :=
  let a := a <| keypair := None |> <| session_key := "" |> in
  let a := a <| pairing ::= fun p => p <| pending_session_key := "" |> <| pending_shared_secret := "" |> <| sas_code := "" |>
                                       <| initiator_pk := "" |> <| initiator_x25519_pk := "" |> |> in
  let a := clear_pq_pairing_registry a in
  a <| kem_registry ::= fun k => destroy_all_kem_handles_impl (destroy_all_pq_keypair_handles_impl k) |>.

Definition forget_pairing (a : AppState) : AppState :=
  save_settings (stop_tor (clear_persisted_pairing_identity (forget_device a))).

(** The keyring, and the pin cached and stored. *)
Definition erase_keyring (io : WipeIo) (h : Host) : option (option string) * Host :=
  store_tofu_cert_hash (wipe_entries io PIN_ENTRY) ""
    (wipe_keyring_entries (wipe_entries io) (wipe_files io "device_mldsa_sk.bin") h).

Definition end_sessions (a : AppState) : AppState :=
  let a := destroy_desktop_handle a in
  let a := a <| session_keys ::= session_key_destroy_all |> <| is_session_key_authenticated := false |> in
  a <| ratchets ::= ratchet_clear_all_sessions_impl |>.

Definition trigger_panic_self_destruct (io : WipeIo) (now : Z) (token : string) (d : Desk) : result string string * Desk :=
  let '(ok, toks) := consume_privilege_token now "trigger_panic_self_destruct" token (desk_tokens d) in
  if negb ok
  then (Err "Privileged action requires a fresh confirmation token",
        {| app := app d; desk_tokens := toks; server_pin := server_pin d; desk_logs := desk_logs d |})
  else
    let a := forget_pairing (zero_secrets (app d)) in
    let '(pin, h) := erase_keyring io (host a) in
    let a := end_sessions (a <| host := h |>) in
    let a := a <| host ::= erase_store io |> in
    let a := a <| session_keys ::= increment_destruct_generation |> in
    let a := a <| connection ::= fun c => {| status := "SELF_DESTRUCTED_MEMORY_ZEROIZED"; method := method c; color := color c |} |> in
    (Ok "Hardware master key destroyed, all ratchet sessions cleared, and key material zeroized.",
     {| app := a; desk_tokens := toks; server_pin := pin;
        desk_logs := add_log "[PANIC DESTRUCTION] Memory zeroized & Hardware KeyStore invalidated!" (desk_logs d) |}).

Definition delete_connection (io : WipeIo) (now : Z) (token : string) (d : Desk) : result string unit * Desk :=
  let '(ok, toks) := consume_privilege_token now "delete_connection" token (desk_tokens d) in
  let desk a logs := {| app := a; desk_tokens := toks; server_pin := server_pin d; desk_logs := logs |} in
  if negb ok then (Err "Destructive action requires a fresh confirmation token", desk (app d) (desk_logs d))
  else
    let a := app d in
    let peer_id := initiator_pk (pairing a) in
    let a := if is_empty peer_id then a else a <| ratchets ::= fun r => snd (ratchet_remove_session_impl peer_id r) |> in
    let a := destroy_desktop_handle a in
    let a := stop_tor (a <| is_session_key_authenticated := false |>) in
    let a := a <| session_key := "" |> <| pairing ::= clear_all_pairing |> in
    let a := save_settings (clear_persisted_pairing_identity (forget_device a)) in
    let a := a <| host ::= erase_store io |> in
    (Ok tt, desk (set_connection "DISCONNECTED" "None" "red" a)
              (add_log "[Connection] Deleted — all pairing state cleared" (desk_logs d))).

(** ** What is erased at rest *)

Lemma delete_entries oks l h e :
  keyring (foldl (fun h e => delete_password (oks e) e h) h l) !! e
  = if decide (e ∈ l /\ oks e = true) then None else keyring h !! e.
Proof.
  revert h. induction l as [|x l IH]; intros h; cbn [foldl].
  - rewrite decide_False; [done|]. intros [H _]. by apply not_elem_of_nil in H.
  - rewrite IH. unfold delete_password. destruct (decide (e = x)) as [->|Hne].
    + destruct (oks x) eqn:E; [|by rewrite !decide_False by naive_solver].
      rewrite (decide_True (P := x ∈ x :: l /\ _)) by (split; [by left|done]). cbn. rewrite lookup_delete_eq. by case_decide.
    + assert (keyring (if oks x then h <| keyring ::= delete x |> else h) !! e = keyring h !! e) as ->.
      { destruct (oks x); [cbn; by rewrite lookup_delete_ne|done]. }
      apply decide_ext. rewrite elem_of_cons. naive_solver.
Qed.

Lemma delete_entries_files oks l h : files (foldl (fun h e => delete_password (oks e) e h) h l) = files h.
Proof. revert h. induction l as [|x l IH]; intros h; cbn; [done|]. rewrite IH. unfold delete_password. by destruct (oks x). Qed.

Lemma remove_file_other ok p q h : p <> q -> files (fs_remove ok p h) !! q = files h !! q.
Proof. intros H. unfold fs_remove. destruct ok; [cbn; by rewrite lookup_delete_ne|done]. Qed.
Lemma remove_file_keyring ok p h : keyring (fs_remove ok p h) = keyring h.
Proof. unfold fs_remove. by destruct ok. Qed.
Lemma delete_password_files ok e h : files (delete_password ok e h) = files h.
Proof. unfold delete_password. by destruct ok. Qed.
Lemma delete_password_lookup ok e e' h :
  keyring (delete_password ok e h) !! e' = if decide (e = e' /\ ok = true) then None else keyring h !! e'.
Proof.
  unfold delete_password. destruct ok; cbn; [|by rewrite decide_False by naive_solver].
  case_decide as H; [destruct H as [-> _]; apply lookup_delete_eq|]. apply lookup_delete_ne. naive_solver.
Qed.

(** Every entry whose deletion succeeds is gone, whatever the others do. *)
Lemma wipe_erases oks files_ok h e :
  e ∈ wiped_entries -> oks e = true -> keyring (wipe_keyring_entries oks files_ok h) !! e = None.
Proof.
  intros He Ho. unfold wipe_keyring_entries, clear_pairing_keypair_from_keyring, remove_legacy_beacon_key_files.
  rewrite delete_password_lookup, !remove_file_keyring, delete_entries, (decide_True (P := e ∈ _ /\ _)) by done. by case_decide.
Qed.
Lemma wipe_files_other oks files_ok h p :
  p <> "device_mldsa_sk.bin" -> p <> "device_mldsa_pk.bin" -> files (wipe_keyring_entries oks files_ok h) !! p = files h !! p.
Proof.
  intros H1 H2. unfold wipe_keyring_entries, clear_pairing_keypair_from_keyring, remove_legacy_beacon_key_files.
  by rewrite delete_password_files, !remove_file_other, delete_entries_files.
Qed.

Lemma erase_store_keyring io h e :
  keyring (erase_store io h) !! e
  = if decide (entry KEYRING_RATCHET_WATERMARK = e /\ wipe_entries io (entry KEYRING_RATCHET_WATERMARK) = true) then None
    else keyring h !! e.
Proof. unfold erase_store, clear_ratchet_store. rewrite delete_password_lookup. cbn [foldl]. by rewrite !remove_file_keyring. Qed.
Lemma erase_store_other io h p :
  p ∉ [store_path; watermark_path; store_tmp_path; store_bak_path] -> files (erase_store io h) !! p = files h !! p.
Proof.
  intros Hp. unfold erase_store, clear_ratchet_store. rewrite delete_password_files. cbn [foldl].
  rewrite !elem_of_cons in Hp. by rewrite !remove_file_other by naive_solver.
Qed.
Lemma erase_store_file io h p :
  p ∈ [store_path; watermark_path; store_tmp_path; store_bak_path] -> wipe_files io p = true -> files (erase_store io h) !! p = None.
Proof.
  intros Hp Ho. unfold erase_store, clear_ratchet_store. rewrite delete_password_files. cbn [foldl].
  rewrite !elem_of_cons in Hp.
  destruct Hp as [->|[->|[->|[->|Hp]]]]; [| | | |by apply not_elem_of_nil in Hp];
    rewrite ?remove_file_other by done; unfold fs_remove; rewrite Ho; cbn; apply lookup_delete_eq.
Qed.

(** ** Self-destruction *)

Lemma end_sessions_facts a :
  sessions (ratchets (end_sessions a)) = ∅ /\ keys (session_keys (end_sessions a)) = ∅
  /\ destruct_generation (session_keys (end_sessions a)) = destruct_generation (session_keys a)
  /\ is_session_key_authenticated (end_sessions a) = false
  /\ kem_registry (end_sessions a) = kem_registry a /\ pairing_keypair (end_sessions a) = pairing_keypair a
  /\ keypair (end_sessions a) = keypair a /\ session_key (end_sessions a) = session_key a /\ pairing (end_sessions a) = pairing a
  /\ saved_settings (end_sessions a) = saved_settings a /\ host (end_sessions a) = host a.
Proof. unfold end_sessions, destroy_desktop_handle. destruct (_ =? 0); split_and!; reflexivity. Qed.

Lemma forgotten_facts a :
  let a' := forget_pairing (zero_secrets a) in
  kem_secrets (kem_registry a') = ∅ /\ keypair_handles (kem_registry a') = ∅
  /\ destruct_generation (session_keys a') = destruct_generation (session_keys a) /\ pairing_keypair a' = None /\ keypair a' = None /\ session_key a' = ""
  /\ pending_session_key (pairing a') = "" /\ pending_shared_secret (pairing a') = "" /\ sas_code (pairing a') = ""
  /\ is_paired (saved_settings a') = false /\ set_identity (saved_settings a') = ("", "", "", ∅)
  /\ (forall cert, is_authorized_peer_cert cert (pairing a') = is_authorized_peer_cert cert (pairing a)) /\ host a' = host a.
Proof. split_and!; reflexivity. Qed.

Lemma erase_keyring_entry io h e :
  e ∈ wiped_entries -> wipe_entries io e = true -> keyring (snd (erase_keyring io h)) !! e = None.
Proof.
  intros He Ho. unfold erase_keyring, store_tofu_cert_hash. change (eqb_dec "" "") with true. cbn [snd].
  rewrite delete_password_lookup. case_decide; [done|]. by apply wipe_erases.
Qed.

Section SelfDestruct.
Context `{P : Primitives}.

(** A destruction counted: whatever is done with the handles afterwards, keys
    created included, no session key handle encrypts or decrypts again. *)
Lemma generation_bars r ops h nonce data ct :
  0 <= destruct_generation r -> destruct_generation r + 1 + len ops <= u64_max ->
  let r' := run_handles ops (increment_destruct_generation r) in
  session_key_encrypt h nonce data r' = (Err destroyed_error, r')
  /\ session_key_decrypt h nonce ct r' = (Err destroyed_error, r').
Proof.
  intros H0 H1 r'. assert (check_generation r' = false) as Hr.
  { apply run_handles_destroyed; cbn; unfold wrap64, u64_max, len in *; rewrite Z.mod_small; lia. }
  unfold session_key_encrypt, session_key_decrypt. munfold. by rewrite (destroyed_key h r' Hr).
Qed.

(** C16: a confirmed self-destruction leaves no key: the ratchet sessions, the
    session keys, the keypairs and secrets behind KEM handles and the pairing
    keypair in memory are gone, so are the pin and the pending secrets; at rest
    every keyring entry of its list and every snapshot file whose deletion
    succeeds is gone; and whatever is done with session key handles afterwards,
    new keys included, every encryption and decryption under a handle is
    refused (for as many operations as the 64-bit generation counter has room
    for).  The certificates that were authorized stay so. *)
Theorem self_destruct_erases io now token d msg d' :
  0 <= destruct_generation (session_keys (app d)) ->
  trigger_panic_self_destruct io now token d = (Ok msg, d') ->
  sessions (ratchets (app d')) = ∅ /\ keys (session_keys (app d')) = ∅
  /\ kem_secrets (kem_registry (app d')) = ∅ /\ keypair_handles (kem_registry (app d')) = ∅
  /\ pairing_keypair (app d') = None /\ keypair (app d') = None /\ session_key (app d') = ""
  /\ is_session_key_authenticated (app d') = false /\ server_pin d' = Some None
  /\ pending_session_key (pairing (app d')) = "" /\ pending_shared_secret (pairing (app d')) = "" /\ sas_code (pairing (app d')) = ""
  /\ (forall ops h nonce data ct, destruct_generation (session_keys (app d)) + 1 + len ops <= u64_max ->
        let r := run_handles ops (session_keys (app d')) in
        session_key_encrypt h nonce data r = (Err destroyed_error, r)
        /\ session_key_decrypt h nonce ct r = (Err destroyed_error, r))
  /\ is_paired (saved_settings (app d')) = false /\ set_identity (saved_settings (app d')) = ("", "", "", ∅)
  /\ (forall e, e ∈ wiped_entries -> wipe_entries io e = true -> keyring (host (app d')) !! e = None)
  /\ (forall p, p ∈ [store_path; watermark_path; store_tmp_path; store_bak_path] -> wipe_files io p = true ->
        files (host (app d')) !! p = None)
  /\ (forall cert, is_authorized_peer_cert cert (pairing (app d')) = is_authorized_peer_cert cert (pairing (app d))).
Proof.
  intros Hg. unfold trigger_panic_self_destruct. destruct (consume_privilege_token _ _ _ _) as [[] toks]; cbn [negb]; [|done].
  destruct (forgotten_facts (app d)) as (F1 & F12 & F13 & F2 & F3 & F4 & F5 & F6 & F7 & F8 & F9 & F10 & F11).
  set (a1 := forget_pairing (zero_secrets (app d))) in *. clearbody a1.
  pose proof (erase_keyring_entry io (host a1)) as Hk.
  assert (fst (erase_keyring io (host a1)) = Some None) as Hpin by reflexivity.
  destruct (erase_keyring io (host a1)) as [pin h]. cbn [fst snd] in *.
  destruct (end_sessions_facts (a1 <| host := h |>)) as (E1 & E2 & E11 & E3 & E4 & E5 & E6 & E7 & E8 & E9 & E10).
  set (a2 := end_sessions (a1 <| host := h |>)) in *. clearbody a2. intros [= _ <-].
  cbn [app server_pin].
  change (host (a1 <| host := h |>)) with h in E10. cbn in E4, E5, E6, E7, E8, E9, E11.
  assert (forall ops h nonce data ct, destruct_generation (session_keys (app d)) + 1 + len ops <= u64_max ->
    let r := run_handles ops (increment_destruct_generation (session_keys a2)) in
    session_key_encrypt h nonce data r = (Err destroyed_error, r)
    /\ session_key_decrypt h nonce ct r = (Err destroyed_error, r)) as Hbar.
  { intros ops hd nonce data ct Hr. apply generation_bars; rewrite E11, F13; done. }
  split_and!; cbn -[erase_store wiped_entries run_handles increment_destruct_generation];
    rewrite ?E4, ?E5, ?E6, ?E7, ?E8, ?E9, ?E10; try done.
  - intros e He Ho. rewrite erase_store_keyring. case_decide; [done|]. by apply Hk.
  - intros p Hp Ho. by apply erase_store_file.
Qed.

End SelfDestruct.

(** ** Pairing again *)

Section Again.
Context `{P : Primitives} `{X : Hex}.

(** A certificate on disk whose key is nowhere. *)
Lemma no_key_no_identity tio h c :
  files h !! CERT_FILE = Some c -> files h !! KEY_FILE = None -> keyring h !! TLS_KEYRING_ENTRY = None ->
  exists e, load_or_generate_cert tio h = (Err e, h).
Proof.
  intros Hc Hk Hr. unfold load_or_generate_cert. rewrite Hc. cbn [is_some]. unfold load_server_cert, fs_read.
  destruct (tio_read_cert tio); [rewrite Hc|by eexists].
  assert (keyring_server_key (tio_get tio) h = Err (NetworkError "Keyring read failed: {e}")) as ->.
  { unfold keyring_server_key, get_password. destruct (tio_get tio); [by rewrite Hr|done]. }
  assert ((if tio_read_key tio then files h !! KEY_FILE else None) = None) as -> by (destruct (tio_read_key tio); done).
  destruct (force_legacy tio); by eexists.
Qed.

(** C37: on a host whose server key is in the keyring only (a certificate file
    and no key file), an unpairing whose deletion of that entry succeeds removes
    the key and keeps the certificate, and a certificate without its key is
    never replaced: rebinding the server for the next device paired closes the
    endpoint and fails, whatever else succeeds. *)
Theorem unpaired_server_is_lost io a c tio local released allowed port ep :
  files (host a) !! CERT_FILE = Some c -> files (host a) !! KEY_FILE = None ->
  up_entries io TLS_KEYRING_ENTRY = true -> allowed <> [] ->
  let st := rebind_server tio local released allowed port (ep, host (unpair_primary io a)) in
  (exists e, fst st = Err e) /\ fst (snd st) = None.
Proof.
  intros Hc Hk Ho Ha.
  set (h := host (unpair_primary io a)).
  assert (h = erase_store {| wipe_entries := up_entries io; wipe_files := up_files io |}
                (delete_password (up_entries io ("kyberpipe-tofu", "server_cert_hash")) ("kyberpipe-tofu", "server_cert_hash")
                  (wipe_keyring_entries (up_entries io) (up_files io "device_mldsa_sk.bin") (host a)))) as Hh.
  { unfold h, unpair_primary. by destruct (_ =? 0). }
  assert (exists e, forall t, load_or_generate_cert t h = (Err (e t), h)) as [e He].
  { assert (forall t, exists e, load_or_generate_cert t h = (Err e, h)) as Hl; [|].
    { intros t. apply (no_key_no_identity t h c).
      - rewrite Hh, erase_store_other by (by apply (bool_decide_unpack _)).
        rewrite delete_password_files, wipe_files_other by done. done.
      - rewrite Hh, erase_store_other by (by apply (bool_decide_unpack _)).
        rewrite delete_password_files, wipe_files_other by done. done.
      - rewrite Hh, erase_store_keyring. rewrite decide_False by (by intros []).
        rewrite delete_password_lookup, decide_False by (by intros []).
        apply wipe_erases; [by apply (bool_decide_unpack _)|done]. }
    exists (fun t => match fst (load_or_generate_cert t h) with Err e => e | _ => NetworkError "" end).
    intros t. destruct (Hl t) as [e ->]. done. }
  clearbody h. unfold rebind_server. rewrite bool_decide_eq_false_2 by done. cbn [fst snd].
  destruct (is_some ep && negb released); [cbn; split; [by eexists|done]|].
  unfold bind_server. rewrite He. cbn. split; [by eexists|done].
Qed.

End Again.

(** ** A paired desktop *)

Module Wipe.
Import Toy ToyJson.

Definition all_erased : WipeIo := {| wipe_entries := fun _ => true; wipe_files := fun _ => true |}.
Definition confirmed_desk : Desk := {|
  app := paired_desk; desk_tokens := [("trigger_panic_self_destruct", "t", 0)]; server_pin := Some (Some "pin"); desk_logs := [] |}.
Definition after : Desk := snd (trigger_panic_self_destruct all_erased (secs 1) "t" confirmed_desk).
Lemma destroyed :
  trigger_panic_self_destruct all_erased (secs 1) "t" confirmed_desk
  = (Ok "Hardware master key destroyed, all ratchet sessions cleared, and key material zeroized.", after).
Proof. apply run_ok. reflexivity. Qed.

Lemma self_destruct_erases_witness :
  sessions (ratchets (app after)) = ∅ /\ keypair_handles (kem_registry (app after)) = ∅
  /\ let r := run_handles [Create (repeat x01 32)] (session_keys (app after)) in
     session_key_encrypt 1 [] [] r = (Err destroyed_error, r).
Proof.
  pose proof (self_destruct_erases all_erased (secs 1) "t" confirmed_desk _ after ltac:(vm_compute; discriminate) destroyed)
    as (H1 & _ & _ & H2 & _ & _ & _ & _ & _ & _ & _ & _ & H3 & _).
  split; [done|]. split; [done|].
  apply (H3 [Create (repeat x01 32)] 1 [] [] []). by vm_compute.
Defined.

Definition served_desk : AppState :=
  paired_desk <| host ::= fun h => h <| files ::= <[CERT_FILE := "cert"]> |> <| keyring ::= <[TLS_KEYRING_ENTRY := hex_encode (bstr "key")]> |> |>.

Lemma unpaired_server_is_lost_witness :
  fst (snd (rebind_server Start.binds true true ["aa"] 9876 (Some Start.open_endpoint, host (unpair_primary all_removed served_desk)))) = None.
Proof.
  refine (proj2 (unpaired_server_is_lost all_removed served_desk "cert" Start.binds true true ["aa"] 9876
    (Some Start.open_endpoint) _ _ _ _)); [reflexivity|vm_compute; reflexivity|reflexivity|discriminate].
Defined.

End Wipe.
