(* ===== verification/Tor.v ===== *)
(** * Tor: the onion service of the desktop (desktop commands/network/tor.rs, state/mod.rs)

    A daemon is started, told over its control port to publish a service for
    authorized clients, and kept as the application's child.  The daemon is a
    parameter: what it sends after the commands it has been given.  The temporary
    directory and the daemon's configuration are its own business. *)

From Stdlib.Strings Require Import Ascii.
From S2P Require Import Prelude Error Primitives Toy Json RatchetState Registry RatchetStore Utils StrOps Privilege Automation.

(** ** The encoding of the credentials

    [base32_encode] keeps the bits it has read in a 32-bit word that older bits
    fall out of; the reference reads the input as one number. *)

Definition ALPHABET : string := "abcdefghijklmnopqrstuvwxyz234567".
Definition alphabet (idx : Z) : ascii := default "a"%char (String.get (Z.to_nat idx) ALPHABET).

(** The word, the bits of it not yet written, the text written. *)
Record Encoder := { buffer : Z; bits : Z; out : list ascii }.

(** [while bits >= 5] *)
Fixpoint emit (fuel : nat) (e : Encoder) : Encoder :=
  match fuel with
  | O => e
  | S fuel =>
      if bits e <? 5 then e
      else
        let idx := Z.land (Z.shiftr (buffer e) (bits e - 5)) 0x1f in
        emit fuel {| buffer := buffer e; bits := bits e - 5; out := out e ++ [alphabet idx] |}
  end.

Definition push_byte (e : Encoder) (b : byte) : Encoder :=
  let e := {| buffer := Z.lor (wrap32 (Z.shiftl (buffer e) 8)) (Z_of_byte b); bits := bits e + 8; out := out e |} in
  emit 3 e.

Definition base32_encode (input : bytes) : list ascii :=
  let e := fold_left push_byte input {| buffer := 0; bits := 0; out := [] |} in
  if 0 <? bits e then out e ++ [alphabet (Z.land (wrap32 (Z.shiftl (buffer e) (5 - bits e))) 0x1f)] else out e.

Example rfc4648_foobar : base32_encode (bstr "foobar") = String.list_ascii_of_string "mzxw6ytboi".
Proof. vm_compute. reflexivity. Qed.

(** ** The reference *)

(** The [k] digits of five bits of a number of [5k] bits, the first one first. *)
Definition digits (n : Z) (k : nat) : list ascii :=
  map (fun i => alphabet (n / 2 ^ (5 * (Z.of_nat k - 1 - Z.of_nat i)) mod 32)) (seq 0 k).

(** The input as a number, zero bits added at the end to make groups of five. *)
Definition groups (input : bytes) : nat := Z.to_nat ((8 * len input + 4) / 5).
Definition base32_reference (input : bytes) : list ascii :=
  digits (be_Z input * 2 ^ (5 * Z.of_nat (groups input) - 8 * len input)) (groups input).

(** ** The loop *)

(** After [b] bits of value [n]. *)
Record encoded (n b : Z) (e : Encoder) : Prop := {
  enc_range : 0 <= n < 2 ^ b;
  enc_buffer : buffer e = n mod 2 ^ 32;
  enc_bits : bits e = b - 5 * len (out e);
  enc_pos : 0 <= bits e <= 12;
  enc_out : out e = digits (n / 2 ^ bits e) (length (out e))
}.

Lemma digits_snoc n k d : 0 <= d < 32 -> digits (n * 32 + d) (S k) = digits n k ++ [alphabet d].
Proof.
  intros Hd. unfold digits. rewrite seq_S, map_app. cbn [map Nat.add]. f_equal.
  - apply map_ext_in. intros i Hi. apply in_seq in Hi. f_equal. f_equal.
    replace (5 * (Z.of_nat (S k) - 1 - Z.of_nat i)) with (5 + 5 * (Z.of_nat k - 1 - Z.of_nat i)) by lia.
    rewrite Z.pow_add_r, <- Z.div_div by (try apply Z.pow_nonzero; lia). f_equal.
    change (2 ^ 5) with 32. rewrite Z.div_add_l, (Z.div_small d) by lia. lia.
  - do 2 f_equal. replace (5 * (Z.of_nat (S k) - 1 - Z.of_nat k)) with 0 by lia. rewrite Z.pow_0_r, Z.div_1_r.
    rewrite Z.add_comm, Z.mod_add, Z.mod_small by lia. done.
Qed.

(** Five bits at offset [s] of the word are those of the number. *)
Lemma word_bits n s : 0 <= s <= 27 -> Z.land (Z.shiftr (n mod 2 ^ 32) s) 0x1f = n / 2 ^ s mod 32.
Proof.
  intros Hs. change 0x1f with (Z.ones 5). rewrite Z.land_ones, Z.shiftr_div_pow2 by lia.
  transitivity (n / 2 ^ s mod 2 ^ 5); [|done].
  apply Z.bits_inj'. intros i Hi. destruct (Z.lt_ge_cases i 5).
  - rewrite !Z.mod_pow2_bits_low, !Z.div_pow2_bits, Z.mod_pow2_bits_low by lia. done.
  - rewrite !Z.mod_pow2_bits_high by lia. done.
Qed.

(** The bits left over, zero bits after them. *)
Lemma padded_bits n s : 0 <= s < 5 -> Z.land (wrap32 (Z.shiftl (n mod 2 ^ 32) s)) 0x1f = n * 2 ^ s mod 32.
Proof.
  intros Hs. unfold wrap32. change 0x1f with (Z.ones 5). rewrite Z.land_ones by lia.
  transitivity ((n * 2 ^ s) mod 2 ^ 5); [|done]. rewrite <- Z.shiftl_mul_pow2 by lia.
  apply Z.bits_inj'. intros i Hi. destruct (Z.lt_ge_cases i 5).
  - rewrite !Z.mod_pow2_bits_low, !Z.shiftl_spec by lia. destruct (Z.lt_ge_cases i s).
    + rewrite !Z.testbit_neg_r by lia. done.
    + rewrite Z.mod_pow2_bits_low by lia. done.
  - rewrite !Z.mod_pow2_bits_high by lia. done.
Qed.

(** One more byte in the word. *)
Lemma word_push n b : 0 <= n ->
  Z.lor (wrap32 (Z.shiftl (n mod 2 ^ 32) 8)) (Z_of_byte b) = (n * 256 + Z_of_byte b) mod 2 ^ 32.
Proof.
  intros Hn. pose proof (Z_of_byte_range b) as Hb. unfold wrap32. rewrite <- lor_byte by done.
  change 256 with (2 ^ 8). rewrite <- Z.shiftl_mul_pow2 by lia.
  apply Z.bits_inj'. intros i Hi. rewrite Z.lor_spec. destruct (Z.lt_ge_cases i 32).
  - rewrite !Z.mod_pow2_bits_low, Z.lor_spec, !Z.shiftl_spec by lia. destruct (Z.lt_ge_cases i 8).
    + by rewrite !(Z.testbit_neg_r _ (i - 8)) by lia.
    + by rewrite Z.mod_pow2_bits_low by lia.
  - rewrite !Z.mod_pow2_bits_high by lia. rewrite <- (Z.mod_small (Z_of_byte b) (2 ^ 8)) by lia.
    apply Z.mod_pow2_bits_high. lia.
Qed.

Lemma digit_split n s : 0 <= s -> n / 2 ^ s = n / 2 ^ (s + 5) * 32 + n / 2 ^ s mod 32.
Proof.
  intros Hs. rewrite Z.pow_add_r, <- Z.div_div by (try apply Z.pow_nonzero; lia). change (2 ^ 5) with 32.
  rewrite (Z.div_mod (n / 2 ^ s) 32) at 1 by lia. lia.
Qed.

Lemma emit_encoded fuel n b e : encoded n b e -> bits e < 5 * Z.of_nat fuel + 5 ->
  encoded n b (emit fuel e) /\ bits (emit fuel e) < 5.
Proof.
  revert e. induction fuel as [|fuel IH]; intros e He Hf; cbn [emit]; [split; [done|lia]|].
  destruct (Z.ltb_spec (bits e) 5); [done|]. destruct He as [Hn Hw Hb Hp Ho]. apply IH; cbn [bits]; [|lia].
  constructor; cbn [buffer bits out]; [done|done| |lia|].
  - unfold len in *. rewrite length_app. cbn [length]. lia.
  - rewrite length_app. cbn [length]. rewrite Nat.add_1_r, (digit_split n (bits e - 5)) by lia.
    rewrite digits_snoc by (apply Z.mod_pos_bound; lia). replace (bits e - 5 + 5) with (bits e) by lia.
    rewrite <- Ho, Hw, word_bits by lia. done.
Qed.

Lemma push_encoded n b e x : encoded n b e -> bits e < 5 ->
  encoded (n * 256 + Z_of_byte x) (b + 8) (push_byte e x) /\ bits (push_byte e x) < 5.
Proof.
  intros [Hn Hw Hb Hp Ho] H5. pose proof (Z_of_byte_range x) as Hx. apply emit_encoded; cbn [bits]; [|lia].
  constructor; cbn [buffer bits out]; [| |lia|lia|].
  - assert (0 <= b) by (unfold len in Hb; lia). rewrite Z.pow_add_r by lia. change (2 ^ 8) with 256. lia.
  - rewrite Hw. apply word_push. lia.
  - rewrite Ho at 1. f_equal. rewrite (Z.add_comm (bits e)), Z.pow_add_r, <- Z.div_div by (try apply Z.pow_nonzero; lia).
    change (2 ^ 8) with 256. rewrite Z.div_add_l, (Z.div_small (Z_of_byte x)) by lia. f_equal. lia.
Qed.

Lemma be_Z_snoc bs x : be_Z (bs ++ [x]) = be_Z bs * 256 + Z_of_byte x.
Proof. rewrite be_Z_app. f_equal. unfold be_Z. cbn [length]. lia. Qed.

Lemma fold_encoded input :
  let e := fold_left push_byte input {| buffer := 0; bits := 0; out := [] |} in
  encoded (be_Z input) (8 * len input) e /\ bits e < 5.
Proof.
  induction input as [|x input IH] using rev_ind; [split; [constructor; cbn; lia || done | done]|].
  cbn zeta in *. destruct IH as [He H5]. rewrite fold_left_app, be_Z_snoc. cbn [fold_left].
  replace (8 * len (input ++ [x])) with (8 * len input + 8) by (unfold len; rewrite length_app; cbn [length]; lia).
  by apply push_encoded.
Qed.

(** The encoder writes the base 32 digits of its input, padded with zero bits
    to a whole number of digits. *)
Theorem base32_is_positional input : base32_encode input = base32_reference input.
Proof.
  unfold base32_encode, base32_reference, groups. destruct (fold_encoded input) as [[Hn Hw Hb Hp Ho] H5]. cbn zeta in *.
  set (e := fold_left _ _ _) in *. clearbody e. set (n := be_Z input) in *. clearbody n.
  set (k := length (out e)) in *. assert (Hk : 8 * len input = 5 * Z.of_nat k + bits e) by (unfold len in *; lia).
  destruct (Z.ltb_spec 0 (bits e)) as [H0|H0].
  - replace (Z.to_nat ((8 * len input + 4) / 5)) with (S k).
    2:{ rewrite Hk. replace (5 * Z.of_nat k + bits e + 4) with ((bits e - 1) + (Z.of_nat k + 1) * 5) by lia.
        rewrite Z.div_add, Z.div_small by lia. lia. }
    replace (5 * Z.of_nat (S k) - 8 * len input) with (5 - bits e) by lia.
    pose proof (digit_split (n * 2 ^ (5 - bits e)) 0 ltac:(lia)) as Hd. rewrite Z.pow_0_r, Z.div_1_r, Z.add_0_l in Hd.
    rewrite Hw, padded_bits, Hd, digits_snoc, Ho, <- Hd by (try apply Z.mod_pos_bound; lia). do 2 f_equal.
    replace (2 ^ 5) with (2 ^ (5 - bits e) * 2 ^ bits e) by (rewrite <- Z.pow_add_r by lia; f_equal; lia).
    rewrite <- Z.div_div, Z.div_mul by (try apply Z.pow_nonzero; lia). done.
  - assert (bits e = 0) as Hz by lia.
    replace (Z.to_nat ((8 * len input + 4) / 5)) with k.
    2:{ rewrite Hk, Hz. replace (5 * Z.of_nat k + 0 + 4) with (4 + Z.of_nat k * 5) by lia.
        rewrite Z.div_add, Z.div_small by lia. lia. }
    replace (5 * Z.of_nat k - 8 * len input) with 0 by lia. rewrite Z.pow_0_r, Z.mul_1_r, Ho, Hz, Z.pow_0_r, Z.div_1_r. done.
Qed.

(** ** The service *)

Definition TOR_ONION_KEY_KEYRING : string * string := ("kyberpipe", "tor_onion_key").
Definition TOR_ONION_AUTH_KEY_KEYRING : string * string := ("kyberpipe", "tor_onion_client_auth").

Record TorOnionInfo := { onion_address : bytes; auth_key : list Ascii.ascii }.

(** The processes, the child the application keeps, the host, tokens and log. *)
Record TorDesk := {
  tor_child : option nat;
  running_tors : gset nat;
  tors_started : nat;
  tor_host : Host;
  tor_tokens : Tokens;
  tor_logs : list string
}.
Definition eta_tor_desk (d : TorDesk) : TorDesk := {|
  tor_child := tor_child d; running_tors := running_tors d; tors_started := tors_started d; tor_host := tor_host d;
  tor_tokens := tor_tokens d; tor_logs := tor_logs d |}.
#[export] Instance upd_tor_child : Update tor_child. Proof. solve_update eta_tor_desk tor_child. Defined.
#[export] Instance upd_running_tors : Update running_tors. Proof. solve_update eta_tor_desk running_tors. Defined.
#[export] Instance upd_tors_started : Update tors_started. Proof. solve_update eta_tor_desk tors_started. Defined.
#[export] Instance upd_tor_host : Update tor_host. Proof. solve_update eta_tor_desk tor_host. Defined.
#[export] Instance upd_tor_tokens : Update tor_tokens. Proof. solve_update eta_tor_desk tor_tokens. Defined.
#[export] Instance upd_tor_logs : Update tor_logs. Proof. solve_update eta_tor_desk tor_logs. Defined.

(** [Child::kill] *)
Definition kill (pid : nat) (d : TorDesk) : TorDesk := d <| running_tors ::= fun s => s ∖ {[pid]} |>.

(** The child taken and killed. *)
Definition stop_child (msg : string) (d : TorDesk) : TorDesk :=
  match tor_child d with
  | Some pid => kill pid (d <| tor_child := None |>) <| tor_logs ::= add_log msg |>
  | None => d
  end.
Definition stop_tor : TorDesk -> TorDesk := stop_child "[Tor] Stopped tor daemon (audit F16)".

(** ** Replies of the control port *)

(** [str::lines] *)
Fixpoint split_lines (t : bytes) : list bytes :=
  match t with
  | [] => []
  | b :: t =>
      if decide (b = x0a) then [] :: split_lines t
      else match split_lines t with [] => [[b]] | l :: ls => (b :: l) :: ls end
  end.
Fixpoint drop_crs (r : bytes) : bytes :=
  match r with x0d :: r => drop_crs r | r => r end.
(** Without the carriage returns at the end of each line. *)
Definition lines (t : bytes) : list bytes := map (fun l => rev (drop_crs (rev l))) (split_lines t).

Definition strip_prefix_bytes (p t : bytes) : option bytes :=
  if decide (take (length p) t = p) then Some (drop (length p) t) else None.
Definition contains_bytes (p t : bytes) : bool := is_some (after_first p t).

Definition is_ascii_digit (b : byte) : bool := (48 <=? Z_of_byte b) && (Z_of_byte b <=? 57).
Definition final_line (line : bytes) : bool :=
  match line with b0 :: b1 :: b2 :: b3 :: _ => forallb is_ascii_digit [b0; b1; b2] && bool_decide (b3 = x20) | _ => false end.

Definition lossy (t : bytes) : bytes := from_utf8_lossy (length t) t.

(** The reads, in order, until a final line has come; an empty read and a failed
    one, the end of the list, end the loop. *)
Fixpoint read_loop (acc : bytes) (reads : list bytes) : bytes * list bytes :=
  match reads with
  | [] => (acc, [])
  | [] :: reads => (acc, reads)
  | chunk :: reads =>
      let acc := acc ++ chunk in
      if existsb final_line (lines (lossy acc)) then (acc, reads) else read_loop acc reads
  end.
Definition read_control_reply (reads : list bytes) : bytes * list bytes :=
  let '(acc, reads) := read_loop [] reads in (lossy acc, reads).

(** [split] at a comma or a white-space character. *)
Fixpoint split_names (fuel : nat) (cur t : bytes) : list bytes :=
  match fuel with
  | O => [rev cur]
  | S fuel =>
      match strip_start ([x2c] :: white_space) t with
      | Some t => rev cur :: split_names fuel [] t
      | None => match t with [] => [rev cur] | b :: t => split_names fuel (b :: cur) t end
      end
  end.

Definition lists_onion (address getinfo : bytes) : bool :=
  existsb (fun line =>
    match strip_prefix_bytes (bstr "250-onions/current=") line with
    | Some v => existsb (fun name => bool_decide (name = address)) (split_names (S (length v)) [] v)
    | None => false
    end) (lines getinfo).

(** One line of the reply to ADD_ONION: the address, and a new key to keep. *)
Definition onion_line (new_key set_ok : bool) (st : bytes * Host) (line : bytes) : bytes * Host :=
  let '(address, h) := st in
  let address :=
    match strip_prefix_bytes (bstr "250-ServiceID=") line with
    | Some id => let id := trim id in if bool_decide (id = []) then address else id ++ bstr ".onion"
    | None => address
    end in
  let h :=
    if new_key then
      match strip_prefix_bytes (bstr "250-PrivateKey:ED25519-V3:") line with
      | Some key => let key := trim key in
          if bool_decide (key = []) then h else set_password set_ok TOR_ONION_KEY_KEYRING (String.string_of_list_byte key) h
      | None => h
      end
    else h in
  (address, h).

(** ** Creating the service *)

(** What the environment supplies to one call. *)
Record TorIo := {
  ti_now : Z;
  ti_token : string;
  ti_binary : option string;
  ti_get_auth : bool;
  ti_get_key : bool;
  ti_set_key : bool;
  ti_set_auth : bool;
  ti_generated : bytes * bytes;     (** generate_client_auth_keypair *)
  ti_cookie : bytes;
  ti_spawned : bool;
  ti_connected : bool;
  ti_daemon : list string -> list bytes
}.

Section Create.
Context `{X : Hex}.

(** [priv_hex:pub_hex], both of 32 bytes. *)
Definition parse_auth (stored : string) : option (bytes * bytes) :=
  '(priv_hex, pub_hex) ← split_once ":"%char stored;
  priv_bytes ← hex_decode priv_hex;
  pub_bytes ← hex_decode pub_hex;
  if (len priv_bytes =? 32) && (len pub_bytes =? 32) then Some (priv_bytes, pub_bytes) else None.

Definition client_auth (io : TorIo) (h : Host) : bytes * bytes :=
  default (ti_generated io) (get_password (ti_get_auth io) TOR_ONION_AUTH_KEY_KEYRING h ≫= parse_auth).

Definition crlf : string := String.string_of_list_byte [x0d; x0a].
Definition base32_text (b : bytes) : string := String.string_of_list_ascii (base32_encode b).
Definition auth_cmd (cookie : bytes) : string := "AUTHENTICATE " +:+ hex_encode cookie +:+ crlf.
Definition add_onion_cmd (stored_key : option string) (client_pub : bytes) : string :=
  "ADD_ONION " +:+ match stored_key with Some k => "ED25519-V3:" +:+ k | None => "NEW:ED25519-V3" end
  +:+ " Port=9876,127.0.0.1:9876 ClientAuth=" +:+ base32_text client_pub +:+ crlf.
Definition getinfo_cmd : string := "GETINFO onions/current" +:+ crlf.

(** The conversation: the address, or an error; the commands sent. *)
Definition control_session (io : TorIo) (client_pub : bytes) (h : Host) : result string bytes * list string * Host :=
  let cmds := [auth_cmd (ti_cookie io)] in
  let '(auth_reply, reads) := read_control_reply (ti_daemon io cmds) in
  if negb (contains_bytes (bstr "250 OK") auth_reply) then (Err "Tor control-port authentication failed: {}", cmds, h)
  else
    let stored_key := match get_password (ti_get_key io) TOR_ONION_KEY_KEYRING h with
                      | Some k => if eqb_dec k "" then None else Some k | None => None end in
    let cmds := cmds ++ [add_onion_cmd stored_key client_pub] in
    let '(response, reads) := read_control_reply (reads ++ ti_daemon io cmds) in
    let '(address, h) := foldl (onion_line (negb (is_some stored_key)) (ti_set_key io)) ([], h) (lines response) in
    if bool_decide (address = []) then (Err "Tor rejected the ADD_ONION request — no ServiceID in reply: {}", cmds, h)
    else
      let cmds := cmds ++ [getinfo_cmd] in
      let '(getinfo, _) := read_control_reply (reads ++ ti_daemon io cmds) in
      if negb (lists_onion address getinfo)
      then (Err "Tor onion service was not published — GETINFO onions/current does not list {}: {}", cmds, h)
      else (Ok address, cmds, h).

Definition create_tor_onion (io : TorIo) (d : TorDesk) : result string TorOnionInfo * list string * TorDesk :=
  let '(gate, toks) := gate_tier2 (ti_now io) "create_tor_onion" (ti_token io) (tor_tokens d) in
  let d := d <| tor_tokens := toks |> in
  match gate with
  | Ok _ =>
      let d := stop_child "[Tor] Stopped previous tor daemon before re-creating onion (audit F16)" d in
      let '(client_priv, client_pub) := client_auth io (tor_host d) in
      match ti_binary io with
      | None => (Err "tor not found in standard locations (/usr/bin/tor, /bin/tor, /usr/local/bin/tor). Install Tor to use onion services.", [], d)
      | Some _ =>
          if negb (ti_spawned io) then (Err "Failed to spawn tor: {e}", [], d)
          else
            let pid := tors_started d in
            let d := d <| running_tors ::= union {[pid]} |> <| tors_started ::= S |> in
            if negb (ti_connected io) then (Err "Failed to connect to the tor control port: {e}", [], kill pid d)
            else
              let '(r, cmds, h) := control_session io client_pub (tor_host d) in
              let d := d <| tor_host := h |> in
              match r with
              | Ok address =>
                  let d := d <| tor_child := Some pid |> in
                  let d := d <| tor_host ::= set_password (ti_set_auth io) TOR_ONION_AUTH_KEY_KEYRING
                                  (hex_encode client_priv +:+ ":" +:+ hex_encode client_pub) |> in
                  (Ok {| onion_address := address; auth_key := base32_encode client_priv |}, cmds, d)
              | Err e => (Err e, cmds, kill pid d)
              | Panic p => (Panic p, cmds, d)
              end
      end
  | Err e => (Err e, [], d)
  | Panic p => (Panic p, [], d)
  end.

End Create.

(** ** One daemon *)

Inductive TorOp := Create (io : TorIo) | Stop.
Definition exec_tor `{X : Hex} (d : TorDesk) (op : TorOp) : TorDesk :=
  match op with Create io => snd (create_tor_onion io d) | Stop => stop_tor d end.

Definition one_daemon (d : TorDesk) : Prop :=
  running_tors d = match tor_child d with Some pid => {[pid]} | None => ∅ end.

Lemma stop_one msg d : one_daemon d -> tor_child (stop_child msg d) = None /\ running_tors (stop_child msg d) = ∅.
Proof.
  unfold one_daemon, stop_child. destruct (tor_child d) as [pid|] eqn:E; [|done]. cbn. intros ->. split; [done|]. set_solver.
Qed.

Section Facts.
Context `{X : Hex}.

Lemma session_no_panic io pub h p : fst (fst (control_session io pub h)) <> Panic p.
Proof.
  unfold control_session. destruct (read_control_reply _) as [auth reads]. destruct (negb _); [done|].
  destruct (read_control_reply _) as [resp reads']. destruct (foldl _ _ _) as [addr h']. case_bool_decide; [done|].
  destruct (read_control_reply _) as [info ?]. by destruct (negb _).
Qed.

Lemma create_one io d : one_daemon d -> one_daemon (snd (create_tor_onion io d)).
Proof.
  intros H. unfold create_tor_onion. destruct (gate_tier2 _ _ _ _) as [g toks]. set (d0 := d <| tor_tokens := toks |>).
  assert (one_daemon d0) as H0 by exact H. clearbody d0. destruct g; [|done|done].
  set (msg := "[Tor] Stopped previous tor daemon before re-creating onion (audit F16)").
  destruct (stop_one msg d0 H0) as [Hc Hr]. set (d1 := stop_child msg d0) in *. clearbody d1.
  assert (one_daemon d1) as H1 by (unfold one_daemon; by rewrite Hc, Hr).
  destruct (client_auth io (tor_host d1)) as [priv pub]. destruct (ti_binary io); [|done]. destruct (negb (ti_spawned io)); [done|].
  destruct (negb (ti_connected io)); [unfold one_daemon; cbn; rewrite Hc, Hr; set_solver|].
  pose proof (session_no_panic io pub (tor_host (d1 <| running_tors ::= union {[tors_started d1]} |> <| tors_started ::= S |>))) as Hp.
  destruct (control_session _ _ _) as [[r cmds] h]. destruct r as [addr|e|p]; [| |by destruct (Hp p)]; unfold one_daemon; cbn.
  - rewrite Hr. set_solver.
  - rewrite Hc, Hr. set_solver.
Qed.

(** Whatever fails, in any run of creations and stops: a daemon that was started
    and is running is the one the application keeps, so at most one runs and the
    next stop ends it. *)
Theorem one_tor_daemon ops h toks :
  let d := foldl exec_tor {| tor_child := None; running_tors := ∅; tors_started := 0; tor_host := h; tor_tokens := toks; tor_logs := [] |} ops in
  one_daemon d /\ running_tors (stop_tor d) = ∅.
Proof.
  cbn zeta. set (d0 := {| tor_child := None |}). assert (one_daemon d0) as H by done. clearbody d0.
  assert (one_daemon (foldl exec_tor d0 ops)) as H'.
  { revert d0 H. induction ops as [|[io|] ops IH]; intros d H; cbn; [done| |]; apply IH; [by apply create_one|].
    unfold one_daemon, stop_tor. by destruct (stop_one "[Tor] Stopped tor daemon (audit F16)" d H) as [-> ->]. }
  split; [done|]. by apply stop_one.
Qed.

End Facts.

(** ** A success *)

Section Outcome.
Context `{X : Hex}.

Definition auth_text (client : bytes * bytes) : string := hex_encode (fst client) +:+ ":" +:+ hex_encode (snd client).

Lemma stop_child_host msg d : tor_host (stop_child msg d) = tor_host d.
Proof. unfold stop_child. by destruct (tor_child d). Qed.

(** A success, in full. *)
Lemma create_ok io d info cmds d' :
  create_tor_onion io d = (Ok info, cmds, d') ->
  let client := client_auth io (tor_host d) in
  exists h, control_session io (snd client) (tor_host d) = (Ok (onion_address info), cmds, h)
  /\ auth_key info = base32_encode (fst client)
  /\ tor_host d' = set_password (ti_set_auth io) TOR_ONION_AUTH_KEY_KEYRING (auth_text client) h
  /\ fst (gate_tier2 (ti_now io) "create_tor_onion" (ti_token io) (tor_tokens d)) = Ok tt
  /\ (exists pid, tor_child d' = Some pid /\ pid ∈ running_tors d').
Proof.
  unfold create_tor_onion. destruct (gate_tier2 _ _ _ _) as [[[]|e|p] toks]; cbn [fst]; [|done|done].
  set (msg := "[Tor] Stopped previous tor daemon before re-creating onion (audit F16)").
  pose proof (stop_child_host msg (d <| tor_tokens := toks |>)) as Hh. set (d1 := stop_child msg _) in *. clearbody d1.
  cbn in Hh. rewrite Hh. destruct (client_auth io (tor_host d)) as [priv pub] eqn:Ec.
  destruct (ti_binary io); [|done]. destruct (negb (ti_spawned io)); [done|]. destruct (negb (ti_connected io)); [done|].
  cbn [tor_host]. change (tor_host (d1 <| running_tors ::= _ |> <| tors_started ::= _ |>)) with (tor_host d1). rewrite Hh.
  destruct (control_session io pub (tor_host d)) as [[[addr|e|p] c] h] eqn:Es; [|done|done]. intros [= <- <- <-].
  exists h. split_and!; [done|done|done|done|]. eexists. split; [done|]. cbn. set_solver.
Qed.

End Outcome.

(** ** The credential *)

Section Credential.
Context `{X : Hex} {HL : HexLaws}.

Definition key_sized (client : bytes * bytes) : Prop := len (fst client) = 32 /\ len (snd client) = 32.

Lemma parse_auth_text client : key_sized client -> parse_auth (auth_text client) = Some client.
Proof.
  intros [H1 H2]. unfold parse_auth, auth_text.
  change (":" +:+ hex_encode (snd client)) with (String ":"%char (hex_encode (snd client))).
  rewrite split_once_app by apply hex_no_colon. cbn.
  rewrite !hex_roundtrip. cbn. rewrite H1, H2. by destruct client.
Qed.
Lemma parse_auth_sized text client : parse_auth text = Some client -> key_sized client.
Proof.
  unfold parse_auth. intros ([a b] & _ & (p & _ & (q & _ & H)%bind_Some)%bind_Some)%bind_Some.
  destruct (len p =? 32) eqn:E1, (len q =? 32) eqn:E2; cbn in H; simplify_eq. split; by apply Z.eqb_eq.
Qed.
Lemma client_auth_sized io h : key_sized (ti_generated io) -> key_sized (client_auth io h).
Proof.
  intros H. unfold client_auth. destruct (_ ≫= parse_auth) as [c|] eqn:E; [|done]. cbn.
  apply bind_Some in E as (t & _ & Ht). by eapply parse_auth_sized.
Qed.

Lemma onion_line_auth new ok st line :
  keyring (snd (onion_line new ok st line)) !! TOR_ONION_AUTH_KEY_KEYRING = keyring (snd st) !! TOR_ONION_AUTH_KEY_KEYRING.
Proof.
  destruct st as [a h]. unfold onion_line. cbv zeta. cbn [snd]. destruct new; [|done]. destruct (strip_prefix_bytes (bstr "250-PrivateKey:ED25519-V3:") line); [|done].
  case_bool_decide; [done|]. unfold set_password. destruct ok; [cbn; by rewrite lookup_insert_ne|done].
Qed.
Lemma session_auth io pub h :
  keyring (snd (control_session io pub h)) !! TOR_ONION_AUTH_KEY_KEYRING = keyring h !! TOR_ONION_AUTH_KEY_KEYRING.
Proof.
  unfold control_session. destruct (read_control_reply _) as [auth reads]. destruct (negb _); [done|].
  set (key := match get_password _ _ _ with Some k => _ | None => _ end).
  destruct (read_control_reply _) as [resp reads'].
  assert (forall l st, keyring (snd (foldl (onion_line (negb (is_some key)) (ti_set_key io)) st l)) !! TOR_ONION_AUTH_KEY_KEYRING
            = keyring (snd st) !! TOR_ONION_AUTH_KEY_KEYRING) as Hf.
  { induction l as [|x l IH]; intros st; cbn [foldl]; [done|]. by rewrite IH, onion_line_auth. }
  specialize (Hf (lines resp) ([], h)). destruct (foldl _ _ _) as [addr h']. cbn [snd] in Hf. case_bool_decide; [done|].
  destruct (read_control_reply _) as [info ?]. by destruct (negb _).
Qed.

Definition kept (client : bytes * bytes) (d : TorDesk) : Prop :=
  keyring (tor_host d) !! TOR_ONION_AUTH_KEY_KEYRING = Some (auth_text client).

Lemma kept_reused client io d : key_sized client -> kept client d -> ti_get_auth io = true -> client_auth io (tor_host d) = client.
Proof.
  intros Hs Hk Hg. unfold client_auth, get_password. rewrite Hg, Hk. cbn. by rewrite parse_auth_text.
Qed.

Lemma kept_create client io d :
  key_sized client -> kept client d -> ti_get_auth io = true -> kept client (snd (create_tor_onion io d)).
Proof.
  intros Hs Hk Hg. unfold create_tor_onion. destruct (gate_tier2 _ _ _ _) as [[[]|e|p] toks]; [|done|done].
  set (msg := "[Tor] Stopped previous tor daemon before re-creating onion (audit F16)").
  pose proof (stop_child_host msg (d <| tor_tokens := toks |>)) as Hh. set (d1 := stop_child msg _) in *. clearbody d1.
  assert (kept client d1) as Hk1 by (unfold kept; by rewrite Hh). clear Hh Hk.
  rewrite (kept_reused client io d1 Hs Hk1 Hg). destruct client as [priv pub].
  destruct (ti_binary io); [|done]. destruct (negb (ti_spawned io)); [done|]. destruct (negb (ti_connected io)); [done|].
  change (tor_host (d1 <| running_tors ::= _ |> <| tors_started ::= _ |>)) with (tor_host d1).
  pose proof (session_auth io pub (tor_host d1)) as Ha. rewrite Hk1 in Ha.
  destruct (control_session io pub (tor_host d1)) as [[r c] h]. cbn [snd] in Ha.
  destruct r; unfold kept; cbn; [|done|done]. unfold set_password. destruct (ti_set_auth io); [|done].
  cbn. by rewrite lookup_insert_eq.
Qed.

Definition reads_auth (op : TorOp) : Prop := match op with Create io => ti_get_auth io = true | Stop => True end.

(** The credential on the pairing code stays good: once a creation has succeeded
    and its credential was stored, every later creation that succeeds, after any
    run of creations, failed or not, and stops, as long as the entry can be read,
    publishes the service for the same client key and gives the same credential. *)
Theorem credential_kept io d info cmds d' ops io' info' cmds' d'' :
  key_sized (ti_generated io) -> ti_set_auth io = true ->
  create_tor_onion io d = (Ok info, cmds, d') ->
  Forall reads_auth ops -> ti_get_auth io' = true ->
  create_tor_onion io' (foldl exec_tor d' ops) = (Ok info', cmds', d'') ->
  auth_key info' = auth_key info
  /\ exists pub key key', cmds !! 1%nat = Some (add_onion_cmd key pub) /\ cmds' !! 1%nat = Some (add_onion_cmd key' pub).
Proof.
  intros Hs Hset Hc Hops Hget Hc'.
  destruct (create_ok _ _ _ _ _ Hc) as (h & Hsess & Hauth & Hh & _). set (client := client_auth io (tor_host d)) in *.
  assert (key_sized client) as Hcs by (by apply client_auth_sized).
  assert (kept client d') as Hk by (unfold kept; rewrite Hh, Hset; cbn; apply lookup_insert_eq). clear Hh Hc.
  assert (kept client (foldl exec_tor d' ops)) as Hk'.
  { revert d' Hk Hc'. induction Hops as [|op ops Hop _ IH]; intros d' Hk Hc'; [done|]. cbn [foldl]. apply IH; [|done].
    destruct op as [io0|]; cbn [exec_tor]; [by apply kept_create|]. unfold kept, stop_tor. by rewrite stop_child_host. }
  destruct (create_ok _ _ _ _ _ Hc') as (h' & Hsess' & Hauth' & _). rewrite (kept_reused client io' _ Hcs Hk' Hget) in Hsess', Hauth'.
  split; [by rewrite Hauth, Hauth'|]. exists (snd client).
  assert (forall i h0 a c h1, control_session i (snd client) h0 = (Ok a, c, h1) -> exists key, c !! 1%nat = Some (add_onion_cmd key (snd client))) as Hcmd.
  { clear. intros i h0 a c h1. unfold control_session. destruct (read_control_reply _) as [auth reads]. destruct (negb _); [done|].
    destruct (read_control_reply _) as [resp reads']. destruct (foldl _ _ _) as [addr h']. case_bool_decide; [done|].
    destruct (read_control_reply _) as [inf ?]. destruct (negb _); [done|]. intros [= <- <- <-]. by eexists. }
  destruct (Hcmd _ _ _ _ _ Hsess) as [key Hk1]. destruct (Hcmd _ _ _ _ _ Hsess') as [key' Hk2]. by exists key, key'.
Qed.

End Credential.

(** ** What a success says *)

Section Success.
Context `{X : Hex}.

Lemma onion_line_address new ok st line :
  (exists id, id <> [] /\ fst st = id ++ bstr ".onion") \/ fst st = [] ->
  (exists id, id <> [] /\ fst (onion_line new ok st line) = id ++ bstr ".onion") \/ fst (onion_line new ok st line) = [].
Proof.
  intros H. destruct st as [a h]. unfold onion_line. cbv zeta. cbn [fst] in *.
  destruct (strip_prefix_bytes (bstr "250-ServiceID=") line) as [id|]; [|done].
  case_bool_decide as Hn; [done|]. left. by exists (trim id).
Qed.

(** A creation that succeeds was confirmed by the user; the only service it asked
    for is restricted to the client key whose private half it returns, is the one
    the daemon named and lists, and the daemon is running as the child kept. *)
Theorem onion_is_restricted io d info cmds d' :
  create_tor_onion io d = (Ok info, cmds, d') ->
  fst (gate_tier2 (ti_now io) "create_tor_onion" (ti_token io) (tor_tokens d)) = Ok tt
  /\ (exists key, cmds = [auth_cmd (ti_cookie io); add_onion_cmd key (snd (client_auth io (tor_host d))); getinfo_cmd])
  /\ auth_key info = base32_reference (fst (client_auth io (tor_host d)))
  /\ (exists id, id <> [] /\ onion_address info = id ++ bstr ".onion")
  /\ (exists reply, lists_onion (onion_address info) reply = true)
  /\ (exists pid, tor_child d' = Some pid /\ pid ∈ running_tors d').
Proof.
  intros H. destruct (create_ok _ _ _ _ _ H) as (h & Hs & Ha & _ & Hg & Hp). clear H. revert Hs. unfold control_session.
  destruct (read_control_reply _) as [auth reads]. destruct (negb _); [done|].
  set (key := match get_password _ _ _ with Some k => _ | None => _ end). destruct (read_control_reply _) as [resp reads'].
  assert (forall l st, (exists id, id <> [] /\ fst st = id ++ bstr ".onion") \/ fst st = [] ->
    (exists id, id <> [] /\ fst (foldl (onion_line (negb (is_some key)) (ti_set_key io)) st l) = id ++ bstr ".onion")
    \/ fst (foldl (onion_line (negb (is_some key)) (ti_set_key io)) st l) = []) as Hf.
  { induction l as [|x l IH]; intros st Hst; cbn [foldl]; [done|]. apply IH. by apply onion_line_address. }
  specialize (Hf (lines resp) ([], tor_host d) (or_intror eq_refl)). destruct (foldl _ _ _) as [addr h']. cbn [fst] in Hf.
  case_bool_decide as Hn; [done|]. destruct Hf as [Hf|]; [|done].
  destruct (read_control_reply _) as [inf ?]. destruct (lists_onion addr inf) eqn:El; cbn [negb]; [|done]. intros [= <- <- <-].
  rewrite <- base32_is_positional. split_and!; [done|by exists key|done|done|by exists inf|done].
Qed.

End Success.

(** ** Daemons *)

Module Onion.
Import ToyJson.

Definition bytes_of (l : list string) : bytes := mjoin (map (fun s => bstr s ++ [x0d; x0a]) l).

(** A daemon that answers as the control protocol says, up to the names it lists. *)
Definition daemon (listed : string) (cmds : list string) : list bytes :=
  match length cmds with
  | 1%nat => [bytes_of ["250 OK"]]
  | 2%nat => [bytes_of ["250-ServiceID=abcd"; "250-PrivateKey=ED25519-V3:c2VjcmV0"]; bytes_of ["250 OK"]]
  | _ => [bytes_of ["250-onions/current=" +:+ listed; "250 OK"]]
  end.

Definition call (listed : string) : TorIo := {|
  ti_now := secs 1; ti_token := "t"; ti_binary := Some "/usr/bin/tor"; ti_get_auth := true; ti_get_key := true; ti_set_key := true;
  ti_set_auth := true; ti_generated := (replicate 32 x01, replicate 32 x02); ti_cookie := replicate 16 x00;
  ti_spawned := true; ti_connected := true; ti_daemon := daemon listed |}.
Definition token : string * string * Z := ("create_tor_onion", "t", 0).
Definition fresh_desk : TorDesk := {|
  tor_child := None; running_tors := ∅; tors_started := 0; tor_host := {| keyring := ∅; files := ∅ |};
  tor_tokens := [token; token]; tor_logs := [] |}.
Definition first : result string TorOnionInfo * list string * TorDesk := create_tor_onion (call "abcd.onion") fresh_desk.
Definition again : result string TorOnionInfo * list string * TorDesk := create_tor_onion (call "abcd.onion") (snd first).
Definition service : TorOnionInfo := {| onion_address := bstr "abcd.onion"; auth_key := base32_encode (replicate 32 x01) |}.

Lemma first_ok : first = (Ok service, snd (fst first), snd first).
Proof. vm_compute. reflexivity. Qed.
Lemma again_ok : again = (Ok service, snd (fst again), snd again).
Proof. vm_compute. reflexivity. Qed.

Lemma onion_is_restricted_witness :
  exists key, snd (fst first) = [auth_cmd (replicate 16 x00); add_onion_cmd key (replicate 32 x02); getinfo_cmd].
Proof. exact (proj1 (proj2 (onion_is_restricted (call "abcd.onion") fresh_desk service _ _ first_ok))). Defined.

Lemma credential_kept_witness :
  exists pub key key', snd (fst first) !! 1%nat = Some (add_onion_cmd key pub) /\ snd (fst again) !! 1%nat = Some (add_onion_cmd key' pub).
Proof.
  refine (proj2 (credential_kept (call "abcd.onion") fresh_desk service _ _ [] (call "abcd.onion") service _ _
    (conj eq_refl eq_refl) eq_refl first_ok (Forall_nil_2 _) eq_refl again_ok)).
Defined.

(** The key the daemon made for the service is not kept: the daemon sends it
    after an equals sign. *)
Lemma onion_key_not_kept : keyring (tor_host (snd first)) !! TOR_ONION_KEY_KEYRING = None.
Proof. vm_compute. reflexivity. Qed.

(** A daemon lists its services without the suffix, and the creation fails. *)
Lemma listed_by_id_fails : is_ok (fst (fst (create_tor_onion (call "abcd") fresh_desk))) = false.
Proof. vm_compute. reflexivity. Qed.

End Onion.
