(* ===== verification/HostNet.v ===== *)
(** * HostNet: the desktop's view of its network (desktop commands/network,
    state/services/network.rs, core-crypto/src/system_net.rs)

    The connection state shown to the user, the firewall check and request, the
    registration with Avahi and the choice of a network interface.  What the
    programs asked print is an argument. *)

From Stdlib.Strings Require Import Ascii.
From S2P Require Import Prelude Error Primitives Json StrOps RatchetState Registry RatchetStore Privilege Utils Automation.
From S2P Require Import Tls IpAddr QuicBridge Connect PairingState Tor.

(** ** The connection state *)

Definition default_connection : ConnectionState := {| status := "DISCONNECTED"; method := "None"; color := "red" |}.

Record NetDesk := { bridge : Bridge; net : ConnectionState; net_logs : list string }.

(** [NetworkService::get_connection]: what is stored, if the transport has a connection. *)
Definition get_connection (now : Z) (d : NetDesk) : ConnectionState :=
  if negb (is_quic_connected now (bridge d)) then {| status := "DISCONNECTED"; method := method (net d); color := "red" |}
  else net d.

Definition with_status (s : string) (d : NetDesk) : NetDesk :=
  {| bridge := bridge d; net := {| status := s; method := method (net d); color := color (net d) |}; net_logs := net_logs d |}.
Definition with_log (msg : string) (d : NetDesk) : NetDesk :=
  {| bridge := bridge d; net := net d; net_logs := add_log msg (net_logs d) |}.

(** [punched]: what the hole punching of core-crypto gives. *)
Definition perform_stun_hole_punch (stun_host : string) (punched : result string string) (d : NetDesk) : result string string * NetDesk :=
  let d := with_log ("[STUN] Initiating UDP hole punch via STUN: " +:+ stun_host) d in
  match punched with
  | Ok addr =>
      let d := with_log ("[STUN] Mapped public reflexive address: " +:+ addr) d in
      (Ok addr, with_status ("Connected (WAN STUN: " +:+ addr +:+ ")") d)
  | r => (r, d)
  end.

Definition evaluate_connection_status (lan_active : bool) (endpoint : string) (d : NetDesk) : ConnectionInfo * NetDesk :=
  let info := evaluate_connection_hierarchy false lan_active endpoint in
  let d := with_log ("[Connection Manager] Active path: " +:+ active_path_description info +:+ " (Tier " +:+ decimal (active_tier info)
                     +:+ ", Latency " +:+ decimal (latency_ms info) +:+ "ms)") d in
  (info, with_status ("Connected (" +:+ active_path_description info +:+ ")") d).

Definition set_connection_status_full (st me co : string) (d : NetDesk) : NetDesk :=
  let current_status := status (net d) in
  let d := {| bridge := bridge d; net := {| status := st; method := me; color := co |}; net_logs := net_logs d |} in
  if eqb_dec current_status st then d
  else with_log ("[Connection State] Changed to " +:+ st +:+ " via method " +:+ me) d.

(** What a poll of the phone does to it. *)
Definition sync_connection_state (now : Z) (d : NetDesk) : NetDesk :=
  let b := touch_connection now (bridge d) in
  if negb (is_quic_connected now b)
  then {| bridge := b; net := {| status := "DISCONNECTED"; method := method (net d); color := "red" |}; net_logs := net_logs d |}
  else {| bridge := b; net := net d; net_logs := net_logs d |}.

Definition started : NetDesk := {| bridge := new_bridge; net := default_connection; net_logs := [] |}.

(** The registry asked holds the connections this process dialed.  While it has
    none - accepted connections are not in it - the connection shown to the user
    is the red "DISCONNECTED", whatever was set, and a poll of the phone sets it
    so. *)
Lemma undialed_disconnected d now :
  quic_connections (bridge d) = ∅ ->
  status (get_connection now d) = "DISCONNECTED" /\ color (get_connection now d) = "red"
  /\ status (net (sync_connection_state now d)) = "DISCONNECTED".
Proof.
  intros Hc. assert (quic_connections (touch_connection now (bridge d)) = ∅) as Ht.
  { unfold touch_connection. destruct (active_peer (bridge d)) as [k|]; [|done]. by rewrite Hc, lookup_empty. }
  unfold get_connection, sync_connection_state, is_quic_connected. by rewrite Hc, Ht, map_to_list_empty.
Qed.

(** The one-line status says otherwise, also when there is no path at all. *)
Lemma connected_not_connected :
  status (net (snd (evaluate_connection_status false "" started))) = "Connected (Not Connected)".
Proof. reflexivity. Qed.

(** ** The firewall *)

(** A program run to its end: whether it succeeded and what it printed. *)
Record Output := { out_success : bool; out_stdout : bytes }.

Record FirewallStatus := {
  firewalld_active : bool; ufw_active : bool; port_open : bool; client_isolation : bool; commands : list string
}.

(** [None]: the program could not be run. *)
Record FirewallIo := {
  fw_state : option Output;      (** firewall-cmd --state *)
  fw_query : option Output;      (** firewall-cmd --query-port 9876/udp *)
  fw_ufw : option Output;        (** ufw status *)
  fw_ufw_verbose : option Output;
  fw_iptables : option Output    (** iptables -L INPUT -n *)
}.

Definition FIREWALLD_ADVICE : string := "sudo firewall-cmd --add-port=9876/udp --permanent && sudo firewall-cmd --reload".
Definition UFW_ADVICE : string := "sudo ufw allow 9876/udp".
Definition IPTABLES_ADVICE : string := "sudo iptables -A INPUT -p udp --dport 9876 -j ACCEPT".

Definition closed_port (advice : string) (s : FirewallStatus) : FirewallStatus :=
  {| firewalld_active := firewalld_active s; ufw_active := ufw_active s; port_open := false; client_isolation := client_isolation s;
     commands := commands s ++ [advice] |}.

Definition check_firewalld (io : FirewallIo) (s : FirewallStatus) : FirewallStatus :=
  match fw_state io with
  | None => s
  | Some out =>
      let active := bool_decide (trim (lossy (out_stdout out)) = bstr "running") in
      let s := {| firewalld_active := active; ufw_active := ufw_active s; port_open := port_open s;
                  client_isolation := client_isolation s; commands := commands s |} in
      match (if active then fw_query io else None) with
      | Some c => if out_success c then s else closed_port FIREWALLD_ADVICE s
      | None => s
      end
  end.

Definition check_ufw (io : FirewallIo) (s : FirewallStatus) : FirewallStatus :=
  match fw_ufw io with
  | None => s
  | Some out =>
      if negb (contains_bytes (bstr "active") (lossy (out_stdout out))) then s
      else
        let s := {| firewalld_active := firewalld_active s; ufw_active := true; port_open := port_open s;
                    client_isolation := client_isolation s; commands := commands s |} in
        match fw_ufw_verbose io with
        | Some c => if contains_bytes (bstr "9876") (lossy (out_stdout c)) then s else closed_port UFW_ADVICE s
        | None => s
        end
  end.

Definition check_iptables (io : FirewallIo) (s : FirewallStatus) : FirewallStatus :=
  if firewalld_active s || ufw_active s then s
  else match fw_iptables io with
       | None => s
       | Some out =>
           let ipt := lossy (out_stdout out) in
           if contains_bytes (bstr "DROP") ipt || contains_bytes (bstr "REJECT") ipt
           then {| firewalld_active := firewalld_active s; ufw_active := ufw_active s; port_open := port_open s;
                   client_isolation := client_isolation s; commands := commands s ++ [IPTABLES_ADVICE] |}
           else s
       end.

Definition check_firewall (io : FirewallIo) : FirewallStatus :=
  let s := {| firewalld_active := false; ufw_active := false; port_open := true; client_isolation := false; commands := [] |} in
  let s := check_iptables io (check_ufw io (check_firewalld io s)) in
  if port_open s
  then {| firewalld_active := firewalld_active s; ufw_active := ufw_active s; port_open := true;
          client_isolation := client_isolation s; commands := [] |}
  else s.

(** The check's answer, in one step: the port is taken for closed exactly when
    the firewall daemon runs and its query fails, or the listing of ufw has the
    word "active" in it and the verbose one not the port; the commands advised are
    one for each of the two.  Rules of iptables are read and never reported. *)
Theorem firewall_answer io :
  let firewalld := match fw_state io with
                   | Some out => bool_decide (trim (lossy (out_stdout out)) = bstr "running") | None => false end in
  let ufw := match fw_ufw io with Some out => contains_bytes (bstr "active") (lossy (out_stdout out)) | None => false end in
  let refused := firewalld && match fw_query io with Some c => negb (out_success c) | None => false end in
  let unlisted := ufw && match fw_ufw_verbose io with
                         | Some c => negb (contains_bytes (bstr "9876") (lossy (out_stdout c))) | None => false end in
  check_firewall io = {|
    firewalld_active := firewalld; ufw_active := ufw; port_open := negb (refused || unlisted); client_isolation := false;
    commands := (if refused then [FIREWALLD_ADVICE] else []) ++ (if unlisted then [UFW_ADVICE] else []) |}.
Proof.
  unfold check_firewall, check_firewalld, check_ufw, check_iptables, closed_port.
  destruct (fw_state io) as [o1|]; [destruct (bool_decide (trim (lossy (out_stdout o1)) = bstr "running"))|];
    (destruct (fw_query io) as [[[] ?]|]);
    (destruct (fw_ufw io) as [o2|]; [destruct (contains_bytes (bstr "active") (lossy (out_stdout o2)))|]);
    (destruct (fw_ufw_verbose io) as [o3|]; [destruct (contains_bytes (bstr "9876") (lossy (out_stdout o3)))|]);
    (destruct (fw_iptables io) as [o4|]; [destruct (contains_bytes (bstr "DROP") (lossy (out_stdout o4)) || contains_bytes (bstr "REJECT") (lossy (out_stdout o4)))|]);
    reflexivity.
Qed.

(** A firewall that is switched off is reported as active and closed, and one
    that drops everything by its own rules as open. *)
Definition said (s : string) : option Output := Some {| out_success := true; out_stdout := bstr s |}.
Lemma inactive_counts_as_active :
  let s := check_firewall {| fw_state := None; fw_query := None; fw_ufw := said "Status: inactive";
                             fw_ufw_verbose := said "Status: inactive"; fw_iptables := None |} in
  ufw_active s = true /\ port_open s = false.
Proof. vm_compute. by split. Qed.
Lemma dropping_rules_unreported :
  let s := check_firewall {| fw_state := None; fw_query := None; fw_ufw := None; fw_ufw_verbose := None;
                             fw_iptables := said "DROP       all  --  0.0.0.0/0            0.0.0.0/0" |} in
  port_open s = true /\ commands s = [].
Proof. vm_compute. by split. Qed.

(** [found]: the first of the programs that is installed; [added]: how the call
    that adds the port went.  The programs run. *)
Definition GUI_APPS : list string := ["firewall-config"; "gnome-control-center"; "firewall-applet"; "xfce-firewall"].
Definition request_firewall_open (now : Z) (which : string -> option Output) (added : option Output) (token : string) (st : Tokens)
  : result string string * Tokens * list string :=
  let '(gate, st) := gate_tier2 now "request_firewall_open" token st in
  match gate with
  | Ok _ =>
      let installed app := match which app with Some out => negb (bool_decide (out_stdout out = [])) | None => false end in
      match List.find installed GUI_APPS with
      | Some app => (Ok ("Opened " +:+ app +:+ " GUI. Please add port 9876/udp to the firewall."), st, [app])
      | None =>
          match added with
          | Some out => if out_success out then (Ok "Port opened via D-Bus/Polkit", st, ["AddPort"; "Reload"]) else (Ok "", st, ["AddPort"])
          | None => (Ok "", st, [])
          end
      end
  | Err e => (Err e, st, [])
  | Panic p => (Panic p, st, [])
  end.

(** ** Avahi *)

(** The object path between the first two quotes of what busctl prints. *)
Definition quote : ascii := "034"%char.
Definition entry_group_path (stdout : bytes) : option string :=
  '(_, rest) ← split_once quote (String.string_of_list_byte (lossy stdout));
  '(path, _) ← split_once quote rest;
  if starts_with "/org/freedesktop/Avahi/" path then Some path else None.

(** [add]: how adding the service to a group went; whether the group is committed. *)
Definition register_mdns_service (new_group : option Output) (add : string -> option Output) : bool * option string :=
  match new_group ≫= (fun o => entry_group_path (out_stdout o)) with
  | None => (false, None)
  | Some path =>
      match add path with
      | Some out => if out_success out then (true, Some path) else (false, None)
      | None => (false, None)
      end
  end.

(** ** The network interface *)

Definition is_ascii_alphanumeric (c : ascii) : bool :=
  (48 <=? code c) && (code c <=? 57) || (65 <=? code c) && (code c <=? 90) || (97 <=? code c) && (code c <=? 122).
Definition valid_iface (s : string) : bool :=
  negb (eqb_dec s "") && (Z.of_nat (String.length s) <=? 15)
  && forallb (fun c => is_ascii_alphanumeric c || existsb (eqb_dec c) ["_"; ":"; "."; "-"]%char) (chars s).

(** [split_whitespace] of a line of the routing table, on its bytes. *)
Fixpoint split_blanks (fuel : nat) (cur t : bytes) : list bytes :=
  let piece := if bool_decide (cur = []) then [] else [rev cur] in
  match fuel with
  | O => piece
  | S fuel =>
      match strip_start white_space t with
      | Some t => piece ++ split_blanks fuel [] t
      | None => match t with [] => piece | b :: t => split_blanks fuel (b :: cur) t end
      end
  end.
Definition route_iface (line : bytes) : option string :=
  match split_blanks (S (length line)) [] line with
  | iface :: dest :: _ =>
      let s := String.string_of_list_byte iface in
      if bool_decide (dest = bstr "00000000") && valid_iface s then Some s else None
  | _ => None
  end.

(** [route]: the text of the routing table; [entries]: the names under
    /sys/class/net. *)
Definition get_default_interface (route : option bytes) (entries : option (list string)) : string :=
  match route ≫= (fun t => head (omap route_iface (tail (lines t)))) with
  | Some iface => iface
  | None =>
      match entries ≫= (fun l => List.find (fun i => negb (eqb_dec i "lo") && valid_iface i) l) with
      | Some iface => iface
      | None => ""
      end
  end.

(** Whatever the two files hold, the name given is empty or one the kernel could
    have given to an interface: 1 to 15 characters, none of them a separator. *)
Theorem interface_is_valid route entries :
  let i := get_default_interface route entries in
  i = "" \/ (1 <= String.length i <= 15)%nat /\ free_of "/"%char i /\ free_of " "%char i.
Proof.
  assert (forall s, valid_iface s = true -> s = "" \/ (1 <= String.length s <= 15)%nat /\ free_of "/"%char s /\ free_of " "%char s) as Hv.
  { intros s. unfold valid_iface. rewrite !andb_true_iff, negb_true_iff, Z.leb_le. unfold eqb_dec. rewrite bool_decide_eq_false.
    intros [[Hn Hl] Hf]. right. split; [destruct s; [done|cbn in *; lia]|].
    rewrite forallb_forall in Hf. unfold free_of. rewrite !Forall_forall.
    split; intros c Hc%list_elem_of_In ->; apply Hf in Hc; by vm_compute in Hc. }
  cbv zeta. unfold get_default_interface.
  destruct (route ≫= _) as [i|] eqn:Er.
  - apply bind_Some in Er as (t & _ & Hh). apply head_Some_elem_of, list_elem_of_omap in Hh as (line & _ & Hl). apply Hv.
    unfold route_iface in Hl. destruct (split_blanks _ _ _) as [|iface [|dest rest]]; [done|done|].
    destruct (bool_decide (dest = bstr "00000000")); [|done]. cbn [andb] in Hl. by destruct (valid_iface _) eqn:E; simplify_eq.
  - destruct (entries ≫= _) as [i|] eqn:Ee; [|by left]. apply bind_Some in Ee as (l & _ & Hf). apply Hv.
    apply find_some in Hf as [_ Hf]. by apply andb_true_iff in Hf as [_ ?].
Qed.

Lemma usual_route :
  get_default_interface (Some (bstr "Iface Destination Gateway" ++ [x0a] ++ bstr "wlan0 00000000 0102A8C0" ++ [x0a])) None = "wlan0".
Proof. vm_compute. reflexivity. Qed.
