(* ===== verification/Recovery.v ===== *)
(** * Recovery: the recovery shares of the master key (desktop commands/crypto.rs)

    The command that splits the master key kept in the keyring and the one that
    puts it together again, with the text of a share (core-crypto
    crypto/shamir.rs): its JSON object, whose byte fields go through the two
    hexadecimal helpers.  What the commands do is right; whether there is ever a key to split is another
    question. *)

From Stdlib.Strings Require Import Ascii.
From S2P Require Import Prelude Error Primitives Aead Kem Toy Json Sas RatchetState Registry SessionHandle KemHandle Shamir.
From S2P Require Import RatchetStore PairingPolicy PairingWire PairingState Pairing PairingLive PairingScenario Privilege Automation Destruct Scenario.

(** Both digests have 32 bytes. *)
Class DigestSizes `{P : Primitives} := {
  sha256_size m : len (sha256 m) = 32;
  hmac_sha256_size k m : len (hmac_sha256 k m) = 32
}.

(** ** The text of a share *)

Section ShareText.
Context `{X : Hex} `{T : JsonText}.

(** [mod hex_bytes] and [mod hex_bytes_32]. *)
Definition hex_bytes_serialize (b : bytes) : Value := Str (hex_encode b).
Definition hex_bytes_deserialize (v : Value) : option bytes := s ← as_str v; hex_decode s.

Definition hex_bytes_32_serialize (b : bytes) : Value := Str (hex_encode b).
Definition hex_bytes_32_deserialize (v : Value) : option bytes :=
  s ← as_str v; b ← hex_decode s; if negb (len b =? 32) then None else Some b.

Definition default_array_32 : bytes := zeros32.

(** The derived [Serialize]: an object of the fields. *)
Definition share_to_value (s : ShamirShare) : Value := Object (list_to_map [
  ("index", Number (Z_of_byte (share_index s))); ("threshold", Number (Z_of_byte (threshold s)));
  ("total", Number (Z_of_byte (total s))); ("timestamp", Number (timestamp s));
  ("data", hex_bytes_serialize (share_data s)); ("mac", hex_bytes_32_serialize (share_mac s));
  ("verify_key", hex_bytes_32_serialize (verify_key s)); ("secret_hash", hex_bytes_32_serialize (secret_hash s))]).

(** The derived [Deserialize]: a field by its name in an object, by its place in
    an array; a field with a default may be missing, unknown names are ignored. *)
Definition as_u8 (v : Value) : option byte := n ← as_u64 v; if n <=? 255 then Some (byte_of_Z n) else None.
Definition or_default (v : option Value) : option bytes :=
  match v with Some v => hex_bytes_32_deserialize v | None => Some default_array_32 end.
Definition share_of_fields (field : string -> nat -> option Value) : option ShamirShare :=
  i ← field "index" 0%nat ≫= as_u8; k ← field "threshold" 1%nat ≫= as_u8; n ← field "total" 2%nat ≫= as_u8;
  ts ← field "timestamp" 3%nat ≫= as_u64;
  d ← field "data" 4%nat ≫= hex_bytes_deserialize; m ← field "mac" 5%nat ≫= hex_bytes_32_deserialize;
  vk ← or_default (field "verify_key" 6%nat); h ← or_default (field "secret_hash" 7%nat);
  Some {| share_index := i; threshold := k; total := n; timestamp := ts; share_data := d; share_mac := m;
          verify_key := vk; secret_hash := h |}.
Definition share_of_value (v : Value) : option ShamirShare :=
  match v with
  | Object m => share_of_fields (fun name _ => m !! name)
  | Array l => if len l <=? 8 then share_of_fields (fun _ i => l !! i) else None
  | _ => None
  end.

(** [serde_json::to_string] and [serde_json::from_str] on a share. *)
Definition share_to_string (s : ShamirShare) : option string := json_to_string (share_to_value s).
Definition share_from_str (text : string) : option ShamirShare := json_from_str text ≫= share_of_value.

(** The types of the fields. *)
Record typed_share (s : ShamirShare) : Prop := {
  ts_stamp : u64_range (timestamp s);
  ts_mac : len (share_mac s) = 32;
  ts_key : len (verify_key s) = 32;
  ts_hash : len (secret_hash s) = 32
}.

Lemma as_u8_byte b : as_u8 (Number (Z_of_byte b)) = Some b.
Proof. by destruct b. Qed.

Context {XL : HexLaws} {TL : JsonTextLaws}.

Lemma hex_bytes_roundtrip b : hex_bytes_deserialize (hex_bytes_serialize b) = Some b.
Proof. cbn. apply hex_roundtrip. Qed.
Lemma hex_bytes_32_roundtrip b : len b = 32 -> hex_bytes_32_deserialize (hex_bytes_32_serialize b) = Some b.
Proof. intros H. cbn. rewrite hex_roundtrip. cbn. by rewrite H. Qed.

Lemma share_value_roundtrip s : typed_share s -> share_of_value (share_to_value s) = Some s.
Proof.
  intros [H1 H2 H3 H4]. unfold share_of_value, share_to_value. cbn [list_to_map foldr fst snd]. unfold share_of_fields, or_default.
  repeat first [rewrite lookup_insert_eq | rewrite lookup_insert_ne by done]. cbn [mbind option_bind].
  rewrite !as_u8_byte, as_u64_number by done. cbn [mbind option_bind].
  rewrite hex_bytes_roundtrip, !hex_bytes_32_roundtrip by done. cbn. by destruct s.
Qed.

Lemma share_value_repr s : typed_share s -> representable (share_to_value s).
Proof.
  intros [H1 _ _ _]. assert (forall b, representable (Number (Z_of_byte b))) as Hb.
  { intros b. apply repr_u64. pose proof (Z_of_byte_range b). unfold u64_range, u64_max. lia. }
  unfold share_to_value. constructor. intros k v. cbn [list_to_map foldr fst snd].
  repeat (rewrite lookup_insert_Some; intros [[_ <-]|[_ Hv]]; [first [apply Hb|by apply repr_u64|constructor]|revert Hv]).
  by rewrite lookup_empty.
Qed.

(** A typed share is written, and reading what was written gives it back. *)
Lemma share_text_roundtrip s :
  typed_share s -> exists w, share_to_string s = Some w /\ share_from_str w = Some s.
Proof.
  intros H. destruct (json_roundtrip _ (share_value_repr s H)) as (w & Hw & Hr). exists w. split; [done|].
  unfold share_from_str. rewrite Hr. by apply share_value_roundtrip.
Qed.

End ShareText.

Definition MASTER_ENTRY : string * string := ("kyberpipe", "master_identity_key").

Section Recovery.
Context `{P : Primitives} `{X : Hex} `{T : JsonText}.

(** What the environment supplies: the tokens' clock, the keyring's answer, the
    polynomial's coefficients, the time stamp and the verification key. *)
Record SplitIo := { sp_now : Z; sp_get : bool; sp_coins : nat -> nat -> byte; sp_stamp : Z; sp_vk : bytes }.

Definition generate_shamir_recovery_shares (io : SplitIo) (k n : Z) (token : string) (h : Host) (st : Tokens)
  : result string (list string) * Tokens :=
  let '(ok, st) := consume_privilege_token (sp_now io) "generate_shamir_recovery_shares" token st in
  if negb ok then (Err "Privileged action requires a fresh confirmation token", st)
  else if k <? 2 then (Err "Minimum threshold k=2 required for security. Use k >= 2.", st)
  else
    (master_secret_hex ← ok_or (get_password (sp_get io) MASTER_ENTRY h)
                           "No master identity key found in OS keychain. Generate a keypair first.";
     master_secret ← ok_or (hex_decode master_secret_hex) "Invalid master key hex in keyring: {e}";
     match split_secret_shamir_with_meta (sp_coins io) (sp_stamp io) (sp_vk io) master_secret k n with
     | Ok shares =>
         if forallb (fun s => verify_share_with_key s master_secret) shares
         then Ok (map (fun s => default "" (share_to_string s)) shares)
         else Err "Internal integrity check failed while generating shares"
     | Err _ => Err "{e}"
     | Panic m => Panic m
     end, st).

Definition parse_shares (texts : list string) : result string (list ShamirShare) :=
  mapM (fun t => ok_or (share_from_str t)
          "Invalid share JSON — use the share strings produced by generate_shamir_recovery_shares") texts.

Definition reconstruct_key_from_shamir_shares (now : Z) (texts : list string) (k : Z) (token : string) (st : Tokens)
  : result string string * Tokens :=
  let '(ok, st) := consume_privilege_token now "reconstruct_key_from_shamir_shares" token st in
  if negb ok then (Err "Privileged action requires a fresh confirmation token", st)
  else
    (parsed ← parse_shares texts;
     match reconstruct_shamir_with_meta parsed k with
     | Ok recovered => Ok (hex_encode recovered)
     | Err _ => Err "{e}"
     | Panic m => Panic m
     end, st).

(** ** What was split comes back *)

Context {D : DigestSizes} {XL : HexLaws} {TL : JsonTextLaws}.

(** The shares of a split have their fields' types. *)
Lemma split_typed coins now vk secret k n shares :
  0 <= k -> u64_range now -> len vk = 32 -> split_secret_shamir_with_meta coins now vk secret k n = Ok shares ->
  Forall typed_share shares.
Proof.
  intros Hk Hn Hv Es. destruct (split_meta_ok _ _ _ _ _ _ _ Hk Es) as (_ & _ & ->).
  apply Forall_fmap, Forall_forall. intros i _. split; [done|apply hmac_sha256_size|done|apply sha256_size].
Qed.

(** The texts are those of shares of the split. *)
Lemma parse_written shares texts :
  Forall typed_share shares ->
  Forall (fun t => t ∈ map (fun s => default "" (share_to_string s)) shares) texts ->
  exists sel, parse_shares texts = Ok sel /\ Forall (fun s => s ∈ shares) sel
  /\ texts = map (fun s => default "" (share_to_string s)) sel.
Proof.
  intros Hty. induction 1 as [|t texts Ht _ (sel & IH1 & IH2 & IH3)]; [by exists []|].
  apply list_elem_of_In, in_map_iff in Ht as (s & <- & Hs). apply list_elem_of_In in Hs.
  exists (s :: sel). unfold parse_shares in *. cbn [mapM map]. rewrite Forall_forall in Hty.
  destruct (share_text_roundtrip s (Hty s Hs)) as (w & Hw & Hr). rewrite Hw. change (default "" (Some w)) with w.
  rewrite Hr. cbn. rewrite IH1. cbn. split_and!; [done|by constructor|by f_equal].
Qed.

(** C26: any [k] different ones of the texts handed out, in any order and with
    any others of them after, give the master key back, as the keyring has it. *)
Theorem recovery_roundtrip io k n token h st texts st' hex master now token' st0 sel :
  u64_range (sp_stamp io) -> len (sp_vk io) = 32 ->
  generate_shamir_recovery_shares io k n token h st = (Ok texts, st') ->
  keyring h !! MASTER_ENTRY = Some hex -> hex_decode hex = Some master -> 0 < len master <= isize_max ->
  NoDup sel -> Forall (fun t => t ∈ texts) sel -> k <= len sel ->
  fst (consume_privilege_token now "reconstruct_key_from_shamir_shares" token' st0) = true ->
  fst (reconstruct_key_from_shamir_shares now sel k token' st0) = Ok (hex_encode master).
Proof.
  intros Hst Hvl Hg Hk Hm Hlen Hnd Hsel Hl Ht. revert Hg. unfold generate_shamir_recovery_shares, get_password.
  destruct (consume_privilege_token (sp_now io) _ _ _) as [[] st1]; cbn [negb]; [|done].
  destruct (Z.ltb_spec k 2) as [|Hk2]; [done|]. destruct (sp_get io); [|done]. rewrite Hk. cbn [ok_or mbind result_bind].
  rewrite Hm. cbn [ok_or mbind result_bind].
  destruct (split_secret_shamir_with_meta _ _ _ _ _ _) as [shares| |] eqn:Es; [|done|done].
  destruct (forallb _ shares) eqn:Ev; [|done]. intros [= <- _].
  pose proof (split_typed (sp_coins io) (sp_stamp io) (sp_vk io) master k n shares ltac:(lia) Hst Hvl Es) as Hty.
  destruct (parse_written shares sel Hty Hsel) as (picked & Hp & Hin & ->).
  unfold reconstruct_key_from_shamir_shares. destruct (consume_privilege_token now _ _ _) as [ok st2]. cbn [fst] in Ht. subst ok.
  cbn [negb]. rewrite Hp. cbn [mbind result_bind fst].
  assert (Z.to_nat k <= length picked)%nat as Hlp by (unfold len in Hl; rewrite length_map in Hl; lia).
  destruct picked as [|s0 picked']; [cbn in Hlp; lia|]. set (picked := s0 :: picked') in *.
  assert (sp_vk io <> zeros32 /\ sha256 master <> zeros32) as [Hvk Hsha].
  { pose proof (Forall_inv Hin) as H0. rewrite forallb_forall in Ev. specialize (Ev s0 (proj1 (list_elem_of_In _ _) H0)).
    destruct (split_meta_ok (sp_coins io) (sp_stamp io) (sp_vk io) master k n shares ltac:(lia) Es) as (_ & _ & ->). apply list_elem_of_fmap in H0 as (i & -> & _).
    unfold verify_share_with_key in Ev. destruct (verify_share_public _) eqn:Evp; [|done]. unfold verify_share_public in Evp.
    destruct (negb _); [done|]. destruct (_ || _) eqn:Eo; [done|]. apply orb_false_iff in Eo as [E1 E2].
    unfold eqb_dec in E1, E2. apply bool_decide_eq_false in E1, E2. done. }
  rewrite (shamir_recovers (sp_coins io) (sp_stamp io) (sp_vk io) master k n shares picked); try done; try lia.
  - by apply NoDup_fmap_1 in Hnd.
  - unfold len. lia.
Qed.

End Recovery.

(** ** Whether there is a key to split *)

Definition absent (e : string * string) (h : Host) : Prop := keyring h !! e = None.

Lemma absent_set e ok e' v h : e <> e' -> absent e h -> absent e (set_password ok e' v h).
Proof. intros Hne H. unfold absent, set_password. destruct ok; [cbn; by rewrite lookup_insert_ne|done]. Qed.
Lemma absent_delete e ok e' h : absent e h -> absent e (delete_password ok e' h).
Proof. intros H. unfold absent. rewrite delete_password_lookup. by case_decide. Qed.
Lemma absent_remove e ok p h : absent e h -> absent e (fs_remove ok p h).
Proof. unfold absent. by rewrite remove_file_keyring. Qed.
Lemma absent_write e ok torn p v h : absent e h -> absent e (fs_write ok torn p v h).
Proof. unfold absent, fs_write. destruct ok; [done|]. by destruct torn. Qed.
Lemma absent_rename e ok p q h : absent e h -> absent e (snd (fs_rename ok p q h)).
Proof. unfold absent, fs_rename. repeat case_match; by simplify_eq. Qed.

Create HintDb absent.
#[local] Hint Resolve absent_set absent_delete absent_remove absent_write absent_rename : absent.

Lemma absent_wipe e oks ok h : absent e h -> absent e (wipe_keyring_entries oks ok h).
Proof.
  intros H. unfold wipe_keyring_entries, clear_pairing_keypair_from_keyring, remove_legacy_beacon_key_files.
  apply absent_delete. do 2 apply absent_remove. unfold absent. rewrite delete_entries. by case_decide.
Qed.
Lemma absent_write_store e io json h : absent e h -> absent e (write_store io json id h).
Proof.
  intros H. rewrite write_store_eq. cbv zeta. unfold rotate_store. apply absent_remove. set (h1 := fs_write _ _ _ _ h).
  assert (absent e h1) as H1 by (by apply absent_write). clearbody h1. destruct (_ && _); [|done].
  match goal with |- context [fs_rename _ store_tmp_path store_path ?x] => set (h2 := x) end.
  assert (absent e h2) as H2 by (unfold h2; repeat case_match; auto with absent). clearbody h2.
  pose proof (absent_rename e (io_rename io) store_tmp_path store_path h2 H2) as H3.
  destruct (fs_rename _ _ _ h2) as [[] h3]; [done|]. by apply absent_rename.
Qed.
Lemma absent_remove_peer `{T : JsonText} io ok peer h :
  absent MASTER_ENTRY h -> absent MASTER_ENTRY (remove_ratchet_session_for_peer io ok peer h).
Proof.
  intros H. unfold remove_ratchet_session_for_peer. case_decide; [done|]. cbv zeta.
  match goal with |- context [get_password _ _ ?x] => set (h1 := x) end.
  assert (absent MASTER_ENTRY h1) as H1 by (unfold h1; repeat case_match; auto using absent_write_store). clearbody h1.
  match goal with |- context [fs_read _ watermark_path ?x] => set (h2 := x) end.
  assert (absent MASTER_ENTRY h2) as H2.
  { unfold h2. destruct (drop_mark _ _) as [[]|]; [by apply absent_set|by apply absent_delete|done]. }
  clearbody h2. destruct (drop_mark _ _) as [[]|]; auto with absent.
Qed.

(** A computation that never brings the entry about. *)
Definition Pres {A} (c : command A) : Prop := forall a, absent MASTER_ENTRY (host a) -> absent MASTER_ENTRY (host (snd (c a))).
Lemma pres_bind {A B} (c : command A) (f : A -> command B) : Pres c -> (forall x, Pres (f x)) -> Pres (c ≫= f).
Proof. intros Hc Hf a Ha. munfold. specialize (Hc a Ha). destruct (c a) as [[x| |] a1]; cbn in *; [by apply Hf|done|done]. Qed.
Lemma pres_ret {A} (x : A) : Pres (mret x).
Proof. by intros a. Qed.
Lemma pres_lift {A} (r : result string A) : Pres (lift r).
Proof. by intros a. Qed.
Lemma pres_gets {A} (f : AppState -> A) : Pres (gets f).
Proof. by intros a. Qed.
Lemma pres_get : Pres get.
Proof. by intros a. Qed.
Lemma pres_throw {A} e : Pres (A := A) (throw e).
Proof. by intros a. Qed.
Lemma pres_modify f : (forall a, host (f a) = host a) -> Pres (modify f).
Proof. intros H a Ha. cbn. by rewrite H. Qed.
Lemma pres_ratchets {A} m (c : registry A) : Pres (on_ratchets m c).
Proof. intros a Ha. unfold on_ratchets. by destruct (c (ratchets a)) as [[]]. Qed.
Lemma pres_session_keys {A} m (c : handles A) : Pres (on_session_keys m c).
Proof. intros a Ha. unfold on_session_keys. by destruct (c (session_keys a)) as [[]]. Qed.

Create HintDb pres.
#[local] Hint Resolve pres_bind pres_ret pres_lift pres_gets pres_get pres_throw pres_ratchets pres_session_keys : pres.
#[local] Hint Extern 1 (Pres (match ?x with _ => _ end)) => destruct x : pres.
#[local] Hint Extern 1 (Pres (if ?x then _ else _)) => destruct x : pres.
#[local] Hint Extern 2 (Pres (modify _)) => apply pres_modify; intros; reflexivity : pres.

Section Never.
Context `{P : Primitives} `{J : SnapshotCodec} `{T : JsonText} `{X : Hex}.
Context (parse_request : bytes -> option PairingRequest).

Lemma pres_confirm coins ok sas name : Pres (perform_sas_confirmation coins ok sas name).
Proof.
  assert (forall a, host (promote_identity a) = host a) as Hp.
  { intros a. unfold promote_identity, register_allowed_client_cert, set_pinned_client_cert, register_allowed_client_cert.
    repeat case_match; reflexivity. }
  unfold perform_sas_confirmation, start_session, open_session_key.
  apply pres_bind; [apply pres_gets|intros count]. destruct (3 <=? count); [eauto with pres|].
  apply pres_bind; [eauto with pres|intros _]. apply pres_bind; [apply pres_gets|intros [stored key]].
  do 4 (apply pres_bind; [eauto with pres|intros _]). apply pres_bind.
  { intros a Ha. cbn. unfold store_session_key_to_keyring. apply absent_set; [by apply (bool_decide_unpack _)|done]. }
  intros _. apply pres_bind; [apply pres_gets|intros ss].
  apply pres_bind; [eauto 12 with pres|intros _]. apply pres_bind; [by apply pres_modify|intros _]. eauto 12 with pres.
Qed.

Lemma absent_unpair io cert ip a : absent MASTER_ENTRY (host a) -> absent MASTER_ENTRY (host (handle_unpair io cert ip a)).
Proof.
  intros H. unfold handle_unpair. destruct (negb _); [done|]. destruct (negb _); [done|].
  match goal with |- context [on_pairing (remove_peer_cert_mapping cert) ?x] => set (a1 := x) end.
  assert (absent MASTER_ENTRY (host a1)) as H1 by (unfold a1; destruct (PairingState.is_empty _); [done|by apply absent_remove_peer]).
  clearbody a1. destruct (_ && _); [|exact H1]. set (a2 := on_pairing _ a1). assert (absent MASTER_ENTRY (host a2)) as H2 by exact H1.
  clearbody a2. cbn [save_settings set_connection]. unfold unpair_primary.
  enough (absent MASTER_ENTRY (clear_ratchet_store (up_files io) (up_entries io (entry KEYRING_RATCHET_WATERMARK))
           (delete_password (up_entries io ("kyberpipe-tofu", "server_cert_hash")) ("kyberpipe-tofu", "server_cert_hash")
             (wipe_keyring_entries (up_entries io) (up_files io "device_mldsa_sk.bin") (host a2))))) as He by (by destruct (_ =? 0)).
  unfold clear_ratchet_store. apply absent_delete. cbn [foldl]. do 4 apply absent_remove. by apply absent_delete, absent_wipe.
Qed.

Lemma absent_step pace w w' :
  pairing_step pace parse_request w w' -> absent MASTER_ENTRY (host (fst w)) -> absent MASTER_ENTRY (host (fst w')).
Proof.
  intros [Hs|Hs] H; destruct Hs as [a l1 f l2|a fl l1 g l2 _ _] || destruct Hs as [now body ip cert a r a' fl E|now body ip cert a f a' fl E
    |coins ok sas name a fl|nonce a fl|ok coins a fl|io cert ip a fl]; cbn [fst] in *.
  - assert (host (snd (pairing_finish f a)) = host a) as ->; [|done]. unfold pairing_finish, refuse. by repeat case_match.
  - unfold timeout_task. destruct (_ && _); exact H.
  - assert (host a' = host a) as ->; [|done]. revert E. unfold pairing_begin. destruct (check_pairing_rate_limit _ _ _) as [allowed lim].
    repeat case_match; by intros [= <- <-].
  - assert (host a' = host a) as ->; [|done]. revert E. unfold pairing_begin. destruct (check_pairing_rate_limit _ _ _) as [allowed lim].
    repeat case_match; by intros [= <- <-].
  - by apply pres_confirm.
  - exact H.
  - cbn. unfold store_pairing_keypair_to_keyring. destruct (json_to_string _); [|done].
    apply absent_set; [by apply (bool_decide_unpack _)|done].
  - by apply absent_unpair.
Qed.

(** No recovery shares: on a desktop whose keyring has no master key when it is
    started, no pairing, confirmation, generation of a keypair or unpairing, in
    any order, ever stores one, so the generation of recovery shares always
    fails. *)
Theorem recovery_never_available pace a w io k n token st :
  absent MASTER_ENTRY (host a) -> rtc (pairing_step pace parse_request) (a, []) w ->
  exists e, fst (generate_shamir_recovery_shares io k n token (host (fst w)) st) = Err e.
Proof.
  intros Ha Hr. assert (absent MASTER_ENTRY (host (fst w))) as Hw.
  { remember (a, []) as w0 eqn:E0. assert (absent MASTER_ENTRY (host (fst w0))) as H0 by (by subst). clear E0 Ha.
    induction Hr as [|x y z Hxy _ IH]; [done|]. apply IH. by eapply absent_step. }
  unfold generate_shamir_recovery_shares. destruct (consume_privilege_token _ _ _ _) as [[] st1]; cbn [negb]; [|by eexists].
  destruct (k <? 2); [by eexists|]. unfold get_password. destruct (sp_get io); [rewrite Hw|]; by eexists.
Qed.

End Never.

(** ** A split and its reconstruction *)

Module Shares.
Import Toy ToyJson.

#[export] Instance toy_digests : DigestSizes.
Proof. split; intros; unfold len; cbn [sha256 hmac_sha256 toy_primitives]; unfold stretch; by rewrite length_map, length_seq. Qed.

Definition text_of (s : ShamirShare) : string := default "" (share_to_string s).
Definition key_host : Host := {| keyring := {[MASTER_ENTRY := hex_encode demo_secret]}; files := ∅ |}.
Definition split_io : SplitIo := {| sp_now := 1; sp_get := true; sp_coins := demo_coins; sp_stamp := 1000; sp_vk := demo_key |}.
Definition split_token : Tokens := [("generate_shamir_recovery_shares", "t", 0)].
Definition join_token : Tokens := [("reconstruct_key_from_shamir_shares", "u", 0)].

Lemma demo_split : split_secret_shamir_with_meta demo_coins 1000 demo_key demo_secret 2 3 = Ok demo_shares.
Proof. vm_compute. reflexivity. Qed.
Lemma demo_verified : forallb (fun s => verify_share_with_key s demo_secret) demo_shares = true.
Proof. vm_compute. reflexivity. Qed.
Lemma demo_generated : generate_shamir_recovery_shares split_io 2 3 "t" key_host split_token = (Ok (map text_of demo_shares), []).
Proof.
  unfold generate_shamir_recovery_shares. change (consume_privilege_token _ _ _ _) with (true, [] : Tokens). cbn [negb].
  change (2 <? 2) with false. cbn [sp_get split_io get_password]. unfold key_host. cbn [keyring]. rewrite lookup_singleton_eq.
  cbn [ok_or mbind result_bind]. rewrite hex_roundtrip. cbn [ok_or mbind result_bind sp_coins sp_stamp sp_vk split_io].
  rewrite demo_split, demo_verified. reflexivity.
Qed.

Lemma recovery_roundtrip_witness :
  fst (reconstruct_key_from_shamir_shares 1 (map text_of demo_pick) 2 "u" join_token) = Ok (hex_encode demo_secret).
Proof.
  apply (recovery_roundtrip split_io 2 3 "t" key_host split_token (map text_of demo_shares) [] (hex_encode demo_secret) demo_secret
           1 "u" join_token (map text_of demo_pick)).
  - by apply (bool_decide_eq_true_1 (u64_range 1000)); vm_compute.
  - by vm_compute.
  - exact demo_generated.
  - apply lookup_singleton_eq.
  - apply hex_roundtrip.
  - split; [reflexivity|]. by vm_compute.
  - by apply (bool_decide_eq_true_1 (NoDup (map text_of demo_pick))); vm_compute.
  - apply Forall_fmap. apply (Forall_impl (fun s => s ∈ demo_shares)).
    + by apply (bool_decide_eq_true_1 (Forall (fun s => s ∈ demo_shares) demo_pick)); vm_compute.
    + intros s Hs. apply list_elem_of_fmap. by exists s.
  - by vm_compute.
  - reflexivity.
Defined.

(** A desktop that generated its pairing keypair. *)
Lemma recovery_never_available_witness :
  exists e, fst (generate_shamir_recovery_shares split_io 2 3 "t" (host (generate_keypair true (Scenario.coins 1) Desk.desk)) split_token) = Err e.
Proof.
  apply (recovery_never_available Desk.no_json Timely Desk.desk (generate_keypair true (Scenario.coins 1) Desk.desk, []) split_io 2 3 "t" split_token).
  - reflexivity.
  - apply rtc_once. right. apply step_keypair.
Defined.

End Shares.
