(* ===== verification/PathMigration.v ===== *)
(** * PathMigration: proving the ownership of a new path
    (core-crypto/src/network/path_migration.rs, core-crypto/src/pairing_api.rs)

    A challenge is random text; its response is a truncated HMAC under a key
    derived from the session key.  The random bytes are an argument. *)

From S2P Require Import Prelude Error Primitives Toy Json RatchetState.

Section Path.
Context `{P : Primitives} `{X : Hex}.

Definition derive_path_challenge_key (session_key : bytes) : bytes :=
  hkdf_okm (Some (bstr "kyberpipe-path-challenge")) session_key (bstr "path-challenge-hmac-key") 32.

(** The response to a challenge: the first eight bytes of the HMAC, in hex. *)
Definition response_to (session_key : bytes) (challenge_token : string) : string :=
  hex_encode (take 8 (hmac_sha256 (derive_path_challenge_key session_key)
                        (bstr "kyberpipe-path-response:" ++ bstr challenge_token))).

Definition create_path_challenge (challenge_bytes session_key : bytes) : string * string :=
  let challenge_token := hex_encode challenge_bytes in (challenge_token, response_to session_key challenge_token).

Definition verify_path_response (session_key : bytes) (challenge_token response_token : string) : bool :=
  let expected := response_to session_key challenge_token in
  if negb (length (bstr expected) =? length (bstr response_token))%nat then false
  else eqb_dec (bstr expected) (bstr response_token).

Record PathChallengeResult := { challenge_token : string; expected_response : string }.

Definition generate_path_challenge_tokens (challenge_bytes session_key : bytes) : kres PathChallengeResult :=
  if negb (len session_key =? 32) then Err (InvalidKeyLength 32 (len session_key))
  else
    let '(challenge, expected) := create_path_challenge challenge_bytes session_key in
    Ok {| challenge_token := challenge; expected_response := expected |}.

Definition verify_path_response_token (session_key : bytes) (challenge response : string) : kres bool :=
  if negb (len session_key =? 32) then Err (InvalidKeyLength 32 (len session_key))
  else Ok (verify_path_response session_key challenge response).

(** A response is accepted exactly when it is the text the session key gives for
    the challenge: the one that was generated with it, and no other. *)
Theorem path_response_exact coins session_key challenge response result :
  generate_path_challenge_tokens coins session_key = Ok result ->
  verify_path_response_token session_key (challenge_token result) (expected_response result) = Ok true
  /\ (verify_path_response_token session_key challenge response = Ok true <-> response = response_to session_key challenge).
Proof.
  assert (forall c r, verify_path_response session_key c r = true <-> r = response_to session_key c) as Hv.
  { intros c r. unfold verify_path_response, eqb_dec. destruct (_ =? _)%nat eqn:E; cbn [negb].
    - rewrite bool_decide_eq_true. split; [intros H; symmetry; by apply bstr_inj|by intros ->].
    - split; [done|]. intros ->. by rewrite Nat.eqb_refl in E. }
  unfold generate_path_challenge_tokens, verify_path_response_token. destruct (len session_key =? 32); cbn [negb]; [|done].
  cbn [create_path_challenge]. intros [= <-]. cbn. split; [f_equal; by apply Hv|].
  rewrite <- Hv. split; [by intros [= H]|by intros ->].
Qed.

End Path.

Import Toy ToyJson.
Definition sample_key : bytes := replicate 32 x07.
Lemma path_response_exact_witness :
  verify_path_response_token sample_key (hex_encode [x01; x02]) (response_to sample_key (hex_encode [x01; x02])) = Ok true.
Proof.
  exact (proj1 (path_response_exact [x01; x02] sample_key "" ""
    {| challenge_token := hex_encode [x01; x02]; expected_response := response_to sample_key (hex_encode [x01; x02]) |} eq_refl)).
Defined.
