(* ===== verification/Recorder.v ===== *)
(** * Recorder: the flight data recorder (core-crypto/src/telemetry.rs)

    A bounded buffer of events behind a switch.  Its JSON text is third-party
    (serde_json), a parameter of the dump. *)

From S2P Require Import Prelude.

Inductive FlightEvent :=
| RatchetStep (seq path_id : Z)
| PathMigrated (from_ip to_ip : bytes)
| WasmExecuted (duration_us fuel_used : Z)
| ErrorTrace (error_message stacktrace : string).

Record FlightDataRecorder := { is_enabled : bool; events : list FlightEvent; max_events : nat }.

Definition new_recorder : FlightDataRecorder := {| is_enabled := false; events := []; max_events := 1024 |}.
Definition set_enabled (enabled : bool) (r : FlightDataRecorder) : FlightDataRecorder :=
  {| is_enabled := enabled; events := events r; max_events := max_events r |}.
Definition record_event (e : FlightEvent) (r : FlightDataRecorder) : FlightDataRecorder :=
  if negb (is_enabled r) then r
  else
    let buffer := if (max_events r <=? length (events r))%nat then tail (events r) else events r in
    {| is_enabled := is_enabled r; events := buffer ++ [e]; max_events := max_events r |}.

Definition sanitize (e : FlightEvent) : FlightEvent :=
  match e with ErrorTrace m _ => ErrorTrace m "" | e => e end.
Definition dump_events_json (to_string_pretty : list FlightEvent -> option string) (r : FlightDataRecorder) : string :=
  default "[]" (to_string_pretty (map sanitize (events r))).

Inductive RecorderOp := SetEnabled (enabled : bool) | RecordEvent (e : FlightEvent).
Definition exec_recorder (r : FlightDataRecorder) (op : RecorderOp) : FlightDataRecorder :=
  match op with SetEnabled b => set_enabled b r | RecordEvent e => record_event e r end.

(** The events recorded while the switch was on. *)
Fixpoint recorded (on : bool) (ops : list RecorderOp) : list FlightEvent :=
  match ops with
  | [] => []
  | SetEnabled b :: ops => recorded b ops
  | RecordEvent e :: ops => if on then e :: recorded on ops else recorded on ops
  end.

(** The last [n] of a list. *)
Definition lastn {A} (n : nat) (l : list A) : list A := drop (length l - n) l.

Lemma lastn_snoc {A} (n : nat) (l : list A) x :
  (0 < n)%nat -> lastn n (l ++ [x]) = (if (n <=? length (lastn n l))%nat then tail (lastn n l) else lastn n l) ++ [x].
Proof.
  intros Hn. unfold lastn. rewrite length_app, length_drop. cbn [length].
  destruct (n <=? _)%nat eqn:E; [apply Nat.leb_le in E|apply Nat.leb_gt in E].
  - rewrite drop_app_le by lia. f_equal. replace (length l + 1 - n)%nat with (length l - n + 1)%nat by lia.
    rewrite <- drop_drop. by destruct (drop (length l - n) l).
  - replace (length l + 1 - n)%nat with 0%nat by lia. by replace (length l - n)%nat with 0%nat by lia.
Qed.

Lemma recorder_run ops r seen :
  (0 < max_events r)%nat -> events r = lastn (max_events r) seen ->
  events (foldl exec_recorder r ops) = lastn (max_events r) (seen ++ recorded (is_enabled r) ops)
  /\ max_events (foldl exec_recorder r ops) = max_events r.
Proof.
  revert r seen. induction ops as [|op ops IH]; intros r seen Hm He; cbn [foldl recorded]; [by rewrite app_nil_r|].
  destruct op as [b|e]; cbn [exec_recorder].
  - apply (IH (set_enabled b r)); done.
  - unfold record_event. destruct (is_enabled r) eqn:Eb; cbn [negb].
    + rewrite <- Eb. set (r' := {| is_enabled := is_enabled r; events := _; max_events := _ |}).
      destruct (IH r' (seen ++ [e])) as [H1 H2]; [done|subst r'; cbn; by rewrite lastn_snoc, He|].
      rewrite H1, H2. subst r'. cbn. rewrite Eb. by rewrite <- app_assoc.
    + destruct (IH r seen Hm He) as [H1 H2]. by rewrite Eb in H1.
Qed.

(** The recorder keeps the last 1024 of the events recorded while it was on, in
    order, and a dump gives these without any stack trace. *)
Theorem recorder_keeps_last ops json :
  let r := foldl exec_recorder new_recorder ops in
  events r = lastn 1024 (recorded false ops)
  /\ (length (events r) <= 1024)%nat
  /\ dump_events_json json r = default "[]" (json (map sanitize (lastn 1024 (recorded false ops))))
  /\ Forall (fun e => forall m t, e = ErrorTrace m t -> t = "") (map sanitize (events r)).
Proof.
  cbn zeta. destruct (recorder_run ops new_recorder []) as [H _]; [cbn; lia|done|]. cbn [app is_enabled new_recorder max_events] in H.
  split; [done|]. split; [rewrite H; unfold lastn; rewrite length_drop; lia|]. split; [unfold dump_events_json; by rewrite H|].
  apply Forall_forall. intros e. rewrite list_elem_of_fmap. intros (x & -> & _) m t. destruct x; cbn; congruence.
Qed.
