(* ===== verification/Persist.v ===== *)
(** * Persist: the coalescing file writer (desktop state/persist.rs)

    Producers put (path, text) pairs into a slot that keeps one pair per path;
    one writer thread takes the whole slot and writes it.  A critical section of
    the slot's mutex is one step, so is the writing of one file; the steps of the
    producers, the writer and the teardown interleave freely. *)

From stdpp Require Import pretty.
From S2P Require Import Prelude.

Definition MAX_PENDING_PATHS : nat := 32.

(** [guard[pos] = (path, data)] at the first position of the path, if any. *)
Fixpoint set_pending (path data : string) (q : list (string * string)) : option (list (string * string)) :=
  match q with
  | [] => None
  | (p, d) :: q => if decide (p = path) then Some ((path, data) :: q) else cons (p, d) <$> set_pending path data q
  end.

(** [while guard.len() > MAX_PENDING_PATHS { guard.pop_front() }] *)
Fixpoint drop_oldest (q : list (string * string)) : list (string * string) :=
  if decide (MAX_PENDING_PATHS < length q)%nat then match q with [] => [] | _ :: q => drop_oldest q end else q.

Definition persist (path data : string) (q : list (string * string)) : list (string * string) :=
  match set_pending path data q with
  | Some q => q
  | None => drop_oldest (q ++ [(path, data)])
  end.

(** The drain into the map of latest values. *)
Definition drained_into (m : gmap string string) (q : list (string * string)) : gmap string string :=
  foldl (fun m pd => <[pd.1 := pd.2]> m) m q.

(** The slot, the writer's map while it writes, the files, the shutdown flag and
    whether the thread is alive. *)
Record Writer := {
  slot : list (string * string);
  latest : gmap string string;
  disk : gmap string string;
  persist_shutdown : bool;
  running : bool
}.
Definition eta_writer (w : Writer) : Writer := {|
  slot := slot w; latest := latest w; disk := disk w; persist_shutdown := persist_shutdown w; running := running w |}.
#[export] Instance upd_slot : Update slot. Proof. solve_update eta_writer slot. Defined.
#[export] Instance upd_latest : Update latest. Proof. solve_update eta_writer latest. Defined.
#[export] Instance upd_disk : Update disk. Proof. solve_update eta_writer disk. Defined.
#[export] Instance upd_persist_shutdown : Update persist_shutdown. Proof. solve_update eta_writer persist_shutdown. Defined.
#[export] Instance upd_running : Update running. Proof. solve_update eta_writer running. Defined.

Definition persist_channel (files : gmap string string) : Writer :=
  {| slot := []; latest := ∅; disk := files; persist_shutdown := false; running := true |}.

(** What becomes of one write: [File::create] may fail, [write_all] may stop. *)
Inductive WriteFate := Written | NotCreated | Torn (part : string).
Definition write_file (fate : WriteFate) (path data : string) (files : gmap string string) : gmap string string :=
  match fate with
  | Written => <[path := data]> files
  | NotCreated => files
  | Torn part => <[path := part]> files
  end.

(** The writer thread, with the fates its writes may have. *)
Inductive writer_step (fates : WriteFate -> Prop) : Writer -> Writer -> Prop :=
| step_drain w :
    running w = true -> latest w = ∅ -> slot w <> [] ->
    writer_step fates w (w <| latest := drained_into ∅ (slot w) |> <| slot := [] |>)
| step_write w path data fate :
    running w = true -> latest w !! path = Some data -> fates fate ->
    writer_step fates w (w <| latest ::= delete path |> <| disk ::= write_file fate path data |>)
| step_exit w :
    running w = true -> latest w = ∅ -> slot w = [] -> persist_shutdown w = true ->
    writer_step fates w (w <| running := false |>).

Definition shutdown_persist (w : Writer) : Writer := w <| persist_shutdown := true |>.

(** A run of everything, beside the map of the values last persisted. *)
Inductive persist_step (fates : WriteFate -> Prop) (paths : list string)
  : Writer * gmap string string -> Writer * gmap string string -> Prop :=
| step_persist w newest path data :
    path ∈ paths ->
    persist_step fates paths (w, newest) (w <| slot ::= persist path data |>, <[path := data]> newest)
| step_writer w w' newest : writer_step fates w w' -> persist_step fates paths (w, newest) (w', newest)
| step_shutdown w newest : persist_step fates paths (w, newest) (shutdown_persist w, newest).

(** ** The slot *)

Lemma drop_oldest_spec q : drop_oldest q = drop (length q - MAX_PENDING_PATHS) q.
Proof.
  induction q as [|x q IH]; [done|]. cbn [drop_oldest]. case_decide as H; cbn [length] in *.
  - rewrite IH. by replace (S (length q) - MAX_PENDING_PATHS)%nat with (S (length q - MAX_PENDING_PATHS)) by lia.
  - by replace (S (length q) - MAX_PENDING_PATHS)%nat with 0%nat by lia.
Qed.

Lemma set_pending_none path data q : set_pending path data q = None <-> path ∉ q.*1.
Proof.
  induction q as [|[p d] q IH]; cbn; [split; [set_solver|done]|].
  rewrite elem_of_cons. case_decide as H; [split; [done|intros []; by left]|]. rewrite fmap_None, IH. naive_solver.
Qed.

Lemma set_pending_some path data q q' :
  set_pending path data q = Some q' ->
  q'.*1 = q.*1 /\ (NoDup q.*1 -> (list_to_map q' : gmap string string) = <[path := data]> (list_to_map q)).
Proof.
  revert q'. induction q as [|[p d] q IH]; intros q'; cbn; [done|]. case_decide as H.
  - intros [= <-]. subst p. split; [done|]. intros _. by rewrite insert_insert_eq.
  - intros (r & Hr & ->)%fmap_Some. destruct (IH r Hr) as [Hk Hm]. cbn. split; [by f_equal|].
    intros [_ HN]%NoDup_cons. rewrite Hm by done. by apply insert_insert_ne.
Qed.

(** The slot never has two pairs of one path, nor more than 32 pairs. *)
Lemma persist_bounded path data q :
  NoDup q.*1 -> (length q <= MAX_PENDING_PATHS)%nat ->
  NoDup (persist path data q).*1 /\ (length (persist path data q) <= MAX_PENDING_PATHS)%nat.
Proof.
  intros HN Hl. unfold persist. destruct (set_pending path data q) as [q'|] eqn:E.
  - destruct (set_pending_some _ _ _ _ E) as [Hk _]. rewrite Hk. split; [done|].
    apply (f_equal length) in Hk. rewrite !length_fmap in Hk. lia.
  - apply set_pending_none in E. rewrite drop_oldest_spec. split.
    + rewrite fmap_drop, fmap_app. eapply sublist_NoDup; [|apply sublist_drop].
      apply NoDup_app. split; [done|]. split; [set_solver|apply NoDup_singleton].
    + rewrite length_drop, length_app. cbn. lia.
Qed.

(** Within a set of 32 paths nothing is dropped. *)
Lemma persist_keeps paths path data q :
  NoDup q.*1 -> q.*1 ⊆ paths -> path ∈ paths -> (length paths <= MAX_PENDING_PATHS)%nat ->
  (persist path data q).*1 ⊆ paths
  /\ (list_to_map (persist path data q) : gmap string string) = <[path := data]> (list_to_map q).
Proof.
  intros HN Hs Hp Hl. unfold persist. destruct (set_pending path data q) as [q'|] eqn:E.
  - destruct (set_pending_some _ _ _ _ E) as [Hk Hm]. by rewrite Hk, Hm.
  - apply set_pending_none in E. assert (NoDup (path :: q.*1)) as HN' by (by apply NoDup_cons).
    assert (path :: q.*1 ⊆ paths) as Hin by set_solver.
    pose proof (NoDup_submseteq _ _ HN' Hin) as Hsub. apply submseteq_length in Hsub.
    cbn in Hsub. rewrite length_fmap in Hsub. rewrite drop_oldest_spec, length_app. cbn.
    replace (length q + 1 - MAX_PENDING_PATHS)%nat with 0%nat by lia. rewrite drop_0, fmap_app. cbn.
    split; [set_solver|]. by apply list_to_map_snoc.
Qed.

Lemma drained_into_map m q : NoDup q.*1 -> drained_into m q = list_to_map q ∪ m.
Proof.
  revert m. induction q as [|[p d] q IH]; intros m; cbn; [by rewrite (left_id_L ∅ (∪))|].
  intros [Hp HN]%NoDup_cons. unfold drained_into in *. rewrite IH by done.
  rewrite <- insert_union_r, insert_union_l; [done|by apply not_elem_of_list_to_map_1].
Qed.

(** ** What the files will be *)

(** The slot over the writer's map over the files. *)
Definition overlay (w : Writer) : gmap string string := list_to_map (slot w) ∪ latest w ∪ disk w.

Record coalescing (paths : list string) (w : Writer) : Prop := {
  co_nodup : NoDup (slot w).*1;
  co_paths : (slot w).*1 ⊆ paths;
  co_exit : running w = false -> latest w = ∅
}.

Lemma write_moves m d p (v : string) : m !! p = Some v -> delete p m ∪ <[p := v]> d = m ∪ d :> gmap string string.
Proof.
  intros H. apply map_eq. intros k. destruct (decide (k = p)) as [->|Hk].
  - rewrite lookup_union_r by apply lookup_delete_eq. rewrite lookup_insert_eq. symmetry. by apply lookup_union_Some_l.
  - rewrite !lookup_union, lookup_delete_ne, lookup_insert_ne by done. done.
Qed.

Lemma writer_step_refines paths w w' :
  coalescing paths w -> writer_step (eq Written) w w' -> coalescing paths w' /\ overlay w' = overlay w.
Proof.
  intros HC Hs. revert HC. destruct Hs as [w Hr H0 Hn|w p d fate Hr H0 Hf|w Hr H0 Hn Hd]; intros [HN HP HE]; unfold overlay; cbn in *.
  - split; [split; cbn; try done; [apply NoDup_nil_2|set_solver|congruence]|].
    rewrite drained_into_map by done. by rewrite H0, !(right_id_L ∅ (∪)), (left_id_L ∅ (∪)).
  - split; [split; cbn; try done; congruence|]. subst fate. cbn. rewrite <- !(assoc_L (∪)). f_equal. by apply write_moves.
  - split; [split; cbn; done|done].
Qed.

Lemma persist_step_refines paths w e w' e' :
  (length paths <= MAX_PENDING_PATHS)%nat -> coalescing paths w -> overlay w = e ->
  persist_step (eq Written) paths (w, e) (w', e') -> coalescing paths w' /\ overlay w' = e'.
Proof.
  intros Hl HC He Hs. inversion Hs as [? ? path data Hp|? ? ? Hw|]; subst.
  - destruct HC as [HN HP HE]. destruct (persist_keeps paths path data (slot w) HN HP Hp Hl) as [HP' Hm].
    split; [split; cbn; [apply persist_bounded; try done|done|done]|].
    + pose proof (submseteq_length _ _ (NoDup_submseteq _ _ HN HP)) as H.
      rewrite length_fmap in H. lia.
    + unfold overlay. cbn. by rewrite Hm, !insert_union_l.
  - destruct (writer_step_refines paths w w' HC Hw) as [HC' <-]. done.
  - destruct HC as [HN HP HE]. split; [by split|done].
Qed.

Lemma reachable_refines paths files w e :
  (length paths <= MAX_PENDING_PATHS)%nat ->
  rtc (persist_step (eq Written) paths) (persist_channel files, files) (w, e) ->
  coalescing paths w /\ overlay w = e.
Proof.
  intros Hl H. remember (persist_channel files, files) as we eqn:Ewe. remember (w, e) as we' eqn:Ewe'.
  assert (coalescing paths (fst we) /\ overlay (fst we) = snd we) as H0.
  { subst we. split; [split; cbn; [apply NoDup_nil_2|set_solver|done]|]. unfold overlay. cbn. by rewrite !(left_id_L ∅ (∪)). }
  clear Ewe. revert Ewe'. induction H as [x|[w1 e1] [w2 e2] y Hs _ IH]; intros ->; [done|].
  apply IH; [|done]. destruct H0 as [HC He]. by eapply persist_step_refines.
Qed.

(** ** Progress *)

(** Every step of the writer uses up a pair of the slot or of its map, or ends it. *)
Definition remaining (w : Writer) : nat := 2 * length (slot w) + size (latest w) + (if running w then 1 else 0).

Lemma writer_decreases paths fates w w' :
  coalescing paths w -> writer_step fates w w' -> (remaining w' < remaining w)%nat.
Proof.
  intros HC Hs. revert HC. destruct Hs as [w Hr H0 Hn|w p d fate Hr H0 Hf|w Hr H0 Hn Hd]; intros [HN _ _]; unfold remaining; cbn in *.
  - rewrite drained_into_map, (right_id_L ∅ (∪)), H0, map_size_empty by done.
    rewrite map_size_list_to_map by done. destruct (slot w); [done|cbn; lia].
  - rewrite map_size_delete_Some by (by eexists). assert (size (latest w) <> 0)%nat; [|lia].
    intros E%map_size_empty_inv. rewrite E in H0. by rewrite lookup_empty in H0.
  - rewrite Hr. lia.
Qed.

Definition quiet (w : Writer) : Prop := slot w = [] /\ latest w = ∅.

Lemma writer_enabled fates w : fates Written -> running w = true -> quiet w \/ exists w', writer_step fates w w'.
Proof.
  intros Hf Hr. destruct (decide (latest w = ∅)) as [E|(p & d & Hp)%map_choose].
  - destruct (slot w) as [|x q] eqn:Es; [by left|]. right. eexists. apply step_drain; [done|done|by rewrite Es].
  - right. eexists. by eapply step_write.
Qed.

(** C15: Whatever is persisted to at most 32 paths, in whatever order with the
    writer's drains and writes, a living writer whose writes succeed comes, by
    its own steps, to a state in which every file holds the text last persisted
    to it and the other files are as they were. *)
Theorem newest_value_lands paths files w newest :
  (length paths <= MAX_PENDING_PATHS)%nat ->
  rtc (persist_step (eq Written) paths) (persist_channel files, files) (w, newest) -> running w = true ->
  inevitably (writer_step (eq Written)) (fun w' => disk w' = newest) w.
Proof.
  intros Hl H Hr. destruct (reachable_refines paths files w newest Hl H) as [HC He].
  apply inevitably_measure with (I := fun w => coalescing paths w /\ overlay w = newest /\ (running w = true \/ quiet w)) (f := remaining);
    [..|by split_and!; [..|left]].
  - intros v (HCv & Hov & Hv). assert (quiet v -> disk v = newest) as HQ.
    { intros [Es El]. rewrite <- Hov. unfold overlay. rewrite Es, El. cbn. by rewrite !(left_id_L ∅ (∪)). }
    destruct Hv as [Hv|Hv]; [|by left; apply HQ]. destruct (writer_enabled (eq Written) v) as [?|?]; [done..|by left; apply HQ|by right].
  - intros v v' (HCv & Hov & _) Hs. split; [|by eapply writer_decreases].
    destruct (writer_step_refines paths v v' HCv Hs) as [HC' Ho]. split_and!; [done|by rewrite Ho|].
    destruct Hs; cbn; [by left|by left|by right].
Qed.

(** With a 33rd path a value is lost: a text persisted last to the oldest path
    takes that path's old place and is the one dropped. *)
Definition crowded : list (string * string) :=
  foldl (fun q n => persist (pretty (n : Z)) "old" q) [] (seqZ 0 32).

Lemma newest_value_dropped :
  persist "0" "new" crowded !! 0%nat = Some ("0", "new") /\ "0" ∉ (persist "32" "x" (persist "0" "new" crowded)).*1.
Proof. split; [by vm_compute|]. apply (bool_decide_unpack _). by vm_compute. Qed.

(** ** Witness *)

Definition settings_saved : Writer :=
  (persist_channel ∅) <| slot := [("settings.json", "{}")] |>.

Lemma newest_value_lands_witness :
  inevitably (writer_step (eq Written)) (fun w' => disk w' = {[ "settings.json" := "{}" ]}) settings_saved.
Proof.
  apply (newest_value_lands ["settings.json"] ∅ settings_saved {[ "settings.json" := "{}" ]}).
  - cbn. unfold MAX_PENDING_PATHS. lia.
  - apply rtc_once. apply (step_persist (eq Written) ["settings.json"] (persist_channel ∅) ∅ "settings.json" "{}"). by left.
  - reflexivity.
Defined.
