(* ===== verification/Poll.v ===== *)
(** * Poll: the poll handler (desktop-app/src-tauri/src/handlers/poll.rs,
    handlers/mod.rs, the binary entry points of core-crypto/src/lib.rs)

    [ServerState] is what the stream handlers work on: the application's state,
    the synchronize caches, the poll handler's own statics and the user-facing
    state.  The work a poll delegates to the blocking pool is one computation;
    an error of a step is swallowed as in the code, a panic ends the work and
    gives the empty answer.  Base64 is a third-party crate, a parameter with its
    round trip as a law. *)

From Stdlib.Strings Require Import Ascii.
From S2P Require Import Prelude Error Primitives Aead Tlv Packets Json RatchetState Registry RekeyAck Sync.
From S2P Require Import RatchetEncrypt KemHandle RatchetStore Utils PairingState Pairing.

Class Base64 := { b64_encode : bytes -> string; b64_decode : string -> option bytes }.
Class Base64Laws `{B : Base64} := { b64_roundtrip b : b64_decode (b64_encode b) = Some b }.

Record MediaAction := { ma_title : string; ma_index : Z }.
Record MediaState := {
  ms_title : string; ms_artist : string; ms_album_art : string; ms_is_playing : bool; ms_actions : list MediaAction
}.

Record ServerState := {
  app : AppState;
  sync_times : gmap string (list Z);
  sync_cache : gmap string (list AppliedSyncEntry);
  (** LAST_PERSISTED_STATE: (generation, sent, received). *)
  last_persisted_state : gmap string (Z * Z * Z);
  clipboard_cache : option (Z * bytes);
  dedup : ClipboardDeduplicator;
  inbound_clipboard_enabled : bool;
  (** What was last written to the operating system's clipboard. *)
  os_clipboard : bytes;
  pending_media_action : option Z;
  media_state : option MediaState;
  sms_history : list SmsPacket
}.
Definition eta_server (s : ServerState) : ServerState := {|
  app := app s; sync_times := sync_times s; sync_cache := sync_cache s; last_persisted_state := last_persisted_state s;
  clipboard_cache := clipboard_cache s; dedup := dedup s; inbound_clipboard_enabled := inbound_clipboard_enabled s;
  os_clipboard := os_clipboard s; pending_media_action := pending_media_action s; media_state := media_state s;
  sms_history := sms_history s |}.
#[export] Instance upd_app : Update app. Proof. solve_update eta_server app. Defined.
#[export] Instance upd_sync_times : Update sync_times. Proof. solve_update eta_server sync_times. Defined.
#[export] Instance upd_sync_cache : Update sync_cache. Proof. solve_update eta_server sync_cache. Defined.
#[export] Instance upd_last_persisted : Update last_persisted_state. Proof. solve_update eta_server last_persisted_state. Defined.
#[export] Instance upd_clipboard_cache : Update clipboard_cache. Proof. solve_update eta_server clipboard_cache. Defined.
#[export] Instance upd_dedup : Update dedup. Proof. solve_update eta_server dedup. Defined.
#[export] Instance upd_os_clipboard : Update os_clipboard. Proof. solve_update eta_server os_clipboard. Defined.
#[export] Instance upd_media_action : Update pending_media_action. Proof. solve_update eta_server pending_media_action. Defined.
#[export] Instance upd_media_state : Update media_state. Proof. solve_update eta_server media_state. Defined.
#[export] Instance upd_sms_history : Update sms_history. Proof. solve_update eta_server sms_history. Defined.

Abbreviation server := (Comp KyberError ServerState).

Definition regs (s : ServerState) : Registry := ratchets (app s).
Definition set_regs (r : Registry) (s : ServerState) : ServerState := s <| app ::= fun a => a <| ratchets := r |> |>.

(** A step whose error the handler only logs: [None] then; a panic is not caught. *)
Definition attempt {A} (c : registry A) : server (option A) :=
  fun s => match c (regs s) with
           | (Ok x, r) => (Ok (Some x), set_regs r s)
           | (Err _, r) => (Ok None, set_regs r s)
           | (Panic m, r) => (Panic m, set_regs r s)
           end.
Definition attempt_sync {A} (c : world A) : server (option A) :=
  fun s =>
    let '(res, w) := c {| reg := regs s; last_sync_at := sync_times s; applied_sync_cache := sync_cache s |} in
    let s := (set_regs (reg w) s) <| sync_times := last_sync_at w |> <| sync_cache := applied_sync_cache w |> in
    match res with Ok x => (Ok (Some x), s) | Err _ => (Ok None, s) | Panic m => (Panic m, s) end.

Definition as_bool (v : Value) : option bool := match v with Bool b => Some b | _ => None end.
Definition obj (l : list (string * Value)) : Value := Object (list_to_map l).

Inductive EncryptionMethod := Ratchet (peer_id : string) | NoEncryption.
Definition select_encryption_method (peer_id : string) : EncryptionMethod :=
  if negb (is_empty peer_id) then Ratchet peer_id else NoEncryption.

Section Entry.
Context `{P : Primitives}.

(** ** The binary entry points *)

Definition ratchet_encrypt_message_binary (clk : Clock) (coins : RekeyCoins) (peer : string) (plaintext : bytes)
  : registry bytes :=
  msg ← ratchet_encrypt_message_impl clk coins peer plaintext; lift (to_binary msg).

Definition ratchet_decrypt_message_binary (clk : Clock) (peer : string) (data : bytes) : registry bytes :=
  msg ← lift (from_binary data);
  if has_rekey_field msg then
    rekey_x ← lift (check_len 32 (msg_rekey_x25519_pk msg));
    ratchet_decrypt_with_rekey_message_impl clk peer (msg_nonce msg) (msg_ciphertext msg) (msg_rekey_ciphertext msg)
      rekey_x (msg_rekey_mlkem_pk msg)
  else ratchet_decrypt_message_impl peer msg.

End Entry.

(** ** Whether there is something to persist *)

Definition ratchet_dirty_since_last_persist (peer : string) (s : ServerState) : bool * ServerState :=
  match ratchet_session_watermark_impl peer (regs s) with
  | Ok (Some wm) =>
      let now := (wm_ratchet_generation wm, wm_send_message_count wm, wm_recv_message_count wm) in
      let last := default (0, 0, 0) (last_persisted_state s !! peer) in
      if bool_decide (now = last) then (false, s)
      else (true, s <| last_persisted_state ::= <[peer := now]> |>)
  | _ => (false, s)
  end.

Definition CLIPBOARD_CACHE_TTL : Z := secs 1.

(** [os] is what a read of the clipboard returns, nothing when it fails; [now]
    and [later] are the instants before and after it. *)
Definition cached_clipboard_read (now later : Z) (os : option bytes) (s : ServerState) : bytes * ServerState :=
  let fresh := match clipboard_cache s with
               | Some (at_, b) => if sat_sub now at_ <? CLIPBOARD_CACHE_TTL then Some b else None
               | None => None
               end in
  match fresh with
  | Some b => (b, s)
  | None => let content := default [] os in (content, s <| clipboard_cache := Some (later, content) |>)
  end.

(** What the environment supplies to one poll. *)
Record PollInputs := {
  in_connected : bool;
  in_clocks : Clock * Clock * Clock * Clock * Clock;
  in_clip_times : Z * Z;
  in_clip : option bytes;
  in_coins : RekeyCoins * RekeyCoins * RekeyCoins;
  in_key_ok : bool * bool;
  in_fresh_key : bytes;
  in_persist : PersistIo;
  in_nonces : string -> bytes
}.

Section Poll.
Context `{P : Primitives} `{J : SnapshotCodec} `{T : JsonText} `{X : Hex} `{C : PacketCodec} `{B : Base64}.

Definition tlv_field (bin : bytes) : Value := obj [("tlv_b64", Str (b64_encode bin))].

Definition encrypt_clipboard_data (clk : Clock) (coins : RekeyCoins) (method : EncryptionMethod) (clip : bytes) : server Value :=
  match method with
  | Ratchet peer =>
      o ← attempt (ratchet_encrypt_message_binary clk coins peer clip);
      mret (match o with Some bin => obj [("encrypted_ratchet", tlv_field bin)] | None => Null end)
  | NoEncryption => mret Null
  end.

(** ** The request *)

Definition parse_json (body : bytes) : option Value := json_from_str (Pairing.text body).
Definition tlv_of (v : Value) : option bytes := t ← get_field "tlv_b64" v; s ← as_str t; b64_decode s.

Definition peer_sync_packet (body : bytes) : option bytes :=
  match body with [] => None | _ => v ← parse_json body; sync ← get_field "sync" v; tlv_of sync end.
Definition peer_requested_sync (body : bytes) : bool :=
  match body with
  | [] => false
  | _ => default false (v ← parse_json body; x ← get_field "need_sync" v; as_bool x)
  end.
Definition peer_rekey_ack_packet (body : bytes) : option bytes :=
  match body with [] => None | _ => v ← parse_json body; ack ← get_field "rekey_ack_encrypted" v; tlv_of ack end.

(** ** The work on the blocking pool *)

(** The peer's Synchronize and acknowledgement. *)
Definition consume_request (i : PollInputs) (peer : string) (body : bytes) : server unit :=
  let '(c1, c2, _, _, _) := in_clocks i in
  if is_empty peer then mret tt
  else
    _ ← match peer_sync_packet body with
        | Some data => _ ← attempt_sync (ratchet_process_synchronize_impl c1 peer data); mret tt
        | None => mret tt
        end;
    match peer_rekey_ack_packet body with
    | Some data => _ ← attempt (ratchet_process_rekey_ack_binary_impl c2 peer data); mret tt
    | None => mret tt
    end.

Definition clipboard_part (i : PollInputs) (peer : string) : server Value :=
  let '(_, _, c3, _, _) := in_clocks i in
  clip ← (fun s => let '(b, s) := cached_clipboard_read (fst (in_clip_times i)) (snd (in_clip_times i)) (in_clip i) s in (Ok b, s));
  match clip with
  | [] => mret Null
  | _ => encrypt_clipboard_data c3 (fst (fst (in_coins i))) (select_encryption_method peer) clip
  end.

Definition persist_part (i : PollInputs) (peer : string) (s : ServerState) : ServerState :=
  if is_empty peer then s
  else
    let '(key, h) := snapshot_key_from_keyring (fst (in_key_ok i)) (snd (in_key_ok i)) (in_fresh_key i) (host (app s)) in
    let s := s <| app ::= fun a => a <| host := h |> |> in
    match key with
    | None => s
    | Some sk =>
        let '(dirty, s) := ratchet_dirty_since_last_persist peer s in
        if dirty : bool
        then s <| app ::= fun a => a <| host ::= persist_all_ratchet_sessions (in_persist i) (in_nonces i) sk (ratchets a) |> |>
        else s
    end.

Definition ack_part (i : PollInputs) (peer : string) : server (option bytes) :=
  let '(_, _, _, c4, _) := in_clocks i in
  if is_empty peer then mret None
  else o ← attempt (ratchet_generate_rekey_ack_binary_peek_impl c4 (snd (fst (in_coins i))) peer);
       mret (o ≫= id).

Definition sync_part (i : PollInputs) (peer : string) (need_sync : bool) : server (option bytes) :=
  let '(_, _, _, _, c5) := in_clocks i in
  if need_sync && negb (is_empty peer)
  then attempt (m ← ratchet_synchronize_packet_impl c5 (snd (in_coins i)) peer; lift (to_binary m))
  else mret None.

Definition poll_work (i : PollInputs) (peer : string) (need_sync : bool) (body : bytes)
  : server (Value * option bytes * option bytes) :=
  _ ← consume_request i peer body;
  clip ← clipboard_part i peer;
  _ ← modify (persist_part i peer);
  ack ← ack_part i peer;
  sync ← sync_part i peer need_sync;
  mret (clip, ack, sync).

(** ** The response *)

Definition insert_field (k : string) (v : Value) (r : Value) : Value :=
  match r with Object m => Object (<[k := v]> m) | _ => r end.

Definition assemble (base clip : Value) (ack sync : option bytes) : Value :=
  let resp := insert_field "latest_clip_encrypted" clip base in
  let manifest := ["latest_clip_encrypted"] in
  let '(resp, manifest) := match ack with
                           | Some bin => (insert_field "rekey_ack_encrypted" (tlv_field bin) resp, manifest ++ ["rekey_ack_encrypted"])
                           | None => (resp, manifest)
                           end in
  let '(resp, manifest) := match sync with
                           | Some bin => (insert_field "sync" (tlv_field bin) resp, manifest ++ ["sync"])
                           | None => (resp, manifest)
                           end in
  insert_field "manifest" (Array (Str <$> manifest)) resp.

Definition build_poll_response (i : PollInputs) (peer : string) (base : Value) (need_sync : bool) (body : bytes) (s : ServerState)
  : Value * ServerState :=
  match poll_work i peer need_sync body s with
  | (Ok (clip, ack, sync), s) => (assemble base clip ack sync, s)
  | (_, s) => (assemble base Null None None, s)
  end.

(** The connection state as the transport sees it. *)
Definition sync_connection_state (connected : bool) (s : ServerState) : ServerState :=
  if connected then s
  else s <| app ::= fun a => a <| PairingState.connection ::= fun c => {| status := "DISCONNECTED"; method := method c; color := "red" |} |> |>.

(** [read_local_state]; reading the pending media action clears it. *)
Definition read_local_state (s : ServerState) : Value * ServerState :=
  let c := PairingState.connection (app s) in
  (obj [("is_paired", Bool (is_paired (settings (app s)))); ("connection_status", Str (status c));
        ("connection_method", Str (method c)); ("connection_color", Str (color c));
        ("pending_media_action", match pending_media_action s with Some n => Number n | None => Null end)],
   s <| pending_media_action := None |>).

Definition handle_poll (i : PollInputs) (body : bytes) (peer : string) (s : ServerState) : bytes * ServerState :=
  let s := sync_connection_state (in_connected i) s in
  let '(base, s) := read_local_state s in
  let need_sync := peer_requested_sync body in
  let '(resp, s) := build_poll_response i peer base need_sync body s in
  (bstr (default "" (json_to_string resp)), s).

End Poll.
