(* ===== verification/Streams.v ===== *)
(** * Streams: the stream handlers and their dispatch
    (desktop-app/src-tauri/src/handlers/mod.rs, clipboard.rs, media.rs, sms.rs,
    sync_server.rs)

    One accepted stream from its first byte to its answer: authorization from
    the header, the body, the handler of the stream's type, and what follows the
    answer.  The connection's certificate hash and address are the TLS layer's;
    serde's derived parsers for the pairing request and the SMS packet are
    parameters.  A stream here is one that was admitted; the accept loop and
    its budgets are in Accept. *)

From Stdlib.Strings Require Import Ascii.
From S2P Require Import Prelude Error Primitives Aead Tlv Frame Packets Json RatchetState RatchetEncrypt Registry RekeyAck Sync.
From S2P Require Import KemHandle RatchetStore Utils PairingPolicy PairingState Pairing Poll.

(** The answers: the fixed JSON texts by what they say, or a body. *)
Inductive Reply :=
| Synced
| Failure (reason : string)
| Answer (r : Response)
| Content (b : bytes)
| Nothing.

Definition PAIRING_MAX_BODY_BYTES : Z := 16 * 1024.

Definition authorize_stream (cert : string) (st : byte) (a : AppState) : result string unit :=
  if bool_decide (st = STREAM_PAIRING) then
    if is_paired (settings a) then Err "Already paired — unpair first" else Ok tt
  else if negb (is_paired (settings a)) then Err "Not paired"
  else if is_empty cert || negb (is_authorized_peer_cert cert (pairing a)) then Err "Peer certificate not authorized"
  else Ok tt.

(** What the environment supplies to one stream. *)
Record StreamInputs := {
  si_clock : Clock;
  si_now : Z;
  si_poll : PollInputs;
  si_unpair : UnpairIo;
  si_clip_ok : bool;
  si_sent : bool
}.

Section Streams.
Context `{P : Primitives} `{J : SnapshotCodec} `{T : JsonText} `{X : Hex} `{C : PacketCodec} `{B : Base64}.
Context (parse_request : bytes -> option PairingRequest) (parse_sms : bytes -> option SmsPacket).

(** ** The shared wire format *)

(** The TLV a body carries for the peer; [None] when there is none. *)
Definition ratchet_payload (body : bytes) (peer : string) : option bytes :=
  v ← json_from_str (Pairing.text (from_utf8_lossy body));
  if is_empty peer then None else enc ← get_field "encrypted_ratchet" v; tlv_of enc.

Definition decrypt_json_payload (clk : Clock) (body : bytes) (peer : string) : server (option bytes) :=
  match ratchet_payload body peer with
  | None => mret None
  | Some bin =>
      o ← attempt (ratchet_decrypt_message_binary clk peer bin);
      mret (pt ← o; if utf8_valid pt then Some pt else None)
  end.

(** ** The handlers *)

Definition handle_clipboard (i : StreamInputs) (body : bytes) (peer : string) : server Reply :=
  o ← decrypt_json_payload (si_clock i) body peer;
  match o with
  | None => mret (match body with [] => Synced | _ => Failure "Decryption failed" end)
  | Some [] => mret Synced
  | Some decrypted =>
      fresh ← (fun s => let '(b, d) := check_and_record decrypted (dedup s) in (Ok b, s <| dedup := d |>));
      _ ← (if fresh : bool then
             modify (fun s => if inbound_clipboard_enabled s && si_clip_ok i then s <| os_clipboard := decrypted |> else s)
           else mret tt);
      mret Synced
  end.

Definition str_field (k : string) (v : Value) : string := default "" (get_field k v ≫= as_str).
Definition media_action (v : Value) : MediaAction :=
  {| ma_title := str_field "title" v; ma_index := wrap32 (default 0 (get_field "index" v ≫= as_u64)) |}.
Definition media_of (v : Value) : MediaState := {|
  ms_title := str_field "title" v; ms_artist := str_field "artist" v; ms_album_art := str_field "album_art" v;
  ms_is_playing := default false (get_field "is_playing" v ≫= as_bool);
  ms_actions := media_action <$> default [] (get_field "actions" v ≫= as_array) |}.

Definition handle_media (i : StreamInputs) (body : bytes) (peer : string) : server Reply :=
  o ← decrypt_json_payload (si_clock i) body peer;
  match o ≫= (fun p => json_from_str (Pairing.text p)) with
  | Some v => _ ← modify (fun s => s <| media_state := Some (media_of v) |>); mret Synced
  | None => mret (match body with [] => Synced | _ => Failure "Decryption failed" end)
  end.

Definition handle_sms (i : StreamInputs) (body : bytes) (peer : string) : server Reply :=
  o ← decrypt_json_payload (si_clock i) body peer;
  match o ≫= parse_sms with
  | Some pkt => _ ← modify (fun s => s <| sms_history ::= fun l => l ++ [pkt] |>); mret Synced
  | None => mret (match body with [] => Failure "Empty body" | _ => Failure "Decryption failed" end)
  end.

(** A step of the application's state alone. *)
Definition on_app {A} (f : AppState -> A * AppState) : server A :=
  fun s => let '(x, a) := f (app s) in (Ok x, s <| app := a |>).

Definition dispatch (i : StreamInputs) (st : byte) (body : bytes) (cert ip peer : string) : server Reply :=
  if bool_decide (st = STREAM_PAIRING) then
    on_app (fun a => let '(r, a) := handle_pairing parse_request (si_now i) body (Some ip) cert a in (Answer r, a))
  else if bool_decide (st = STREAM_CLIPBOARD) then handle_clipboard i body peer
  else if bool_decide (st = STREAM_MEDIA) then handle_media i body peer
  else if bool_decide (st = STREAM_POLL) then
    (fun s => let '(b, s) := handle_poll (si_poll i) body peer s in (Ok (Content b), s))
  else if bool_decide (st = STREAM_UNPAIR) then
    on_app (fun a => (Nothing, handle_unpair (si_unpair i) cert ip a))
  else if bool_decide (st = STREAM_SMS) then handle_sms i body peer
  else mret Nothing.

(** The whole stream: the answer sent, if any, what is left unread, and the
    state.  A panic of a handler ends the stream's task. *)
Definition serve_stream (i : StreamInputs) (cert ip : string) (stream : bytes) (s : ServerState)
  : option (byte * Reply) * bytes * ServerState :=
  match recv_frame_header stream with
  | (Ok (st, body_len), rest) =>
      match authorize_stream cert st (app s) with
      | Err reason => (Some (st, Failure reason), rest, s)
      | Panic _ => (None, rest, s)
      | Ok _ =>
          if bool_decide (st = STREAM_PAIRING) && (PAIRING_MAX_BODY_BYTES <? body_len)
          then (Some (st, Failure "Pairing payload too large"), rest, s)
          else
            match recv_frame_body body_len rest with
            | (Ok body, rest) =>
                let peer := resolve_peer_for_cert_hash cert (pairing (app s)) in
                match dispatch i st body cert ip peer s with
                | (Ok reply, s) =>
                    let s := if bool_decide (st = STREAM_POLL) && si_sent i && negb (is_empty peer)
                             then set_regs (snd (ratchet_consume_rekey_ack_impl peer (regs s))) s else s in
                    (if si_sent i then Some (st, reply) else None, rest, s)
                | (_, s) => (None, rest, s)
                end
            | (_, rest) => (None, rest, s)
            end
      end
  | (_, rest) => (None, rest, s)
  end.

(** ** What a stream of one device does to the others *)

(** Only the peer's session changes. *)
Definition local_to (peer : string) (r r' : Registry) : Prop :=
  forall q, q <> peer -> sessions r' !! q = sessions r !! q.
Definition Local {A} (peer : string) (c : registry A) : Prop := forall r, local_to peer r (snd (c r)).
Definition SLocal {A} (peer : string) (c : server A) : Prop := forall s, local_to peer (regs s) (regs (snd (c s))).

Lemma local_refl peer r : local_to peer r r.
Proof. by intros q. Qed.
Lemma local_trans peer r1 r2 r3 : local_to peer r1 r2 -> local_to peer r2 r3 -> local_to peer r1 r3.
Proof. intros H1 H2 q Hq. by rewrite H2, H1. Qed.

Lemma local_session {A} peer (f : Comp KyberError DoubleRatchetState A) : Local peer (with_ratchet_session peer f).
Proof.
  intros r q Hq. unfold with_ratchet_session. destruct (sessions r !! peer) as [sess|]; [|done].
  destruct (poisoned sess); [done|]. destruct (f (state sess)). cbn. by rewrite lookup_insert_ne.
Qed.
Lemma local_bind {A D} peer (c : registry A) (f : A -> registry D) :
  Local peer c -> (forall x, Local peer (f x)) -> Local peer (c ≫= f).
Proof.
  intros Hc Hf r. munfold. specialize (Hc r). destruct (c r) as [[x| |] r1]; cbn in *; [|done|done].
  eapply local_trans; [done|]. apply Hf.
Qed.
Lemma local_lift {A} peer (x : kres A) : Local peer (lift x).
Proof. intros r. apply local_refl. Qed.

Lemma slocal_bind {A D} peer (c : server A) (f : A -> server D) :
  SLocal peer c -> (forall x, SLocal peer (f x)) -> SLocal peer (c ≫= f).
Proof.
  intros Hc Hf s. munfold. specialize (Hc s). destruct (c s) as [[x| |] s1]; cbn in *; [|done|done].
  eapply local_trans; [done|]. apply Hf.
Qed.
Lemma slocal_attempt {A} peer (c : registry A) : Local peer c -> SLocal peer (attempt c).
Proof. intros H s. unfold attempt. specialize (H (regs s)). by destruct (c (regs s)) as [[]]. Qed.
Lemma slocal_same {A} peer (c : server A) : (forall s, regs (snd (c s)) = regs s) -> SLocal peer c.
Proof. intros H s. rewrite H. apply local_refl. Qed.

End Streams.
