(* ===== verification/Accept.v ===== *)
(** * Accept: the accept loop of the stream server (desktop-app/src-tauri/src/sync_server.rs)

    The loop that accepts connections on the current endpoint, the task of each
    connection, the task of each stream, and the budgets they take from, as
    interleaved steps; the endpoint is swapped under the loop by a rebind
    (core-crypto/src/quic_app/mod.rs).  What an admitted stream does is in
    Streams; a stream's task is here up to its body.  A permit is held until its
    task ends, however it ends. *)

From S2P Require Import Prelude Error Frame PairingState Streams.

Definition MAX_CONCURRENT_CONNECTIONS : nat := 16.
Definition MAX_STREAMS_PER_CONNECTION : nat := 16.
Definition MAX_GLOBAL_STREAMS : nat := 256.

(** ** The listener *)

(** Where the loop is: at its top, awaiting a connection on its clone of an
    endpoint, or pausing, the clone still in scope, after it saw it closed. *)
Inductive LoopPhase := Top | Accepting (ep : nat) | Pausing (ep : nat).
#[export] Instance loop_phase_eq : EqDecision LoopPhase.
Proof. solve_decision. Defined.

Record Listener := {
  server_endpoint : option nat;      (** SERVER_ENDPOINT *)
  seeded_endpoint : option nat;
  phase : LoopPhase;
  closed_endpoints : gset nat;
  queued : list nat;                 (** attempts not yet accepted, by endpoint *)
  endpoints_made : nat;
  rebinding : option nat             (** the endpoint a rebind has closed and waits for *)
}.
Definition eta_listener (l : Listener) : Listener := {|
  server_endpoint := server_endpoint l; seeded_endpoint := seeded_endpoint l; phase := phase l;
  closed_endpoints := closed_endpoints l; queued := queued l; endpoints_made := endpoints_made l; rebinding := rebinding l |}.
#[export] Instance upd_server_endpoint : Update server_endpoint. Proof. solve_update eta_listener server_endpoint. Defined.
#[export] Instance upd_seeded_endpoint : Update seeded_endpoint. Proof. solve_update eta_listener seeded_endpoint. Defined.
#[export] Instance upd_phase : Update phase. Proof. solve_update eta_listener phase. Defined.
#[export] Instance upd_closed_endpoints : Update closed_endpoints. Proof. solve_update eta_listener closed_endpoints. Defined.
#[export] Instance upd_queued : Update queued. Proof. solve_update eta_listener queued. Defined.
#[export] Instance upd_endpoints_made : Update endpoints_made. Proof. solve_update eta_listener endpoints_made. Defined.
#[export] Instance upd_rebinding : Update rebinding. Proof. solve_update eta_listener rebinding. Defined.

(** [bind_server] has stored the endpoint; the loop is given a clone. *)
Definition start_local_sync_server : Listener := {|
  server_endpoint := Some 0%nat; seeded_endpoint := Some 0%nat; phase := Top;
  closed_endpoints := ∅; queued := []; endpoints_made := 1; rebinding := None |}.

(** [get_server_endpoint().or_else(|| seeded_endpoint.take())] *)
Definition acquire_endpoint (l : Listener) : option Listener :=
  match server_endpoint l with
  | Some ep => Some (l <| phase := Accepting ep |>)
  | None =>
      match seeded_endpoint l with
      | Some ep => Some (l <| phase := Accepting ep |> <| seeded_endpoint := None |>)
      | None => None
      end
  end.

(** The first attempt on an endpoint leaves the queue. *)
Fixpoint dequeue (ep : nat) (q : list nat) : option (list nat) :=
  match q with
  | [] => None
  | e :: q => if decide (e = ep) then Some q else cons e <$> dequeue ep q
  end.

(** A step of the loop; whether it accepts a connection.  An endpoint that is
    closed gives the attempts already queued, then [None]. *)
Inductive loop_step : Listener -> bool -> Listener -> Prop :=
| loop_acquires l l' : phase l = Top -> acquire_endpoint l = Some l' -> loop_step l false l'
| loop_accepts l ep q :
    phase l = Accepting ep -> dequeue ep (queued l) = Some q ->
    loop_step l true (l <| phase := Top |> <| queued := q |>)
| loop_sees_close l ep :
    phase l = Accepting ep -> ep ∈ closed_endpoints l -> dequeue ep (queued l) = None ->
    loop_step l false (l <| phase := Pausing ep |>)
| loop_resumes l ep : phase l = Pausing ep -> loop_step l false (l <| phase := Top |>).

(** A clone of an endpoint keeps the port. *)
Definition port_free (l : Listener) : Prop := seeded_endpoint l = None /\ phase l = Top.

Definition close_endpoint (ep : nat) (l : Listener) : Listener :=
  l <| server_endpoint := None |> <| closed_endpoints ::= union {[ep]} |> <| rebinding := Some ep |>.
Definition bind_endpoint (l : Listener) : Listener :=
  l <| server_endpoint := Some (endpoints_made l) |> <| endpoints_made ::= S |> <| rebinding := None |>.

(** The rebind: the endpoint is taken and closed; the new one is bound on its
    port when no clone is left; or it fails, the wait being over or the bind
    refused.  Without an endpoint to close, the new one is bound at once; such a
    rebind that is refused, for want of an authorized certificate or by the
    operating system, is no step. *)
Inductive rebind_step : Listener -> Listener -> Prop :=
| rebind_closes l ep : server_endpoint l = Some ep -> rebinding l = None -> rebind_step l (close_endpoint ep l)
| rebind_binds l ep : rebinding l = Some ep -> port_free l -> rebind_step l (bind_endpoint l)
| rebind_gives_up l ep : rebinding l = Some ep -> rebind_step l (l <| rebinding := None |>)
| rebind_opens l : server_endpoint l = None -> rebinding l = None -> port_free l -> rebind_step l (bind_endpoint l).

(** ** The budgets *)

(** [Semaphore::try_acquire_owned] *)
Definition try_acquire (permits : nat) : option nat := match permits with O => None | S n => Some n end.

Inductive ConnTask := Handshaking | Serving.
Inductive StreamTask := Spawned | Counted | Permitted | Reading (body_len : Z).

(** [per_conn]: the semaphore a connection made, which its streams outlive it with. *)
Record Budget := {
  connection_semaphore : nat;
  global_stream_semaphore : nat;
  per_conn : gmap nat nat;
  conns : gmap nat ConnTask;
  streams : gmap nat (nat * StreamTask)
}.
Definition eta_budget (b : Budget) : Budget := {|
  connection_semaphore := connection_semaphore b; global_stream_semaphore := global_stream_semaphore b;
  per_conn := per_conn b; conns := conns b; streams := streams b |}.
#[export] Instance upd_connection_semaphore : Update connection_semaphore. Proof. solve_update eta_budget connection_semaphore. Defined.
#[export] Instance upd_global_stream_semaphore : Update global_stream_semaphore. Proof. solve_update eta_budget global_stream_semaphore. Defined.
#[export] Instance upd_per_conn : Update per_conn. Proof. solve_update eta_budget per_conn. Defined.
#[export] Instance upd_conns : Update conns. Proof. solve_update eta_budget conns. Defined.
#[export] Instance upd_streams : Update streams. Proof. solve_update eta_budget streams. Defined.

Definition new_budget : Budget := {|
  connection_semaphore := MAX_CONCURRENT_CONNECTIONS; global_stream_semaphore := MAX_GLOBAL_STREAMS;
  per_conn := ∅; conns := ∅; streams := ∅ |}.

(** A connection over the budget is dropped. *)
Definition admit_connection (c : nat) (b : Budget) : Budget :=
  match try_acquire (connection_semaphore b) with
  | Some n => b <| connection_semaphore := n |> <| conns ::= <[c := Handshaking]> |>
  | None => b
  end.

Definition connection_ends (c : nat) (b : Budget) : Budget :=
  b <| conns ::= delete c |> <| connection_semaphore ::= S |>.

Definition count_stream (t c : nat) (b : Budget) : Budget :=
  match per_conn b !! c ≫= try_acquire with
  | Some n => b <| per_conn ::= <[c := n]> |> <| streams ::= <[t := (c, Counted)]> |>
  | None => b <| streams ::= delete t |>
  end.

Definition release_local (c : nat) (b : Budget) : Budget := b <| per_conn ::= alter S c |>.

Definition admit_stream (t c : nat) (b : Budget) : Budget :=
  match try_acquire (global_stream_semaphore b) with
  | Some n => b <| global_stream_semaphore := n |> <| streams ::= <[t := (c, Permitted)]> |>
  | None => release_local c (b <| streams ::= delete t |>)
  end.

(** Both guards dropped. *)
Definition stream_ends (t c : nat) (b : Budget) : Budget :=
  release_local c (b <| global_stream_semaphore ::= S |> <| streams ::= delete t |>).

(** Authorization from the header; the body is read only past it. *)
Definition take_header (a : AppState) (cert : string) (received : bytes) (t c : nat) (b : Budget) : Budget :=
  match recv_frame_header received with
  | (Ok (st, body_len), _) =>
      match authorize_stream cert st a with
      | Ok _ =>
          if bool_decide (st = STREAM_PAIRING) && (PAIRING_MAX_BODY_BYTES <? body_len) then stream_ends t c b
          else b <| streams ::= <[t := (c, Reading body_len)]> |>
      | _ => stream_ends t c b
      end
  | _ => stream_ends t c b
  end.

Section Dispatch.
(** The states the desktop goes through. *)
Context (possible : AppState -> Prop).

Inductive task_step : Budget -> Budget -> Prop :=
| task_handshake b c :
    conns b !! c = Some Handshaking ->
    task_step b (b <| conns ::= <[c := Serving]> |> <| per_conn ::= <[c := MAX_STREAMS_PER_CONNECTION]> |>)
| task_connection_over b c ph : conns b !! c = Some ph -> task_step b (connection_ends c b)
| task_stream b c t :
    conns b !! c = Some Serving -> streams b !! t = None -> task_step b (b <| streams ::= <[t := (c, Spawned)]> |>)
| task_local b c t : streams b !! t = Some (c, Spawned) -> task_step b (count_stream t c b)
| task_global b c t : streams b !! t = Some (c, Counted) -> task_step b (admit_stream t c b)
| task_header b c t a cert received :
    streams b !! t = Some (c, Permitted) -> possible a -> task_step b (take_header a cert received t c b)
| task_stream_over b c t n : streams b !! t = Some (c, Reading n) -> task_step b (stream_ends t c b).

Inductive dispatch_step : Listener * Budget -> Listener * Budget -> Prop :=
| dispatch_loop l l' b : loop_step l false l' -> dispatch_step (l, b) (l', b)
| dispatch_accept l l' b c :
    loop_step l true l' -> conns b !! c = None -> per_conn b !! c = None -> dispatch_step (l, b) (l', admit_connection c b)
| dispatch_rebind l l' b : rebind_step l l' -> dispatch_step (l, b) (l', b)
| dispatch_attempt l b ep :
    server_endpoint l = Some ep -> dispatch_step (l, b) (l <| queued ::= fun q => q ++ [ep] |>, b)
| dispatch_task l b b' : task_step b b' -> dispatch_step (l, b) (l, b').

End Dispatch.

(** ** Sums over the tasks *)

Definition total {A} (f : A -> Z) (m : gmap nat A) : Z := map_fold (fun _ x n => f x + n) 0 m.

Section Total.
Context {A : Type} (f : A -> Z).
Implicit Types m : gmap nat A.

Lemma total_insert m t x : m !! t = None -> total f (<[t := x]> m) = f x + total f m.
Proof. intros H. apply (map_fold_insert_L (fun _ x n => f x + n)); [intros; lia|done]. Qed.
Lemma total_delete m t x : m !! t = Some x -> total f (delete t m) = total f m - f x.
Proof. intros H. unfold total. rewrite (map_fold_delete_L (fun _ x n => f x + n) 0 t x m); [lia|intros; lia|done]. Qed.
Lemma total_replace m t x y : m !! t = Some x -> total f (<[t := y]> m) = total f m - f x + f y.
Proof.
  intros H. rewrite <- insert_delete_eq, total_insert by apply lookup_delete_eq. rewrite (total_delete m t x H). lia.
Qed.
Lemma total_le (g : A -> Z) m : (forall t x, m !! t = Some x -> f x <= g x) -> total f m <= total g m.
Proof.
  induction m as [|t x m Ht IH] using map_ind; intros H; [done|]. unfold total in *.
  rewrite (map_fold_insert_L (fun _ x n => f x + n)), (map_fold_insert_L (fun _ x n => g x + n)) by (done || (intros; lia)).
  pose proof (H t x (lookup_insert_eq _ _ _)). enough (map_fold (fun _ x n => f x + n) 0 m <= map_fold (fun _ x n => g x + n) 0 m) by lia.
  apply IH. intros t' x' H'. apply (H t'). rewrite lookup_insert_ne; [done|]. by intros <-; rewrite Ht in H'.
Qed.
Lemma total_scale k m : total (fun x => k * f x) m = k * total f m.
Proof.
  induction m as [|t x m Ht IH] using map_ind; [unfold total; rewrite !map_fold_empty; lia|].
  rewrite total_insert by done. unfold total in IH |- *. rewrite (map_fold_insert_L (fun _ x n => k * f x + n)), IH by (done || (intros; lia)). lia.
Qed.
Lemma total_nonneg m : (forall x, 0 <= f x) -> 0 <= total f m.
Proof.
  intros H. induction m as [|t x m Ht IH] using map_ind; [done|]. rewrite total_insert by done. pose proof (H x). lia.
Qed.
End Total.

(** The streams of a connection that hold its permit, the streams that hold a
    permit of all, the bytes the bodies may take. *)
Definition local_held (c : nat) (s : nat * StreamTask) : Z :=
  match s with (c', Spawned) => 0 | (c', _) => if decide (c' = c) then 1 else 0 end.
Definition global_held (s : nat * StreamTask) : Z := match s with (_, (Permitted | Reading _)) => 1 | _ => 0 end.
Definition buffered (s : nat * StreamTask) : Z := match s with (_, Reading n) => n | _ => 0 end.

(** ** The budgets are kept *)

Record budget_inv (cap : Z) (b : Budget) : Prop := {
  bi_conns : (connection_semaphore b + size (conns b) = MAX_CONCURRENT_CONNECTIONS)%nat;
  bi_global : Z.of_nat (global_stream_semaphore b) + total global_held (streams b) = Z.of_nat MAX_GLOBAL_STREAMS;
  bi_local c n : per_conn b !! c = Some n ->
    Z.of_nat n + total (local_held c) (streams b) = Z.of_nat MAX_STREAMS_PER_CONNECTION;
  bi_none c : per_conn b !! c = None -> total (local_held c) (streams b) = 0;
  bi_known t c ph : streams b !! t = Some (c, ph) -> is_Some (per_conn b !! c);
  bi_handshake c : conns b !! c = Some Handshaking -> per_conn b !! c = None;
  bi_serving c : conns b !! c = Some Serving -> is_Some (per_conn b !! c);
  bi_body t c n : streams b !! t = Some (c, Reading n) -> 0 <= n <= cap
}.

Lemma new_budget_inv cap : budget_inv cap new_budget.
Proof. split; cbn; intros; simplify_map_eq; done. Qed.

(** A task of a stream changes its phase, and with it what it holds. *)
Lemma move_inv cap b t c ph ph' m gs :
  budget_inv cap b -> streams b !! t = Some (c, ph) ->
  Z.of_nat gs = Z.of_nat (global_stream_semaphore b) + global_held (c, ph) - global_held (c, ph') ->
  (forall c0, c0 <> c -> m !! c0 = per_conn b !! c0) ->
  (forall n, per_conn b !! c = Some n ->
     exists n', m !! c = Some n' /\ Z.of_nat n' = Z.of_nat n + local_held c (c, ph) - local_held c (c, ph')) ->
  (forall n, ph' = Reading n -> 0 <= n <= cap) ->
  budget_inv cap (b <| global_stream_semaphore := gs |> <| per_conn := m |> <| streams ::= <[t := (c, ph')]> |>).
Proof.
  intros [Hc Hg Hl Hn Hk Hh Hs Hb] Ht Egs Hm Hmc Hr.
  destruct (Hk _ _ _ Ht) as [n Hcn]. destruct (Hmc n Hcn) as (n' & Hn' & En').
  assert (Hother : forall c0, c0 <> c -> total (local_held c0) (<[t := (c, ph')]> (streams b)) = total (local_held c0) (streams b)).
  { intros c0 Hne. rewrite (total_replace _ _ _ _ _ Ht).
    destruct ph, ph'; cbn; rewrite ?(decide_False (P := c = c0)) by done; lia. }
  split; cbn.
  - done.
  - rewrite (total_replace _ _ _ _ _ Ht). lia.
  - intros c0 k. destruct (decide (c0 = c)) as [->|Hne]; [|rewrite Hm, Hother by done; apply Hl].
    rewrite Hn'. intros [= <-]. rewrite (total_replace _ _ _ _ _ Ht). pose proof (Hl c n Hcn). lia.
  - intros c0. destruct (decide (c0 = c)) as [->|Hne]; [by rewrite Hn'|]. rewrite Hm, Hother by done. apply Hn.
  - intros t0 c0 ph0. rewrite lookup_insert_Some. intros [[<- [= <- <-]]|[_ H0]]; [by eexists|].
    destruct (decide (c0 = c)) as [->|]; [by eexists|]. rewrite Hm by done. by eapply Hk.
  - intros c0 H0. destruct (decide (c0 = c)) as [->|Hne]; [|rewrite Hm by done; by apply Hh].
    apply Hh in H0. by rewrite Hcn in H0.
  - intros c0 H0. destruct (decide (c0 = c)) as [->|Hne]; [by eexists|]. rewrite Hm by done. by apply Hs.
  - intros t0 c0 k. rewrite lookup_insert_Some. intros [[<- [= <- ->]]|[_ H0]]; [by apply Hr|]. by eapply Hb.
Qed.

(** A task of a stream that holds nothing ends. *)
Lemma drop_inv cap b t c : budget_inv cap b -> streams b !! t = Some (c, Spawned) -> budget_inv cap (b <| streams ::= delete t |>).
Proof.
  intros [Hc Hg Hl Hn Hk Hh Hs Hb] Ht. split; cbn; try done.
  - rewrite (total_delete _ _ _ _ Ht). cbn. lia.
  - intros c0 n H. rewrite (total_delete _ _ _ _ Ht). cbn. rewrite Z.sub_0_r. by apply Hl.
  - intros c0 H. rewrite (total_delete _ _ _ _ Ht). cbn. rewrite Z.sub_0_r. by apply Hn.
  - intros t0 c0 ph [_ H]%lookup_delete_Some. by eapply Hk.
  - intros t0 c0 n [_ H]%lookup_delete_Some. by eapply Hb.
Qed.

Lemma moved_dropped b gs m t x :
  b <| global_stream_semaphore := gs |> <| per_conn := m |> <| streams ::= <[t := x]> |> <| streams ::= delete t |>
  = b <| global_stream_semaphore := gs |> <| per_conn := m |> <| streams ::= delete t |>.
Proof.
  unfold update, upd_streams, upd_per_conn, upd_global_stream_semaphore. cbn [streams per_conn global_stream_semaphore conns connection_semaphore].
  by rewrite delete_insert_eq.
Qed.

(** A stream with both guards, or with the local one, ends. *)
Lemma ends_inv cap b t c ph :
  budget_inv cap b -> streams b !! t = Some (c, ph) -> global_held (c, ph) = 1 -> budget_inv cap (stream_ends t c b).
Proof.
  intros Hi Ht Hg.
  assert (budget_inv cap (b <| global_stream_semaphore := S (global_stream_semaphore b) |> <| per_conn := alter S c (per_conn b) |>
                            <| streams ::= <[t := (c, Spawned)]> |>)) as H.
  { eapply move_inv; [done|done| | | |done].
    - rewrite Hg. cbn. lia.
    - intros c0 Hne. by rewrite lookup_alter_ne.
    - intros n Hn. exists (S n). rewrite lookup_alter_eq, Hn. split; [done|].
      destruct ph; cbn in Hg |- *; try done; rewrite decide_True by done; lia. }
  apply (drop_inv _ _ t c) in H; [|apply lookup_insert_eq]. rewrite moved_dropped in H. exact H.
Qed.
Lemma gives_back_inv cap b t c :
  budget_inv cap b -> streams b !! t = Some (c, Counted) -> budget_inv cap (release_local c (b <| streams ::= delete t |>)).
Proof.
  intros Hi Ht.
  assert (budget_inv cap (b <| global_stream_semaphore := global_stream_semaphore b |> <| per_conn := alter S c (per_conn b) |>
                            <| streams ::= <[t := (c, Spawned)]> |>)) as H.
  { eapply move_inv; [done|done|cbn; lia| | |done].
    - intros c0 Hne. by rewrite lookup_alter_ne.
    - intros n Hn. exists (S n). rewrite lookup_alter_eq, Hn. split; [done|]. cbn. rewrite decide_True by done. lia. }
  apply (drop_inv _ _ t c) in H; [|apply lookup_insert_eq]. rewrite moved_dropped in H. exact H.
Qed.

Lemma header_cap received st n rest : recv_frame_header received = (Ok (st, n), rest) -> 0 <= n <= MAX_MESSAGE_SIZE.
Proof.
  unfold recv_frame_header. destruct received as [|? [|b1 [|b2 [|b3 [|b4 ?]]]]]; try done.
  destruct (Z.ltb_spec MAX_MESSAGE_SIZE (be_Z [b1; b2; b3; b4])); [done|]. intros [= <- <- <-].
  pose proof (be_Z_range [b1; b2; b3; b4]). lia.
Qed.

(** What a body may take when the desktop is in one of these states. *)
Definition body_cap (possible : AppState -> Prop) (cap : Z) : Prop :=
  forall a cert received st n rest, possible a -> recv_frame_header received = (Ok (st, n), rest) ->
    authorize_stream cert st a = Ok tt -> (bool_decide (st = STREAM_PAIRING) && (PAIRING_MAX_BODY_BYTES <? n)) = false -> n <= cap.

Lemma body_cap_any possible : body_cap possible MAX_MESSAGE_SIZE.
Proof. intros a cert received st n rest _ H _ _. exact (proj2 (header_cap _ _ _ _ H)). Qed.
Lemma body_cap_unpaired : body_cap (fun a => is_paired (settings a) = false) PAIRING_MAX_BODY_BYTES.
Proof.
  intros a cert received st n rest Ha _. unfold authorize_stream. rewrite Ha. cbn [negb].
  case_bool_decide; cbn [andb]; [|done]. intros _ Hn. by apply Z.ltb_ge in Hn.
Qed.

Section Kept.
Context (possible : AppState -> Prop) (cap : Z) (Hcap : body_cap possible cap).

Lemma header_inv a cert received t c b :
  possible a -> budget_inv cap b -> streams b !! t = Some (c, Permitted) -> budget_inv cap (take_header a cert received t c b).
Proof.
  intros Ha Hi Ht. pose proof (ends_inv cap b t c _ Hi Ht eq_refl) as He. unfold take_header.
  destruct (recv_frame_header received) as [[[st n]|?|?] rest] eqn:Eh; try done.
  destruct (authorize_stream cert st a) as [[]|?|?] eqn:Ea; try done.
  destruct (_ && _) eqn:Ec; [done|]. pose proof (header_cap _ _ _ _ Eh) as Hr. pose proof (Hcap _ _ _ _ _ _ Ha Eh Ea Ec) as Hn.
  pose proof (move_inv cap b t c Permitted (Reading n) (per_conn b) (global_stream_semaphore b) Hi Ht) as H.
  replace (b <| streams ::= _ |>) with
    (b <| global_stream_semaphore := global_stream_semaphore b |> <| per_conn := per_conn b |> <| streams ::= <[t := (c, Reading n)]> |>)
    by (by destruct b).
  apply H; [cbn; lia|done| |intros ? [= <-]; lia]. intros k Hk. exists k. split; [done|]. cbn. lia.
Qed.

Lemma local_inv t c b : budget_inv cap b -> streams b !! t = Some (c, Spawned) -> budget_inv cap (count_stream t c b).
Proof.
  intros Hi Ht. unfold count_stream. destruct (per_conn b !! c ≫= try_acquire) as [k|] eqn:E; [|by eapply drop_inv].
  apply bind_Some in E as (n & Hn & Hk). destruct n as [|n]; [done|]. injection Hk as <-.
  pose proof (move_inv cap b t c Spawned Counted (<[c := n]> (per_conn b)) (global_stream_semaphore b) Hi Ht) as H.
  replace (b <| per_conn ::= _ |> <| streams ::= _ |>) with
    (b <| global_stream_semaphore := global_stream_semaphore b |> <| per_conn := <[c := n]> (per_conn b) |> <| streams ::= <[t := (c, Counted)]> |>)
    by (by destruct b).
  apply H; [cbn; lia| | |done].
  - intros c0 Hne. by rewrite lookup_insert_ne.
  - intros k Hk. exists n. rewrite lookup_insert_eq. split; [done|]. rewrite Hn in Hk. injection Hk as <-.
    cbn. rewrite decide_True by done. lia.
Qed.

Lemma global_inv t c b : budget_inv cap b -> streams b !! t = Some (c, Counted) -> budget_inv cap (admit_stream t c b).
Proof.
  intros Hi Ht. unfold admit_stream. destruct (global_stream_semaphore b) as [|n] eqn:E; cbn [try_acquire]; [by apply gives_back_inv|].
  pose proof (move_inv cap b t c Counted Permitted (per_conn b) n Hi Ht) as H.
  replace (b <| global_stream_semaphore := n |> <| streams ::= _ |>) with
    (b <| global_stream_semaphore := n |> <| per_conn := per_conn b |> <| streams ::= <[t := (c, Permitted)]> |>) by (by destruct b).
  apply H; [rewrite E; cbn; lia|done| |done]. intros k Hk. exists k. split; [done|]. cbn. lia.
Qed.

Lemma spawn_inv t c b :
  budget_inv cap b -> conns b !! c = Some Serving -> streams b !! t = None -> budget_inv cap (b <| streams ::= <[t := (c, Spawned)]> |>).
Proof.
  intros [Hc Hg Hl Hn Hk Hh Hs Hb] Hcs Ht. split; cbn; try done.
  - by rewrite total_insert.
  - intros c0 n H. rewrite total_insert by done. cbn. by apply Hl.
  - intros c0 H. rewrite total_insert by done. cbn. by apply Hn.
  - intros t0 c0 ph. rewrite lookup_insert_Some. intros [[<- [= <- <-]]|[_ H]]; [by apply Hs|by eapply Hk].
  - intros t0 c0 n. rewrite lookup_insert_Some. intros [[<- [=]]|[_ H]]. by eapply Hb.
Qed.

Lemma connection_inv c b ph : budget_inv cap b -> conns b !! c = Some ph -> budget_inv cap (connection_ends c b).
Proof.
  intros [Hc Hg Hl Hn Hk Hh Hs Hb] Hcs. split; cbn; try done.
  - rewrite map_size_delete, Hcs. assert (size (conns b) <> 0%nat); [|lia].
    intros H0. apply map_size_empty_inv in H0. rewrite H0 in Hcs. done.
  - intros c0 [_ H]%lookup_delete_Some. by apply Hh.
  - intros c0 [_ H]%lookup_delete_Some. by apply Hs.
Qed.

Lemma handshake_inv c b :
  budget_inv cap b -> conns b !! c = Some Handshaking ->
  budget_inv cap (b <| conns ::= <[c := Serving]> |> <| per_conn ::= <[c := MAX_STREAMS_PER_CONNECTION]> |>).
Proof.
  intros [Hc Hg Hl Hn Hk Hh Hs Hb] Hcs. pose proof (Hh c Hcs) as Hnone. split; cbn; try done.
  - rewrite map_size_insert, Hcs. done.
  - intros c0 n. rewrite lookup_insert_Some. intros [[<- <-]|[Hne H]]; [rewrite (Hn c Hnone); lia|by apply Hl].
  - intros c0 [H Hne]%lookup_insert_None. by apply Hn.
  - intros t0 c0 ph H. apply lookup_insert_is_Some'. right. by eapply Hk.
  - intros c0. rewrite lookup_insert_Some. intros [[<- [=]]|[Hne H]]. rewrite lookup_insert_ne by done. by apply Hh.
  - intros c0. rewrite lookup_insert_Some. intros H. apply lookup_insert_is_Some'. destruct H as [[<- _]|[_ H]]; [by left|]. right. by apply Hs.
Qed.

Lemma admit_inv c b :
  budget_inv cap b -> conns b !! c = None -> per_conn b !! c = None -> budget_inv cap (admit_connection c b).
Proof.
  intros Hi Hcs Hp. unfold admit_connection. destruct (connection_semaphore b) as [|n] eqn:E; cbn [try_acquire]; [done|].
  destruct Hi as [Hc Hg Hl Hn Hk Hh Hs Hb]. split; cbn; try done.
  - rewrite map_size_insert, Hcs. lia.
  - intros c0. rewrite lookup_insert_Some. intros [[<- _]|[_ H]]; [done|by apply Hh].
  - intros c0. rewrite lookup_insert_Some. intros [[<- [=]]|[_ H]]. by apply Hs.
Qed.

Lemma dispatch_inv s s' : dispatch_step possible s s' -> budget_inv cap (snd s) -> budget_inv cap (snd s').
Proof.
  intros [| | | |l b b' Ht]; cbn; intros Hi; try done; [by apply admit_inv|].
  destruct Ht; [by apply handshake_inv|by eapply connection_inv|by apply spawn_inv|by apply local_inv|by apply global_inv
               |by apply header_inv|by eapply ends_inv].
Qed.

End Kept.

Lemma reachable_inv possible cap s :
  body_cap possible cap -> rtc (dispatch_step possible) (start_local_sync_server, new_budget) s -> budget_inv cap (snd s).
Proof.
  intros Hcap. remember (start_local_sync_server, new_budget) as s0 eqn:E0. intros H.
  assert (budget_inv cap (snd s0)) as H0 by (subst; apply new_budget_inv). clear E0.
  induction H; [done|]. apply IHrtc. by eapply dispatch_inv.
Qed.

(** C11: However connections, streams and rebinds interleave, at most 16 connections,
    16 streams of one connection and 256 streams in all are under way, every
    permit is held by a task or available, and the bodies being read take at most
    256 MiB, and at most 4 MiB as long as the desktop is not paired. *)
Theorem budgets_hold possible s :
  rtc (dispatch_step possible) (start_local_sync_server, new_budget) s ->
  (connection_semaphore (snd s) + size (conns (snd s)) = MAX_CONCURRENT_CONNECTIONS)%nat
  /\ Z.of_nat (global_stream_semaphore (snd s)) + total global_held (streams (snd s)) = Z.of_nat MAX_GLOBAL_STREAMS
  /\ (forall c, total (local_held c) (streams (snd s)) <= Z.of_nat MAX_STREAMS_PER_CONNECTION)
  /\ total buffered (streams (snd s)) <= 256 * 1024 * 1024
  /\ ((forall a, possible a -> is_paired (settings a) = false) -> total buffered (streams (snd s)) <= 4 * 1024 * 1024).
Proof.
  intros H.
  assert (Hbuf : forall cap, 0 <= cap -> budget_inv cap (snd s) -> total buffered (streams (snd s)) <= cap * Z.of_nat MAX_GLOBAL_STREAMS).
  { intros cap Hpos Hi. pose proof (bi_global _ _ Hi) as Hg.
    assert (total buffered (streams (snd s)) <= total (fun x => cap * global_held x) (streams (snd s))) as Hle.
    { apply total_le. intros t [c ph] Ht. destruct ph as [| | |n]; cbn; try lia. pose proof (bi_body _ _ Hi _ _ _ Ht). lia. }
    rewrite total_scale in Hle. nia. }
  pose proof (reachable_inv possible _ s (body_cap_any possible) H) as Hi.
  split; [apply Hi|]. split; [apply Hi|]. split; [|split].
  - intros c. destruct (per_conn (snd s) !! c) as [n|] eqn:E; [pose proof (bi_local _ _ Hi c n E); lia|].
    rewrite (bi_none _ _ Hi c E). done.
  - specialize (Hbuf MAX_MESSAGE_SIZE ltac:(done) Hi). unfold MAX_MESSAGE_SIZE, MAX_GLOBAL_STREAMS in Hbuf. lia.
  - intros Hp. assert (body_cap possible PAIRING_MAX_BODY_BYTES) as Hcap.
    { intros a cert received st n rest Ha. by apply (body_cap_unpaired a cert received st n rest), Hp. }
    specialize (Hbuf PAIRING_MAX_BODY_BYTES ltac:(done) (reachable_inv possible _ s Hcap H)).
    unfold PAIRING_MAX_BODY_BYTES, MAX_GLOBAL_STREAMS in Hbuf. lia.
Qed.

(** ** The loop follows a rebind *)

(** The clones the loop has are of the current endpoint, or closed. *)
Record listener_inv (l : Listener) : Prop := {
  li_current ep : server_endpoint l = Some ep ->
    ep ∉ closed_endpoints l /\ (ep < endpoints_made l)%nat /\ (phase l = Top \/ phase l = Accepting ep)
    /\ (seeded_endpoint l = None \/ seeded_endpoint l = Some ep);
  li_held ep : server_endpoint l = None ->
    phase l = Accepting ep \/ phase l = Pausing ep \/ seeded_endpoint l = Some ep -> ep ∈ closed_endpoints l;
  li_made ep : ep ∈ closed_endpoints l -> (ep < endpoints_made l)%nat;
  li_rebinding ep : rebinding l = Some ep -> server_endpoint l = None
}.

Lemma bind_inv l : server_endpoint l = None -> port_free l -> listener_inv l -> listener_inv (bind_endpoint l).
Proof.
  intros Hs [Hse Hph] [Hc Hh Hm Hr]. split; cbn; [|done| |done].
  - intros ep [= <-]. split_and!; [|lia|by left|by left]. intros H%Hm. lia.
  - intros ep H%Hm. lia.
Qed.

Lemma close_inv l ep : server_endpoint l = Some ep -> listener_inv l -> listener_inv (close_endpoint ep l).
Proof.
  intros Hs [Hc Hh Hm Hr]. destruct (Hc ep Hs) as (H1 & H2 & H3 & H4). split; cbn; [done| | |done].
  - intros e _ He. apply elem_of_union_l, elem_of_singleton. destruct H3, H4, He as [|[]]; congruence.
  - intros e [->%elem_of_singleton|H%Hm]%elem_of_union; lia.
Qed.

Lemma loop_inv l acc l' : loop_step l acc l' -> listener_inv l -> listener_inv l'.
Proof.
  intros Hs [Hc Hh Hm Hr]. destruct Hs as [l l' Hp Ha|l ep q Hp Hq|l ep Hp Hcl Hq|l ep Hp].
  - unfold acquire_endpoint in Ha. destruct (server_endpoint l) as [ep|] eqn:Es.
    + injection Ha as <-. split; cbn; [|by intros e He; rewrite Es in He|done|intros e He; by apply Hr in He].
      intros e [= <-]%(eq_trans (eq_sym Es)). destruct (Hc ep eq_refl) as (? & ? & _ & ?). split_and!; [done|done|by right|done].
    + destruct (seeded_endpoint l) as [ep|] eqn:Ed; [|done]. injection Ha as <-. split; cbn; [by intros e He; rewrite Es in He| |done|done].
      intros e _ [[= <-]|[|]]; [|done|done]. apply Hh; [done|by right; right].
  - split; cbn; [|intros e He [|[|H]]; [done|done|]; apply Hh; auto|done|done].
    intros e He. destruct (Hc e He) as (? & ? & _ & ?). split_and!; [done|done|by left|done].
  - split; cbn; [|intros e He [|[[= <-]|H]]; [done|done|]; apply Hh; auto|done|done].
    intros e He. destruct (Hc e He) as (H1 & _ & [H3|H3] & _); [congruence|]. rewrite Hp in H3. by injection H3 as <-.
  - split; cbn; [|intros e He [|[|H]]; [done|done|]; apply Hh; auto|done|done].
    intros e He. destruct (Hc e He) as (? & ? & _ & ?). split_and!; [done|done|by left|done].
Qed.

Lemma dispatch_listener possible s s' : dispatch_step possible s s' -> listener_inv (fst s) -> listener_inv (fst s').
Proof.
  intros Hs Hi. destruct Hs as [l l' b Hl|l l' b c Hl _ _|l l' b Hr|l b ep _|l b b' _]; cbn in *; try (by eapply loop_inv); [| |done].
  - destruct Hr as [l ep Hs _|l ep Hr Hf|l ep Hr|l Hs _ Hf]; [by apply close_inv|apply bind_inv; [by eapply li_rebinding|done|done]
      | |by apply bind_inv]. destruct Hi as [Hc Hh Hm Hn]. by split.
  - destruct Hi as [Hc Hh Hm Hn]. by split.
Qed.

Lemma reachable_listener possible s :
  rtc (dispatch_step possible) (start_local_sync_server, new_budget) s -> listener_inv (fst s).
Proof.
  remember (start_local_sync_server, new_budget) as s0 eqn:E0. intros H. assert (listener_inv (fst s0)) as H0.
  { subst. split; cbn; [|done|by intros ? ?%elem_of_empty|done]. intros ep [= <-].
    split_and!; [apply not_elem_of_empty|lia|by left|by right]. }
  clear E0. induction H; [done|]. apply IHrtc. by eapply dispatch_listener.
Qed.

(** The loop's steps alone; and together with those of the pending rebind, which
    binds the new endpoint once the port is free, or fails at any moment: its
    wait is over, or the bind is refused. *)
Definition loop_moves (l l' : Listener) : Prop := exists acc, loop_step l acc l'.
Inductive own_step : Listener -> Listener -> Prop :=
| own_loop l l' : loop_moves l l' -> own_step l l'
| own_rebind l ep l' : rebinding l = Some ep -> rebind_step l l' -> own_step l l'.

Lemma dequeue_length ep q q' : dequeue ep q = Some q' -> length q = S (length q').
Proof.
  revert q'. induction q as [|e q IH]; intros q'; cbn; [done|]. case_decide; [by intros [= ->]|].
  intros (r & Hr & ->)%fmap_Some. cbn. by rewrite (IH r).
Qed.

(** From the close to the accept: a clone is dropped, an attempt accepted, the
    endpoint bound. *)
Definition to_go (l : Listener) : nat :=
  (4 * length (queued l) + (if seeded_endpoint l then 3 else 0) + (if rebinding l then 10 else 0)
   + match phase l with Top => if server_endpoint l then 3 else 0 | Accepting _ => 2 | Pausing _ => 1 end)%nat.

(** The rebind has failed: there is no endpoint. *)
Definition gave_up (l : Listener) : Prop := rebinding l = None /\ server_endpoint l = None.

(** Until the new endpoint is bound; since then; or without one. *)
Definition swapping (l : Listener) : Prop :=
  listener_inv l /\ (is_Some (rebinding l) \/ (is_Some (server_endpoint l) /\ seeded_endpoint l = None) \/ gave_up l).

(** Without a current endpoint the loop can always go on, or has let go of the
    port. *)
Lemma unserved_enabled l :
  listener_inv l -> server_endpoint l = None -> port_free l \/ exists l', loop_moves l l'.
Proof.
  intros Hi Es. destruct (phase l) as [|ep|ep] eqn:Ep.
  - destruct (seeded_endpoint l) as [ep|] eqn:Ed; [right|by left]. eexists. exists false.
    eapply loop_acquires; [done|]. unfold acquire_endpoint. by rewrite Es, Ed.
  - right. destruct (dequeue ep (queued l)) as [q|] eqn:Eq; [eexists; eexists; by eapply loop_accepts|].
    eexists. exists false. eapply loop_sees_close; [done| |done]. apply (li_held _ Hi); auto.
  - right. eexists. exists false. by eapply loop_resumes.
Qed.

Lemma swapping_enabled l :
  swapping l ->
  (exists new, server_endpoint l = Some new /\ phase l = Accepting new) \/ gave_up l \/ exists l', own_step l l'.
Proof.
  intros [Hi Hw]. destruct (server_endpoint l) as [new|] eqn:Es.
  - destruct (phase l) as [|ep|ep] eqn:Ep.
    + right; right. eexists. eapply own_loop. exists false. eapply loop_acquires; [done|]. unfold acquire_endpoint. by rewrite Es.
    + left. exists new. split; [done|]. destruct (li_current _ Hi new Es) as (_ & _ & [H|H] & _); congruence.
    + destruct (li_current _ Hi new Es) as (_ & _ & [H|H] & _); congruence.
  - right. destruct Hw as [[ep Hr]|[[[]]|Hg]]; [|done|by left].
    right. eexists. by eapply own_rebind, rebind_gives_up.
Qed.

(** A step of the loop keeps what the rebind works on. *)
Lemma loop_keeps l l' :
  loop_moves l l' -> server_endpoint l' = server_endpoint l /\ rebinding l' = rebinding l
  /\ closed_endpoints l' = closed_endpoints l /\ (seeded_endpoint l = None -> seeded_endpoint l' = None).
Proof.
  intros [acc Hl]. destruct Hl as [l l' _ Ha| | |]; try done. unfold acquire_endpoint in Ha.
  destruct (server_endpoint l) eqn:Es, (seeded_endpoint l) eqn:Ed; simplify_eq; cbn; split_and!; congruence.
Qed.

Lemma loop_to_go l l' : listener_inv l -> loop_moves l l' -> (to_go l' < to_go l)%nat.
Proof.
  intros Hi [acc Hl]. destruct Hl as [l l' Hp Ha|l ep q Hp Hq|l ep Hp Hcl Hq|l ep Hp]; unfold to_go; cbn.
  - unfold acquire_endpoint in Ha. destruct (server_endpoint l) as [e|] eqn:Es.
    + injection Ha as <-. cbn. rewrite Hp. destruct (rebinding l), (seeded_endpoint l); lia.
    + destruct (seeded_endpoint l) as [e|] eqn:Ed; [|done]. injection Ha as <-. cbn. rewrite Hp. destruct (rebinding l); lia.
  - rewrite Hp, (dequeue_length _ _ _ Hq). destruct (rebinding l), (seeded_endpoint l), (server_endpoint l); lia.
  - rewrite Hp. destruct (rebinding l), (seeded_endpoint l); lia.
  - rewrite Hp. destruct (server_endpoint l) as [e|] eqn:Es; [destruct (li_current _ Hi e Es) as (_ & _ & [H|H] & _); congruence|].
    destruct (rebinding l), (seeded_endpoint l); lia.
Qed.

Lemma swapping_step l l' :
  swapping l -> own_step l l' -> swapping l' /\ (to_go l' < to_go l)%nat /\ closed_endpoints l' = closed_endpoints l.
Proof.
  intros [Hi Hw] Hs. destruct Hs as [l l' Hl|l ep l' Hr Hs].
  - destruct (loop_keeps _ _ Hl) as (Es & Er & Ec & Ed). split_and!; [|by apply loop_to_go|done].
    split; [destruct Hl as [acc Hl]; by eapply loop_inv|]. unfold gave_up in *. rewrite Es, Er. intuition auto.
  - destruct Hs as [l ep' _ Hn|l ep' _ Hf|l ep' _|l _ Hn _]; [congruence| |..]; [| |congruence].
    + split_and!; [split; [apply bind_inv; [by eapply li_rebinding|done|done]|right; left; split; [by eexists|apply Hf]]| |done].
      destruct Hf as [Hse Hph]. unfold to_go. cbn. rewrite Hse, Hph, Hr, (li_rebinding _ Hi ep Hr). lia.
    + split_and!; [|unfold to_go; cbn; rewrite Hr; destruct (seeded_endpoint l), (phase l), (server_endpoint l); lia|done].
      split; [destruct Hi as [Hc Hh Hm Hn]; by split|]. right; right. split; [done|]. exact (li_rebinding _ Hi ep Hr).
Qed.

(** A rebind that is waiting has closed the endpoint it waits for. *)
Lemma waiting_closed possible s old :
  rtc (dispatch_step possible) (start_local_sync_server, new_budget) s -> rebinding (fst s) = Some old ->
  old ∈ closed_endpoints (fst s).
Proof.
  intros Hs. remember (start_local_sync_server, new_budget) as s0 eqn:E0 in Hs.
  assert (forall o, rebinding (fst s0) = Some o -> o ∈ closed_endpoints (fst s0)) as H0 by (by subst).
  clear E0. revert old. induction Hs as [|x y z Hxy _ IH]; [done|]. apply IH. clear IH.
  destruct Hxy as [l l' b Hl|l l' b c Hl _ _|l l' b Hb|l b ep _|l b b' _]; cbn in *; try done.
  - destruct (loop_keeps l l') as (_ & -> & -> & _); [by eexists|done].
  - destruct (loop_keeps l l') as (_ & -> & -> & _); [by eexists|done].
  - destruct Hb; cbn; try done. intros o [= <-]. set_solver.
Qed.

(** C21: in every reachable state in which a rebind has closed the endpoint and
    waits for its port, whatever connections are queued on it, the accept loop's
    own steps inevitably let go of the port; and the loop and the rebind, in any
    order, inevitably come to the server accepting on a new endpoint, which is
    not a closed one, or to the rebind having failed (its wait over before the
    port was free, or the bind refused) with no endpoint left. *)
Theorem rebind_takes_over possible s old :
  rtc (dispatch_step possible) (start_local_sync_server, new_budget) s -> rebinding (fst s) = Some old ->
  inevitably loop_moves port_free (fst s)
  /\ inevitably own_step
       (fun l => (exists new, new <> old /\ server_endpoint l = Some new /\ phase l = Accepting new /\ new ∉ closed_endpoints l)
                 \/ gave_up l) (fst s).
Proof.
  intros Hs Hr. pose proof (reachable_listener _ _ Hs) as Hi. pose proof (waiting_closed _ _ _ Hs Hr) as Hold. split.
  - apply (inevitably_measure loop_moves _ (fun l => listener_inv l /\ server_endpoint l = None) to_go).
    + intros l [Hl Es]. by apply unserved_enabled.
    + intros l l' [Hl Es] Hst. destruct (loop_keeps _ _ Hst) as (Es' & _). split; [|by apply loop_to_go].
      split; [destruct Hst as [acc Hst]; by eapply loop_inv|congruence].
    + split; [done|]. exact (li_rebinding _ Hi old Hr).
  - apply (inevitably_measure own_step _ (fun l => swapping l /\ old ∈ closed_endpoints l) to_go).
    + intros l [Hl Ho]. destruct (swapping_enabled l Hl) as [(new & H1 & H2)|[Hg|He]]; [left; left|left; by right|by right].
      destruct (li_current _ (proj1 Hl) new H1) as (Hn & _). exists new. split_and!; [by intros ->|done|done|done].
    + intros l l' [Hl Ho] Hst. destruct (swapping_step l l' Hl Hst) as (H1 & H2 & H3). split; [|done]. by rewrite H3.
    + split; [|done]. split; [done|]. left. by rewrite Hr.
Qed.

(** ** A connection and its stream *)

Definition any_state (a : AppState) : Prop := True.
Definition accepting : Listener := start_local_sync_server <| phase := Accepting 0 |>.
Definition one_stream : Budget := {|
  connection_semaphore := 15; global_stream_semaphore := 255; per_conn := {[0%nat := 15%nat]};
  conns := {[0%nat := Serving]}; streams := {[0%nat := (0%nat, Permitted)]} |}.

Lemma one_stream_reachable :
  rtc (dispatch_step any_state) (start_local_sync_server, new_budget) (start_local_sync_server, one_stream).
Proof.
  eapply rtc_l; [by apply (dispatch_attempt _ _ _ 0%nat)|].
  eapply rtc_l; [apply dispatch_loop; by eapply loop_acquires|].
  eapply rtc_l; [apply (dispatch_accept _ _ (start_local_sync_server) _ 0%nat); [exact (loop_accepts (accepting <| queued := [0%nat] |>) 0%nat [] eq_refl eq_refl)|done|done]|].
  eapply rtc_l; [apply dispatch_task; by apply (task_handshake _ _ 0%nat)|].
  eapply rtc_l; [apply dispatch_task; by apply (task_stream _ _ 0%nat 0%nat)|].
  eapply rtc_l; [apply dispatch_task; by apply (task_local _ _ 0%nat 0%nat)|].
  eapply rtc_l; [apply dispatch_task; by apply (task_global _ _ 0%nat 0%nat)|].
  apply rtc_refl.
Qed.

Lemma budgets_hold_witness : total global_held (streams one_stream) = 1 /\ total buffered (streams one_stream) <= 256 * 1024 * 1024.
Proof.
  pose proof (budgets_hold any_state _ one_stream_reachable) as (_ & H & _ & Hb & _). cbn [snd] in H, Hb.
  split; [|exact Hb]. cbn [global_stream_semaphore one_stream] in H. unfold MAX_GLOBAL_STREAMS in H. lia.
Defined.

Lemma rebind_takes_over_witness :
  inevitably loop_moves port_free (close_endpoint 0 accepting)
  /\ inevitably own_step
       (fun l => (exists new, new <> 0%nat /\ server_endpoint l = Some new /\ phase l = Accepting new /\ new ∉ closed_endpoints l)
                 \/ gave_up l) (close_endpoint 0 accepting).
Proof.
  refine (rebind_takes_over any_state (close_endpoint 0 accepting, new_budget) 0 _ eq_refl).
  eapply rtc_l; [apply dispatch_loop; by eapply loop_acquires|].
  eapply rtc_l; [apply dispatch_rebind; by apply (rebind_closes _ 0%nat)|]. apply rtc_refl.
Defined.

(** Streams outlive their connection: the budget of all is not implied by the
    two others. *)
Lemma streams_outlive_connections :
  rtc (dispatch_step any_state) (start_local_sync_server, one_stream) (start_local_sync_server, connection_ends 0 one_stream)
  /\ streams (connection_ends 0 one_stream) = {[0%nat := (0%nat, Permitted)]}.
Proof.
  split; [|done]. eapply rtc_l; [apply dispatch_task; by eapply (task_connection_over _ _ 0%nat)|]. apply rtc_refl.
Qed.
