(* ===== verification/Notifications.v ===== *)
(** * Notifications: the mirrored notifications and media actions
    (desktop commands/notifications.rs, portal.rs, state/services/clipboard.rs)

    What is shown of a phone's notification, the history kept sealed on disk,
    and the media actions the desktop asks of the phone.  The text serde gives to
    a history is a class; the keyring's answers and the nonces are arguments. *)

From Stdlib.Strings Require Import Ascii.
From S2P Require Import Prelude Error Primitives Aead Kem Toy Json RatchetState Registry RatchetStore StoreRemoval StrOps Shamir Recovery.
From S2P Require Import Automation Poll Streams.

(** ** What is shown *)

(** [in_tag] as the loop carries it; the markers are single bytes. *)
Fixpoint strip_markup (in_tag : bool) (s : string) : string :=
  match s with
  | EmptyString => EmptyString
  | String c s =>
      if decide (c = "<"%char) then strip_markup true s
      else if decide (c = ">"%char) then strip_markup false s
      else if in_tag then strip_markup true s else String c (strip_markup false s)
  end.
Definition sanitize_notification_text : string -> string := strip_markup false.

(** No marker is left, a text without any is as it was, and what is in a tag or
    a marker does not matter. *)
Theorem sanitized_is_plain s :
  free_of "<"%char (sanitize_notification_text s) /\ free_of ">"%char (sanitize_notification_text s)
  /\ (free_of "<"%char s -> free_of ">"%char s -> sanitize_notification_text s = s)
  /\ sanitize_notification_text (sanitize_notification_text s) = sanitize_notification_text s.
Proof.
  unfold sanitize_notification_text, free_of.
  assert (forall b, Forall (fun a => a <> "<"%char) (chars (strip_markup b s)) /\ Forall (fun a => a <> ">"%char) (chars (strip_markup b s))) as Hp.
  { induction s as [|c s IH]; intros b; cbn [strip_markup]; [split; constructor|]. do 2 (case_decide; [apply IH|]).
    destruct b; [apply IH|]. destruct (IH false) as [H1 H2]. split; by constructor. }
  assert (forall t, Forall (fun a => a <> "<"%char) (chars t) -> Forall (fun a => a <> ">"%char) (chars t) -> strip_markup false t = t) as Hi.
  { induction t as [|c t IH]; intros H1 H2; [done|]. inversion_clear H1. inversion_clear H2. cbn [strip_markup].
    rewrite !decide_False by done. by rewrite IH. }
  destruct (Hp false) as [H1 H2]. split_and!; [done|done|apply Hi|by apply Hi].
Qed.

(** A lone marker takes the rest of the text with it. *)
Lemma heart_is_cut : sanitize_notification_text "I <3 you, see you at 8" = "I ".
Proof. reflexivity. Qed.

(** ** The history *)

Record NotificationRecord := {
  nr_id : string; nr_title : string; nr_text : string; nr_app_package : string; nr_timestamp : Z;
  nr_is_dismissed : bool; nr_updated_at : Z; nr_type_field : string
}.

(** [serde_json] on a history. *)
Class HistoryText := {
  history_to_string : list NotificationRecord -> option string;
  history_from_slice : bytes -> option (list NotificationRecord)
}.
Class HistoryTextLaws `{S : HistoryText} := {
  history_written l : is_Some (history_to_string l);
  history_roundtrip l t : history_to_string l = Some t -> history_from_slice (bstr t) = Some l
}.

(** The history, the text last handed to the file writer, the keyring, the log,
    and what was shown. *)
Record Inbox := {
  notifications : list NotificationRecord;
  notifications_file : option string;
  inbox_host : Host;
  inbox_logs : list string;
  shown : list (string * string)
}.

(** The keyring's answers, the key the generator would draw, the nonce. *)
Record SealIo := { se_get : bool; se_set : bool; se_fresh : bytes; se_nonce : bytes }.

Section History.
Context `{P : Primitives} `{X : Hex} `{S : HistoryText}.

(** A history that cannot be sealed is not written. *)
Definition save_notifications (io : SealIo) (b : Inbox) : Inbox :=
  let data := default "[]" (history_to_string (notifications b)) in
  let '(key, h) := snapshot_key_from_keyring (se_get io) (se_set io) (se_fresh io) (inbox_host b) in
  {| notifications := notifications b;
     notifications_file := match key ≫= (fun k => encrypt_notifications_data k (se_nonce io) (bstr data)) with
                           | Some blob => Some blob | None => notifications_file b end;
     inbox_host := h; inbox_logs := inbox_logs b; shown := shown b |}.

(** [AppState::add_notification]: pushed and saved. *)
Definition add_notification (io : SealIo) (r : NotificationRecord) (b : Inbox) : Inbox :=
  save_notifications io {| notifications := notifications b ++ [r]; notifications_file := notifications_file b;
                           inbox_host := inbox_host b; inbox_logs := inbox_logs b; shown := shown b |}.

Definition load_notifications (io : SealIo) (file : option string) (h : Host) : list NotificationRecord * Host :=
  match file with
  | None => ([], h)
  | Some blob =>
      let '(key, h) := snapshot_key_from_keyring (se_get io) (se_set io) (se_fresh io) h in
      (match key ≫= (fun k => decrypt_notifications_data k blob) with
       | Some data => default [] (history_from_slice data)
       | None => []
       end, h)
  end.

Definition push_notification_packet (io : SealIo) (title text app_package : string) (timestamp : Z) (b : Inbox)
  : list NotificationRecord * Inbox :=
  let pkt := {| nr_id := app_package +:+ "_" +:+ decimal timestamp; nr_title := title; nr_text := text;
                nr_app_package := app_package; nr_timestamp := timestamp; nr_is_dismissed := false;
                nr_updated_at := timestamp; nr_type_field := "remote" |} in
  let b := {| notifications := notifications b; notifications_file := notifications_file b; inbox_host := inbox_host b;
              inbox_logs := add_log ("[Notification Sync] " +:+ app_package +:+ ": " +:+ title +:+ " - " +:+ text) (inbox_logs b);
              shown := shown b ++ [(sanitize_notification_text title, sanitize_notification_text text)] |} in
  let b := add_notification io pkt b in
  (notifications b, b).

(** The notifications of a phone, one after the other. *)
Definition push_all (l : list (SealIo * string * string * string * Z)) (b : Inbox) : Inbox :=
  foldl (fun b '(io, title, text, pkg, ts) => snd (push_notification_packet io title text pkg ts b)) b l.

(** ** A restart gives the history back *)

Context {PL : PrimitivesLaws} {HL : HexLaws} {SL : HistoryTextLaws}.

Definition sealable (io : SealIo) : Prop := se_get io = true /\ se_set io = true /\ len (se_nonce io) = 12 /\ se_fresh io <> [].

Lemma key_is_kept io h : sealable io ->
  exists key h', snapshot_key_from_keyring (se_get io) (se_set io) (se_fresh io) h = (Some key, h')
  /\ nonempty (keyring h' !! entry KEYRING_SNAPSHOT_KEY) = Some key.
Proof.
  intros (Hg & Hs & _ & Hf). unfold snapshot_key_from_keyring, get_password. rewrite Hg, Hs.
  destruct (nonempty (keyring h !! entry KEYRING_SNAPSHOT_KEY)) as [key|] eqn:E; [by exists key, h|].
  eexists _, _. split; [done|]. cbn. rewrite lookup_insert_eq. unfold nonempty. rewrite decide_False; [done|]. by apply hex_nonempty.
Qed.

(** The notifications shown carry no markup, and after the last one was saved a
    restart gives the whole history back, the new one at its end. *)
Theorem history_survives io title text pkg ts b io' :
  sealable io -> sealable io' ->
  let b' := snd (push_notification_packet io title text pkg ts b) in
  is_Some (fst (snapshot_key_from_keyring (se_get io) (se_set io) (se_fresh io) (inbox_host b))
             ≫= fun k => encrypt_notifications_data k (se_nonce io) (bstr (default "[]" (history_to_string (notifications b'))))) ->
  fst (load_notifications io' (notifications_file b') (inbox_host b')) = notifications b'
  /\ (exists r, notifications b' = notifications b ++ [r] /\ nr_title r = title /\ nr_text r = text)
  /\ (exists t x, shown b' = shown b ++ [(t, x)] /\ free_of "<"%char t /\ free_of "<"%char x).
Proof.
  intros Hs Hs' b' Hsome. split_and!.
  - subst b'. revert Hsome. unfold push_notification_packet, add_notification, save_notifications. cbn [notifications inbox_host notifications_file].
    set (l := notifications b ++ _). destruct (history_written l) as [data Hd]. rewrite Hd. change (default "[]" (Some data)) with data.
    destruct (key_is_kept io (inbox_host b) Hs) as (key & h' & -> & Hk). cbn [mbind option_bind snd fst inbox_host notifications notifications_file].
    rewrite Hd. change (default "[]" (Some data)) with data. intros [blob Hb]. rewrite Hb. unfold load_notifications, snapshot_key_from_keyring, get_password.
    destruct Hs' as (Hg' & _ & _ & _). rewrite Hg', Hk. cbn [mbind option_bind fst].
    rewrite (notifications_roundtrip key (se_nonce io) (bstr data) blob) by (done || apply Hs).
    by rewrite (history_roundtrip l data Hd).
  - subst b'. unfold push_notification_packet, add_notification, save_notifications. destruct (snapshot_key_from_keyring _ _ _ _).
    eexists. split; [reflexivity|done].
  - subst b'. unfold push_notification_packet, add_notification, save_notifications. destruct (snapshot_key_from_keyring _ _ _ _).
    eexists _, _. split; [reflexivity|]. split; apply sanitized_is_plain.
Qed.

(** A keyring that cannot be read once loses the key: it is replaced. *)
Lemma unreadable_key_replaced fresh h key :
  keyring h !! entry KEYRING_SNAPSHOT_KEY = Some key ->
  keyring (snd (snapshot_key_from_keyring false true fresh h)) !! entry KEYRING_SNAPSHOT_KEY = Some (hex_encode fresh).
Proof. intros _. cbn. apply lookup_insert_eq. Qed.

End History.

(** ** Media actions *)

Definition known_media (s : ServerState) : list MediaAction := match media_state s with Some m => ms_actions m | None => [] end.

Definition trigger_desktop_media_action (action_index : Z) (s : ServerState) : ServerState :=
  if existsb (fun a => ma_index a =? action_index) (known_media s) then s <| pending_media_action := Some action_index |> else s.

(** Only an action the phone offers is asked for. *)
Lemma media_action_known i s :
  pending_media_action (trigger_desktop_media_action i s) = pending_media_action s
  \/ pending_media_action (trigger_desktop_media_action i s) = Some i /\ exists a, a ∈ known_media s /\ ma_index a = i.
Proof.
  unfold trigger_desktop_media_action. destruct (existsb _ _) eqn:E; [right|by left]. split; [done|].
  apply existsb_exists in E as (a & Ha & Hi). exists a. split; [by apply list_elem_of_In|by apply Z.eqb_eq].
Qed.

(** But it is checked when it is asked for, not when it is sent: the action is
    sent with the next poll, whatever the phone offers by then. *)
Lemma stale_action_sent i s m :
  existsb (fun a => ma_index a =? i) (known_media s) = true ->
  get_field "pending_media_action" (fst (read_local_state ((trigger_desktop_media_action i s) <| media_state := Some m |>))) = Some (Number i).
Proof. intros H. unfold trigger_desktop_media_action. by rewrite H. Qed.

(** ** One notification *)

Module Shown.
Import Toy ToyJson Shares.

#[export] Instance record_eq_dec : EqDecision NotificationRecord.
Proof. solve_decision. Defined.
#[export] Instance record_countable : Countable NotificationRecord.
Proof.
  refine (inj_countable'
    (fun r => (nr_id r, nr_title r, nr_text r, nr_app_package r, nr_timestamp r, nr_is_dismissed r, nr_updated_at r, nr_type_field r))
    (fun '(i, t, x, p, ts, d, u, f) => {| nr_id := i; nr_title := t; nr_text := x; nr_app_package := p; nr_timestamp := ts;
                                          nr_is_dismissed := d; nr_updated_at := u; nr_type_field := f |}) _).
  by intros [].
Defined.
#[export] Instance history_text : HistoryText := {|
  history_to_string := fun l => Some (ToyJson.pos_bits (encode l));
  history_from_slice := fun b => ToyJson.bits_pos (String.string_of_list_byte b) ≫= decode |}.
#[export] Instance history_text_laws : HistoryTextLaws.
Proof.
  split; [intros l; by eexists|]. intros l t [= <-]. cbn [history_from_slice history_text].
  rewrite string_of_bstr, ToyJson.bits_pos_bits. cbn. apply decode_encode.
Qed.

Definition empty_inbox : Inbox :=
  {| notifications := []; notifications_file := None; inbox_host := {| keyring := ∅; files := ∅ |}; inbox_logs := []; shown := [] |}.
Definition seal_io : SealIo := {| se_get := true; se_set := true; se_fresh := zeros32; se_nonce := replicate 12 x00 |}.
Definition noted : Inbox := snd (push_notification_packet seal_io "<b>Hi</b>" "you" "app" 5 empty_inbox).

Lemma history_survives_witness :
  fst (load_notifications seal_io (notifications_file noted) (inbox_host noted)) = notifications noted.
Proof.
  refine (proj1 (history_survives seal_io "<b>Hi</b>" "you" "app" 5 empty_inbox seal_io _ _ _)); [by split_and!|by split_and!|].
  apply (bool_decide_eq_true_1 (is_Some _)). vm_compute. reflexivity.
Defined.

End Shown.
