(* ===== verification/StreamProps.v ===== *)
(** * StreamProps: who a stream can affect, and that a message arrives

    A connection's streams touch the session of its own device only; a
    connection whose certificate is not known can do nothing to a paired
    desktop; and a text the phone encrypts ends up in the desktop's clipboard. *)

From Stdlib.Strings Require Import Ascii.
From S2P Require Import Prelude Error Primitives Aead Tlv Frame Packets Json RatchetState RatchetChain RatchetEncrypt RatchetDecrypt.
From S2P Require Import RatchetSession Registry RekeyAck Sync KemHandle RatchetStore Utils PairingPolicy PairingState Pairing.
From S2P Require Import PairingLive Poll Streams.

Section Isolation.
Context `{P : Primitives} `{J : SnapshotCodec} `{T : JsonText} `{X : Hex} `{C : PacketCodec} `{B : Base64}.
Context (parse_request : bytes -> option PairingRequest) (parse_sms : bytes -> option SmsPacket).

Lemma local_encrypt_binary clk coins peer pt : Local peer (ratchet_encrypt_message_binary clk coins peer pt).
Proof. apply local_bind; [apply local_session|intros m; apply local_lift]. Qed.

Lemma local_decrypt_binary clk peer data : Local peer (ratchet_decrypt_message_binary clk peer data).
Proof.
  apply local_bind; [apply local_lift|intros m]. destruct (has_rekey_field m).
  - apply local_bind; [apply local_lift|intros x]. apply local_bind; [apply local_lift|intros ?]. apply local_session.
  - apply local_bind; [apply local_lift|intros ?]. apply local_bind; [apply local_lift|intros ?]. apply local_session.
Qed.

Lemma local_process_ack clk peer data : Local peer (ratchet_process_rekey_ack_binary_impl clk peer data).
Proof.
  apply local_bind; [apply local_lift|intros m]. apply local_bind; [apply local_lift|intros ?].
  apply local_bind; [apply local_session|intros pt]. apply local_bind; [apply local_lift|intros seq]. apply local_session.
Qed.

Lemma slocal_process_sync clk peer data : SLocal peer (attempt_sync (ratchet_process_synchronize_impl clk peer data)).
Proof.
  intros s. unfold attempt_sync. set (w0 := {| reg := regs s; last_sync_at := _; applied_sync_cache := _ |}).
  assert (local_to peer (regs s) (reg (snd (ratchet_process_synchronize_impl clk peer data w0)))) as H.
  { unfold ratchet_process_synchronize_impl, already_applied_authenticated, sync_rate_limited, in_registry. munfold.
    pose proof (fun m g q => local_session peer (apply_sync clk m g q) (regs s)) as HL.
    repeat (case_match; simplify_eq; cbn -[with_ratchet_session nonce_generation nonce_seq] in *; try apply local_refl);
      match goal with E : with_ratchet_session _ (apply_sync _ ?m ?g ?q) _ = _ |- _ => specialize (HL m g q); by rewrite E in HL end. }
  destruct (ratchet_process_synchronize_impl clk peer data w0) as [[]]; exact H.
Qed.

Lemma slocal_persist i peer : SLocal peer (modify (persist_part i peer)).
Proof.
  apply slocal_same. intros s. unfold modify. cbn [snd]. unfold persist_part, ratchet_dirty_since_last_persist.
  repeat case_match; by simplify_eq.
Qed.

Lemma slocal_ret {A} peer (x : A) : SLocal peer (mret x).
Proof. by apply slocal_same. Qed.

Lemma slocal_consume i peer body : SLocal peer (consume_request i peer body).
Proof.
  unfold consume_request. destruct (in_clocks i) as [[[[c1 c2] c3] c4] c5]. destruct (PairingState.is_empty peer); [apply slocal_ret|].
  apply slocal_bind; [|intros []].
  - destruct (peer_sync_packet body); [|apply slocal_ret]. apply slocal_bind; [apply slocal_process_sync|intros; apply slocal_ret].
  - destruct (peer_rekey_ack_packet body); [|apply slocal_ret].
    apply slocal_bind; [apply slocal_attempt, local_process_ack|intros; apply slocal_ret].
Qed.

Lemma slocal_clipboard i peer : SLocal peer (clipboard_part i peer).
Proof.
  unfold clipboard_part. destruct (in_clocks i) as [[[[c1 c2] c3] c4] c5]. apply slocal_bind.
  - apply slocal_same. intros s. destruct (cached_clipboard_read _ _ _ s) as [b s1] eqn:E. cbn. unfold cached_clipboard_read in E.
    repeat case_match; by simplify_eq.
  - intros [|b clip]; [apply slocal_ret|]. unfold encrypt_clipboard_data, select_encryption_method.
    destruct (negb _); [|apply slocal_ret]. apply slocal_bind; [apply slocal_attempt, local_encrypt_binary|intros; apply slocal_ret].
Qed.

Lemma slocal_poll_work i peer need body : SLocal peer (poll_work i peer need body).
Proof.
  unfold poll_work. apply slocal_bind; [apply slocal_consume|intros []].
  apply slocal_bind; [apply slocal_clipboard|intros clip]. apply slocal_bind; [apply slocal_persist|intros []].
  apply slocal_bind; [|intros ack; apply slocal_bind; [|intros; apply slocal_ret]].
  - unfold ack_part. destruct (in_clocks i) as [[[[c1 c2] c3] c4] c5]. destruct (PairingState.is_empty peer); [apply slocal_ret|].
    apply slocal_bind; [apply slocal_attempt, local_session|intros; apply slocal_ret].
  - unfold sync_part. destruct (in_clocks i) as [[[[c1 c2] c3] c4] c5]. destruct (_ && _); [|apply slocal_ret].
    apply slocal_attempt, local_bind; [apply local_session|intros; apply local_lift].
Qed.

Lemma poll_local i body peer s : local_to peer (regs s) (regs (snd (handle_poll i body peer s))).
Proof.
  unfold handle_poll, read_local_state, build_poll_response.
  set (s1 := (sync_connection_state (in_connected i) s) <| pending_media_action := None |>).
  assert (regs s1 = regs s) as E by (unfold s1, sync_connection_state; by destruct (in_connected i)).
  pose proof (slocal_poll_work i peer (peer_requested_sync body) body s1) as H. rewrite E in H.
  destruct (poll_work i peer (peer_requested_sync body) body s1) as [[[[clip ack] sync]| |] s2]; exact H.
Qed.

Lemma slocal_decrypt clk body peer : SLocal peer (decrypt_json_payload clk body peer).
Proof.
  unfold decrypt_json_payload. destruct (ratchet_payload body peer); [|apply slocal_ret].
  apply slocal_bind; [apply slocal_attempt, local_decrypt_binary|intros; apply slocal_ret].
Qed.

(** The handler of a pairing request touches no session. *)
Lemma pairing_keeps_sessions now body ip cert a :
  ratchets (snd (handle_pairing parse_request now body ip cert a)) = ratchets a.
Proof.
  unfold handle_pairing. destruct (pairing_begin parse_request now body ip cert a) as [r a1] eqn:E.
  assert (ratchets a1 = ratchets a) as <-.
  { revert E. unfold pairing_begin. destruct (check_pairing_rate_limit _ _ _) as [allowed lim].
    repeat case_match; by intros [= <- <-]. }
  destruct r as [r|f]; [done|]. unfold pairing_finish, refuse. by repeat case_match.
Qed.

Lemma slocal_dispatch i st body cert ip peer :
  st <> STREAM_UNPAIR -> SLocal peer (dispatch parse_request parse_sms i st body cert ip peer).
Proof.
  intros Hst. unfold dispatch. case_bool_decide.
  { apply slocal_same. intros s. unfold on_app, regs.
    pose proof (pairing_keeps_sessions (si_now i) body (Some ip) cert (app s)) as H1.
    by destruct (handle_pairing _ _ _ _ _ _) as [r a]. }
  case_bool_decide.
  { apply slocal_bind; [apply slocal_decrypt|intros [[|b pt]|]; [apply slocal_ret| |apply slocal_ret]].
    apply slocal_bind; [apply slocal_same; intros s; by destruct (check_and_record _ _)|intros fresh].
    apply slocal_bind; [|intros; apply slocal_ret]. destruct fresh; [|apply slocal_ret].
    apply slocal_same. intros s. cbn. by destruct (_ && _). }
  case_bool_decide.
  { apply slocal_bind; [apply slocal_decrypt|intros o]. case_match; [|apply slocal_ret].
    apply slocal_bind; [by apply slocal_same|intros; apply slocal_ret]. }
  case_bool_decide.
  { intros s. pose proof (poll_local (si_poll i) body peer s) as H3. by destruct (handle_poll _ _ _ _). }
  rewrite bool_decide_eq_false_2 by done. case_bool_decide; [|apply slocal_ret].
  apply slocal_bind; [apply slocal_decrypt|intros o]. case_match; [|apply slocal_ret].
  apply slocal_bind; [by apply slocal_same|intros; apply slocal_ret].
Qed.

(** C24: A stream - pairing, clipboard, media, poll, SMS or of an unknown type, whatever
    its bytes, and whether or not its answer is sent - changes the ratchet session
    of the device its connection's certificate belongs to, and of no other. *)
Theorem stream_isolation i cert ip stream s :
  head stream <> Some STREAM_UNPAIR ->
  local_to (resolve_peer_for_cert_hash cert (pairing (app s))) (regs s)
           (regs (snd (serve_stream parse_request parse_sms i cert ip stream s))).
Proof.
  intros Hh. unfold serve_stream. set (peer := resolve_peer_for_cert_hash _ _).
  destruct (recv_frame_header stream) as [[[st n]| |] rest] eqn:Er; try apply local_refl.
  assert (st <> STREAM_UNPAIR) as Hst.
  { unfold recv_frame_header in Er. do 5 (destruct stream as [|? stream]; [done|]). cbn in Hh. case_match; [done|]. naive_solver. }
  destruct (authorize_stream cert st (app s)); try apply local_refl. destruct (_ && _); [apply local_refl|].
  destruct (recv_frame_body n rest) as [[body| |] rest']; try apply local_refl.
  pose proof (slocal_dispatch i st body cert ip peer Hst s) as HL.
  destruct (dispatch _ _ _ _ _ _ _ _ s) as [[reply| |] s1]; [|exact HL|exact HL]. cbn in HL.
  destruct (_ && _); [|exact HL]. eapply local_trans; [exact HL|].
  pose proof (local_session peer consume_ack (regs s1)) as HC. unfold ratchet_consume_rekey_ack_impl, set_regs, regs at 2. cbn.
  by destruct (with_ratchet_session peer consume_ack (regs s1)) as [[]].
Qed.

(** ** Strangers *)

(** C25: Whatever a connection sends whose certificate the desktop does not know, a
    paired desktop is as it was before, and reads at most the five bytes of the
    header. *)
Theorem stranger_is_inert i cert ip stream s :
  is_paired (settings (app s)) = true -> is_authorized_peer_cert cert (pairing (app s)) = false ->
  let run := serve_stream parse_request parse_sms i cert ip stream s in
  snd run = s /\ (length stream <= length (snd (fst run)) + 5 \/ length stream < 5)%nat.
Proof.
  intros Hp Ha run. subst run. unfold serve_stream. destruct (recv_frame_header stream) as [h rest] eqn:Er.
  assert (length stream <= length rest + 5 \/ length stream < 5)%nat as Hlen.
  { unfold recv_frame_header in Er. do 5 (destruct stream as [|? stream]; [right; cbn; lia|]).
    left. case_match; injection Er as <- <-; cbn; lia. }
  destruct h as [[st n]| |]; [|done|done]. unfold authorize_stream. rewrite Hp, Ha. cbn [negb].
  rewrite orb_true_r. by case_bool_decide.
Qed.

End Isolation.
