(* ===== verification/Delivery.v ===== *)
(** * Delivery: a text from the phone to the desktop's clipboard, and a poll's
    answer across a restart

    The composition of the ratchet, the TLV codec, the JSON wire format, the
    frame codec, the stream server and the clipboard handler; and of the poll
    handler with the ratchet store. *)

From Stdlib.Strings Require Import Ascii.
From S2P Require Import Prelude Error Primitives Aead Kem Tlv Frame Packets Json RatchetState RatchetChain RatchetEncrypt RatchetDecrypt.
From S2P Require Import RatchetSession RatchetSnapshot Registry RekeyAck Sync KemHandle RatchetStore StoreProps Utils PairingPolicy.
From S2P Require Import PairingState Pairing PairingProps PairingScenario Poll Streams StreamProps Toy Scenario.

Section Delivery.
Context `{P : Primitives} `{L : !PrimitivesLaws} `{J : SnapshotCodec} `{T : JsonText} `{LT : !JsonTextLaws} `{X : Hex}
        `{C : PacketCodec} `{B : Base64} `{LB : !Base64Laws}.
Context (parse_request : bytes -> option PairingRequest) (parse_sms : bytes -> option SmsPacket).

(** ** The wire format *)

Definition wire_value (bin : bytes) : Value := obj [("encrypted_ratchet", tlv_field bin)].

Lemma representable_obj k v : representable v -> representable (obj [(k, v)]).
Proof.
  intros Hv. apply repr_object. intros k' v' H. cbn in H. apply lookup_insert_Some in H as [[_ <-]|[_ H]]; [done|].
  by rewrite lookup_empty in H.
Qed.

Lemma text_bstr t : Pairing.text (bstr t) = t.
Proof. unfold Pairing.text, bstr. apply String.string_of_list_byte_of_string. Qed.

Lemma payload_roundtrip bin t peer :
  json_to_string (wire_value bin) = Some t -> utf8_valid (bstr t) = true -> peer <> "" ->
  ratchet_payload (bstr t) peer = Some bin.
Proof.
  intros Ht Hu Hp. destruct (json_roundtrip (wire_value bin)) as (t' & Ht' & Hd).
  { apply representable_obj, representable_obj. constructor. }
  rewrite Ht in Ht'. injection Ht' as <-. unfold ratchet_payload. rewrite lossy_valid, text_bstr, Hd by done.
  cbn [mbind option_bind]. unfold PairingState.is_empty. rewrite bool_decide_eq_false_2 by done.
  unfold wire_value, obj, get_field, as_object. cbn [mbind option_bind list_to_map foldr fst snd uncurry].
  rewrite lookup_insert_eq. cbn [mbind option_bind]. unfold tlv_of, tlv_field, obj, get_field, as_object.
  cbn [mbind option_bind list_to_map foldr fst snd uncurry]. rewrite lookup_insert_eq. cbn. apply b64_roundtrip.
Qed.

Lemma tlv_plain m bin :
  to_binary m = Ok bin -> msg_rekey_x25519_pk m = None -> msg_rekey_mlkem_pk m = None -> msg_rekey_ciphertext m = None ->
  len bin <= MAX_MESSAGE_SIZE -> from_binary bin = Ok m.
Proof.
  destruct m as [n c x k r]. cbn [msg_rekey_x25519_pk msg_rekey_mlkem_pk msg_rekey_ciphertext]. intros E -> -> -> Hl.
  rewrite to_binary_spec in E. injection E as <-. unfold tlv_body in *. cbn [tlv_flag msg_rekey_x25519_pk msg_nonce msg_ciphertext] in *.
  pose proof (len_nonneg n) as Hn0. pose proof (len_nonneg c) as Hc0.
  unfold put_field in Hl. rewrite !len_cons, !len_app, !len_be_bytes in Hl. change (len []) with 0 in Hl. unfold MAX_MESSAGE_SIZE in Hl.
  set (m := {| msg_nonce := n; msg_ciphertext := c; msg_rekey_x25519_pk := None; msg_rekey_mlkem_pk := None;
               msg_rekey_ciphertext := None |}).
  pose proof (from_binary_encoded m x00 []) as H. rewrite app_nil_r in H. unfold tlv_body in H. cbn in H. apply H; [|done].
  split_and!; cbn; try done; unfold fits_u32; lia.
Qed.

(** A message sealed for the position [q] opens on the receiver of the chain. *)
Lemma decrypt_binary_delivers clk peer r b ck g D a clkA coins txt m a' bin :
  live peer r = Some b -> Sends ck g a -> message_count (send a) < 100 -> Tracks ck g D b ->
  message_count (send a) ∉ D -> ratchet_encrypt clkA coins txt a = (Ok m, a') -> to_binary m = Ok bin ->
  len bin <= MAX_MESSAGE_SIZE ->
  exists b', ratchet_decrypt_message_binary clk peer bin r = (Ok txt, put_session peer b' r)
    /\ Tracks ck g ({[message_count (send a)]} ∪ D) b'.
Proof.
  intros Hb HS Hlt HT HD E Hbin Hlen. pose proof (sn_count _ _ _ HS) as H0.
  destruct (sends_encrypt ck g clkA coins txt a m a' HS Hlt E) as (_ & _ & [Hn Hd] & R1 & R2 & R3). cbn [fst snd] in Hn, Hd.
  rewrite Hn in Hd. destruct (tracks_deliver ck g D _ _ _ _ b HT HD ltac:(lia) Hd) as (b' & Eb & HT').
  exists b'. split; [|done]. unfold ratchet_decrypt_message_binary. munfold. rewrite (tlv_plain m bin Hbin R1 R2 R3 Hlen).
  assert (has_rekey_field m = false) as Hf by (unfold has_rekey_field; by rewrite R1, R2, R3).
  rewrite Hf. unfold ratchet_decrypt_message_impl. munfold. cbv beta iota. rewrite Hf, Hn.
  assert (len (generate_nonce_from_seq (message_count (send a)) g) = 12) as -> by (unfold generate_nonce_from_seq; rewrite len_app, !len_be_bytes; done).
  cbn [Z.eqb Pos.eqb negb]. rewrite (with_session_live peer _ r b Hb). unfold ratchet_decrypt. by rewrite Eb.
Qed.

(** ** The clipboard *)

(** A desktop that takes clipboard texts from the device of [cert]. *)
Record receptive (i : StreamInputs) (cert peer : string) (txt : bytes) (s : ServerState) : Prop := {
  rc_paired : is_paired (settings (app s)) = true;
  rc_cert : is_authorized_peer_cert cert (pairing (app s)) = true;
  rc_peer : resolve_peer_for_cert_hash cert (pairing (app s)) = peer;
  rc_named : peer <> "";
  rc_policy : inbound_clipboard_enabled s = true;
  rc_io : si_clip_ok i = true /\ si_sent i = true;
  rc_new : hash_clipboard_text txt ∉ history (dedup s)
}.

(** C7: on a desktop paired with the phone, whose inbound clipboard policy is on,
    whose duplicate filter does not hold the text, whose clipboard takes a write
    and whose answer can be sent ([receptive]): the phone encrypts a non-empty text, wraps
    it in the JSON wire format and a clipboard frame within the size cap; the
    desktop's server, on that stream of that device, answers that it is synced,
    and the text is in the desktop's clipboard; the session has delivered one
    more position.  Any of the first hundred positions of a generation may come,
    in any order. *)
Theorem clipboard_arrives i cert ip peer txt s b ck g D clkA coins pn rA rA' a bin t more :
  receptive i cert peer txt s -> live peer (regs s) = Some b -> Tracks ck g D b ->
  live pn rA = Some a -> Sends ck g a -> message_count (send a) < 100 -> message_count (send a) ∉ D ->
  ratchet_encrypt_message_binary clkA coins pn txt rA = (Ok bin, rA') -> len bin <= MAX_MESSAGE_SIZE ->
  json_to_string (wire_value bin) = Some t -> utf8_valid (bstr t) = true -> len (bstr t) <= MAX_MESSAGE_SIZE ->
  txt <> [] -> utf8_valid txt = true ->
  exists s', serve_stream parse_request parse_sms i cert ip
               (encode {| stream_type := STREAM_CLIPBOARD; body := bstr t |} ++ more) s
      = (Some (STREAM_CLIPBOARD, Synced), more, s')
    /\ os_clipboard s' = txt
    /\ exists b', live peer (regs s') = Some b' /\ Tracks ck g ({[message_count (send a)]} ∪ D) b'.
Proof.
  intros [Rp Rc Rr Rn Rpol [Rio Rsent] Rnew] Hb HT Ha HS Hlt HD Henc Hbl Hj Hju Hjl Htxt Hutf.
  unfold ratchet_encrypt_message_binary, ratchet_encrypt_message_impl in Henc. munfold.
  rewrite (with_session_live pn _ rA a Ha) in Henc.
  destruct (ratchet_encrypt clkA coins txt a) as [[m| |] a'] eqn:E; try done.
  destruct (to_binary m) as [bin'| |] eqn:Eb; try done. injection Henc as -> _.
  destruct (decrypt_binary_delivers (si_clock i) peer (regs s) b ck g D a clkA coins txt m a' bin Hb HS Hlt HT HD E Eb Hbl)
    as (b' & Hdec & HT').
  assert (dispatch parse_request parse_sms i STREAM_CLIPBOARD (bstr t) cert ip peer s
          = (Ok Synced, (set_regs (put_session peer b' (regs s)) s) <| dedup := snd (check_and_record txt (dedup s)) |> <| os_clipboard := txt |>)) as Hd.
  { unfold dispatch. cbn [bool_decide]. rewrite !(bool_decide_eq_false_2 (STREAM_CLIPBOARD = STREAM_PAIRING)) by done.
    rewrite (bool_decide_eq_true_2 (STREAM_CLIPBOARD = STREAM_CLIPBOARD)) by done.
    unfold handle_clipboard, decrypt_json_payload. munfold. rewrite (payload_roundtrip bin t peer Hj Hju Rn).
    unfold attempt. rewrite Hdec. cbn [option_bind]. rewrite Hutf. destruct txt as [|x txt]; [done|].
    assert (fst (check_and_record (x :: txt) (dedup s)) = true) as Hf.
    { unfold check_and_record. rewrite known_spec, bool_decide_eq_false_2 by done. done. }
    change (dedup (set_regs (put_session peer b' (regs s)) s)) with (dedup s).
    destruct (check_and_record (x :: txt) (dedup s)) as [fr d]. cbn in Hf. subst fr. cbn [snd]. rewrite Rio.
    match goal with |- context [inbound_clipboard_enabled ?x] => change (inbound_clipboard_enabled x) with (inbound_clipboard_enabled s) end.
    by rewrite Rpol. }
  unfold serve_stream, encode. rewrite <- !app_assoc, recv_frame_header_spec
    by (pose proof (len_nonneg (bstr t)); unfold MAX_MESSAGE_SIZE in *; cbn [body]; lia).
  cbn [stream_type body]. rewrite (proj2 (Z.ltb_ge _ _)) by lia.
  unfold authorize_stream. rewrite !(bool_decide_eq_false_2 (STREAM_CLIPBOARD = STREAM_PAIRING)), Rp, Rc by done. cbn [negb].
  assert (PairingState.is_empty cert = false) as ->.
  { unfold is_authorized_peer_cert in Rc. destruct (PairingState.is_empty cert); done. }
  cbn [orb andb]. rewrite recv_frame_body_app by done. rewrite Rr, Hd, Rsent.
  rewrite (bool_decide_eq_false_2 (STREAM_CLIPBOARD = STREAM_POLL)) by done. cbn [andb].
  eexists. split; [done|]. split; [done|]. exists b'. split; [apply live_put|done].
Qed.

End Delivery.

(** ** The answer to a poll *)

Section Answer.
Context `{P : Primitives} `{T : JsonText} `{X : Hex} `{C : PacketCodec} `{B : Base64}.

(** The ratchet-encrypted fields of an answer, in the order they are produced. *)
Definition carried (ack sync : option bytes) : list string :=
  ["latest_clip_encrypted"] ++ (if is_some ack then ["rekey_ack_encrypted"] else [])
                            ++ (if is_some sync then ["sync"] else []).

(** The manifest lists the ratchet-encrypted fields the answer has, and no
    other, in the order their messages were encrypted. *)
Theorem manifest_is_true m clip ack sync :
  m !! "rekey_ack_encrypted" = None -> m !! "sync" = None ->
  exists r, assemble (Object m) clip ack sync = Object r
    /\ r !! "manifest" = Some (Array (Str <$> carried ack sync))
    /\ forall k, k ∈ ["latest_clip_encrypted"; "rekey_ack_encrypted"; "sync"] ->
         is_Some (r !! k) <-> k ∈ carried ack sync.
Proof.
  intros Ha Hs. unfold assemble, carried, insert_field. destruct ack as [a|], sync as [b|]; eexists; (split; [done|]);
    (split; [apply lookup_insert_eq|]); intros k Hk; rewrite !elem_of_cons, elem_of_nil in Hk;
    destruct Hk as [->|[->|[->|[]]]]; rewrite lookup_insert_ne by done;
    repeat first [rewrite lookup_insert_eq | rewrite lookup_insert_ne by done]; rewrite ?Ha, ?Hs; cbn [is_some Datatypes.app];
    rewrite !elem_of_cons, elem_of_nil; (split; [intros [? ?]|intros ?]); naive_solver.
Qed.

End Answer.

(** ** Concrete runs *)

Import Scenario ToyJson ToyCodec Desk.

#[export] Instance toy_b64 : Base64 := {| b64_encode := toy_encode; b64_decode := toy_decode |}.
#[export] Instance toy_b64_laws : Base64Laws.
Proof. constructor. exact hex_roundtrip. Qed.

(** A session that has sent one message, and a codec for its snapshot. *)
Definition alice1 : DoubleRatchetState := snd (ratchet_encrypt clock (rekey_coins 1) (bstr "clip") alice).
Definition codec1 : SnapshotCodec := table_codec [to_snapshot alice1].

Definition no_sms (b : bytes) : option SmsPacket := None.
Definition server_of (a : AppState) : ServerState := {|
  app := a; sync_times := ∅; sync_cache := ∅; last_persisted_state := ∅; clipboard_cache := None; dedup := new_deduplicator;
  inbound_clipboard_enabled := true; os_clipboard := []; pending_media_action := None; media_state := None; sms_history := [] |}.

Definition poll_inputs : PollInputs := {|
  in_connected := true; in_clocks := (clock, clock, clock, clock, clock); in_clip_times := (0, 0); in_clip := None;
  in_coins := (rekey_coins 41, rekey_coins 42, rekey_coins 43); in_key_ok := (true, true); in_fresh_key := zeros32;
  in_persist := all_ok; in_nonces := zero_nonce |}.
Definition stream_inputs : StreamInputs := {|
  si_clock := clock; si_now := 0; si_poll := poll_inputs; si_unpair := all_removed; si_clip_ok := true; si_sent := true |}.

(** The phone of [Desk], paired with [paired_desk]. *)
Definition phone_session : DoubleRatchetState :=
  fresh_session (combined_shared_secret phone_kem) false pair_a (Some (x25519_pk pair_b)) (Some (mlkem_pk pair_b)).
Definition desk_session : DoubleRatchetState :=
  fresh_session (combined_shared_secret phone_kem) true pair_b (Some (x25519_pk pair_a)) (Some (mlkem_pk pair_a)).
Definition phone_registry : Registry :=
  {| sessions := {[ "desk" := {| state := phone_session; poisoned := false |} ]}; map_poisoned := false |}.
Definition phone_peer : string := hex_encode (mlkem_pk pair_a).

Definition sent_text : kres bytes * Registry :=
  ratchet_encrypt_message_binary clock (rekey_coins 51) "desk" (bstr "hello") phone_registry.
Definition sent_bin : bytes := match fst sent_text with Ok b => b | _ => [] end.
Definition sent_json : string := default "" (json_to_string (wire_value sent_bin)).

Lemma desk_receives : receptive stream_inputs phone_cert phone_peer (bstr "hello") (server_of paired_desk).
Proof. split; try (vm_compute; reflexivity); [by vm_compute|by split|apply not_elem_of_nil]. Qed.
Lemma desk_is_live : live phone_peer (regs (server_of paired_desk)) = Some desk_session.
Proof. vm_compute. reflexivity. Qed.
Lemma text_was_sent :
  ratchet_encrypt_message_binary clock (rekey_coins 51) "desk" (bstr "hello") phone_registry = (Ok sent_bin, snd sent_text).
Proof. vm_compute. reflexivity. Qed.
Lemma text_fits : len sent_bin <= MAX_MESSAGE_SIZE /\ len (bstr sent_json) <= MAX_MESSAGE_SIZE.
Proof. split; apply Z.leb_le; vm_compute; reflexivity. Qed.
Lemma json_was_sent : json_to_string (wire_value sent_bin) = Some sent_json.
Proof. vm_compute. reflexivity. Qed.
Lemma json_is_utf8 : utf8_valid (bstr sent_json) = true.
Proof. vm_compute. reflexivity. Qed.
Lemma phone_sends : Sends (responder_chain (combined_shared_secret phone_kem)) 0 phone_session.
Proof. by constructor. Qed.

Lemma clipboard_arrives_witness : exists s',
  serve_stream (J := codec1) no_json no_sms stream_inputs phone_cert "10.0.0.2"
    (encode {| stream_type := STREAM_CLIPBOARD; body := bstr sent_json |} ++ []) (server_of paired_desk)
  = (Some (STREAM_CLIPBOARD, Synced), [], s')
  /\ os_clipboard s' = bstr "hello"
  /\ exists b', live phone_peer (regs s') = Some b'
       /\ Tracks (responder_chain (combined_shared_secret phone_kem)) 0 ({[message_count (send phone_session)]} ∪ ∅) b'.
Proof.
  exact (clipboard_arrives (J := codec1) no_json no_sms stream_inputs phone_cert "10.0.0.2" phone_peer (bstr "hello")
           (server_of paired_desk) desk_session (responder_chain (combined_shared_secret phone_kem)) 0 ∅ clock (rekey_coins 51)
           "desk" phone_registry (snd sent_text) phone_session sent_bin sent_json []
           desk_receives desk_is_live (tracks_fresh (combined_shared_secret phone_kem) true pair_b (Some (x25519_pk pair_a)) (Some (mlkem_pk pair_a)))
           eq_refl phone_sends eq_refl (not_elem_of_empty _) text_was_sent (proj1 text_fits) json_was_sent json_is_utf8
           (proj2 text_fits) ltac:(discriminate) eq_refl).
Defined.

(** A desktop with one session that has sent a message, polled by a phone that
    asks for a Synchronize. *)
Definition desk1 : ServerState := server_of (desk <| ratchets := with_alice alice1 |>).
Definition need_sync_body : bytes := bstr (default "" (json_to_string (obj [("need_sync", Bool true)]))).
Definition polled : bytes * ServerState := handle_poll (J := codec1) poll_inputs need_sync_body "bob" desk1.

(** The Synchronize the answer carries. *)
Definition answered_sync : option RatchetEncryptedMessage :=
  v ← parse_json (fst polled); f ← get_field "sync" v; bin ← tlv_of f;
  match from_binary bin with Ok m => Some m | _ => None end.

(** The desktop after a restart: the sessions the store gives back. *)
Definition restarted : kres nat * Registry :=
  restore_all_ratchet_sessions (J := codec1) clock true true (true, true) (hex_encode zeros32) (host (app (snd polled))) no_sessions.

(** The next message after the restart. *)
Definition next_message : kres RatchetEncryptedMessage * Registry :=
  ratchet_encrypt_message_impl clock (rekey_coins 61) "bob" (bstr "next") (snd restarted).

Lemma sync_was_answered : is_some answered_sync = true.
Proof. vm_compute. reflexivity. Qed.
Lemma session_comes_back : fst restarted = Ok 1%nat.
Proof. vm_compute. reflexivity. Qed.
Lemma same_chain_key : key ∘ send <$> live "bob" (snd restarted) = Some (key (send alice1)).
Proof. vm_compute. reflexivity. Qed.
Lemma same_nonce : match fst next_message with Ok m => Some (msg_nonce m) | _ => None end = msg_nonce <$> answered_sync.
Proof. vm_compute. reflexivity. Qed.
Lemma other_text : match fst next_message with Ok m => bool_decide (Some (msg_ciphertext m) = msg_ciphertext <$> answered_sync) | _ => true end = false.
Proof. vm_compute. reflexivity. Qed.

(** On this desktop a poll persists the session and then encrypts its Synchronize: the store is
    behind what was sent.  After a restart the session comes back on the chain key
    the Synchronize was sealed from, and the next message is sealed under the
    Synchronize's nonce. *)
Theorem poll_then_restart_reuses_nonce :
  fst restarted = Ok 1%nat
  /\ key ∘ send <$> live "bob" (snd restarted) = Some (key (send alice1))
  /\ exists sync m, answered_sync = Some sync /\ fst next_message = Ok m
       /\ msg_nonce m = msg_nonce sync /\ msg_ciphertext m <> msg_ciphertext sync.
Proof.
  refine (conj session_comes_back (conj same_chain_key _)).
  pose proof sync_was_answered as H1. pose proof same_nonce as H2. pose proof other_text as H3.
  revert H1 H2 H3. generalize answered_sync as o, (fst next_message) as k. intros [sync|] [m| |] H1 H2 H3; try discriminate.
  exists sync, m. injection H2 as H2. apply bool_decide_eq_false in H3. cbn in H3.
  refine (conj eq_refl (conj eq_refl (conj H2 _))). congruence.
Qed.

(** ** Witnesses of the stream server's theorems *)

Definition sent_stream : bytes := encode {| stream_type := STREAM_CLIPBOARD; body := bstr sent_json |}.

Lemma stream_isolation_witness :
  head sent_stream <> Some STREAM_UNPAIR
  /\ local_to (resolve_peer_for_cert_hash phone_cert (pairing (app (server_of paired_desk)))) (regs (server_of paired_desk))
       (regs (snd (serve_stream (J := codec1) no_json no_sms stream_inputs phone_cert "10.0.0.2" sent_stream (server_of paired_desk)))).
Proof.
  assert (head sent_stream <> Some STREAM_UNPAIR) as H by discriminate.
  exact (conj H (stream_isolation (J := codec1) no_json no_sms stream_inputs phone_cert "10.0.0.2" sent_stream (server_of paired_desk) H)).
Defined.

Lemma stranger_is_refused : is_authorized_peer_cert other_cert (pairing (app (server_of paired_desk))) = false.
Proof. vm_compute. reflexivity. Qed.

Lemma stranger_is_inert_witness :
  let run := serve_stream (J := codec1) no_json no_sms stream_inputs other_cert "10.0.0.9" sent_stream (server_of paired_desk) in
  snd run = server_of paired_desk /\ (length sent_stream <= length (snd (fst run)) + 5 \/ length sent_stream < 5)%nat.
Proof.
  exact (stranger_is_inert (J := codec1) no_json no_sms stream_inputs other_cert "10.0.0.9" sent_stream (server_of paired_desk)
           eq_refl stranger_is_refused).
Defined.

Lemma manifest_is_true_witness : exists r,
  assemble (Object ∅) (Str "") (Some [x00]) None = Object r
  /\ r !! "manifest" = Some (Array (Str <$> ["latest_clip_encrypted"; "rekey_ack_encrypted"]))
  /\ forall k, k ∈ ["latest_clip_encrypted"; "rekey_ack_encrypted"; "sync"] ->
       is_Some (r !! k) <-> k ∈ ["latest_clip_encrypted"; "rekey_ack_encrypted"].
Proof. exact (manifest_is_true ∅ (Str "") (Some [x00]) None eq_refl eq_refl). Defined.
