(* ===== verification/Settings.v ===== *)
(** * Settings: the preferences of the desktop (desktop state/types.rs,
    state/services/settings.rs, commands/settings.rs)

    The whole settings record, its defaults and loading, and the commands of the
    renderer on it.  serde's derived parser is a parameter. *)

From S2P Require Import Prelude Error Primitives Aead Tlv Frame Packets Json RatchetState Registry RekeyAck Sync.
From S2P Require Import RatchetStore Utils PairingState Pairing PairingScenario Privilege Automation Poll Streams Delivery Toy.

(** [AppSettings]; the fields a pairing owns are the record of PairingState. *)
Record Preferences := {
  device_name : option string;
  device_picture : option string;
  ddns_hostname : string;
  enable_upnp : bool;
  enable_ddns : bool;
  file_access_granted_desktop : bool;
  file_access_granted_phone : bool;
  theme_mode : option string;
  pathway_order : option (list string);
  wireguard_active : bool;
  yubikey_bound : bool;
  beacon_discovery_enabled : bool;
  inbound_clipboard : bool;
  paired : AppSettings
}.
Definition eta_preferences (p : Preferences) : Preferences := {|
  device_name := device_name p; device_picture := device_picture p; ddns_hostname := ddns_hostname p; enable_upnp := enable_upnp p;
  enable_ddns := enable_ddns p; file_access_granted_desktop := file_access_granted_desktop p;
  file_access_granted_phone := file_access_granted_phone p; theme_mode := theme_mode p; pathway_order := pathway_order p;
  wireguard_active := wireguard_active p; yubikey_bound := yubikey_bound p; beacon_discovery_enabled := beacon_discovery_enabled p;
  inbound_clipboard := inbound_clipboard p; paired := paired p |}.
#[export] Instance upd_own_name : Update device_name. Proof. solve_update eta_preferences device_name. Defined.
#[export] Instance upd_own_picture : Update device_picture. Proof. solve_update eta_preferences device_picture. Defined.
#[export] Instance upd_ddns_hostname : Update ddns_hostname. Proof. solve_update eta_preferences ddns_hostname. Defined.
#[export] Instance upd_enable_upnp : Update enable_upnp. Proof. solve_update eta_preferences enable_upnp. Defined.
#[export] Instance upd_enable_ddns : Update enable_ddns. Proof. solve_update eta_preferences enable_ddns. Defined.
#[export] Instance upd_fa_desktop : Update file_access_granted_desktop. Proof. solve_update eta_preferences file_access_granted_desktop. Defined.
#[export] Instance upd_fa_phone : Update file_access_granted_phone. Proof. solve_update eta_preferences file_access_granted_phone. Defined.
#[export] Instance upd_theme_mode : Update theme_mode. Proof. solve_update eta_preferences theme_mode. Defined.
#[export] Instance upd_pathway_order : Update pathway_order. Proof. solve_update eta_preferences pathway_order. Defined.
#[export] Instance upd_wireguard : Update wireguard_active. Proof. solve_update eta_preferences wireguard_active. Defined.
#[export] Instance upd_yubikey : Update yubikey_bound. Proof. solve_update eta_preferences yubikey_bound. Defined.
#[export] Instance upd_beacon_enabled : Update beacon_discovery_enabled. Proof. solve_update eta_preferences beacon_discovery_enabled. Defined.
#[export] Instance upd_inbound : Update inbound_clipboard. Proof. solve_update eta_preferences inbound_clipboard. Defined.
#[export] Instance upd_paired : Update paired. Proof. solve_update eta_preferences paired. Defined.

(** The derived [Default]. *)
Definition default_preferences : Preferences := {|
  device_name := None; device_picture := None; ddns_hostname := ""; enable_upnp := false; enable_ddns := false;
  file_access_granted_desktop := false; file_access_granted_phone := false; theme_mode := None; pathway_order := None;
  wireguard_active := false; yubikey_bound := false; beacon_discovery_enabled := false; inbound_clipboard := false;
  paired := default_settings |}.

(** [contents]: what reading the file gives. *)
Definition load_from_disk (from_str : string -> option Preferences) (contents : option string) : Preferences :=
  default default_preferences (contents ≫= from_str).

(** ** The commands *)

Record SettingsDesk := {
  prefs : Preferences;
  settings_file : option string;
  settings_tokens : Tokens;
  settings_logs : list string
}.

(** The arguments of [save_settings]. *)
Record SaveArgs := {
  a_device_name : option string; a_device_picture : option string;
  a_paired_device_name : option string; a_paired_device_picture : option string;
  a_ddns_hostname : option string; a_enable_upnp : option bool; a_enable_ddns : option bool;
  a_theme_mode : option string; a_pathway_order : option (list string); a_wireguard_active : option bool;
  a_beacon_discovery_enabled : option bool; a_inbound_clipboard_enabled : option bool
}.

(** [if let Some(v) = arg { field = v }] *)
Definition if_given {A S} (arg : option A) (f : A -> S -> S) (s : S) : S := match arg with Some v => f v s | None => s end.

Definition apply_args (a : SaveArgs) (p : Preferences) : Preferences :=
  let p := if_given (a_device_name a) (fun v p => p <| device_name := Some v |>) p in
  let p := if_given (a_device_picture a) (fun v p => p <| device_picture := Some v |>) p in
  let p := if_given (a_paired_device_name a) (fun v p => p <| paired ::= fun s => s <| paired_device_name := Some v |> |>) p in
  let p := if_given (a_paired_device_picture a) (fun v p => p <| paired ::= fun s => s <| paired_device_picture := Some v |> |>) p in
  let p := if_given (a_ddns_hostname a) (fun v p => p <| ddns_hostname := v |>) p in
  let p := if_given (a_enable_upnp a) (fun v p => p <| enable_upnp := v |>) p in
  let p := if_given (a_enable_ddns a) (fun v p => p <| enable_ddns := v |>) p in
  let p := if_given (a_theme_mode a) (fun v p => p <| theme_mode := Some v |>) p in
  let p := if_given (a_pathway_order a) (fun v p => p <| pathway_order := Some v |>) p in
  let p := if_given (a_wireguard_active a) (fun v p => p <| wireguard_active := v |>) p in
  let p := if_given (a_beacon_discovery_enabled a) (fun v p => p <| beacon_discovery_enabled := v |>) p in
  if_given (a_inbound_clipboard_enabled a) (fun v p => p <| inbound_clipboard := v |>) p.

Definition save_logs (a : SaveArgs) (logs : list string) : list string :=
  let logs := add_log "[Settings] Updating preferences" logs in
  let logs := if bool_decide (a_enable_upnp a = Some true)
              then add_log "[UPnP] Initializing UPnP port mapper fallback... Done." logs else logs in
  let logs := if bool_decide (a_enable_ddns a = Some true)
              then if_given (a_ddns_hostname a) (fun h l => if eqb_dec h "" then l
                     else add_log ("[DDNS] Resolving DDNS Hostname: " +:+ h +:+ "... Done.") l) logs
              else logs in
  let logs := if_given (a_beacon_discovery_enabled a)
                (fun v => add_log ("[Beacon] LAN discovery beacons " +:+ if v : bool then "enabled (opt-in)" else "disabled")) logs in
  if_given (a_inbound_clipboard_enabled a)
    (fun v => add_log ("[Clipboard] Inbound (phone→desktop) clipboard writes " +:+ if v : bool then "enabled" else "blocked (one-way sync only)")) logs.

Section Commands.
Context (to_string_pretty : Preferences -> option string).

(** The text handed to the file writer. *)
Definition write_settings (d : SettingsDesk) : SettingsDesk :=
  match to_string_pretty (prefs d) with
  | Some text => {| prefs := prefs d; settings_file := Some text; settings_tokens := settings_tokens d; settings_logs := settings_logs d |}
  | None => d
  end.

Definition save_settings (a : SaveArgs) (d : SettingsDesk) : SettingsDesk :=
  write_settings {| prefs := apply_args a (prefs d); settings_file := settings_file d; settings_tokens := settings_tokens d;
                    settings_logs := save_logs a (settings_logs d) |}.

Definition grant_file_access (now : Z) (is_desktop granted : bool) (token : string) (d : SettingsDesk)
  : result string Preferences * SettingsDesk :=
  let '(ok, toks) := consume_privilege_token now "grant_file_access" token (settings_tokens d) in
  let d := {| prefs := prefs d; settings_file := settings_file d; settings_tokens := toks; settings_logs := settings_logs d |} in
  if negb ok then (Err "Privileged action requires a fresh confirmation token", d)
  else
    let p := if is_desktop then (prefs d) <| file_access_granted_desktop := granted |>
             else (prefs d) <| file_access_granted_phone := granted |> in
    let d := write_settings {| prefs := p; settings_file := settings_file d; settings_tokens := settings_tokens d; settings_logs := settings_logs d |} in
    (Ok (prefs d), d).

(** ** What the renderer can change *)

Inductive SettingsOp := Save (a : SaveArgs) | Grant (now : Z) (is_desktop granted : bool) (token : string).
Definition exec_settings (d : SettingsDesk) (op : SettingsOp) : SettingsDesk :=
  match op with Save a => save_settings a d | Grant now w g t => snd (grant_file_access now w g t d) end.

Lemma write_settings_prefs d : prefs (write_settings d) = prefs d.
Proof. unfold write_settings. by destruct (to_string_pretty _). Qed.
Lemma write_settings_tokens d : settings_tokens (write_settings d) = settings_tokens d.
Proof. unfold write_settings. by destruct (to_string_pretty _). Qed.

(** The fields that are not the renderer's to set. *)
Definition protected (p : Preferences) : bool * Identity * bool := (is_paired (paired p), set_identity (paired p), yubikey_bound p).
Definition access (p : Preferences) : bool * bool := (file_access_granted_desktop p, file_access_granted_phone p).

Lemma if_given_same {A S T} (g : S -> T) (arg : option A) (f : A -> S -> S) s :
  (forall v s, g (f v s) = g s) -> g (if_given arg f s) = g s.
Proof. intros H. destruct arg; [apply H|done]. Qed.
Lemma apply_args_same {T} (g : Preferences -> T) a p :
  (forall v p, g (p <| device_name := Some v |>) = g p) -> (forall v p, g (p <| device_picture := Some v |>) = g p) ->
  (forall v p, g (p <| paired ::= fun s => s <| paired_device_name := Some v |> |>) = g p) ->
  (forall v p, g (p <| paired ::= fun s => s <| paired_device_picture := Some v |> |>) = g p) ->
  (forall v p, g (p <| ddns_hostname := v |>) = g p) -> (forall v p, g (p <| enable_upnp := v |>) = g p) ->
  (forall v p, g (p <| enable_ddns := v |>) = g p) -> (forall v p, g (p <| theme_mode := Some v |>) = g p) ->
  (forall v p, g (p <| pathway_order := Some v |>) = g p) -> (forall v p, g (p <| wireguard_active := v |>) = g p) ->
  (forall v p, g (p <| beacon_discovery_enabled := v |>) = g p) -> (forall v p, g (p <| inbound_clipboard := v |>) = g p) ->
  g (apply_args a p) = g p.
Proof. intros. unfold apply_args. by rewrite !(if_given_same g) by done. Qed.

Lemma save_keeps a d : protected (prefs (save_settings a d)) = protected (prefs d) /\ access (prefs (save_settings a d)) = access (prefs d).
Proof. unfold save_settings. rewrite write_settings_prefs. cbn [prefs]. split; by apply apply_args_same. Qed.

(** A token of one action that is not there cannot be taken. *)
Lemma no_token_no_use now action token st :
  (forall t n, (action, t, n) ∉ st) ->
  fst (consume_privilege_token now action token st) = false
  /\ (forall a t n, (a, t, n) ∈ snd (consume_privilege_token now action token st) -> (a, t, n) ∈ st).
Proof.
  intros H. unfold consume_privilege_token. destruct (take_token action token (live_tokens now st)) as [st'|] eqn:E.
  - exfalso. apply take_token_some in E as (_ & [n Hn] & _). apply list_elem_of_filter in Hn as [_ Hn]. by eapply H.
  - cbn. split; [done|]. intros a t n Hn. by apply list_elem_of_filter in Hn as [_ Hn].
Qed.

(** Whatever the renderer sends to the settings commands, in any order: the
    pairing flag, the pairing identity and the bound security key are as they
    were; and without a confirmed token for it the file access is, too. *)
Theorem renderer_cannot_pair ops d :
  protected (prefs (foldl exec_settings d ops)) = protected (prefs d)
  /\ ((forall t n, ("grant_file_access", t, n) ∉ settings_tokens d) -> access (prefs (foldl exec_settings d ops)) = access (prefs d)).
Proof.
  revert d. induction ops as [|op ops IH]; intros d; cbn [foldl]; [done|]. destruct (IH (exec_settings d op)) as [H1 H2]. clear IH.
  destruct op as [a|now w g t]; cbn [exec_settings] in *.
  - destruct (save_keeps a d) as [E1 E2]. rewrite H1, E1. split; [done|]. intros Hn. rewrite H2, E2; [done|].
    unfold save_settings. by rewrite write_settings_tokens.
  - rewrite H1. revert H2. unfold grant_file_access.
    pose proof (fun H => no_token_no_use now "grant_file_access" t (settings_tokens d) H) as Hu.
    destruct (consume_privilege_token _ _ _ _) as [ok toks]. destruct ok; cbn [negb fst snd] in *.
    + intros _. split; [|by intros Hn; destruct (Hu Hn)]. rewrite write_settings_prefs. by destruct w.
    + intros H2. split; [done|]. intros Hn. destruct (Hu Hn) as [_ Hsub]. rewrite H2; [done|].
      intros t0 n0 Hin. by eapply Hn, Hsub.
Qed.

End Commands.

(** ** The first start *)

(** The commands of a stream server whose inbound policy is off leave the
    operating system's clipboard alone. *)
Definition Quiet {A} (c : server A) : Prop :=
  forall s, inbound_clipboard_enabled s = false ->
    os_clipboard (snd (c s)) = os_clipboard s /\ inbound_clipboard_enabled (snd (c s)) = false.

Lemma quiet_bind {A D} (c : server A) (f : A -> server D) : Quiet c -> (forall x, Quiet (f x)) -> Quiet (c ≫= f).
Proof.
  intros Hc Hf s Hs. munfold. destruct (Hc s Hs) as [H1 H2]. destruct (c s) as [[x| |] s1]; cbn in *; [|done|done].
  destruct (Hf x s1 H2) as [H3 H4]. by rewrite H3, H1.
Qed.
Lemma quiet_ret {A} (x : A) : Quiet (mret x).
Proof. by intros s Hs. Qed.
Lemma quiet_attempt {A} (c : registry A) : Quiet (attempt c).
Proof. intros s Hs. unfold attempt. by destruct (c (regs s)) as [[]]. Qed.
Lemma quiet_attempt_sync {A} (c : world A) : Quiet (attempt_sync c).
Proof. intros s Hs. unfold attempt_sync. by destruct (c _) as [[]]. Qed.
Lemma quiet_same {A} (c : server A) :
  (forall s, os_clipboard (snd (c s)) = os_clipboard s /\ inbound_clipboard_enabled (snd (c s)) = inbound_clipboard_enabled s) -> Quiet c.
Proof. intros H s Hs. by destruct (H s) as [-> ->]. Qed.

Create HintDb quiet.
#[local] Hint Resolve quiet_bind quiet_ret quiet_attempt quiet_attempt_sync : quiet.
#[local] Hint Extern 1 (Quiet (match ?x with _ => _ end)) => destruct x : quiet.
#[local] Hint Extern 1 (Quiet (if ?x then _ else _)) => destruct x : quiet.

Section FirstStart.
Context `{P : Primitives} `{J : SnapshotCodec} `{T : JsonText} `{X : Hex} `{C : PacketCodec} `{B : Base64}.
Context (parse_request : bytes -> option PairingRequest) (parse_sms : bytes -> option SmsPacket).

Lemma quiet_decrypt clk body peer : Quiet (decrypt_json_payload clk body peer).
Proof. unfold decrypt_json_payload. eauto with quiet. Qed.

Lemma quiet_clipboard_part i peer : Quiet (clipboard_part i peer).
Proof.
  unfold clipboard_part. destruct (in_clocks i) as [[[[c1 c2] c3] c4] c5]. apply quiet_bind.
  - apply quiet_same. intros s. destruct (cached_clipboard_read _ _ _ s) as [b s1] eqn:E. cbn. unfold cached_clipboard_read in E.
    repeat case_match; by simplify_eq.
  - intros [|b clip]; [apply quiet_ret|]. unfold encrypt_clipboard_data. eauto with quiet.
Qed.

Lemma quiet_poll_work i peer need body : Quiet (poll_work i peer need body).
Proof.
  unfold poll_work, consume_request, ack_part, sync_part. destruct (in_clocks i) as [[[[c1 c2] c3] c4] c5].
  apply quiet_bind; [eauto 8 with quiet|intros _]. apply quiet_bind; [apply quiet_clipboard_part|intros clip].
  apply quiet_bind; [|eauto 8 with quiet]. apply quiet_same. intros s. unfold modify. cbn [snd].
  unfold persist_part, ratchet_dirty_since_last_persist. repeat case_match; by simplify_eq.
Qed.

Lemma quiet_poll i body peer s :
  inbound_clipboard_enabled s = false ->
  os_clipboard (snd (handle_poll i body peer s)) = os_clipboard s
  /\ inbound_clipboard_enabled (snd (handle_poll i body peer s)) = false.
Proof.
  intros Hs. unfold handle_poll, read_local_state, build_poll_response.
  set (s1 := (sync_connection_state (in_connected i) s) <| pending_media_action := None |>).
  assert (os_clipboard s1 = os_clipboard s /\ inbound_clipboard_enabled s1 = false) as [E1 E2]
    by (unfold s1, sync_connection_state; by destruct (in_connected i)).
  pose proof (quiet_poll_work i peer (peer_requested_sync body) body s1 E2) as H. rewrite E1 in H.
  destruct (poll_work i peer (peer_requested_sync body) body s1) as [[[[clip ack] sync]| |] s2]; exact H.
Qed.

Lemma quiet_modify (f : ServerState -> ServerState) :
  (forall s, os_clipboard (f s) = os_clipboard s /\ inbound_clipboard_enabled (f s) = inbound_clipboard_enabled s) -> Quiet (modify f).
Proof. intros H. apply quiet_same. exact H. Qed.

Lemma quiet_dispatch i st body cert ip peer : Quiet (dispatch parse_request parse_sms i st body cert ip peer).
Proof.
  unfold dispatch. case_bool_decide.
  { apply quiet_same. intros s. unfold on_app. by destruct (handle_pairing _ _ _ _ _ _) as [r a]. }
  case_bool_decide.
  { apply quiet_bind; [apply quiet_decrypt|intros [[|b pt]|]; [apply quiet_ret| |apply quiet_ret]].
    apply quiet_bind; [apply quiet_same; intros s; by destruct (check_and_record _ _)|intros fresh].
    apply quiet_bind; [|intros; apply quiet_ret]. destruct fresh; [|apply quiet_ret].
    intros s Hs. cbn. by rewrite Hs. }
  case_bool_decide.
  { apply quiet_bind; [apply quiet_decrypt|intros o]. case_match; [|apply quiet_ret].
    apply quiet_bind; [by apply quiet_modify|intros; apply quiet_ret]. }
  case_bool_decide.
  { intros s Hs. pose proof (quiet_poll (si_poll i) body peer s Hs) as H3. by destruct (handle_poll _ _ _ _). }
  case_bool_decide; [by apply quiet_same|]. case_bool_decide; [|apply quiet_ret].
  apply quiet_bind; [apply quiet_decrypt|intros o]. case_match; [|apply quiet_ret].
  apply quiet_bind; [by apply quiet_modify|intros; apply quiet_ret].
Qed.

Lemma quiet_stream i cert ip stream s :
  inbound_clipboard_enabled s = false ->
  os_clipboard (snd (serve_stream parse_request parse_sms i cert ip stream s)) = os_clipboard s
  /\ inbound_clipboard_enabled (snd (serve_stream parse_request parse_sms i cert ip stream s)) = false.
Proof.
  intros Hs. unfold serve_stream. destruct (recv_frame_header stream) as [[[st n]| |] rest]; [|done|done].
  destruct (authorize_stream cert st (app s)); [|done|done]. destruct (_ && _); [done|].
  destruct (recv_frame_body n rest) as [[body| |] rest']; [|done|done].
  set (peer := resolve_peer_for_cert_hash _ _). pose proof (quiet_dispatch i st body cert ip peer s Hs) as HQ.
  destruct (dispatch _ _ _ _ _ _ _ _ s) as [[reply| |] s1]; [|exact HQ|exact HQ]. cbn in HQ.
  by destruct (bool_decide (st = STREAM_POLL) && si_sent i && negb (PairingState.is_empty peer)).
Qed.

(** The streams of a phone, one after the other. *)
Definition serve_all (ins : list (StreamInputs * string * string * bytes)) (s : ServerState) : ServerState :=
  foldl (fun s '(i, cert, ip, stream) => snd (serve_stream parse_request parse_sms i cert ip stream s)) s ins.

(** C39: On the first start, with no settings file, the inbound clipboard policy is
    the derived default: off.  Whatever the paired phone sends, on however many
    streams, nothing it sends reaches the operating system's clipboard. *)
Theorem first_start_blocks_clipboard from_str ins s :
  inbound_clipboard_enabled s = inbound_clipboard (load_from_disk from_str None) ->
  os_clipboard (serve_all ins s) = os_clipboard s.
Proof.
  intros Hs. unfold serve_all. change (inbound_clipboard (load_from_disk from_str None)) with false in Hs. revert s Hs.
  induction ins as [|[[[i cert] ip] stream] ins IH]; intros s Hs; cbn [foldl]; [done|].
  destruct (quiet_stream i cert ip stream s Hs) as [H1 H2]. by rewrite IH.
Qed.

End FirstStart.

Import Toy ToyJson ToyCodec Desk.

(** The desktop paired with the phone of [Delivery], on its first start, sent a text. *)
Definition first_desk : ServerState := {|
  Poll.app := paired_desk; sync_times := ∅; sync_cache := ∅; last_persisted_state := ∅; clipboard_cache := None; dedup := new_deduplicator;
  inbound_clipboard_enabled := false; os_clipboard := []; pending_media_action := None; media_state := None; sms_history := [] |}.

Lemma first_start_blocks_clipboard_witness :
  os_clipboard (serve_all (J := codec1) no_json no_sms [(stream_inputs, phone_cert, "10.0.0.2", sent_stream)] first_desk)
  = os_clipboard first_desk.
Proof.
  exact (first_start_blocks_clipboard (J := codec1) no_json no_sms (fun _ => None)
    [(stream_inputs, phone_cert, "10.0.0.2", sent_stream)] first_desk eq_refl).
Defined.

(** The renderer that tries to grant itself access without a token. *)
Definition plain_desk : SettingsDesk := {| prefs := default_preferences; settings_file := None; settings_tokens := []; settings_logs := [] |}.
Lemma renderer_cannot_pair_witness :
  access (prefs (foldl (exec_settings (fun _ => None)) plain_desk [Grant 0 true true "guess"])) = (false, false).
Proof.
  exact (proj2 (renderer_cannot_pair (fun _ => None) [Grant 0 true true "guess"] plain_desk) (fun t n H => not_elem_of_nil _ H)).
Defined.
