(* ===== verification/Boot.v ===== *)
(** * Boot: the start of the desktop and its crash reports (desktop-app/src-tauri/src/lib.rs, state/mod.rs)

    What a start rebuilds from the settings file, the keyring and the stores, in
    the order of [run], up to the start of the server; and the commands the
    window can call.  The builder of the window is a parameter: which of the
    handlers given to it are used. *)

From Stdlib.Strings Require Import Ascii.
From S2P Require Import Prelude Error Primitives Aead Kem Frame Json RatchetState Registry SessionHandle KemHandle.
From S2P Require Import RatchetSnapshot RatchetInvariant RatchetStore StoreProps PairingPolicy PairingState Pairing Privilege Automation.
From S2P Require Import Toy Scenario RatchetRekey Streams Settings HostNet.

(** ** The commands of the window *)

(** The builder of the window: which of the handlers given to it answers a
    command.  Its documentation: a handler given to it replaces the one before,
    only the last is used. *)
Class WindowBuilder := {
  builder : Type;
  new_builder : builder;
  invoke_handler : list string -> builder -> builder;
  answers : builder -> string -> bool
}.
Class WindowBuilderLaws `{W : WindowBuilder} :=
  last_handler_answers l b c : answers (invoke_handler l b) c = bool_decide (c ∈ l).

Definition tier0 : list string :=
  ["get_system_info"; "get_connection_status"; "get_connection_status_full"; "get_app_logs"; "get_latest_crash_log";
   "get_pairing_status"; "get_pairing_nonce"; "get_server_cert_hash"; "get_settings"; "get_media_state";
   "get_telemetry_metrics"; "check_flatpak_permissions"; "check_firewall"; "dump_flight_recorder_events";
   "get_pairing_config"; "read_real_clipboard"; "list_mock_files"].
Definition tier1 : list string :=
  ["generate_keypair"; "save_settings"; "push_sensor_reading"; "push_sms_packet"; "push_notification_packet";
   "send_outbound_sms"; "trigger_notification_action"; "trigger_desktop_media_action"; "send_desktop_notification";
   "send_hardware_command"; "set_connection_status_full"; "toggle_flight_recorder"; "init_sentry_desktop_telemetry";
   "merge_mesh_crdt_state"; "perform_stun_hole_punch"; "evaluate_connection_status"; "generate_sas_pairing_code";
   "write_real_clipboard"; "register_mdns_service"; "get_beacon_signing_key"; "confirm_pairing_sas";
   "toggle_neural_anomaly_engine"].
Definition tier2 : list string :=
  ["request_privilege_token"; "check_stepup_authorization"; "delete_connection"; "trigger_panic_self_destruct";
   "store_key_in_secure_enclave"; "bind_pkcs11_yubikey_hardware_token"; "grant_file_access"; "open_local_file";
   "open_external_url"; "request_firewall_open"; "create_tor_onion"; "execute_boa_script"; "execute_fallback_script";
   "generate_shamir_recovery_shares"; "reconstruct_key_from_shamir_shares"].

Section Window.
Context `{W : WindowBuilder} {L : WindowBuilderLaws}.

Definition window : builder := invoke_handler tier2 (invoke_handler tier1 (invoke_handler tier0 new_builder)).

Lemma tiers_disjoint : tier0 ## tier2 /\ tier1 ## tier2.
Proof. split; intros c H0 H2; revert H2; repeat (apply elem_of_cons in H0 as [->|H0]; [by apply (bool_decide_unpack _)|]); by apply elem_of_nil in H0. Qed.

(** The three calls do not add up: no query and no change of state of the first
    two tiers can be called from the window, the answer to a short authentication
    string and the settings among them; the commands of the last tier can. *)
Lemma only_privileged_commands c :
  (c ∈ tier2 -> answers window c = true) /\ (c ∈ tier0 ++ tier1 -> answers window c = false).
Proof.
  destruct tiers_disjoint as [D0 D1]. unfold window. rewrite last_handler_answers. split; [by apply bool_decide_eq_true_2|].
  intros [H|H]%elem_of_app; apply bool_decide_eq_false_2; intros H2; [by apply (D0 c)|by apply (D1 c)].
Qed.

End Window.

(** A builder that keeps the last handler. *)
Definition keep_last : WindowBuilder := {| builder := list string; new_builder := []; invoke_handler l _ := l; answers l c := bool_decide (c ∈ l) |}.
Lemma sas_cannot_be_confirmed : answers (window (W := keep_last)) "confirm_pairing_sas" = false.
Proof. by apply (only_privileged_commands (W := keep_last) (L := fun _ _ _ => eq_refl)), (bool_decide_unpack _). Qed.

(** ** The state of a new process *)

Definition default_app (now : Z) (loaded : AppSettings) (saved : AppSettings) (h : Host) : AppState := {|
  pairing := default_pairing; settings := loaded; saved_settings := saved; keypair := None; session_key := "";
  connection := default_connection; tor_running := false; is_session_key_authenticated := false; desktop_session_key_handle := 0;
  limiter := new_limiter now; ratchets := no_sessions; session_keys := new_registry; kem_registry := new_kem_handles;
  pairing_keypair := None; pinned_client_cert := None; allowed_client_certs := ∅; host := h; timers := [] |}.

(** What the environment answers at a start. *)
Record BootIo := {
  bo_now : Z;
  bo_get_keypair : bool;
  bo_nonce : bytes;
  bo_get_snapshot : bool;
  bo_set_snapshot : bool;
  bo_fresh : bytes;
  bo_clock : Clock;
  bo_read : bool;
  bo_bak : bool;
  bo_marks : bool * bool;
  bo_get_session_key : bool
}.

Section Boot.
Context `{P : Primitives} `{J : SnapshotCodec} `{T : JsonText} `{X : Hex}.

Definition restore_keypair (io : BootIo) (a : AppState) : AppState :=
  match keypair a with
  | Some _ => a
  | None => match load_pairing_keypair_from_keyring (bo_get_keypair io) (host a) with
            | Some kp => a <| keypair := Some kp |>
            | None => a
            end
  end.

(** The number restored is logged. *)
Definition restore_sessions (io : BootIo) (a : AppState) : AppState :=
  let '(key, h) := snapshot_key_from_keyring (bo_get_snapshot io) (bo_set_snapshot io) (bo_fresh io) (host a) in
  let a := a <| host := h |> in
  match key with
  | Some k =>
      let '(_, r) := restore_all_ratchet_sessions (bo_clock io) (bo_read io) (bo_bak io) (bo_marks io) k h (ratchets a) in
      a <| ratchets := r |>
  | None => a
  end.

Definition restore_session_key (io : BootIo) (a : AppState) : AppState :=
  if negb (desktop_session_key_handle a =? 0) then a
  else
    match session_key_from_keyring (bo_get_session_key io) (host a) ≫= hex_decode with
    | None | Some [] => a
    | Some sk =>
        let '(res, ks) := session_key_create sk (session_keys a) in
        let a := a <| session_keys := ks |> in
        match res with
        | Ok h => if h =? 0 then a else a <| desktop_session_key_handle := h |>
        | _ => a
        end
    end.

(** [run] up to the window: the state, and the settings saved. *)
Definition boot (io : BootIo) (from_str : string -> option Preferences) (contents : option string) (h : Host)
  : AppState * Preferences :=
  let prefs := load_from_disk from_str contents in
  let a := default_app (bo_now io) (paired prefs) (paired prefs) h in
  let a := restore_keypair io a in
  let a := issue_fresh_nonce (bo_nonce io) a in
  let a := restore_sessions io a in
  let a := restore_pairing_identity a in
  let a := restore_session_key io a in
  let prefs := prefs <| yubikey_bound := false |> <| paired := settings a |> in
  (PairingState.save_settings a, prefs).

(** ** What each step leaves alone *)

Lemma restore_keypair_frame io a :
  exists k, restore_keypair io a = a <| keypair := k |>.
Proof.
  unfold restore_keypair. destruct (keypair a) as [k|] eqn:E; [exists (Some k); rewrite <- E; by destruct a|].
  destruct (load_pairing_keypair_from_keyring _ _) as [p|]; [by eexists|]. exists None. rewrite <- E. by destruct a.
Qed.

Lemma restore_session_key_frame io a :
  exists ks hd, restore_session_key io a = a <| session_keys := ks |> <| desktop_session_key_handle := hd |>.
Proof.
  unfold restore_session_key. destruct (negb _); [by exists (session_keys a), (desktop_session_key_handle a); destruct a|].
  destruct (_ ≫= hex_decode) as [[|b sk]|]; [by exists (session_keys a), (desktop_session_key_handle a); destruct a| |by exists (session_keys a), (desktop_session_key_handle a); destruct a].
  destruct (session_key_create (b :: sk) (session_keys a)) as [[hd|e|p] ks]; [destruct (hd =? 0)| |];
    [exists ks, (desktop_session_key_handle a)|exists ks, hd|exists ks, (desktop_session_key_handle a)|exists ks, (desktop_session_key_handle a)]; by destruct a.
Qed.

(** The folds of [restore_pairing_identity]. *)
Lemma register_mappings (m : gmap string string) l a :
  (forall c pid, (c, pid) ∈ l -> m !! c = Some pid) -> peer_by_cert_hash (pairing a) = m ->
  let a' := foldl (fun a '(c, pid) => a <| pairing ::= register_peer_cert_mapping pid c |>) a l in
  pairing a' = pairing a /\ settings a' = settings a /\ ratchets a' = ratchets a /\ host a' = host a
  /\ session_keys a' = session_keys a /\ desktop_session_key_handle a' = desktop_session_key_handle a
  /\ allowed_client_certs a' = allowed_client_certs a.
Proof.
  revert a. induction l as [|[c pid] l IH]; intros a Hl Hm; cbn [foldl]; [done|].
  assert (pairing (a <| pairing ::= register_peer_cert_mapping pid c |>) = pairing a) as Hp.
  { cbn. unfold register_peer_cert_mapping. destruct (is_empty pid || is_empty c); [done|].
    assert (<[c := pid]> (peer_by_cert_hash (pairing a)) = peer_by_cert_hash (pairing a)) as Hi.
    { rewrite Hm. apply insert_id, Hl. by left. }
    transitivity ((pairing a) <| peer_by_cert_hash := <[c := pid]> (peer_by_cert_hash (pairing a)) |>); [done|].
    rewrite Hi. by destruct (pairing a). }
  destruct (IH (a <| pairing ::= register_peer_cert_mapping pid c |>)) as (H1 & H2 & H3 & H4 & H5 & H6 & H7).
  - intros c' pid' H. apply Hl. by right.
  - by rewrite Hp.
  - cbv zeta. rewrite H1, H2, H3, H4, H5, H6, H7, Hp. done.
Qed.

Lemma register_allowed_frame c a :
  let a' := register_allowed_client_cert c a in
  pairing a' = pairing a /\ settings a' = settings a /\ ratchets a' = ratchets a /\ host a' = host a
  /\ session_keys a' = session_keys a /\ desktop_session_key_handle a' = desktop_session_key_handle a
  /\ allowed_client_certs a ⊆ allowed_client_certs a' /\ (valid_cert_hash c = true -> c ∈ allowed_client_certs a').
Proof. unfold register_allowed_client_cert. destruct (valid_cert_hash c); cbn; split_and!; try done; set_solver. Qed.
Lemma register_all_allowed l a :
  let a' := foldl (fun a c => register_allowed_client_cert c a) a l in
  pairing a' = pairing a /\ settings a' = settings a /\ ratchets a' = ratchets a /\ host a' = host a
  /\ session_keys a' = session_keys a /\ desktop_session_key_handle a' = desktop_session_key_handle a
  /\ allowed_client_certs a ⊆ allowed_client_certs a'
  /\ (forall c, c ∈ l -> valid_cert_hash c = true -> c ∈ allowed_client_certs a').
Proof.
  revert a. induction l as [|c l IH]; intros a; cbn [foldl]; [by split_and!; try done; intros c H%not_elem_of_nil|].
  destruct (register_allowed_frame c a) as (E1 & E2 & E3 & E4 & E5 & E6 & E7 & E8). destruct (IH (register_allowed_client_cert c a)) as (H1 & H2 & H3 & H4 & H5 & H6 & H7 & H8).
  cbv zeta in *. rewrite H1, H2, H3, H4, H5, H6. split_and!; try done; [set_solver|].
  intros c' [->|Hc]%elem_of_cons Hv; [by apply H7, E8|by apply H8].
Qed.

(** The identity of the settings, restored. *)
Lemma identity_restored a cert pk xpk m :
  set_identity (settings a) = (cert, pk, xpk, m) -> valid_cert_hash cert = true ->
  let a' := restore_pairing_identity a in
  settings a' = settings a /\ ratchets a' = ratchets a /\ host a' = host a
  /\ session_keys a' = session_keys a /\ desktop_session_key_handle a' = desktop_session_key_handle a
  /\ pairing a' = restore_identity (cert, pk, xpk, m) (pairing a)
  /\ cert ∈ allowed_client_certs a'
  /\ (forall c, is_Some (m !! c) -> valid_cert_hash c = true -> c ∈ allowed_client_certs a').
Proof.
  intros Hi Hv. cbv zeta. unfold restore_pairing_identity. rewrite Hi.
  assert (is_empty cert = false) as Hc by (unfold valid_cert_hash in Hv; by destruct (is_empty cert)). rewrite Hc.
  set (a1 := a <| pairing ::= restore_identity (cert, pk, xpk, m) |>).
  assert (peer_by_cert_hash (pairing a1) = m) as Hm.
  { cbn. by destruct (is_empty cert), (is_empty pk), (is_empty xpk). }
  destruct (register_mappings m (map_to_list m) a1) as (A1 & A2 & A3 & A4 & A5 & A6 & A7); [by intros c pid ?%elem_of_map_to_list|done|].
  set (a2 := foldl _ a1 (map_to_list m)) in *. clearbody a2.
  unfold set_pinned_client_cert. rewrite Hv. set (a3 := a2 <| pinned_client_cert := Some cert |>).
  destruct (register_allowed_frame cert a3) as (B1 & B2 & B3 & B4 & B5 & B6 & B7 & B8).
  set (a4 := register_allowed_client_cert cert a3) in *. clearbody a4.
  destruct (register_allowed_frame cert a4) as (C1 & C2 & C3 & C4 & C5 & C6 & C7 & C8).
  set (a5 := register_allowed_client_cert cert a4) in *. clearbody a5.
  destruct (register_all_allowed (map_to_list m).*1 a5) as (D1 & D2 & D3 & D4 & D5 & D6 & D7 & D8). cbv zeta in *.
  rewrite D1, D2, D3, D4, D5, D6, C1, C2, C3, C4, C5, C6, B1, B2, B3, B4, B5, B6. unfold a3. cbn [settings ratchets host session_keys desktop_session_key_handle pairing update].
  split_and!.
  - exact A2.
  - exact A3.
  - exact A4.
  - exact A5.
  - exact A6.
  - exact A1.
  - by apply D7, C8.
  - intros c [pid Hp] Hvc. apply D8; [|done]. by apply (list_elem_of_fmap_2 fst _ (c, pid)), elem_of_map_to_list.
Qed.

(** The key of the keyring is the one the sessions are restored under. *)
Lemma sessions_restored io a key :
  bo_get_snapshot io = true -> keyring (host a) !! entry KEYRING_SNAPSHOT_KEY = Some key -> key <> "" ->
  restore_sessions io a
  = a <| ratchets := snd (restore_all_ratchet_sessions (bo_clock io) (bo_read io) (bo_bak io) (bo_marks io) key (host a) (ratchets a)) |>.
Proof.
  intros Hg Hk Hne. unfold restore_sessions, snapshot_key_from_keyring, get_password. rewrite Hg, Hk. unfold nonempty.
  rewrite decide_False by done. change (ratchets (a <| host := host a |>)) with (ratchets a).
  destruct (restore_all_ratchet_sessions _ _ _ _ _ _ _) as [n r]. by destruct a.
Qed.

(** A first key in an empty registry has handle 1. *)
Lemma first_session_key sk : len sk = 32 -> exists ks, session_key_create sk new_registry = (Ok 1, ks) /\ keys ks !! 1 = Some sk /\ pinned ks = ∅.
Proof.
  intros Hl. unfold session_key_create, make_room. munfold. rewrite Hl.
  change (MAX_SESSION_KEYS <=? Z.of_nat (size (keys new_registry))) with false. cbv beta iota.
  change (map_to_list (fingerprints new_registry)) with (@nil (Z * bytes)). cbn [existsb]. eexists. split; [reflexivity|].
  split; [|done]. cbn. apply lookup_insert_eq.
Qed.
Lemma session_key_restored io a hex sk :
  desktop_session_key_handle a = 0 -> session_keys a = new_registry -> bo_get_session_key io = true ->
  keyring (host a) !! entry KEYRING_SESSION_KEY = Some hex -> hex <> "" -> hex_decode hex = Some sk -> len sk = 32 ->
  let b := restore_session_key io a in
  keys (session_keys b) !! desktop_session_key_handle b = Some sk /\ pinned (session_keys b) = ∅.
Proof.
  intros Hh Hks Hg Hk Hne Hd Hl. cbv zeta. unfold restore_session_key, session_key_from_keyring, get_password. rewrite Hh, Hg, Hk. unfold nonempty.
  rewrite decide_False by done. cbn [Z.eqb negb mbind option_bind]. rewrite Hd. destruct sk as [|x sk]; [done|].
  destruct (first_session_key (x :: sk) Hl) as (ks & He & Hks' & Hp). rewrite Hks, He. cbn. split; [exact Hks'|exact Hp].
Qed.

End Boot.

Section Restart.
Context `{P : Primitives} `{J : SnapshotCodec} `{T : JsonText} `{X : Hex} {HL : HexLaws}.
Context {PL : PrimitivesLaws} {JL : SnapshotCodecLaws} {TL : JsonTextLaws}.

(** C14: A restart of a paired desktop gives the pairing back: with the settings file
    as it was saved and the sessions persisted, the desktop is paired, the TLS
    allow-list holds the phones' certificates again, a stream of a known
    certificate is authorized and belongs to the session it belonged to, exactly
    the sessions that are not behind their marks are back, the session key is
    behind the desktop's handle, and the settings saved hold the same identity. *)
Theorem restart_keeps_pairing io from_str text prefs cert pk xpk m nonces key wk r h hex sk :
  from_str text = Some prefs -> is_paired (paired prefs) = true ->
  set_identity (paired prefs) = (cert, pk, xpk, m) -> valid_cert_hash cert = true -> pk <> "" ->
  bo_get_snapshot io = true -> bo_read io = true -> bo_marks io = (true, true) -> bo_get_session_key io = true ->
  wrap_key key = Some wk -> storable wk nonces r -> sessions r <> ∅ ->
  let h' := persist_all_ratchet_sessions all_ok nonces key r h in
  keyring h' !! entry KEYRING_SNAPSHOT_KEY = Some key -> key <> "" ->
  keyring h' !! entry KEYRING_SESSION_KEY = Some hex -> hex <> "" -> hex_decode hex = Some sk -> len sk = 32 ->
  let b := fst (boot io from_str (Some text) h') in
  is_paired (settings b) = true /\ set_identity (saved_settings b) = (cert, pk, xpk, m)
  /\ cert ∈ allowed_client_certs b /\ (forall c, is_Some (m !! c) -> valid_cert_hash c = true -> c ∈ allowed_client_certs b)
  /\ (forall c st, (c = cert \/ is_Some (m !! c)) -> c <> "" -> st <> STREAM_PAIRING ->
       authorize_stream c st b = Ok tt /\ resolve_peer_for_cert_hash c (pairing b) = default pk (m !! c))
  /\ sessions (ratchets b) = survivors (bo_clock io) (load_watermarks (true, true) h) r
  /\ keys (session_keys b) !! desktop_session_key_handle b = Some sk.
Proof.
  intros Hf Hpaired Hid Hv Hpk Hgs Hrd Hmk Hgk Hwk Hst Hne h' Hkey Hkne Hsk Hskne Hdec Hlen. cbv zeta.
  unfold boot, load_from_disk. cbn [mbind option_bind]. rewrite Hf. cbv beta iota zeta delta [default from_option id fst].
  set (a0 := default_app (bo_now io) (paired prefs) (paired prefs) h').
  destruct (restore_keypair_frame io a0) as [kp ->]. set (a1 := issue_fresh_nonce (bo_nonce io) (a0 <| keypair := kp |>)).
  rewrite (sessions_restored io a1 key Hgs Hkey Hkne). rewrite Hrd, Hmk.
  change (host a1) with h'. change (ratchets a1) with no_sessions.
  pose proof (restore_after_persist (bo_clock io) nonces key wk r h (bo_bak io) Hwk Hst Hne) as Hr. cbv zeta in Hr. fold h' in Hr. rewrite Hr. cbn [snd].
  set (a2 := a1 <| ratchets := _ |>).
  destruct (identity_restored a2 cert pk xpk m Hid Hv) as (S1 & S2 & S3 & S4 & S5 & S6 & S7 & S8). cbv zeta in *.
  set (a3 := restore_pairing_identity a2) in *. clearbody a3.
  destruct (session_key_restored io a3 hex sk) as [K1 _]; [by rewrite S5|by rewrite S4|done|by rewrite S3|done|done|done|].
  destruct (restore_session_key_frame io a3) as (ks & hd & Hb). rewrite Hb in K1 |- *. cbn [session_keys desktop_session_key_handle update] in K1.
  cbn. rewrite S1, S2. split_and!.
  - exact Hpaired.
  - exact Hid.
  - exact S7.
  - exact S8.
  - intros c st Hc Hcne Hstp. unfold authorize_stream, resolve_peer_for_cert_hash, is_authorized_peer_cert. cbn.
    rewrite S1, S6, bool_decide_eq_false_2 by done. change (is_paired (settings a2)) with (is_paired (paired prefs)). rewrite Hpaired.
    assert (is_empty c = false) as -> by (by apply bool_decide_eq_false).
    assert (is_empty cert = false) as Hce by (unfold valid_cert_hash in Hv; by destruct (is_empty cert)).
    assert (is_empty pk = false) as Hpe by (by apply bool_decide_eq_false).
    cbn [restore_identity]. rewrite Hce, Hpe. destruct (is_empty xpk); cbn [negb orb]; (split; [|done]);
      (destruct Hc as [->|[pid Hm]]; [by rewrite bool_decide_eq_true_2|cbn; rewrite Hm; cbn; by rewrite orb_true_r]).
  - done.
  - exact K1.
Qed.

End Restart.

Import Toy ToyJson Scenario.

(** The desktop of a phone with the session "bob", stopped and started again. *)
Definition some_cert : string := hex_encode (replicate 32 x00).
Definition paired_prefs : Preferences := default_preferences <| paired :=
  {| is_paired := true; paired_device_name := None; paired_device_picture := None;
     set_identity := (some_cert, "bob", "", {[ some_cert := "bob" ]}) |} |>.
Definition stopped_host : Host := {|
  keyring := <[entry KEYRING_SNAPSHOT_KEY := "00"]> {[ entry KEYRING_SESSION_KEY := hex_encode (replicate 32 x00) ]}; files := ∅ |}.
Definition start_io : BootIo := {|
  bo_now := 0; bo_get_keypair := true; bo_nonce := []; bo_get_snapshot := true; bo_set_snapshot := true; bo_fresh := [];
  bo_clock := clock; bo_read := true; bo_bak := true; bo_marks := (true, true); bo_get_session_key := true |}.

Definition written_host : Host := persist_all_ratchet_sessions (J := codec2) all_ok zero_nonce "00" (with_alice alice101) stopped_host.
Lemma stopped_snapshot_key :
  keyring (persist_all_ratchet_sessions (J := codec2) all_ok zero_nonce "00" (with_alice alice101) stopped_host) !! entry KEYRING_SNAPSHOT_KEY = Some "00".
Proof. by vm_compute. Qed.
Lemma stopped_session_key :
  keyring (persist_all_ratchet_sessions (J := codec2) all_ok zero_nonce "00" (with_alice alice101) stopped_host) !! entry KEYRING_SESSION_KEY = Some (hex_encode (replicate 32 x00)).
Proof. by vm_compute. Qed.
Lemma has_alice : sessions (with_alice alice101) <> ∅.
Proof. apply insert_non_empty. Qed.
Lemma some_cert_valid : valid_cert_hash some_cert = true. Proof. by vm_compute. Qed.
Lemma toy_key_wraps : wrap_key "00" = Some toy_key. Proof. by vm_compute. Qed.
Lemma stored_key_decodes : hex_decode (hex_encode (replicate 32 x00)) = Some (replicate 32 x00). Proof. by vm_compute. Qed.
Lemma bob_named : "bob" <> "". Proof. done. Qed.
Lemma key_named : "00" <> "". Proof. done. Qed.
Lemma hex_named : hex_encode (replicate 32 x00) <> "". Proof. done. Qed.

Lemma restart_keeps_pairing_witness :
  let b := fst (boot (J := codec2) start_io (fun _ => Some paired_prefs) (Some "") written_host) in
  is_paired (settings b) = true /\ some_cert ∈ allowed_client_certs b
  /\ sessions (ratchets b) = survivors clock (load_watermarks (true, true) stopped_host) (with_alice alice101).
Proof.
  destruct (restart_keeps_pairing (J := codec2) (JL := codec2_laws) start_io (fun _ => Some paired_prefs) "" paired_prefs some_cert "bob" ""
    {[ some_cert := "bob" ]} zero_nonce "00" toy_key (with_alice alice101) stopped_host (hex_encode (replicate 32 x00)) (replicate 32 x00)
    eq_refl eq_refl eq_refl some_cert_valid bob_named eq_refl eq_refl eq_refl eq_refl toy_key_wraps storable_101 has_alice stopped_snapshot_key key_named
    stopped_session_key hex_named stored_key_decodes eq_refl)
    as (H1 & _ & H3 & _ & _ & H6 & _).
  split_and!; [exact H1|exact H3|exact H6].
Defined.

(** ** Crash reports

    The report of a panic is written to the disk without user names and IPv4
    addresses.  A text is the list of its bytes: a character that is not ASCII is
    never part of a pattern. *)

Definition text : Type := list ascii.
Definition txt (s : string) : text := String.list_ascii_of_string s.

(** *** Addresses *)

Definition is_ascii_digit (c : ascii) : bool := (48 <=? nat_of_ascii c)%nat && (nat_of_ascii c <=? 57)%nat.

(** The inner loop, from a digit: whether the candidate is valid, its dots, the
    length of its last segment, and what is left of the line. *)
Fixpoint scan (l : text) (dot_count current_segment_len : nat) : bool * nat * nat * text :=
  match l with
  | [] => (true, dot_count, current_segment_len, [])
  | c :: l' =>
      if is_ascii_digit c then
        if (3 <? S current_segment_len)%nat then (false, dot_count, S current_segment_len, l)
        else scan l' dot_count (S current_segment_len)
      else if Ascii.eqb c "." then
        if (current_segment_len =? 0)%nat then (false, dot_count, current_segment_len, l)
        else if (3 <? S dot_count)%nat then (true, S dot_count, 0%nat, l)
        else scan l' (S dot_count) 0
      else (true, dot_count, current_segment_len, l)
  end.

(** What is left of the line after an address, if it starts with one. *)
Definition address (l : text) : option text :=
  let '(valid_ip, dot_count, current_segment_len, rest) := scan l 0 0 in
  if valid_ip && (dot_count =? 3)%nat && (0 <? current_segment_len)%nat then Some rest else None.

Definition masked_ip : text := txt "[MASKED_IP]".

(** The outer loop: each turn takes a character at least. *)
Fixpoint scrub_loop (fuel : nat) (l : text) : text :=
  match fuel, l with
  | S fuel', c :: l' =>
      if is_ascii_digit c then
        match address l with
        | Some rest => masked_ip ++ scrub_loop fuel' rest
        | None => c :: scrub_loop fuel' l'
        end
      else c :: scrub_loop fuel' l'
  | _, _ => []
  end.
Definition scrub_ips (l : text) : text := scrub_loop (length l) l.

(** *** User names *)

(** The position of the first occurrence of a pattern. *)
Fixpoint find (pat l : text) : option nat :=
  if decide (take (length pat) l = pat) then Some 0%nat
  else match l with [] => None | _ :: l' => S <$> find pat l' end.

(** [str::replace]: every occurrence, from the left, none overlapping another.
    The patterns of the code are not empty. *)
Fixpoint replace_loop (fuel : nat) (pat by_ l : text) : text :=
  match fuel, l with
  | S fuel', c :: l' =>
      if decide (take (length pat) l = pat) then by_ ++ replace_loop fuel' pat by_ (drop (length pat) l)
      else c :: replace_loop fuel' pat by_ l'
  | _, _ => []
  end.
Definition replace (pat by_ l : text) : text := replace_loop (length l) pat by_ l.

(** The user name after the first [prefix], up to [stop], is replaced wherever
    it follows [prefix]. *)
Definition mask_user (prefix stop : text) (line : text) : text :=
  match find prefix line with
  | Some idx =>
      let rest := drop (idx + length prefix) line in
      let username := take (default (length rest) (find stop rest)) rest in
      replace (prefix ++ username) (prefix ++ txt "[USER]") line
  | None => line
  end.

Definition anonymize_line (line : text) : text :=
  scrub_ips (mask_user (txt "Users\") (txt "\") (mask_user (txt "/home/") (txt "/") line)).

(** The lines of the report, each with its end. *)
Definition anonymize_report (lines : list text) : text :=
  mbind (fun line => anonymize_line line ++ [Ascii.ascii_of_nat 10]) lines.

(** *** The loops *)

Lemma scan_shorter l d s : (length (snd (scan l d s)) <= length l)%nat.
Proof. revert d s. induction l as [|c l IH]; intros d s; cbn; [done|]. repeat case_match; cbn; try lia; (etransitivity; [apply IH|lia]). Qed.

(** An address takes characters: the loop ends. *)
Lemma address_shorter l rest : address l = Some rest -> (length rest < length l)%nat.
Proof.
  unfold address. destruct l as [|c l]; cbn; [done|]. destruct (is_ascii_digit c).
  - pose proof (scan_shorter l 0 1) as H. cbn [Nat.ltb Nat.leb]. destruct (scan l 0 1) as [[[v d] s] r]. cbn in H. case_match; [|done]. intros [= <-]. lia.
  - by destruct (Ascii.eqb c ".").
Qed.

Lemma scrub_fuel n m l : (length l <= n)%nat -> (length l <= m)%nat -> scrub_loop n l = scrub_loop m l.
Proof.
  revert m l. induction n as [|n IH]; intros m [|c l] Hn Hm; cbn in Hn; [by destruct m|lia|by destruct m|].
  destruct m as [|m]; cbn in Hm; [lia|]. cbn [scrub_loop]. destruct (is_ascii_digit c); [|by f_equal; apply IH; lia].
  destruct (address (c :: l)) as [rest|] eqn:E; [|by f_equal; apply IH; lia]. apply address_shorter in E. cbn in E. f_equal. apply IH; lia.
Qed.

Lemma scrub_cons c l : scrub_ips (c :: l) =
  match (if is_ascii_digit c then address (c :: l) else None) with
  | Some rest => masked_ip ++ scrub_ips rest
  | None => c :: scrub_ips l
  end.
Proof.
  unfold scrub_ips at 1. cbn [length scrub_loop]. destruct (is_ascii_digit c); [|done].
  destruct (address (c :: l)) as [rest|] eqn:E; [|done]. apply address_shorter in E. cbn in E. f_equal. apply scrub_fuel; lia.
Qed.

(** *** Addresses are masked *)

(** A character no address goes over. *)
Definition stops (c : ascii) : Prop := is_ascii_digit c = false /\ c <> "."%char.
Definition starts_clear (l : text) : Prop := match l with [] => True | c :: _ => stops c end.
Definition ends_clear (l : text) : Prop := match last l with None => True | Some c => stops c end.

(** A segment: one to three digits. *)
Definition segment (l : text) : Prop := Forall (fun c => is_ascii_digit c = true) l /\ (1 <= length l <= 3)%nat.

Lemma scan_digits l k d s : Forall (fun c => is_ascii_digit c = true) l -> (s + length l <= 3)%nat ->
  scan (l ++ k) d s = scan k d (s + length l).
Proof.
  intros H. revert s. induction H as [|c l Hc _ IH]; intros s Hs; cbn [app length scan]; [by rewrite Nat.add_0_r|].
  cbn in Hs. rewrite Hc, (proj2 (Nat.ltb_ge _ _)) by lia. rewrite IH by lia. f_equal. lia.
Qed.
Lemma scan_dot k d s : (d < 3)%nat -> (0 < s)%nat -> scan ("."%char :: k) d s = scan k (S d) 0.
Proof.
  intros Hd Hs. cbn [scan]. change (is_ascii_digit ".") with false. change (Ascii.eqb "." ".") with true. cbv iota.
  by rewrite (proj2 (Nat.eqb_neq s 0)), (proj2 (Nat.ltb_ge 3 (S d))) by lia.
Qed.
Lemma scan_stop k d s : starts_clear k -> scan k d s = (true, d, s, k).
Proof. destruct k as [|c k]; [done|]. intros [H1 H2]. cbn. rewrite H1. by destruct (Ascii.eqb_spec c "."). Qed.

Lemma address_quad a b c d rest : segment a -> segment b -> segment c -> segment d -> starts_clear rest ->
  address (a ++ "."%char :: b ++ "."%char :: c ++ "."%char :: d ++ rest) = Some rest.
Proof.
  intros [Ha La] [Hb Lb] [Hc Lc] [Hd Ld] Hr. unfold address.
  rewrite (scan_digits a), scan_dot, (scan_digits b), scan_dot, (scan_digits c), scan_dot, (scan_digits d), scan_stop by (done || lia).
  cbn [andb Nat.eqb]. by rewrite (proj2 (Nat.ltb_lt _ _)) by lia.
Qed.

(** A scan does not go over a character that stops it. *)
Lemma scan_before l c k d s : stops c ->
  scan (l ++ c :: k) d s = (let '(v, d', s', r) := scan (l ++ [c]) d s in (v, d', s', r ++ k)).
Proof.
  intros Hc. revert d s. induction l as [|x l IH]; intros d s; cbn [app].
  - rewrite !scan_stop by done. done.
  - cbn [scan]. destruct (is_ascii_digit x); [destruct (3 <? S s)%nat|destruct (Ascii.eqb x "."); [destruct (s =? 0)%nat; [|destruct (3 <? S d)%nat]|]];
      try apply IH; cbn [app]; by rewrite <- app_assoc.
Qed.

Lemma address_before l c k : stops c -> address (l ++ c :: k) = (fun r => r ++ k) <$> address (l ++ [c]).
Proof.
  intros Hc. unfold address. rewrite (scan_before l c k) by done. destruct (scan (l ++ [c]) 0 0) as [[[v d] s] r]. by destruct (_ && _).
Qed.

(** What an address leaves of a line that ends in such a character ends in it too. *)
Lemma scan_keeps l c d s : stops c -> exists r, snd (scan (l ++ [c]) d s) = r ++ [c] /\ (length r <= length l)%nat.
Proof.
  intros Hc. revert d s. induction l as [|x l IH]; intros d s; cbn [app].
  - rewrite scan_stop by done. by exists [].
  - cbn [scan]. destruct (is_ascii_digit x); [destruct (3 <? S s)%nat|destruct (Ascii.eqb x "."); [destruct (s =? 0)%nat; [|destruct (3 <? S d)%nat]|]];
      try (exists (x :: l); done); (edestruct IH as (r & -> & Hr); exists r; split; [done|cbn; lia]).
Qed.

Lemma scrub_split_at l c k : stops c -> scrub_ips (l ++ c :: k) = scrub_ips (l ++ [c]) ++ scrub_ips k.
Proof.
  intros Hc. remember (length l) as n eqn:Hn. assert (length l <= n)%nat as Hl by lia. clear Hn. revert l Hl.
  induction n as [|n IH]; intros [|x l] Hl; cbn in Hl; [|lia| |]; cbn [app].
  1, 2: rewrite !scrub_cons; destruct Hc as [-> _]; done.
  rewrite !(scrub_cons x). destruct (is_ascii_digit x); [|cbn [app]; f_equal; apply IH; lia].
  change (x :: l ++ c :: k) with ((x :: l) ++ c :: k). change (x :: l ++ [c]) with ((x :: l) ++ [c]).
  rewrite (address_before (x :: l)) by done. destruct (address ((x :: l) ++ [c])) as [rest|] eqn:E; cbn [fmap option_fmap option_map]; [|cbn [app]; f_equal; apply IH; lia].
  pose proof (address_shorter _ _ E) as Hs. unfold address in E. destruct (scan_keeps (x :: l) c 0 0 Hc) as (r & Hr & _).
  destruct (scan ((x :: l) ++ [c]) 0 0) as [[[v d] s] rest']. cbn in Hr. destruct (_ && _); [|done]. injection E as <-. subst rest'.
  rewrite !length_app in Hs. cbn in Hs. rewrite <- !app_assoc. cbn [app]. f_equal. apply IH. lia.
Qed.

(** An address that is not next to a digit or a dot is masked, whatever stands
    before it and after it. *)
Theorem address_masked before a b c d after :
  segment a -> segment b -> segment c -> segment d -> ends_clear before -> starts_clear after ->
  scrub_ips (before ++ (a ++ "."%char :: b ++ "."%char :: c ++ "."%char :: d) ++ after)
  = scrub_ips before ++ masked_ip ++ scrub_ips after.
Proof.
  intros Ha Hb Hc Hd Hbe Haf.
  assert (scrub_ips ((a ++ "."%char :: b ++ "."%char :: c ++ "."%char :: d) ++ after) = masked_ip ++ scrub_ips after) as Hq.
  { pose proof (address_quad a b c d after Ha Hb Hc Hd Haf) as E. destruct Ha as [Ha La]. destruct a as [|x a]; [cbn in La; lia|].
    apply Forall_cons in Ha as [Hx _]. repeat (progress (rewrite <- ?app_assoc; cbn [app])).
    rewrite scrub_cons, Hx. cbn [app] in E. by rewrite E. }
  destruct before as [|x before] using rev_ind; [by rewrite !app_nil_l|]. clear IHbefore.
  unfold ends_clear in Hbe. rewrite last_snoc in Hbe. rewrite <- (app_assoc before). cbn [app]. rewrite scrub_split_at by done. by rewrite Hq.
Qed.

(** *** User names are masked *)

Lemma find_first pat l i : find pat l = Some i ->
  take (length pat) (drop i l) = pat /\ (forall j, (j < i)%nat -> take (length pat) (drop j l) <> pat) /\ (i <= length l)%nat.
Proof.
  revert i. induction l as [|c l IH]; intros i; cbn [find]; case_decide as Hd.
  - intros [= <-]. split_and!; [done|lia|lia].
  - done.
  - intros [= <-]. split_and!; [done|lia|lia].
  - destruct (find pat l) as [k|] eqn:E; [|done]. intros [= <-]. destruct (IH k eq_refl) as (H1 & H2 & H3). cbn [length]. split_and!; [done| |lia].
    intros [|j] Hj; [done|]. apply H2. lia.
Qed.

Lemma replace_fuel pat by_ n m l : pat <> [] -> (length l <= n)%nat -> (length l <= m)%nat -> replace_loop n pat by_ l = replace_loop m pat by_ l.
Proof.
  intros Hp. assert (0 < length pat)%nat as Hlp by (destruct pat; [done|cbn; lia]).
  revert m l. induction n as [|n IH]; intros m [|c l] Hn Hm; cbn in Hn; [by destruct m|lia|by destruct m|].
  destruct m as [|m]; cbn in Hm; [lia|]. cbn [replace_loop]. case_decide; [|f_equal; apply IH; lia].
  f_equal. apply IH; rewrite length_drop; cbn [length]; lia.
Qed.

(** Up to its first occurrence nothing changes; from there the replacement is in its place. *)
Lemma replace_first pat by_ i l : pat <> [] ->
  (forall j, (j < i)%nat -> take (length pat) (drop j l) <> pat) -> take (length pat) (drop i l) = pat -> (i < length l)%nat ->
  replace pat by_ l = take i l ++ by_ ++ replace pat by_ (drop (i + length pat) l).
Proof.
  intros Hp. assert (0 < length pat)%nat as Hlp by (destruct pat; [done|cbn; lia]).
  revert l. induction i as [|i IH]; intros [|c l] Hb Hi Hl; cbn in Hl; [lia| |lia|].
  - unfold replace at 1. cbn [length replace_loop take app]. rewrite decide_True by exact Hi. f_equal.
    apply replace_fuel; [done|rewrite length_drop; cbn; lia|cbn; lia].
  - unfold replace at 1. cbn [length replace_loop take app plus]. rewrite decide_False by apply (Hb 0%nat ltac:(lia)). f_equal.
    apply IH; [|done|lia]. intros j Hj. apply (Hb (S j)). lia.
Qed.

Lemma take_prefix {A} (p u l : list A) : take (length p) l = p -> u = take (length u) (drop (length p) l) -> take (length (p ++ u)) l = p ++ u.
Proof. intros Hp Hu. rewrite length_app, <- take_take_drop, Hp. by rewrite <- Hu. Qed.

(** The first user name of a line, the text between the prefix and the stop, is
    masked; every other place where the prefix is followed by that name is
    treated in the same way. *)
Theorem user_masked prefix stop line i : prefix <> [] -> find prefix line = Some i ->
  let rest := drop (i + length prefix) line in
  let username := take (default (length rest) (find stop rest)) rest in
  let mask := prefix ++ txt "[USER]" in
  mask_user prefix stop line = take i line ++ mask ++ replace (prefix ++ username) mask (drop (i + length prefix + length username) line).
Proof.
  intros Hp Hf rest username mask. unfold mask_user. rewrite Hf. fold rest. fold username. fold mask.
  apply find_first in Hf as (Hi & Hb & Hl).
  assert (0 < length prefix)%nat as Hlp by (destruct prefix; [done|cbn; lia]).
  assert (i < length line)%nat as Hil. { apply (f_equal length) in Hi. rewrite length_take, length_drop in Hi. lia. }
  rewrite (replace_first _ _ i); [|by destruct prefix| | |done].
  - by rewrite length_app, Nat.add_assoc.
  - intros j Hj E. apply (Hb j Hj). apply (f_equal (take (length prefix))) in E. rewrite take_take, take_app_length in E.
    by rewrite length_app, Nat.min_l in E by lia.
  - apply take_prefix; [done|]. rewrite drop_drop. fold rest. unfold username at 1 2. rewrite length_take, <- take_take. f_equal. symmetry. by apply take_ge.
Qed.

(** *** What stays *)

(** An address at the end of a sentence, an address of the new protocol and the
    second user of a line stay in the report. *)
Example address_before_a_dot : scrub_ips (txt "peer 10.0.0.2. retry") = txt "peer 10.0.0.2. retry".
Proof. reflexivity. Qed.
Example address_of_six : scrub_ips (txt "peer fe80::1") = txt "peer fe80::1".
Proof. reflexivity. Qed.
Example second_user_kept : anonymize_line (txt "/home/ann/a /home/bob/b") = txt "/home/[USER]/a /home/bob/b".
Proof. by vm_compute. Qed.

(** *** Witnesses *)

Lemma address_masked_witness :
  scrub_ips (txt "peer 10.0.0.2, gone") = txt "peer [MASKED_IP], gone".
Proof.
  pose proof (address_masked (txt "peer ") (txt "10") (txt "0") (txt "0") (txt "2") (txt ", gone")) as H.
  change (txt "peer 10.0.0.2, gone") with (txt "peer " ++ (txt "10" ++ "."%char :: txt "0" ++ "."%char :: txt "0" ++ "."%char :: txt "2") ++ txt ", gone").
  rewrite H; [reflexivity|split; [by repeat constructor|cbn; lia]..|done|done].
Defined.
Lemma user_masked_witness :
  mask_user (txt "/home/") (txt "/") (txt "at /home/ann/x") = txt "at /home/[USER]/x".
Proof. rewrite (user_masked (txt "/home/") (txt "/") (txt "at /home/ann/x") 3) by done. by vm_compute. Defined.
