(* ===== verification/QrScanner.v ===== *)
(** * QrScanner: the camera frames of the pairing code (core-crypto/src/qr_scanner.rs)

    The decoder of the frames the Android camera hands over through JNI: the
    checks of the dimensions, the removal of the padding of the rows, and the
    four orientations tried.  An index out of range panics, here [None]; the
    finder of codes (the crate rqrr) is a parameter: what it decodes of an image
    given by its rows, or a panic. *)

From S2P Require Import Prelude.

(** ** The rotations *)

Section ForEach.
Context {A S : Type}.
Fixpoint for_each (l : list A) (f : A -> S -> option S) (s : S) : option S :=
  match l with
  | [] => Some s
  | i :: l' => f i s ≫= for_each l' f
  end.
End ForEach.

(** [out[d] = luma[s]]. *)
Definition move (luma : bytes) (d s : nat) (out : bytes) : option bytes :=
  v ← luma !! s; if (d <? length out)%nat then Some (<[d := v]> out) else None.

Definition rotate_90_into (luma : bytes) (w h : nat) (out : bytes) : option bytes :=
  for_each (seq 0 h) (fun y => for_each (seq 0 w) (fun x => move luma (x * h + (h - 1 - y)) (y * w + x))) out.

Definition rotate_180_into (luma : bytes) (w h : nat) (out : bytes) : option bytes :=
  for_each (seq 0 h) (fun y => for_each (seq 0 w) (fun x => move luma ((h - 1 - y) * w + (w - 1 - x)) (y * w + x))) out.

Definition rotate_270_into (luma : bytes) (w h : nat) (out : bytes) : option bytes :=
  for_each (seq 0 w) (fun y => for_each (seq 0 h) (fun x => move luma (y * h + x) (x * w + (w - 1 - y)))) out.

(** ** The frame *)

Definition MAX_PIXELS : Z := 4000000.

(** [usize] has the width of the phone: its values are below [U]. *)
Definition checked_in (U n : Z) : option Z := if n <? U then Some n else None.

(** The rows without their padding. *)
Definition strip_stride (bytes : bytes) (w h stride : nat) : option Prelude.bytes :=
  if (stride =? w)%nat then Some bytes
  else for_each (seq 0 h) (fun row clean =>
         let start := (row * stride)%nat in
         if (start + w <=? length bytes)%nat then Some (clean ++ take w (drop start bytes)) else Some clean) [].

Section Frame.
Variable rqrr : list (list byte) -> option (list (option string)).

(** The closure given to the finder reads every pixel. *)
Definition prepare_from_greyscale (luma : bytes) (w h : nat) : option (list (list byte)) :=
  mapM (fun y => mapM (fun x => luma !! (y * w + x)%nat) (seq 0 w)) (seq 0 h).

Fixpoint first_content (grids : list (option string)) : option string :=
  match grids with
  | [] => None
  | Some content :: grids' => if decide (content = "") then first_content grids' else Some content
  | None :: grids' => first_content grids'
  end.

Definition try_decode (luma : bytes) (w h : nat) : option (option string) :=
  img ← prepare_from_greyscale luma w h; grids ← rqrr img; Some (first_content grids).

Definition RotFn : Type := bytes -> nat -> nat -> bytes -> option bytes.

Definition fallback_order (rotation : Z) (w h : nat) : list (RotFn * nat * nat) :=
  if rotation =? 90 then [(rotate_90_into, h, w); (rotate_180_into, w, h); (rotate_270_into, h, w)]
  else if rotation =? 180 then [(rotate_180_into, w, h); (rotate_90_into, h, w); (rotate_270_into, h, w)]
  else if rotation =? 270 then [(rotate_270_into, h, w); (rotate_90_into, h, w); (rotate_180_into, w, h)]
  else [(rotate_90_into, h, w); (rotate_180_into, w, h); (rotate_270_into, h, w)].

(** All of them share the scratch buffer. *)
Fixpoint try_rotations (order : list (RotFn * nat * nat)) (luma : bytes) (w h : nat) (scratch : bytes) : option (option string) :=
  match order with
  | [] => Some None
  | (rot, ow, oh) :: order' =>
      scratch ← rot luma w h scratch;
      result ← try_decode scratch ow oh;
      match result with
      | Some text => Some (Some text)
      | None => try_rotations order' luma w h scratch
      end
  end.

(** The body of the JNI function. [y_bytes]: what the conversion of the Java
    array gives; [new_string_ok]: whether a Java string can be made. *)
Definition decode_frame (U : Z) (new_string_ok : bool) (y_bytes : option bytes) (width height stride rotation : Z)
  : option (option string) :=
  let w := width mod U in
  let h := height mod U in
  let stride := if stride <=? 0 then w else stride mod U in
  if (w =? 0) || (h =? 0) then Some None
  else if stride <? w then Some None
  else
    match checked_in U (w * h) with
    | Some pixels =>
        if MAX_PIXELS <? pixels then Some None
        else
          match y_bytes with
          | None => Some None
          | Some bytes =>
              match checked_in U (stride * Z.max 0 (h - 1)) ≫= fun n => checked_in U (n + w) with
              | Some n =>
                  if len bytes <? n then Some None
                  else
                    let w := Z.to_nat w in
                    let h := Z.to_nat h in
                    luma ← strip_stride bytes w h (Z.to_nat stride);
                    first ← try_decode luma w h;
                    result ← match first with
                             | Some text => Some (Some text)
                             | None => try_rotations (fallback_order rotation w h) luma w h (replicate (Z.to_nat pixels) x00)
                             end;
                    Some (text ← result; if new_string_ok then Some text else None)
              | None => Some None
              end
          end
    | None => Some None
    end.

(** A panic of the body is caught: the null string, as when nothing was found. *)
Definition decodeQrCode (U : Z) (new_string_ok : bool) (y_bytes : option bytes) (width height stride rotation : Z) : option string :=
  default None (decode_frame U new_string_ok y_bytes width height stride rotation).

End Frame.

(** ** Loops *)

Section Loops.
Context {A B S : Type}.

Lemma for_each_app (l k : list A) (f : A -> S -> option S) s : for_each (l ++ k) f s = for_each l f s ≫= for_each k f.
Proof. revert s. induction l as [|i l IH]; intros s; cbn; [done|]. destruct (f i s); cbn; [apply IH|done]. Qed.

Lemma for_each_fmap (g : B -> A) (l : list B) (f : A -> S -> option S) s : for_each (g <$> l) f s = for_each l (fun i => f (g i)) s.
Proof. revert s. induction l as [|i l IH]; intros s; cbn; [done|]. destruct (f (g i) s); cbn; [apply IH|done]. Qed.

Lemma for_each_bind (g : B -> list A) (l : list B) (f : A -> S -> option S) s :
  for_each (l ≫= g) f s = for_each l (fun i => for_each (g i) f) s.
Proof.
  revert s. induction l as [|i l IH]; intros s; cbn; [done|]. change (mbind g l) with (l ≫= g). rewrite for_each_app.
  destruct (for_each (g i) f s); cbn; [apply IH|done].
Qed.

Lemma for_each_ext (l : list A) (f g : A -> S -> option S) s : (forall i s, f i s = g i s) -> for_each l f s = for_each l g s.
Proof. intros H. revert s. induction l as [|i l IH]; intros s; cbn; [done|]. rewrite H. destruct (g i s); cbn; [apply IH|done]. Qed.

Lemma mapM_total (f : A -> option B) (g : A -> B) (l : list A) : (forall i, i ∈ l -> f i = Some (g i)) -> mapM f l = Some (g <$> l).
Proof.
  induction l as [|i l IH]; intros H; cbn; [done|]. rewrite (H i) by by left. cbn. rewrite IH; [done|]. intros j Hj. apply H. by right.
Qed.

End Loops.

Lemma move_done luma d s v out : luma !! s = Some v -> (d < length out)%nat -> move luma d s out = Some (<[d := v]> out).
Proof. intros Hv Hd%Nat.ltb_lt. unfold move. rewrite Hv. cbn [mbind option_bind]. by rewrite Hd. Qed.

(** The moves of a list, one after the other: no panic, and no move is undone. *)
Lemma moves_done luma (l : list (nat * nat)) out :
  NoDup l.*1 -> (forall d s, (d, s) ∈ l -> (d < length out)%nat /\ (s < length luma)%nat) ->
  exists out', for_each l (fun '(d, s) => move luma d s) out = Some out' /\ length out' = length out
    /\ (forall d s, (d, s) ∈ l -> out' !! d = luma !! s) /\ (forall d, d ∉ l.*1 -> out' !! d = out !! d).
Proof.
  revert out. induction l as [|[d s] l IH]; intros out Hnd Hl; cbn [for_each].
  { exists out. split_and!; try done. intros d s H. by apply not_elem_of_nil in H. }
  cbn [fmap list_fmap fst] in Hnd. apply NoDup_cons in Hnd as [Hd Hnd].
  destruct (Hl d s) as [Hdo [v Hv]%lookup_lt_is_Some]; [by left|].
  rewrite (move_done luma d s v out Hv Hdo). cbn [mbind option_bind].
  destruct (IH (<[d := v]> out)) as (out' & He & Hlen & Hin & Hout); [done|..].
  { intros d' s' H. rewrite length_insert. apply Hl. by right. }
  exists out'. rewrite length_insert in Hlen. split_and!; [done|done|..].
  - intros d' s' [[= -> ->]|H]%elem_of_cons; [|by apply Hin]. rewrite Hout by done. by rewrite list_lookup_insert_eq, Hv by done.
  - intros d' H. cbn [fmap list_fmap fst] in H. apply not_elem_of_cons in H as [Hne H].
    rewrite Hout by done. by apply list_lookup_insert_ne.
Qed.

(** Two nested loops that move each pixel to a place of its own. *)
Lemma double_loop w h (d s : nat -> nat -> nat) luma out :
  (forall x y, (x < w)%nat -> (y < h)%nat -> (d x y < length out)%nat /\ (s x y < length luma)%nat) ->
  (forall x y x' y', (x < w)%nat -> (y < h)%nat -> (x' < w)%nat -> (y' < h)%nat -> d x y = d x' y' -> x = x' /\ y = y') ->
  exists out', for_each (seq 0 h) (fun y => for_each (seq 0 w) (fun x => move luma (d x y) (s x y))) out = Some out'
    /\ length out' = length out
    /\ forall x y, (x < w)%nat -> (y < h)%nat -> out' !! d x y = luma !! s x y.
Proof.
  intros Hb Hinj. set (cells := seq 0 h ≫= fun y => (fun x => (x, y)) <$> seq 0 w).
  assert (forall x y, (x, y) ∈ cells <-> (x < w)%nat /\ (y < h)%nat) as Hc.
  { intros x y. unfold cells. rewrite list_elem_of_bind. setoid_rewrite list_elem_of_fmap. setoid_rewrite elem_of_seq.
    split; [intros (y' & (x' & [= -> ->] & ?) & ?); lia|intros []; exists y; split; [exists x; split; [done|lia]|lia]]. }
  assert (NoDup cells) as Hn.
  { apply NoDup_bind; [|intros y _; apply NoDup_fmap_2; [by intros ?? [=]|apply NoDup_seq]|apply NoDup_seq].
    intros y1 y2 [x y] _ _ (? & [= -> ->] & _)%list_elem_of_fmap (? & [= -> ->] & _)%list_elem_of_fmap. done. }
  destruct (moves_done luma ((fun '(x, y) => (d x y, s x y)) <$> cells) out) as (out' & He & Hlen & Hin & _).
  - rewrite <- list_fmap_compose. apply NoDup_fmap_2_strong; [|done].
    intros [x y] [x' y'] [??]%Hc [??]%Hc [=E]. by destruct (Hinj x y x' y') as [-> ->].
  - intros d' s' ([x y] & [= -> ->] & [??]%Hc)%list_elem_of_fmap. by apply Hb.
  - exists out'. split_and!; [|done|].
    + rewrite <- He, for_each_fmap. unfold cells. rewrite for_each_bind. apply for_each_ext. intros y o. by rewrite for_each_fmap.
    + intros x y Hx Hy. apply Hin, list_elem_of_fmap. exists (x, y). split; [done|by apply Hc].
Qed.

(** ** The reference: images as functions, and quarter turns *)

Definition pixel (luma : bytes) (w x y : nat) : byte := nth (y * w + x) luma x00.
Definition image (f : nat -> nat -> byte) (w h : nat) : list (list byte) :=
  (fun y => (fun x => f x y) <$> seq 0 w) <$> seq 0 h.

(** A quarter turn clockwise of an image of height [h]: the columns become rows,
    the lowest row the first column. *)
Definition quarter (h : nat) (f : nat -> nat -> byte) : nat -> nat -> byte := fun x y => f y (h - 1 - x)%nat.

Lemma cell_bound a b m n : (a < n)%nat -> (b < m)%nat -> (a * m + b < n * m)%nat.
Proof. nia. Qed.
Lemma cell_inj a b a' b' m : (b < m)%nat -> (b' < m)%nat -> (a * m + b = a' * m + b')%nat -> a = a' /\ b = b'.
Proof. intros Hb Hb' E. assert (a = a') as -> by nia. lia. Qed.

Lemma image_ext f g w h : (forall x y, (x < w)%nat -> (y < h)%nat -> f x y = g x y) -> image f w h = image g w h.
Proof.
  intros H. apply list_fmap_ext. intros i y Hy%lookup_seq. apply list_fmap_ext. intros j x Hx%lookup_seq. apply H; lia.
Qed.

Lemma pixel_eq l l' w w' x y x' y' : l !! (y * w + x)%nat = l' !! (y' * w' + x')%nat -> pixel l w x y = pixel l' w' x' y'.
Proof. unfold pixel. by rewrite !nth_lookup; intros ->. Qed.

Lemma prepared luma w h : (w * h <= length luma)%nat -> prepare_from_greyscale luma w h = Some (image (pixel luma w) w h).
Proof.
  intros Hl. apply mapM_total. intros y Hy%elem_of_seq. apply mapM_total. intros x Hx%elem_of_seq.
  unfold pixel. destruct (lookup_lt_is_Some_2 luma (y * w + x)) as [v Hv]; [nia|]. by rewrite nth_lookup, Hv.
Qed.

(** What each pass writes. *)
Lemma rotate_90_pixels luma w h out : (w * h <= length luma)%nat -> length out = (w * h)%nat ->
  exists out', rotate_90_into luma w h out = Some out' /\ length out' = (w * h)%nat
    /\ forall x y, (x < h)%nat -> (y < w)%nat -> out' !! (y * h + x)%nat = luma !! ((h - 1 - x) * w + y)%nat.
Proof.
  intros Hl Ho. destruct (double_loop w h (fun x y => x * h + (h - 1 - y))%nat (fun x y => y * w + x)%nat luma out) as (out' & He & Hlen & Hp).
  - intros x y Hx Hy. nia.
  - intros x y x' y' Hx Hy Hx' Hy' E. apply cell_inj in E as [-> E]; lia.
  - exists out'. split_and!; [done|congruence|]. intros x y Hx Hy. specialize (Hp y (h - 1 - x)%nat Hy).
    rewrite <- Hp by lia. f_equal. lia.
Qed.
Lemma rotate_180_pixels luma w h out : (w * h <= length luma)%nat -> length out = (w * h)%nat ->
  exists out', rotate_180_into luma w h out = Some out' /\ length out' = (w * h)%nat
    /\ forall x y, (x < w)%nat -> (y < h)%nat -> out' !! (y * w + x)%nat = luma !! ((h - 1 - y) * w + (w - 1 - x))%nat.
Proof.
  intros Hl Ho. destruct (double_loop w h (fun x y => (h - 1 - y) * w + (w - 1 - x))%nat (fun x y => y * w + x)%nat luma out) as (out' & He & Hlen & Hp).
  - intros x y Hx Hy. rewrite Ho. split; [|nia]. rewrite (Nat.mul_comm w h). apply cell_bound; lia.
  - intros x y x' y' Hx Hy Hx' Hy' E. apply cell_inj in E as [E1 E2]; lia.
  - exists out'. split_and!; [done|congruence|]. intros x y Hx Hy. rewrite <- Hp by lia. f_equal.
    replace (h - 1 - (h - 1 - y))%nat with y by lia. lia.
Qed.
Lemma rotate_270_pixels luma w h out : (w * h <= length luma)%nat -> length out = (w * h)%nat ->
  exists out', rotate_270_into luma w h out = Some out' /\ length out' = (w * h)%nat
    /\ forall x y, (x < h)%nat -> (y < w)%nat -> out' !! (y * h + x)%nat = luma !! (x * w + (w - 1 - y))%nat.
Proof.
  intros Hl Ho. destruct (double_loop h w (fun x y => y * h + x)%nat (fun x y => x * w + (w - 1 - y))%nat luma out) as (out' & He & Hlen & Hp).
  - intros x y Hx Hy. rewrite Ho. split; [by apply cell_bound|]. eapply Nat.lt_le_trans; [|exact Hl]. rewrite (Nat.mul_comm w h). apply cell_bound; lia.
  - intros x y x' y' Hx Hy Hx' Hy' E. apply cell_inj in E as [-> ->]; lia.
  - exists out'. split_and!; [done|congruence|exact Hp].
Qed.

(** The single passes are one, two and three quarter turns, for a buffer of the
    size of the image whatever it held. *)
Lemma passes_are_turns luma w h out : (w * h <= length luma)%nat -> length out = (w * h)%nat ->
  let f := pixel luma w in
  (exists o, rotate_90_into luma w h out = Some o /\ length o = (w * h)%nat /\ prepare_from_greyscale o h w = Some (image (quarter h f) h w))
  /\ (exists o, rotate_180_into luma w h out = Some o /\ length o = (w * h)%nat
        /\ prepare_from_greyscale o w h = Some (image (quarter w (quarter h f)) w h))
  /\ (exists o, rotate_270_into luma w h out = Some o /\ length o = (w * h)%nat
        /\ prepare_from_greyscale o h w = Some (image (quarter h (quarter w (quarter h f))) h w)).
Proof.
  intros Hl Ho f. split_and!.
  - destruct (rotate_90_pixels luma w h out Hl Ho) as (o & He & Hlo & Hp). exists o. rewrite prepared by lia. split_and!; [done|done|f_equal].
    apply image_ext. intros x y Hx Hy. by apply pixel_eq, Hp.
  - destruct (rotate_180_pixels luma w h out Hl Ho) as (o & He & Hlo & Hp). exists o. rewrite prepared by lia. split_and!; [done|done|f_equal].
    apply image_ext. intros x y Hx Hy. by apply pixel_eq, Hp.
  - destruct (rotate_270_pixels luma w h out Hl Ho) as (o & He & Hlo & Hp). exists o. rewrite prepared by lia. split_and!; [done|done|f_equal].
    apply image_ext. intros x y Hx Hy. apply pixel_eq. rewrite Hp by done. do 3 f_equal. lia.
Qed.

Lemma same_pixels (l l' : bytes) w h : length l = (w * h)%nat -> length l' = (w * h)%nat ->
  (forall x y, (x < w)%nat -> (y < h)%nat -> l !! (y * w + x)%nat = l' !! (y * w + x)%nat) -> l = l'.
Proof.
  intros Hl Hl' H. apply (list_eq_same_length _ _ (w * h)%nat); [done|done|]. intros k a b Hk Ha Hb.
  pose proof (Nat.div_mod_eq k w) as Hd. pose proof (Nat.mod_upper_bound k w) as Hm.
  assert (k / w < h)%nat by (apply Nat.Div0.div_lt_upper_bound; lia).
  specialize (H (k mod w) (k / w))%nat. rewrite (Nat.mul_comm (k / w) w), <- Hd in H. rewrite H in Ha by lia. congruence.
Qed.

(** Turning a frame and turning it back gives it back, byte for byte. *)
Theorem turn_and_back luma w h out out2 : length luma = (w * h)%nat -> length out = (w * h)%nat -> length out2 = (w * h)%nat ->
  (rotate_90_into luma w h out ≫= fun o => rotate_270_into o h w out2) = Some luma
  /\ (rotate_180_into luma w h out ≫= fun o => rotate_180_into o w h out2) = Some luma.
Proof.
  intros Hl Ho Ho2. split.
  - destruct (rotate_90_pixels luma w h out) as (o & -> & Hlo & Hp); [lia|done|]. cbn [mbind option_bind].
    destruct (rotate_270_pixels o h w out2) as (o2 & -> & Hlo2 & Hp2); [lia|lia|]. f_equal. apply (same_pixels _ _ w h); [lia|lia|].
    intros x y Hx Hy. rewrite Hp2, Hp by lia. f_equal. replace (h - 1 - (h - 1 - y))%nat with y by lia. lia.
  - destruct (rotate_180_pixels luma w h out) as (o & -> & Hlo & Hp); [lia|done|]. cbn [mbind option_bind].
    destruct (rotate_180_pixels o w h out2) as (o2 & -> & Hlo2 & Hp2); [lia|lia|]. f_equal. apply (same_pixels _ _ w h); [lia|lia|].
    intros x y Hx Hy. rewrite Hp2, Hp by lia. f_equal. replace (h - 1 - (h - 1 - y))%nat with y by lia. lia.
Qed.

(** ** The frame *)

(** What the checks amount to, in integers that do not overflow. *)
Definition row_step (width stride : Z) : Z := if stride <=? 0 then width else stride.
Definition accepted (width height stride n : Z) : bool :=
  (0 <? width) && (0 <? height) && (width * height <=? MAX_PIXELS) && (width <=? row_step width stride)
  && (row_step width stride * (height - 1) + width <=? n).

Lemma strip_rows bytes w h stride : (0 < h)%nat -> (w <= stride)%nat -> (stride * (h - 1) + w <= length bytes)%nat ->
  exists luma, strip_stride bytes w h stride = Some luma /\ (w * h <= length luma)%nat
    /\ forall x y, (x < w)%nat -> (y < h)%nat -> luma !! (y * w + x)%nat = bytes !! (y * stride + x)%nat.
Proof.
  intros Hh Hs Hb. unfold strip_stride. destruct (Nat.eqb_spec stride w) as [->|_]; [exists bytes; split_and!; [done|nia|done]|].
  enough (forall n, (n <= h)%nat -> exists luma, for_each (seq 0 n) (fun row clean =>
         let start := (row * stride)%nat in
         if (start + w <=? length bytes)%nat then Some (clean ++ take w (drop start bytes)) else Some clean) [] = Some luma
      /\ length luma = (n * w)%nat
      /\ forall x y, (x < w)%nat -> (y < n)%nat -> luma !! (y * w + x)%nat = bytes !! (y * stride + x)%nat) as H.
  { destruct (H h) as (luma & He & Hlen & Hp); [done|]. exists luma. split_and!; [done|lia|done]. }
  induction n as [|n IH]; intros Hn; [exists []; split_and!; [done|done|intros; lia]|].
  destruct IH as (luma & He & Hlen & Hp); [lia|]. rewrite seq_S, for_each_app, He. cbn [mbind option_bind for_each plus].
  assert (n * stride + w <= length bytes)%nat as Hfit by nia.
  cbv zeta. rewrite (proj2 (Nat.leb_le _ _) Hfit). cbn [mbind option_bind]. eexists. split; [reflexivity|]. split.
  - rewrite length_app, length_take, length_drop. lia.
  - intros x y Hx Hy. destruct (decide (y < n)%nat) as [Hyn|Hyn].
    + rewrite lookup_app_l; [by apply Hp|]. rewrite Hlen. by apply cell_bound.
    + assert (y = n) as -> by lia. rewrite lookup_app_r by lia. rewrite Hlen, lookup_take_lt, lookup_drop by lia. f_equal. lia.
Qed.

Section Decoded.
Variable rqrr : list (list byte) -> option (list (option string)).

(** What the finder reads in an image. *)
Definition find_text (im : list (list byte)) : option string := rqrr im ≫= first_content.

(** The images tried, in the order of the hint of the camera. *)
Definition orientations (rotation : Z) (f : nat -> nat -> byte) (w h : nat) : list (list (list byte)) :=
  let once := image (quarter h f) h w in
  let twice := image (quarter w (quarter h f)) w h in
  let thrice := image (quarter h (quarter w (quarter h f))) h w in
  image f w h
  :: (if rotation =? 180 then [twice; once; thrice] else if rotation =? 270 then [thrice; once; twice] else [once; twice; thrice]).

Hypothesis rqrr_returns : forall im, is_Some (rqrr im).

Lemma try_decode_image luma w h im : prepare_from_greyscale luma w h = Some im -> try_decode rqrr luma w h = Some (find_text im).
Proof. intros H. unfold try_decode, find_text. rewrite H. cbn [mbind option_bind]. by destruct (rqrr_returns im) as [grids ->]. Qed.

Definition shows (luma : bytes) (w h : nat) (r : RotFn * nat * nat) (im : list (list byte)) : Prop :=
  forall out, length out = (w * h)%nat ->
    exists o, r.1.1 luma w h out = Some o /\ length o = (w * h)%nat /\ prepare_from_greyscale o r.1.2 r.2 = Some im.

Lemma try_rotations_found luma w h order ims scratch :
  Forall2 (shows luma w h) order ims -> length scratch = (w * h)%nat ->
  try_rotations rqrr order luma w h scratch = Some (head (omap find_text ims)).
Proof.
  intros H. revert scratch. induction H as [|[[rot ow] oh] im order ims Hr _ IH]; intros scratch Hs; cbn [try_rotations]; [done|].
  destruct (Hr scratch Hs) as (o & He & Hlo & Hp). cbn [fst snd] in He, Hp. rewrite He. cbn [mbind option_bind].
  rewrite (try_decode_image o ow oh im Hp). cbn [mbind option_bind omap list_omap]. by destruct (find_text im); [|apply IH].
Qed.

Lemma fallback_shows rotation luma w h : (w * h <= length luma)%nat ->
  Forall2 (shows luma w h) (fallback_order rotation w h) (tail (orientations rotation (pixel luma w) w h)).
Proof.
  intros Hl.
  assert (shows luma w h (rotate_90_into, h, w) (image (quarter h (pixel luma w)) h w)) as H1
    by (intros out Ho; by apply (passes_are_turns luma w h out)).
  assert (shows luma w h (rotate_180_into, w, h) (image (quarter w (quarter h (pixel luma w))) w h)) as H2
    by (intros out Ho; by apply (passes_are_turns luma w h out)).
  assert (shows luma w h (rotate_270_into, h, w) (image (quarter h (quarter w (quarter h (pixel luma w)))) h w)) as H3
    by (intros out Ho; by apply (passes_are_turns luma w h out)).
  unfold fallback_order, orientations. cbn [tail].
  destruct (Z.eqb_spec rotation 90) as [->|_]; [cbn; by repeat constructor|].
  destruct (rotation =? 180); [by repeat constructor|]. by destruct (rotation =? 270); repeat constructor.
Qed.

Lemma orientations_ext rotation f g w h : (forall x y, (x < w)%nat -> (y < h)%nat -> f x y = g x y) ->
  orientations rotation f w h = orientations rotation g w h.
Proof.
  intros H. unfold orientations, quarter. rewrite (image_ext f g w h) by done.
  rewrite (image_ext (fun x y => f y (h - 1 - x)%nat) (fun x y => g y (h - 1 - x)%nat) h w) by (intros; apply H; lia).
  rewrite (image_ext (fun x y => f (w - 1 - x)%nat (h - 1 - y)%nat) (fun x y => g (w - 1 - x)%nat (h - 1 - y)%nat) w h) by (intros; apply H; lia).
  by rewrite (image_ext (fun x y => f (w - 1 - y)%nat (h - 1 - (h - 1 - x))%nat) (fun x y => g (w - 1 - y)%nat (h - 1 - (h - 1 - x))%nat) h w)
    by (intros; apply H; lia).
Qed.

(** The orientations of a frame, from its rows. *)
Lemma frame_searched rotation bytes w h stride :
  (0 < h)%nat -> (w <= stride)%nat -> (stride * (h - 1) + w <= length bytes)%nat ->
  (luma ← strip_stride bytes w h stride; first ← try_decode rqrr luma w h;
   match first with
   | Some text => Some (Some text)
   | None => try_rotations rqrr (fallback_order rotation w h) luma w h (replicate (w * h) x00)
   end) = Some (head (omap find_text (orientations rotation (pixel bytes stride) w h))).
Proof.
  intros Hh Hs Hb. destruct (strip_rows bytes w h stride Hh Hs Hb) as (luma & -> & Hlen & Hp). cbn [mbind option_bind].
  rewrite <- (orientations_ext rotation (pixel luma w)) by (intros x y Hx Hy; by apply pixel_eq, Hp).
  rewrite (try_decode_image luma w h _ (prepared luma w h Hlen)). cbn [mbind option_bind].
  rewrite (try_rotations_found _ _ _ _ _ _ (fallback_shows rotation luma w h Hlen)) by apply length_replicate.
  unfold orientations. cbn [tail omap list_omap]. by destruct (find_text (image (pixel luma w) w h)).
Qed.

Lemma refused_size U ok y_bytes width height stride rotation :
  width mod U = 0 \/ height mod U = 0 \/ MAX_PIXELS < width mod U * (height mod U) ->
  decode_frame rqrr U ok y_bytes width height stride rotation = Some None.
Proof.
  intros H. unfold decode_frame. cbv zeta. destruct (Z.eqb_spec (width mod U) 0); [done|].
  destruct (Z.eqb_spec (height mod U) 0); [done|]. destruct H as [?|[?|H%Z.ltb_lt]]; [done|done|]. cbn [orb].
  destruct (_ <? width mod U); [done|]. unfold checked_in. destruct (_ * _ <? U); [|done]. by rewrite H.
Qed.

(** A negative dimension is a huge one. *)
Lemma refused_negative U width height : 2 ^ 32 <= U -> - 2 ^ 31 <= width < 2 ^ 31 -> - 2 ^ 31 <= height < 2 ^ 31 ->
  width <= 0 \/ height <= 0 -> width mod U = 0 \/ height mod U = 0 \/ MAX_PIXELS < width mod U * (height mod U).
Proof.
  intros HU Hw Hh Hn. pose proof (Z.mod_pos_bound width U ltac:(lia)). pose proof (Z.mod_pos_bound height U ltac:(lia)).
  destruct (Z.eq_dec (width mod U) 0) as [?|Hw1]; [by left|]. destruct (Z.eq_dec (height mod U) 0) as [?|Hh1]; [by right; left|]. right. right.
  assert (forall z, - 2 ^ 31 <= z <= 0 -> z mod U <> 0 -> MAX_PIXELS < z mod U) as Hbig.
  { intros z Hz Hz0. destruct (Z.eq_dec z 0) as [->|Hne]; [done|]. rewrite <- (Z.mod_unique z U (-1) (z + U)); unfold MAX_PIXELS; lia. }
  destruct Hn as [Hn|Hn]; [specialize (Hbig width)|specialize (Hbig height)]; nia.
Qed.

(** The checks of the machine are the checks in integers. *)
Lemma refused_not_accepted U ok bytes width height stride rotation :
  2 ^ 32 <= U -> - 2 ^ 31 <= width < 2 ^ 31 -> - 2 ^ 31 <= height < 2 ^ 31 -> stride < 2 ^ 31 -> len bytes < U ->
  decode_frame rqrr U ok (Some bytes) width height stride rotation
  = if accepted width height stride (len bytes) then
      let w := Z.to_nat width in
      let h := Z.to_nat height in
      luma ← strip_stride bytes w h (Z.to_nat (row_step width stride));
      first ← try_decode rqrr luma w h;
      result ← match first with
               | Some text => Some (Some text)
               | None => try_rotations rqrr (fallback_order rotation w h) luma w h (replicate (Z.to_nat (width * height)) x00)
               end;
      Some (text ← result; if ok then Some text else None)
    else Some None.
Proof.
  intros HU Hw Hh Hs Hn. unfold accepted.
  destruct (Z.ltb_spec 0 width) as [Hw0|Hw0]; cbn [andb]; [|by apply refused_size, refused_negative; auto].
  destruct (Z.ltb_spec 0 height) as [Hh0|Hh0]; cbn [andb]; [|by apply refused_size, refused_negative; auto].
  unfold decode_frame. cbv zeta. rewrite (Z.mod_small width), (Z.mod_small height) by lia.
  rewrite !(proj2 (Z.eqb_neq _ _)) by lia. cbn [orb].
  assert ((if stride <=? 0 then width else stride mod U) = row_step width stride) as ->
    by (unfold row_step; destruct (Z.leb_spec stride 0); [done|rewrite Z.mod_small by lia; done]).
  assert (0 <= row_step width stride) as Hr by (unfold row_step; destruct (Z.leb_spec stride 0); lia).
  rewrite (Z.leb_antisym (row_step width stride) width). destruct (row_step width stride <? width); cbn [negb]; [by rewrite andb_false_r|].
  rewrite (Z.leb_antisym MAX_PIXELS (width * height)), andb_true_r. unfold checked_in.
  destruct (Z.ltb_spec (width * height) U) as [Hp|Hp]; [|by rewrite (proj2 (Z.ltb_lt _ _)) by (unfold MAX_PIXELS; lia)].
  destruct (MAX_PIXELS <? width * height); cbn [negb andb]; [done|].
  rewrite Z.max_r by lia. destruct (Z.ltb_spec (row_step width stride * (height - 1)) U) as [Hm|Hm];
    cbn [mbind option_bind]; [|by rewrite (proj2 (Z.leb_gt _ _)) by lia].
  destruct (Z.ltb_spec (row_step width stride * (height - 1) + width) U) as [Ha|Ha]; [|by rewrite (proj2 (Z.leb_gt _ _)) by lia].
  rewrite (Z.leb_antisym (len bytes)). by destruct (len bytes <? _).
Qed.

(** C31: A frame of any size, whatever the numbers and the bytes handed over: if the
    finder does not panic, nothing does.  A frame that is not accepted is
    refused; of an accepted one the text is the first the finder reads in the
    frame as it is and in its one, two and three quarter turns, in the order of
    the hint, and the buffer of the turns is at most four million bytes. *)
Theorem frame_decoded U ok bytes width height stride rotation :
  2 ^ 32 <= U -> - 2 ^ 31 <= width < 2 ^ 31 -> - 2 ^ 31 <= height < 2 ^ 31 -> stride < 2 ^ 31 -> len bytes < U ->
  decode_frame rqrr U ok (Some bytes) width height stride rotation
  = Some (if accepted width height stride (len bytes) && ok
          then head (omap find_text (orientations rotation (pixel bytes (Z.to_nat (row_step width stride))) (Z.to_nat width) (Z.to_nat height)))
          else None)
  /\ (accepted width height stride (len bytes) = true -> len (replicate (Z.to_nat (width * height)) x00) <= MAX_PIXELS).
Proof.
  intros HU Hw Hh Hs Hn. rewrite refused_not_accepted by done. destruct (accepted _ _ _ _) eqn:Ha; [|done].
  unfold accepted in Ha. rewrite !andb_true_iff, !Z.ltb_lt, !Z.leb_le in Ha. destruct Ha as ((((Ha1 & Ha2) & Ha3) & Ha4) & Ha5).
  cbv zeta. rewrite Z2Nat.inj_mul by lia. set (w := Z.to_nat width). set (h := Z.to_nat height). set (st := Z.to_nat (row_step width stride)). split.
  - pose proof (frame_searched rotation bytes w h st) as Hf. unfold len in Ha5. rewrite andb_true_l.
    destruct (strip_stride bytes w h st) as [luma|] eqn:E1; [|by discriminate Hf; nia].
    cbn [mbind option_bind] in *. destruct (try_decode rqrr luma w h) as [first|]; [|by discriminate Hf; nia].
    cbn [mbind option_bind] in *. rewrite Hf by nia. cbn [mbind option_bind]. by destruct (head _), ok.
  - intros _. unfold len. rewrite length_replicate. subst w h. lia.
Qed.

Lemma head_found {A B} (f : A -> option B) l : is_Some (head (omap f l)) <-> exists a, a ∈ l /\ is_Some (f a).
Proof.
  induction l as [|a l IH]; cbn; [split; [by intros []|by intros (a & ?%not_elem_of_nil & _)]|].
  destruct (f a) as [b|] eqn:E; cbn.
  - split; [|by eauto]. intros _. exists a. split; [by left|by rewrite E].
  - rewrite IH. split; intros (c & Hc & Hf); [exists c; split; [by right|done]|].
    apply elem_of_cons in Hc as [->|Hc]; [by rewrite E in Hf; destruct Hf|by exists c].
Qed.

(** The hint decides the order only: a code is found with any hint or with none. *)
Lemma hint_only_reorders U ok y_bytes width height stride hint hint' :
  2 ^ 32 <= U -> - 2 ^ 31 <= width < 2 ^ 31 -> - 2 ^ 31 <= height < 2 ^ 31 -> stride < 2 ^ 31 ->
  (forall bytes, y_bytes = Some bytes -> len bytes < U) ->
  is_Some (decodeQrCode rqrr U ok y_bytes width height stride hint) -> is_Some (decodeQrCode rqrr U ok y_bytes width height stride hint').
Proof.
  intros HU Hw Hh Hs Hn. unfold decodeQrCode. destruct y_bytes as [bytes|].
  2: { unfold decode_frame. cbv zeta. repeat case_match; cbn; by intros []. }
  rewrite !(proj1 (frame_decoded U ok bytes width height stride _ HU Hw Hh Hs (Hn _ eq_refl))). cbn [default from_option id].
  destruct (_ && ok); [|done]. rewrite !head_found. intros (im & Him & Hf). exists im. split; [|done]. revert Him. unfold orientations.
  repeat case_match; set_solver.
Qed.

End Decoded.

(** ** Witnesses *)

(** A frame of one row with a byte of padding: the code is found in its first turn. *)
Definition toy_rqrr (im : list (list byte)) : option (list (option string)) :=
  Some [None; if decide (im = [[x01]; [x02]]) then Some "code" else None].
Lemma toy_rqrr_returns im : is_Some (toy_rqrr im).
Proof. by eexists. Qed.

Lemma frame_decoded_witness :
  decode_frame toy_rqrr (2 ^ 64) true (Some [x01; x02; x00]) 2 1 3 180 = Some (Some "code").
Proof.
  rewrite (proj1 (frame_decoded toy_rqrr toy_rqrr_returns (2 ^ 64) true [x01; x02; x00] 2 1 3 180 ltac:(lia) ltac:(lia) ltac:(lia) ltac:(lia) eq_refl)).
  reflexivity.
Defined.
Lemma turn_and_back_witness :
  (rotate_90_into [x01; x02; x03; x04; x05; x06] 3 2 (replicate 6 x00) ≫= fun o => rotate_270_into o 2 3 (replicate 6 xff))
  = Some [x01; x02; x03; x04; x05; x06].
Proof. exact (proj1 (turn_and_back [x01; x02; x03; x04; x05; x06] 3 2 (replicate 6 x00) (replicate 6 xff) eq_refl eq_refl eq_refl)). Defined.
