(* ===== verification/Worker.v ===== *)
(** * Worker: the conversation with the script workers (executor/worker.rs, executor/boa_sandbox.rs, lib.rs)

    A worker is a child process that reads a request from each line of its input
    and writes a result to a line of its output; a thread of the desktop passes
    the lines on to a channel.  The child runs at its own pace, so its steps
    interleave with the desktop's.  The texts of serde_json have no line break,
    so each direction is the list of its lines.  The interpreter (the crate boa)
    is a parameter: what a script evaluates to, and what it logs on the way. *)

From Stdlib.Strings Require Import Ascii.
From S2P Require Import Prelude Utils Automation.

Class ScriptTexts := {
  f64 : Type;
  zero_f64 : f64;
  (** What is read back of a number that was written: 0.0 for one that is not
      finite, which is written as null; the decimal is parsed without the exact
      mode of the crate, so it may be another number than was written. *)
  reread : f64 -> f64;
  request_text : string * f64 * string -> string;
  (** [from_str], and the three fields with their defaults. *)
  parse_request : string -> option (string * f64 * string);
  result_text : ScriptExecutionResult -> string;
  parse_result : string -> option ScriptExecutionResult
}.
(** The request the child has when [r] was written. *)
Definition received `{X : ScriptTexts} (r : string * f64 * string) : string * f64 * string := (r.1.1, reread r.1.2, r.2).
(** serde_json writes an object within braces and reads its texts back as they
    were. *)
Class ScriptTextsLaws `{X : ScriptTexts} := {
  request_read r : trim_str (request_text r) <> "" /\ parse_request (trim_str (request_text r)) = Some (received r);
  result_read res : parse_result (trim_str (result_text res)) = Some res
}.

Section Worker.
Context `{X : ScriptTexts}.
(** What a script displays, or its error, and the messages it logs. *)
Variable eval : string * f64 * string -> (string + string) * list string.

(** ** The child *)

(** [logs]: the log of the thread, which outlives the run. *)
Definition run_boa_inner (r : string * f64 * string) (logs : list string) : ScriptExecutionResult * list string :=
  let logs := [] in
  let '(res, messages) := eval r in
  let logs := logs ++ messages in
  match res with
  | inl val => ({| success := true; output := val; script_logs := logs |}, logs)
  | inr e => (failed "Error: {e}", logs)
  end.

(** The loop's turn for a line. *)
Definition worker_line (line : string) (logs : list string) : string * list string :=
  let line := trim_str line in
  if decide (line = "") then ("{}", logs)
  else match parse_request line with
       | Some r => let '(res, logs) := run_boa_inner r logs in (result_text res, logs)
       | None => (result_text (failed "Invalid request: {e}"), logs)
       end.

(** The one-shot mode of the last resort. *)
Definition boa_sandbox (input : string) (logs : list string) : string :=
  result_text (run_boa_inner (default ("", zero_f64, "") (parse_request input)) logs).1.

(** ** The desktop *)

Inductive Phase :=
| Starting
| Idle
| Asked (r : string * f64 * string).

Record BoaWorker := {
  stdin : list string;
  engine_logs : list string;
  response_rx : list string;
  phase : Phase
}.

(** The workers by process, and what the calls of [execute] returned. *)
Record Desk := { workers : gmap N BoaWorker; returned : list ((string * f64 * string) * ScriptExecutionResult) }.
Definition no_workers : Desk := {| workers := ∅; returned := [] |}.

Definition write_request (r : string * f64 * string) (ph : Phase) (w : BoaWorker) : BoaWorker :=
  {| stdin := stdin w ++ [request_text r]; engine_logs := engine_logs w; response_rx := response_rx w; phase := ph |}.
Definition child_turn (w : BoaWorker) : option BoaWorker :=
  match stdin w with
  | [] => None
  | line :: rest =>
      let '(answer, logs) := worker_line line (engine_logs w) in
      Some {| stdin := rest; engine_logs := logs; response_rx := response_rx w ++ [answer]; phase := phase w |}
  end.

(** [Dropped]: a worker that timed out, cannot be written to, answers what does
    not parse, is found dead or has no place in the pool; its process is killed
    and its channel is gone. *)
Inductive Event :=
| Spawn (p : N)
| ChildTurn (p : N)
| Pinged (p : N)
| Execute (p : N) (r : string * f64 * string)
| Received (p : N)
| Dropped (p : N).

Definition put (p : N) (w : BoaWorker) (d : Desk) : Desk := {| workers := <[p := w]> (workers d); returned := returned d |}.
Definition forget (p : N) (d : Desk) : Desk := {| workers := delete p (workers d); returned := returned d |}.

Definition desk_step (e : Event) (d : Desk) : option Desk :=
  match e with
  | Spawn p =>
      match workers d !! p with
      | Some _ => None
      | None => Some (put p (write_request ("", zero_f64, "") Starting {| stdin := []; engine_logs := []; response_rx := []; phase := Starting |}) d)
      end
  | ChildTurn p => w ← workers d !! p; w' ← child_turn w; Some (put p w' d)
  | Pinged p =>
      w ← workers d !! p;
      match phase w, response_rx w with
      | Starting, _ :: rest => Some (put p {| stdin := stdin w; engine_logs := engine_logs w; response_rx := rest; phase := Idle |} d)
      | _, _ => None
      end
  | Execute p r =>
      w ← workers d !! p;
      match phase w with Idle => Some (put p (write_request r (Asked r) w) d) | _ => None end
  | Received p =>
      w ← workers d !! p;
      match phase w, response_rx w with
      | Asked r, line :: rest =>
          match parse_result (trim_str line) with
          | Some res =>
              Some {| workers := <[p := {| stdin := stdin w; engine_logs := engine_logs w; response_rx := rest; phase := Idle |}]> (workers d);
                      returned := returned d ++ [(r, res)] |}
          | None => Some (forget p d)
          end
      | _, _ => None
      end
  | Dropped p => Some (forget p d)
  end.

Definition run_events (d : Desk) (es : list Event) : option Desk := foldl (fun d e => d ≫= desk_step e) (Some d) es.

(** ** The answers belong to their requests *)

Definition outcome (r : string * f64 * string) : ScriptExecutionResult := (run_boa_inner r []).1.

(** What a script gives does not depend on what the worker ran before. *)
Lemma outcome_only r logs : (run_boa_inner r logs).1 = outcome r.
Proof. unfold outcome, run_boa_inner. by destruct (eval r) as [[v|e] ms]. Qed.

(** One request is under way, somewhere between the desktop and back. *)
Definition one_request (r : string * f64 * string) (w : BoaWorker) : Prop :=
  (stdin w = [request_text r] /\ response_rx w = []) \/ (stdin w = [] /\ response_rx w = [result_text (outcome (received r))]).
Definition in_step (w : BoaWorker) : Prop :=
  match phase w with
  | Starting => one_request ("", zero_f64, "") w
  | Idle => stdin w = [] /\ response_rx w = []
  | Asked r => one_request r w
  end.

Context {L : ScriptTextsLaws}.

Definition desk_ok (d : Desk) : Prop :=
  map_Forall (fun _ w => in_step w) (workers d) /\ Forall (fun '(r, res) => res = outcome (received r)) (returned d).

Lemma turn_in_step r w w' : one_request r w -> child_turn w = Some w' -> one_request r w' /\ phase w' = phase w.
Proof.
  unfold child_turn. intros [[Hs Hr]|[Hs Hr]]; rewrite Hs; [|done]. unfold worker_line. destruct (request_read r) as [Hne Hp].
  rewrite decide_False by done. rewrite Hp. pose proof (outcome_only (received r) (engine_logs w)) as Ho.
  destruct (run_boa_inner (received r) (engine_logs w)) as [res logs]. cbn in Ho. subst res. intros [= <-]. split; [|done]. right. by rewrite Hr.
Qed.

Lemma turn_keeps w w' : in_step w -> child_turn w = Some w' -> in_step w'.
Proof.
  unfold in_step. destruct (phase w) as [| |r] eqn:E; intros Hw Ht.
  - destruct (turn_in_step _ _ _ Hw Ht) as [H1 H2]. by rewrite H2, E.
  - unfold child_turn in Ht. by rewrite (proj1 Hw) in Ht.
  - destruct (turn_in_step _ _ _ Hw Ht) as [H1 H2]. by rewrite H2, E.
Qed.

Lemma put_ok p w d : desk_ok d -> in_step w -> desk_ok (put p w d).
Proof. intros [H1 H2] Hw. split; [by apply map_Forall_insert_2|done]. Qed.
Lemma forget_ok p d : desk_ok d -> desk_ok (forget p d).
Proof. intros [H1 H2]. split; [by apply map_Forall_delete|done]. Qed.

Lemma step_keeps_answers e d d' : desk_ok d -> desk_step e d = Some d' -> desk_ok d'.
Proof.
  intros Hd. pose proof Hd as [Hw Hr].
  destruct e as [p|p|p|p r|p|p]; cbn [desk_step].
  - destruct (workers d !! p); [done|]. intros [= <-]. apply put_ok; [done|]. by left.
  - destruct (workers d !! p) as [w|] eqn:E; cbn [mbind option_bind]; [|done]. destruct (child_turn w) as [w'|] eqn:Et; cbn [mbind option_bind]; [|done].
    intros [= <-]. apply put_ok; [done|]. exact (turn_keeps w w' (Hw p w E) Et).
  - destruct (workers d !! p) as [w|] eqn:E; cbn [mbind option_bind]; [|done]. specialize (Hw p w E). unfold in_step in Hw.
    destruct (phase w); try done. destruct Hw as [[H1 H2]|[H1 H2]]; rewrite H2; [done|]. intros [= <-]. by apply put_ok.
  - destruct (workers d !! p) as [w|] eqn:E; cbn [mbind option_bind]; [|done]. specialize (Hw p w E). unfold in_step in Hw.
    destruct (phase w); try done. destruct Hw as [H1 H2]. intros [= <-]. apply put_ok; [done|]. left. cbn. by rewrite H1, H2.
  - destruct (workers d !! p) as [w|] eqn:E; cbn [mbind option_bind]; [|done]. specialize (Hw p w E). unfold in_step in Hw.
    destruct (phase w) as [| |r]; try done. destruct Hw as [[H1 H2]|[H1 H2]]; rewrite H2; [done|]. rewrite result_read. intros [= <-].
    destruct Hd as [Hd1 Hd2]. split; [by apply map_Forall_insert_2|]. apply Forall_app. split; [done|by constructor].
  - intros [= <-]. by apply forget_ok.
Qed.

Lemma run_stuck es : foldl (fun d e => d ≫= desk_step e) None es = None.
Proof. by induction es. Qed.

(** C30: whatever the order in which the desktop and its workers act, and whatever
    workers are dropped on the way, each call returns the result of its own
    script and feed, evaluated with its own light as serde_json reads it back
    ([reread]): never the answer to a request before it, nor its log. *)
Theorem answers_belong es d :
  run_events no_workers es = Some d -> forall r res, (r, res) ∈ returned d -> res = outcome (received r).
Proof.
  enough (forall es d0, desk_ok d0 -> forall d, run_events d0 es = Some d -> desk_ok d) as H.
  { intros Hr r res Hin. destruct (H es no_workers ltac:(by split; [apply map_Forall_empty|constructor]) d Hr) as [_ HF].
    rewrite Forall_forall in HF. exact (HF _ Hin). }
  clear es d. induction es as [|e es IH]; intros d0 H0 d; unfold run_events; cbn [foldl]; [by intros [= <-]|].
  cbn [mbind option_bind]. destruct (desk_step e d0) as [d1|] eqn:E; [|by rewrite run_stuck].
  apply IH. by apply (step_keeps_answers e d0).
Qed.

(** A worker that was asked answers, once its child runs. *)
Lemma asked_is_answered p r d w :
  desk_ok d -> workers d !! p = Some w -> phase w = Idle ->
  exists d', run_events d [Execute p r; ChildTurn p; Received p] = Some d' /\ (r, outcome (received r)) ∈ returned d'.
Proof.
  intros [Hw _] E Hp. specialize (Hw p w E). unfold in_step in Hw. rewrite Hp in Hw. destruct Hw as [H1 H2].
  set (w1 := write_request r (Asked r) w).
  assert (one_request r w1) as Ho by (left; cbn; by rewrite H1, H2).
  assert (exists w2, child_turn w1 = Some w2) as [w2 Ht].
  { unfold child_turn. cbn [stdin w1 write_request]. rewrite H1. cbn [app]. destruct (worker_line _ _). by eexists. }
  destruct (turn_in_step r w1 w2 Ho Ht) as [[[Hs _]|[_ Hx]] Hph].
  { unfold child_turn in Ht. cbn [stdin w1 write_request] in Ht. rewrite H1 in Ht. cbn [app] in Ht. destruct (worker_line _ _).
    injection Ht as <-. done. }
  assert (desk_step (Execute p r) d = Some (put p w1 d)) as S1 by (cbn; rewrite E; cbn; by rewrite Hp).
  assert (desk_step (ChildTurn p) (put p w1 d) = Some (put p w2 (put p w1 d))) as S2.
  { cbn [desk_step put workers]. rewrite lookup_insert_eq. cbn [mbind option_bind]. by rewrite Ht. }
  unfold run_events. cbn [foldl]. change (Some d ≫= desk_step (Execute p r)) with (desk_step (Execute p r) d). rewrite S1.
  change (Some (put p w1 d) ≫= desk_step (ChildTurn p)) with (desk_step (ChildTurn p) (put p w1 d)). rewrite S2.
  assert (workers (put p w2 (put p w1 d)) !! p = Some w2) as E2 by apply lookup_insert_eq.
  cbn [mbind option_bind desk_step]. rewrite E2. cbn [mbind option_bind]. rewrite Hph, Hx. cbn [phase w1 write_request].
  rewrite result_read. eexists. split; [reflexivity|]. cbn [returned]. apply elem_of_app. right. by left.
Qed.

End Worker.

(** ** A text for every request and result *)

Module ToyTexts.

Fixpoint digits (p : positive) : string :=
  match p with
  | xH => "."
  | xO p => String "0" (digits p)
  | xI p => String "1" (digits p)
  end.
Fixpoint undigits (s : string) : option positive :=
  match s with
  | "." => Some xH
  | String "0" s => xO <$> undigits s
  | String "1" s => xI <$> undigits s
  | _ => None
  end.
Lemma undigits_digits p : undigits (digits p) = Some p.
Proof. induction p as [p IH|p IH|]; cbn [digits undigits]; [rewrite IH; by destruct p..|done]. Qed.

(** Nothing is trimmed of such a text. *)
Definition dull (b : byte) : Prop := b = x2e \/ b = x30 \/ b = x31.
Lemma digits_dull p : Forall dull (bstr (digits p)) /\ bstr (digits p) <> [].
Proof. induction p as [p [IH _]|p [IH _]|]; cbn; (split; [|done]); constructor; try exact IH; unfold dull; auto. Qed.
Lemma trim_dull t : Forall dull t -> t <> [] -> trim t = t.
Proof.
  intros H Hne.
  assert (forall b r, dull b -> strip_start white_space (b :: r) = None /\ strip_any white_space (b :: r) = None) as Hd
    by (by intros b r [->|[->| ->]]; destruct r as [|? [|? ?]]).
  assert (trim_start_loop (length t) t = t) as Hs.
  { destruct H as [|b t Hb Ht]; [done|]. cbn [length trim_start_loop]. by rewrite (proj1 (Hd b t Hb)). }
  unfold trim. rewrite Hs. unfold trim_end. apply Forall_rev in H. rewrite <- rev_length. destruct (rev t) as [|b r] eqn:E.
  { apply (f_equal (@rev byte)) in E. by rewrite rev_involutive in E. }
  cbn [length trim_rev]. inversion H as [|? ? Hb _]; subst. rewrite (proj2 (Hd b r Hb)), <- E. apply rev_involutive.
Qed.
Lemma trim_digits p : trim_str (digits p) = digits p.
Proof.
  destruct (digits_dull p) as [H1 H2]. unfold trim_str. rewrite (trim_dull _ H1 H2). apply String.string_of_list_byte_of_string.
Qed.

Definition of_result (res : ScriptExecutionResult) : bool * string * list string := (success res, output res, script_logs res).
#[export] Instance toy_texts : ScriptTexts := {|
  f64 := option Z; zero_f64 := Some 0; reread x := Some (default 0 x);
  request_text r := digits (encode (r.1.1, Some (default 0 r.1.2), r.2));
  parse_request t := undigits t ≫= decode;
  result_text res := digits (encode (of_result res));
  parse_result t := p ← undigits t; '(s, o, l) ← decode p; Some {| success := s; output := o; script_logs := l |} |}.
#[export] Instance toy_texts_laws : ScriptTextsLaws.
Proof.
  split.
  - intros r. cbn [request_text parse_request toy_texts]. rewrite trim_digits, undigits_digits. cbn [mbind option_bind]. split; [|apply decode_encode].
    intros E. exact (proj2 (digits_dull _) (f_equal bstr E)).
  - intros res. cbn [result_text parse_result toy_texts]. rewrite trim_digits, undigits_digits. cbn [mbind option_bind]. rewrite decode_encode. by destruct res.
Qed.

(** A script that displays its feed; two scripts, one after the other. *)
Definition echo (r : string * option Z * string) : (string + string) * list string := (inl r.2, ["ran"]).
Definition two_runs : list Event :=
  [Spawn 1; ChildTurn 1; Pinged 1; Execute 1 ("feed", Some 3, "a"); ChildTurn 1; Received 1; Execute 1 ("feed", None, "b"); ChildTurn 1; Received 1].
Definition after_two : Desk := default no_workers (run_events echo no_workers two_runs).

Lemma answers_belong_witness :
  run_events echo no_workers two_runs = Some after_two /\ returned after_two <> []
  /\ forall r res, (r, res) ∈ returned after_two -> res = outcome echo (received r).
Proof.
  assert (run_events echo no_workers two_runs = Some after_two) as H by by vm_compute.
  split; [exact H|]. split; [by vm_compute|]. exact (answers_belong echo two_runs after_two H).
Defined.

End ToyTexts.
