(* ===== verification/Runtime.v ===== *)
(** * Runtime: the calls that block on the two runtimes (core-crypto/src/runtime.rs)

    A runtime sits in a slot behind a mutex.  A call locks the slot, takes a
    reference to the runtime and blocks on its future, which may take as long as
    it likes; the shutdown takes the runtime out of the slot and waits for the
    references to go.  Each thread is one call, and the calls interleave.  What
    the runtime does with a future is not modelled, only when the future is done. *)

From S2P Require Import Prelude.

(** [Ffi]: [ffi_runtime] returns before [block_on], and its guard goes with it.
    [Io]: the guard is a variable of [block_on_io] and lives to its end. *)
Inductive Slot := Ffi | Io.

Inductive Call :=
| Locking
| Locked
| Blocking
| Returned
| Aborted.

(** The shutdown: the looks at the count of references it still has. *)
Inductive Shutdown :=
| NotAsked
| Draining (looks : nat)
| Stopped
| LeftRunning.

Record Rt := {
  guard : option N;
  present : bool;
  clones : gset N;
  calls : gmap N Call;
  shutdown : Shutdown
}.
Definition new_rt : Rt := {| guard := None; present := true; clones := ∅; calls := ∅; shutdown := NotAsked |}.

Inductive Event :=
| Begin (t : N)
| Lock (t : N)
| Enter (t : N)
| Done (t : N)
| Take
| Look
| Unwrap.

Section Slot.
Variable slot : Slot.

Definition set_call (t : N) (c : Call) (s : Rt) : Rt :=
  {| guard := guard s; present := present s; clones := clones s; calls := <[t := c]> (calls s); shutdown := shutdown s |}.
Definition set_guard (g : option N) (s : Rt) : Rt :=
  {| guard := g; present := present s; clones := clones s; calls := calls s; shutdown := shutdown s |}.
Definition set_clones (c : gset N) (s : Rt) : Rt :=
  {| guard := guard s; present := present s; clones := c; calls := calls s; shutdown := shutdown s |}.
Definition set_shutdown (x : Shutdown) (s : Rt) : Rt :=
  {| guard := guard s; present := present s; clones := clones s; calls := calls s; shutdown := x |}.

(** [block_on_sync] and [block_on_io]. *)
Definition enter (t : N) (s : Rt) : Rt :=
  if present s then
    let s := set_call t Blocking (set_clones ({[t]} ∪ clones s) s) in
    match slot with Ffi => set_guard None s | Io => s end
  else set_guard None (set_call t Aborted s).
Definition leave (t : N) (s : Rt) : Rt :=
  let s := set_call t Returned (set_clones (clones s ∖ {[t]}) s) in
  match slot with Ffi => s | Io => set_guard None s end.

(** [shutdown_arc_runtime]: the slot is locked only to take the runtime out; a
    look that finds other references sleeps, the fifty-first does not come. *)
Definition take_runtime (s : Rt) : Rt :=
  if present s then
    {| guard := guard s; present := false; clones := clones s; calls := calls s; shutdown := Draining 50 |}
  else s.
Definition look (s : Rt) : option Rt :=
  match shutdown s with
  | Draining (S n) => if decide (clones s = ∅) then Some (set_shutdown (Draining 0) s) else Some (set_shutdown (Draining n) s)
  | _ => None
  end.
Definition unwrap (s : Rt) : option Rt :=
  match shutdown s with
  | Draining O => Some (set_shutdown (if decide (clones s = ∅) then Stopped else LeftRunning) s)
  | _ => None
  end.

Definition rt_step (e : Event) (s : Rt) : option Rt :=
  match e with
  | Begin t => match calls s !! t with None => Some (set_call t Locking s) | Some _ => None end
  | Lock t =>
      match calls s !! t, guard s with
      | Some Locking, None => Some (set_guard (Some t) (set_call t Locked s))
      | _, _ => None
      end
  | Enter t => match calls s !! t with Some Locked => Some (enter t s) | _ => None end
  | Done t => match calls s !! t with Some Blocking => Some (leave t s) | _ => None end
  | Take => match guard s with None => Some (take_runtime s) | Some _ => None end
  | Look => look s
  | Unwrap => unwrap s
  end.

Definition run_rt (s : Rt) (es : list Event) : option Rt := foldl (fun s e => s ≫= rt_step e) (Some s) es.

(** ** The invariant *)

Record rt_ok (s : Rt) : Prop := {
  ok_guard t : guard s = Some t <-> calls s !! t = Some Locked \/ (slot = Io /\ calls s !! t = Some Blocking);
  ok_clones t : t ∈ clones s <-> calls s !! t = Some Blocking;
  ok_taken : shutdown s <> NotAsked -> present s = false;
  ok_stopped : shutdown s = Stopped -> clones s = ∅
}.

Lemma new_rt_ok : rt_ok new_rt.
Proof. split; [intros t; cbn; rewrite lookup_empty; naive_solver|intros t; cbn; rewrite lookup_empty; set_solver|done|done]. Qed.

Lemma look_or_unwrap_ok s s' : rt_ok s -> look s = Some s' \/ unwrap s = Some s' -> rt_ok s'.
Proof.
  intros [Hg Hc Ht Hs] H. assert (guard s' = guard s /\ calls s' = calls s /\ clones s' = clones s /\ present s' = present s
    /\ shutdown s <> NotAsked /\ (shutdown s' = Stopped -> clones s = ∅)) as (E1 & E2 & E3 & E4 & E5 & E6).
  { unfold look, unwrap in H. destruct (shutdown s) as [|[|n]| |]; destruct H as [H|H]; try done; repeat case_decide; simplify_eq; done. }
  split; [by rewrite E1, E2|by rewrite E2, E3|by rewrite E4; auto|by rewrite E3].
Qed.

(** A step of one call: what it must do to the slot and to the references. *)
Lemma call_moved t c s s' : rt_ok s -> calls s' = <[t := c]> (calls s) ->
  (forall u, u <> t -> (guard s' = Some u <-> guard s = Some u)) -> (guard s' = Some t <-> c = Locked \/ (slot = Io /\ c = Blocking)) ->
  (forall u, u <> t -> (u ∈ clones s' <-> u ∈ clones s)) -> (t ∈ clones s' <-> c = Blocking) ->
  present s' = present s -> shutdown s' = shutdown s -> (shutdown s = Stopped -> clones s' = ∅) -> rt_ok s'.
Proof.
  intros [Hg Hc Ht Hs] Ec Hgu Hgt Hcu Hct Ep Es Hst. split; [intros u; rewrite Ec..|by rewrite Ep, Es|by rewrite Es].
  - destruct (decide (u = t)) as [->|Hne]; [rewrite lookup_insert_eq, Hgt; naive_solver|by rewrite lookup_insert_ne, Hgu by done].
  - destruct (decide (u = t)) as [->|Hne]; [rewrite lookup_insert_eq, Hct; naive_solver|by rewrite lookup_insert_ne, Hcu by done].
Qed.

Lemma rt_step_ok e s s' : rt_ok s -> rt_step e s = Some s' -> rt_ok s'.
Proof.
  intros Hok. pose proof Hok as [Hg Hc Ht Hs]. destruct e as [t|t|t|t| | |]; cbn [rt_step].
  - pose proof (Hg t) as Hgt. pose proof (Hc t) as Hct. destruct (calls s !! t) as [|] eqn:E; [done|]. intros [= <-].
    apply (call_moved t Locking s); [done|done|done|naive_solver|done|naive_solver|done|done|exact Hs].
  - pose proof (Hc t) as Hct. destruct (calls s !! t) as [[]|] eqn:E; try done. destruct (guard s) as [|] eqn:Eg; [done|]. intros [= <-].
    apply (call_moved t Locked s); [done|done|cbn; naive_solver|cbn; naive_solver|done|naive_solver|done|done|exact Hs].
  - pose proof (Hg t) as Hgt. pose proof (Hc t) as Hct. destruct (calls s !! t) as [[]|] eqn:E; try done. intros [= <-].
    pose proof (proj2 Hgt (or_introl eq_refl)) as Eg. unfold enter. destruct (present s) eqn:Ep.
    + assert (shutdown s = Stopped -> {[t]} ∪ clones s = ∅) as Hno by (intros Es; rewrite Es in Ht; by discriminate Ht).
      clear Hg Hc Hgt Hct Ht Hs.
      apply (call_moved t Blocking s); [done|by destruct slot| | | | |by destruct slot|by destruct slot|by destruct slot]; clear Hok Hno;
        destruct slot; cbn; rewrite ?Eg; (naive_solver || set_solver).
    + clear Hg Hc Ht. apply (call_moved t Aborted s); [done|done| | |done| |done|done|exact Hs]; clear Hok Hs; cbn; rewrite ?Eg; naive_solver.
  - pose proof (Hg t) as Hgt. destruct (calls s !! t) as [[]|] eqn:E; try done. intros [= <-]. unfold leave.
    assert (shutdown s = Stopped -> clones s ∖ {[t]} = ∅) as Hs' by (intros Hx; rewrite (Hs Hx); set_solver).
    clear Hg Hc Ht Hs.
    apply (call_moved t Returned s); [done|by destruct slot| | | | |by destruct slot|by destruct slot|by destruct slot]; clear Hok Hs' E;
      destruct slot; cbn; (naive_solver || set_solver).
  - destruct (guard s) eqn:Eg; [done|]. intros [= <-]. unfold take_runtime. destruct (present s); [|done]. split; cbn; [|done|done|done]. by rewrite Eg.
  - intros H. apply (look_or_unwrap_ok s); auto.
  - intros H. apply (look_or_unwrap_ok s); auto.
Qed.

Lemma run_rt_cons s e es : run_rt s (e :: es) = rt_step e s ≫= fun s' => run_rt s' es.
Proof. unfold run_rt. cbn. destruct (rt_step e s); cbn; [done|]. by induction es. Qed.
Lemma run_rt_ok s es s' : rt_ok s -> run_rt s es = Some s' -> rt_ok s'.
Proof.
  revert s. induction es as [|e es IH]; intros s Hs; [by intros [= <-]|]. rewrite run_rt_cons.
  destruct (rt_step e s) as [s1|] eqn:E; [|done]. cbn. apply IH. by apply (rt_step_ok e s).
Qed.

(** The shutdown never stops a runtime under a call. *)
Lemma stopped_is_quiet es s t : run_rt new_rt es = Some s -> shutdown s = Stopped -> calls s !! t <> Some Blocking.
Proof.
  intros H Hs Hb. pose proof (run_rt_ok _ _ _ new_rt_ok H) as [_ Hc _ He]. apply Hc in Hb. rewrite He in Hb by done. set_solver.
Qed.

End Slot.

(** ** Calls do not wait for each other, or do *)

(** A call on the runtime of the bridge that waits for the slot gets it without
    any future being done: at most the holder enters first. *)
Theorem ffi_calls_concurrent es s t : run_rt Ffi new_rt es = Some s -> calls s !! t = Some Locking ->
  exists es' s', Forall (fun e => forall u, e <> Done u) es' /\ (length es' <= 3)%nat /\ run_rt Ffi s es' = Some s'
    /\ (calls s' !! t = Some Blocking \/ calls s' !! t = Some Aborted).
Proof.
  intros H Hl. pose proof (run_rt_ok _ _ _ _ (new_rt_ok Ffi) H) as Hok.
  assert (forall s, guard s = None -> calls s !! t = Some Locking ->
    exists s', run_rt Ffi s [Lock t; Enter t] = Some s' /\ (calls s' !! t = Some Blocking \/ calls s' !! t = Some Aborted)) as Hfree.
  { intros s0 Hg0 Hl0. rewrite run_rt_cons. cbn [rt_step]. rewrite Hl0, Hg0. cbn [mbind option_bind]. rewrite run_rt_cons. cbn [rt_step].
    cbn [calls set_guard set_call]. rewrite lookup_insert_eq. cbn [mbind option_bind]. eexists. split; [reflexivity|]. unfold enter.
    destruct (present _); cbn; rewrite lookup_insert_eq; auto. }
  destruct (guard s) as [h|] eqn:Eg.
  - pose proof (proj1 (ok_guard _ _ Hok h) Eg) as [Hh|[? _]]; [|done].
    destruct (Hfree (enter Ffi h s)) as (s' & Hr & Hc).
    { unfold enter. by destruct (present s). }
    { unfold enter. destruct (present s); cbn; rewrite lookup_insert_ne; congruence. }
    exists [Enter h; Lock t; Enter t], s'. split_and!; [by repeat constructor|cbn; lia| |done].
    rewrite run_rt_cons. cbn [rt_step]. rewrite Hh. exact Hr.
  - destruct (Hfree s Eg Hl) as (s' & Hr & Hc). exists [Lock t; Enter t], s'. split_and!; [by repeat constructor|cbn; lia|done|done].
Qed.

(** On the other runtime a call keeps the slot locked while it blocks: until its
    future is done every other call, and the shutdown, waits for it. *)
Lemma io_calls_serialized h t es s s' : rt_ok Io s -> calls s !! h = Some Blocking -> calls s !! t = Some Locking ->
  run_rt Io s es = Some s' -> Done h ∉ es -> calls s' !! t = Some Locking /\ present s' = present s.
Proof.
  revert s. induction es as [|e es IH]; intros s Hok Hh Ht Hr Hd; [by injection Hr as <-|].
  rewrite run_rt_cons in Hr. destruct (rt_step Io e s) as [s1|] eqn:E; [|done]. cbn in Hr. apply not_elem_of_cons in Hd as [Hne Hd].
  pose proof (proj2 (ok_guard _ _ Hok h) (or_intror (conj eq_refl Hh))) as Hg.
  assert (calls s1 !! h = Some Blocking /\ calls s1 !! t = Some Locking /\ present s1 = present s) as (H1 & H2 & H3).
  { destruct e as [u|u|u|u| | |]; cbn [rt_step] in E.
    - destruct (calls s !! u) eqn:Eu; [done|]. injection E as <-. cbn. rewrite !lookup_insert_ne by congruence. done.
    - destruct (calls s !! u) as [[]|]; try done. by rewrite Hg in E.
    - destruct (calls s !! u) as [[]|] eqn:Eu; try done. pose proof (proj2 (ok_guard _ _ Hok u) (or_introl Eu)) as Hu. congruence.
    - destruct (calls s !! u) as [[]|] eqn:Eu; try done. pose proof (proj2 (ok_guard _ _ Hok u) (or_intror (conj eq_refl Eu))). congruence.
    - by rewrite Hg in E.
    - unfold look in E. destruct (shutdown s) as [|[|n]| |]; try done. by case_decide; injection E as <-.
    - unfold unwrap in E. destruct (shutdown s) as [|[|n]| |]; try done. by injection E as <-. }
  destruct (IH s1 (rt_step_ok _ _ _ _ Hok E) H1 H2 Hr Hd) as [-> ->]. done.
Qed.

(** A call under way beside one that waits. *)
Lemma ffi_calls_concurrent_witness :
  exists s es' s', run_rt Ffi new_rt [Begin 1; Lock 1; Enter 1; Begin 2] = Some s
    /\ Forall (fun e => forall u, e <> Done u) es' /\ (length es' <= 3)%nat /\ run_rt Ffi s es' = Some s'
    /\ (calls s' !! 2%N = Some Blocking \/ calls s' !! 2%N = Some Aborted).
Proof.
  eexists. destruct (ffi_calls_concurrent [Begin 1; Lock 1; Enter 1; Begin 2]%N _ 2%N eq_refl eq_refl) as (es' & s' & H1 & H2 & H3 & H4).
  exists es', s'. split; [reflexivity|]. exact (conj H1 (conj H2 (conj H3 H4))).
Defined.
